(* ===== verification/_CoqProject ===== *)
-Q . S2P
Prelude.v
GoStrings.v
BanList.v
Ports.v
Query.v
ClientGroups.v
Db.v
Sessions.v
Bearer.v
Users.v
TwoFA.v
WsTickets.v
ApiTokens.v
Auth.v
Enc.v
Vault.v
VaultSpec.v
