(* ===== verification/Prelude.v ===== *)
(** * ProxiPort: a verification library

    ProxiPort is a remote-management server in Go.  Agents connect out to the
    server over SSH inside a WebSocket; users reach the agents' machines through
    tunnels the server opens on local ports, and run commands on them through
    an HTTP API.  This library models the part of the server that decides who
    may do what, as executable functions, and proves what these functions
    guarantee.  Everything is a shallow embedding: a Go function is a Rocq
    function of the same name (methods are prefixed with their type where two
    types share a method name), a struct is a record, a Go [map] is a [gmap], a
    mutated receiver is the state of the monad [M] below.

    ** The parts and the code they model

    - [Prelude]: errors ([server/api/errors/api_error.go]), results, the state
      monad with errors, 64-bit wrap-around, the tactics and hint databases.
    - [GoStrings]: the functions of Go's [strings], [strconv] and [net] that the
      sources call, on byte strings, each with the lemma that specifies it.
    - [BanList] ([share/security/banlist.go]): [BanList] bans a visitor for a
      time, [MaxBadAttemptsBanList] after a number of failures.
    - [Ports] ([server/ports], [share/models/protocol.go]): [PortDistributor],
      the pools of local ports per protocol, and the parser of port ranges.
      [pd_step] is the step relation of the operations under the mutex.
    - [Query] ([share/query]): filters, sorts, fields and pagination of a list
      request, from the URL ([NewOptions]) over validation
      ([ValidateListOptions]) to SQL ([ConvertListOptionsToQuery]).
    - [ClientGroups] ([server/cgroups]): the patterns that make up a group.
    - [Db]: a SQLite database as table data plus an oracle of driver faults.
    - [Sessions] ([server/api/session]): the in-memory cache of login sessions
      over the table [api_sessions].
    - [Bearer] ([server/bearer]): JWTs bound to sessions, and their scopes.
    - [Users] ([server/api/users]): users, groups and permissions; the file
      provider with its cache, the single-user provider, the service.
    - [TwoFA] ([server/2fa_auth.go], [server/totp.go],
      [share/security/token.go]): pending second factors, delivered codes and
      authenticator apps.
    - [WsTickets] ([server/api_ws_ticket.go]): one-time WebSocket tickets.
    - [ApiTokens] ([server/api/authorization]): long-lived API tokens.
    - [Auth] ([server/api_listener.go], [api_middleware.go],
      [api_helper_authorization.go], [api_handler_login.go],
      [api_handler_logout.go], [api_handler_verify2fa.go]): the handlers that
      tie the rest together.

    - [Enc] ([share/enc]): AES-GCM under a key and the envelope for columns.
    - [Vault] ([server/vault]): passphrases, the SQLite file with transactions
      and the manager; the abstract vault [AVault] and its operations.
    - [VaultSpec]: the proof that the manager implements the abstract vault.

    ** How they interact

    An API request passes [Auth.wrapWithAuthMiddleware].  Its credentials are a
    bearer (checked by [Bearer.ValidateBearerToken], which looks the session up
    in [Sessions.Cache_Get]) or basic auth (checked against [Users] and
    [ApiTokens]); failures enter [BanList].  Login ([Auth.handleLogin]) verifies
    the password and either mints a full token or leaves a pending second
    factor in [TwoFA] and mints a token that only opens the second-factor
    routes.  [Auth.APIListener] is the record of the components' states; a
    handler runs a component's operation on its field with [zoom].

    Interfaces are type classes.  [Sessions.StorageProvider] is the interface
    between session cache and table, [Sessions.StorageSpec] what the cache
    relies on; [SqliteProvider] has an instance of both, so the cache's theorems
    hold of any such storage and are applied to SQLite in the witnesses.  In the
    same way [Sessions.InternalCacheSpec] states what is used of go-cache,
    and [Users.Provider] separates the service from the file.

    The vault stands by itself: [Vault.Manager] holds the key in memory and calls
    the provider through [on_provider], which answers like [NotInitDbProvider]
    while no file is open; the provider wraps its secret columns with [Enc].

    ** What the theorems show

    - Authentication (C1-C3, C5, C6, C21): a request is handed on only for a
      live bearer in its scope, a valid password without a second factor, or an
      unexpired API token; the password step alone is no login when a second
      factor is configured; the second step logs in only the owner of the
      pending login; lock-outs stay with the address they were earned at.
    - Sessions (C7-C9): what is saved is served until it expires, revocation is
      complete, and a restart does not change which sessions are live, but for
      the session that a request touches in the second in which it expires
      ([Sessions.late_ids], with an example of one that is lost).
    - Second factor (C4, C17, C18, C32, C33): under every interleaving of
      critical sections no time step is accepted twice; a TOTP code completes a
      login exactly when it is right and fresh; five wrong codes end a login;
      random codes are uniform.
    - Users and tokens (C10, C13, C19, C20): no request puts an entry into the
      users file that the server cannot load again (a write cut short by the
      file system can, with an example), a change is what is served, the
      permissions listed are the ones enforced, updates keep token secrets.
    - Vault (C11, C12, C25, C26): the manager refines an abstract vault under
      every fault of the driver and the random source; after a restart without
      faults the vault unlocks and every secret is read back; envelopes and key derivation descriptors round-trip and
      fail closed.
    - Resources (C14, C22, C27-C29, C31): a port is not handed out twice
      until it was seen bound, bans fall on the distinct failing credentials,
      tickets are bounded and single-use.
    - Queries and groups (C15, C16, C23, C24, C30): accepted list requests bind
      every value and put supported names only into the SQL text, page bounds are always a
      valid slice, filters round-trip, patterns mean globs.
    - Defects (C34-C40): behaviour of the code that contradicts what it says it
      does, proved of the model as it is: token reuse after session-id reuse, a
      code accepted twice by concurrent requests, a password change confirmed by
      another login's code, secrets lost after concurrent initialisations, a
      logout undone by a request in flight, a reservation forgotten across
      protocols, a deletion that ignores the owner.

    ** Conventions and bounds

    - [time] and [duration] are [Z] nanoseconds; an operation reads the clock
      once, as an argument, where the code may call [time.Now] more than once.
      64-bit arithmetic whose overflow can be reached wraps with [wrap64].
    - [M S A] is [S -> result A * S]: a failing operation keeps the state
      changes made before the failure, as Go code does.  [try] observes an
      error, [on_error] maps it, [lift] embeds a pure result.
    - Strings are byte strings.  Case mapping and white space are ASCII; the
      sources apply them to operators, patterns and names.
    - Recursion is structural; numbers are printed and parsed with the Standard
      Library's decimal conversions.  The only fuel is that of
      [TwoFA.run_thread], which runs the critical sections of one request:
      [TwoFA.run_thread_alone] shows that four steps finish it, with the result
      of the function.
      [Sessions] iterates over a map in one fixed order; Go's order is random,
      and every theorem is about sets of keys that do not depend on it.
    - Concurrency is modelled where a claim depends on it: [Ports.pd_step] and
      [TwoFA.sys_step] interleave critical sections of the code's mutexes;
      in [TwoFA] sessions are heap objects reached through pointers, since the
      code mutates them under a later lock than the one they were read under;
      [Vault.Init_check] and [Init_store] are the steps of [Init], which holds no
      lock across them.
    - A transaction ([Vault.with_tx]) keeps what its body wrote or nothing, also
      when its commit fails (go-sqlite3 then rolls back); the statements of the
      driver fail as the list of faults says.
    - The users file is a text that may be cut short: [Users.file_outcome] says
      whether an access opens the file and whether a write is interrupted.
    - In [Auth] the dereference of a nil user in the second step is a panic: the
      handler fails and nothing after it runs.
    - [TwoFA.SendToken] runs its two critical sections as one step, and
      [Auth.handleLogin] leaves out [shredConsumedInstallerCreds], which deletes
      an installer's file and touches none of the modelled state.

    ** Parameters

    Third-party code is a type class or an argument, and its documented behaviour a
    class of laws or a named hypothesis, each with a concrete instance in
    the witnesses: go-cache ([InternalCacheProvider]), the JWT library
    ([Bearer.JWT]), bcrypt ([Users.Bcrypt]), the OTP library ([TwoFA.OtpLib]),
    SQLite's [DATETIME] ([Db.SqlDatetime]), AES-GCM and the key derivation
    functions ([Enc.AesGcm], [Enc.KDFs]), zxcvbn and the receiver check
    (fields of [Users.APIService]), gopsutil's connection list and the choice of
    a set's [Pop] (arguments in [Ports]), JSON decoding, random bytes and the
    delivery of codes (arguments; [Auth.Env] for the handlers).

    ** What is not modelled

    Outside the model are I/O and glue (HTTP routing, WebSockets, SSH transport,
    TLS, configuration files, migrations, the browser front end) and the clients
    and their tunnels, jobs and schedules, monitoring, notifications, the audit
    log, the user database and the agent. *)

From stdpp Require Import base gmap strings list numbers.
From Stdlib Require Import ZArith Ascii Lia.

(** ** Errors

    Go functions of the repository return [(value, error)].  An error is
    either a plain error, an [APIError] (server/api/errors/api_error.go) that
    carries the HTTP status the API answers with, or the list [APIErrors] a
    validator accumulates. *)

Record APIError := mkAPIError {
  Message : string;
  ErrDetail : option string;
  HTTPStatus : Z;
  ErrCode : string
}.

Definition api_error (status : Z) (msg : string) : APIError :=
  mkAPIError msg None status "".

(** [NewAPIError] of api_error.go. *)
Definition NewAPIError (statusCode : Z) (errCode message : string)
    (err : option string) : APIError :=
  mkAPIError message err statusCode errCode.

(** [APIError.Error] of api_error.go: the wrapped error wins over the message. *)
Definition APIError_Error (ae : APIError) : string :=
  match ErrDetail ae with
  | Some e => e
  | None => Message ae
  end.

Inductive go_error :=
  | EPlain (msg : string)
  | EAPI (e : APIError)
  | EAPIs (es : list APIError).

Inductive result (A : Type) :=
  | Ok (a : A)
  | Err (e : go_error).
Arguments Ok {A} a.
Arguments Err {A} e.

Definition result_bind {A B} (r : result A) (k : A -> result B) : result B :=
  match r with
  | Ok a => k a
  | Err e => Err e
  end.

Definition is_ok {A} (r : result A) : bool :=
  match r with Ok _ => true | Err _ => false end.

(** HTTP status codes of net/http the sources use. *)
Definition StatusOK : Z := 200.
Definition StatusBadRequest : Z := 400.
Definition StatusUnauthorized : Z := 401.
Definition StatusForbidden : Z := 403.
Definition StatusNotFound : Z := 404.
Definition StatusConflict : Z := 409.
Definition StatusTooManyRequests : Z := 429.
Definition StatusInternalServerError : Z := 500.
Definition StatusServiceUnavailable : Z := 503.

Declare Scope go_scope.
Delimit Scope go_scope with go.
Notation "'let!' x ':=' r 'in' k" := (result_bind r (fun x => k))
  (at level 10, x pattern, r at level 100, k at level 200) : go_scope.
Open Scope go_scope.

(** A computation that threads a state and may fail.  As in Go, the state
    changes made before an early [return err] stay. *)
Definition M (S A : Type) : Type := S -> result A * S.

Definition ret {S A} (a : A) : M S A := fun s => (Ok a, s).
Definition fail {S A} (e : go_error) : M S A := fun s => (Err e, s).
Definition bind {S A B} (m : M S A) (k : A -> M S B) : M S B :=
  fun s => match m s with
           | (Ok a, s') => k a s'
           | (Err e, s') => (Err e, s')
           end.
Definition get {S} : M S S := fun s => (Ok s, s).
Definition put {S} (s : S) : M S unit := fun _ => (Ok tt, s).
Definition lift {S A} (r : result A) : M S A := fun s => (r, s).
Definition gets {S A} (f : S -> A) : M S A := fun s => (Ok (f s), s).
Definition modify {S} (f : S -> S) : M S unit := fun s => (Ok tt, f s).

(** Runs a computation on a component of the state. *)
Definition zoom {S T A} (proj : S -> T) (upd : T -> S -> S) (m : M T A) : M S A :=
  fun s => let '(r, t) := m (proj s) in (r, upd t s).

(** What a caller makes of an error: [if err != nil { return wrap(err) }]. *)
Definition on_error {S A} (wrap : go_error -> go_error) (m : M S A) : M S A :=
  fun s => match m s with
           | (Err e, s') => (Err (wrap e), s')
           | p => p
           end.

(** [v, err := m(); if err != nil { ... }] where the caller looks at [err]. *)
Definition try {S A} (m : M S A) : M S (result A) :=
  fun s => let '(r, s') := m s in (Ok r, s').

Definition when {S} (b : bool) (m : M S unit) : M S unit :=
  if b then m else ret tt.

(** [for _, a := range l { if err := f(a); err != nil { return err } }]. *)
Fixpoint for_each {S A} (f : A -> M S unit) (l : list A) : M S unit :=
  match l with
  | [] => ret tt
  | a :: l' => bind (f a) (fun _ => for_each f l')
  end.

Notation "x '<-' m ';;' k" := (bind m (fun x => k))
  (at level 100, m at next level, right associativity) : go_scope.
Notation "m ';;;' k" := (bind m (fun _ => k))
  (at level 100, right associativity) : go_scope.

(** ** Machine integers and time

    A Go [int] is a 64-bit two's complement integer on the platforms the
    server is built for; a value is the [Z] it denotes and [wrap64] is the
    wrap-around of its arithmetic.  Instants and durations are nanoseconds. *)

Definition int64_min : Z := (- 2 ^ 63)%Z.
Definition int64_max : Z := (2 ^ 63 - 1)%Z.
Definition wrap64 (z : Z) : Z := ((z + 2 ^ 63) mod 2 ^ 64 - 2 ^ 63)%Z.

Abbreviation time := Z (only parsing).
Abbreviation duration := Z (only parsing).
Definition Nanosecond : Z := 1.
Definition Second : Z := 1000000000.
Definition Minute : Z := (60 * Second)%Z.
Definition Hour : Z := (60 * Minute)%Z.

(** ** Generic lemmas *)

Lemma wrap64_small (z : Z) :
  (int64_min <= z <= int64_max)%Z -> wrap64 z = z.
Proof.
  unfold wrap64, int64_min, int64_max; intros H.
  rewrite Z.mod_small; lia.
Qed.

Lemma wrap64_range (z : Z) : (int64_min <= wrap64 z <= int64_max)%Z.
Proof.
  unfold wrap64, int64_min, int64_max.
  pose proof (Z.mod_pos_bound (z + 2 ^ 63) (2 ^ 64) ltac:(lia)); lia.
Qed.

(** Inversion of the monad's steps. *)
Lemma bind_Ok_inv {S A B} (m : M S A) (k : A -> M S B) s b s' :
  bind m k s = (Ok b, s') -> exists a s1, m s = (Ok a, s1) /\ k a s1 = (Ok b, s').
Proof. unfold bind. destruct (m s) as [[a|e] s1]; [eauto|done]. Qed.

Lemma bind_inv {S A B} (m : M S A) (k : A -> M S B) s r s' :
  bind m k s = (r, s') ->
  (exists a s1, m s = (Ok a, s1) /\ k a s1 = (r, s')) \/
  (exists e, m s = (Err e, s') /\ r = Err e).
Proof.
  unfold bind. destruct (m s) as [[a|e] s1]; [eauto|].
  intros [= <- <-]. eauto.
Qed.

Lemma zoom_inv {S T A} (proj : S -> T) upd (m : M T A) s r s' :
  zoom proj upd m s = (r, s') -> exists t, m (proj s) = (r, t) /\ s' = upd t s.
Proof. unfold zoom. destruct (m (proj s)) as [r0 t]. intros [= <- <-]. eauto. Qed.

Lemma try_inv {S A} (m : M S A) s r s' :
  try m s = (r, s') -> exists a, r = Ok a /\ m s = (a, s').
Proof. unfold try. destruct (m s) as [a s1]. intros [= <- <-]. eauto. Qed.

Lemma on_error_Ok {S A} wrap (m : M S A) s a s' :
  on_error wrap m s = (Ok a, s') -> m s = (Ok a, s').
Proof. unfold on_error. destruct (m s) as [[]]; congruence. Qed.

Lemma union_singleton_absorb `{Countable K} (x : K) (X : gset K) :
  x ∈ X -> {[x]} ∪ X = X.
Proof. intros. apply subseteq_union_1_L. by apply singleton_subseteq_l. Qed.

Lemma size_union_singleton `{Countable K} (x : K) (X : gset K) :
  x ∉ X -> size ({[x]} ∪ X) = S (size X).
Proof.
  intros. rewrite size_union; [by rewrite size_singleton|].
  by apply disjoint_singleton_l.
Qed.

(** ** Automation *)

Create HintDb proxi.
Create Rewrite HintDb proxi_rw.

(** Split every [if]/[match] on a boolean or an option in sight. *)
Ltac case_go :=
  repeat match goal with
    | H : context [match ?x with _ => _ end] |- _ =>
        destruct x eqn:?; simplify_eq/=
    | |- context [match ?x with _ => _ end] =>
        destruct x eqn:?; simplify_eq/=
    end.

(** Turn boolean comparisons in the context into propositions. *)
Ltac bool_prop :=
  repeat match goal with
    | H : _ && _ = true |- _ => apply andb_true_iff in H; destruct H
    | H : _ || _ = false |- _ => apply orb_false_iff in H; destruct H
    | H : negb _ = true |- _ => apply negb_true_iff in H
    | H : negb _ = false |- _ => apply negb_false_iff in H
    | H : (_ =? _)%Z = true |- _ => apply Z.eqb_eq in H
    | H : (_ =? _)%Z = false |- _ => apply Z.eqb_neq in H
    | H : (_ <? _)%Z = true |- _ => apply Z.ltb_lt in H
    | H : (_ <? _)%Z = false |- _ => apply Z.ltb_ge in H
    | H : (_ <=? _)%Z = true |- _ => apply Z.leb_le in H
    | H : (_ <=? _)%Z = false |- _ => apply Z.leb_gt in H
    | H : (_ =? _)%string = true |- _ => apply String.eqb_eq in H
    | H : (_ =? _)%string = false |- _ => apply String.eqb_neq in H
    end.
