(* ===== verification/GoStrings.v ===== *)
(** * Go strings

    The functions of Go's [strings], [strconv] and [net] packages the sources
    call, on byte strings ([string] is a list of bytes).  Case mapping and
    white space are those of the ASCII range; bytes above 127 are left alone.
    Each function comes with the lemma that specifies it. *)

From stdpp Require Import base gmap strings list numbers.
From Stdlib Require Import ZArith Ascii Lia.
From Stdlib Require Import DecimalString DecimalN DecimalFacts.
From S2P Require Import Prelude.

Local Open Scope string_scope.

#[global] Arguments String.append !s1 s2 : simpl nomatch.

(** ** Definitions *)

(** The rest of [s] after the prefix [p], as strings.CutPrefix. *)
Fixpoint strip_prefix (p s : string) : option string :=
  match p with
  | "" => Some s
  | String a p' =>
      match s with
      | "" => None
      | String b s' => if Ascii.eqb a b then strip_prefix p' s' else None
      end
  end.

Definition HasPrefix (s p : string) : bool :=
  match strip_prefix p s with Some _ => true | None => false end.

Fixpoint HasSuffix (s p : string) : bool :=
  (s =? p) || match s with "" => false | String _ s' => HasSuffix s' p end.

(** Around the first occurrence of [sep] in [s], as strings.Cut; the position
    strings.Index reports is the length of the first component. *)
Fixpoint Cut (s sep : string) : option (string * string) :=
  match strip_prefix sep s with
  | Some r => Some ("", r)
  | None =>
      match s with
      | "" => None
      | String c s' =>
          match Cut s' sep with
          | Some (b, r) => Some (String c b, r)
          | None => None
          end
      end
  end.

Definition Contains (s sub : string) : bool :=
  match Cut s sub with Some _ => true | None => false end.

(** strings.Split on a one-byte separator: never the empty list. *)
Fixpoint Split (s : string) (c : ascii) : list string :=
  match s with
  | "" => [""]
  | String a s' =>
      if Ascii.eqb a c then "" :: Split s' c
      else match Split s' c with
           | h :: t => String a h :: t
           | [] => [String a ""]
           end
  end.

Fixpoint Join (l : list string) (sep : string) : string :=
  match l with
  | [] => ""
  | [x] => x
  | x :: t => x +:+ sep +:+ Join t sep
  end.

Definition is_upper (c : ascii) : bool :=
  ((65 <=? N_of_ascii c) && (N_of_ascii c <=? 90))%N.
Definition is_lower (c : ascii) : bool :=
  ((97 <=? N_of_ascii c) && (N_of_ascii c <=? 122))%N.
Definition is_digit (c : ascii) : bool :=
  ((48 <=? N_of_ascii c) && (N_of_ascii c <=? 57))%N.
(** unicode.IsSpace on ASCII: tab, newline, vertical tab, form feed, carriage
    return and blank. *)
Definition is_space (c : ascii) : bool :=
  ((9 <=? N_of_ascii c) && (N_of_ascii c <=? 13))%N || (N_of_ascii c =? 32)%N.
(** [\w] of Go's regexp syntax. *)
Definition is_word (c : ascii) : bool :=
  is_upper c || is_lower c || is_digit c || (N_of_ascii c =? 95)%N.

Definition lower_byte (c : ascii) : ascii :=
  if is_upper c then ascii_of_N (N_of_ascii c + 32) else c.
Definition upper_byte (c : ascii) : ascii :=
  if is_lower c then ascii_of_N (N_of_ascii c - 32) else c.

Fixpoint string_map (f : ascii -> ascii) (s : string) : string :=
  match s with
  | "" => ""
  | String c s' => String (f c) (string_map f s')
  end.

Definition ToLower : string -> string := string_map lower_byte.
Definition ToUpper : string -> string := string_map upper_byte.
Definition EqualFold (s t : string) : bool := ToLower s =? ToLower t.

Fixpoint string_forallb (f : ascii -> bool) (s : string) : bool :=
  match s with
  | "" => true
  | String c s' => f c && string_forallb f s'
  end.

Fixpoint TrimLeftFunc (f : ascii -> bool) (s : string) : string :=
  match s with
  | "" => ""
  | String c s' => if f c then TrimLeftFunc f s' else s
  end.

Fixpoint TrimRightFunc (f : ascii -> bool) (s : string) : string :=
  match s with
  | "" => ""
  | String c s' =>
      let t := TrimRightFunc f s' in
      if f c && (t =? "") then "" else String c t
  end.

Definition TrimSpace (s : string) : string :=
  TrimRightFunc is_space (TrimLeftFunc is_space s).

(** strings.ReplaceAll of a one-byte pattern. *)
Fixpoint ReplaceAll (s : string) (c : ascii) (new : string) : string :=
  match s with
  | "" => ""
  | String a s' =>
      if Ascii.eqb a c then new +:+ ReplaceAll s' c new
      else String a (ReplaceAll s' c new)
  end.

(** The longest prefix of bytes that satisfy [f], and the rest. *)
Fixpoint span (f : ascii -> bool) (s : string) : string * string :=
  match s with
  | "" => ("", "")
  | String c s' =>
      if f c then let '(a, b) := span f s' in (String c a, b) else ("", s)
  end.

Fixpoint count_byte (c : ascii) (s : string) : nat :=
  match s with
  | "" => 0
  | String a s' => (if Ascii.eqb a c then 1 else 0) + count_byte c s'
  end.

(** Decimal digits to a natural number; [None] on the empty string and on any
    other byte. *)
Definition parse_digits (s : string) : option N :=
  match NilZero.uint_of_string s with
  | Some d => Some (N.of_uint d)
  | None => None
  end.

(** strconv.Atoi: an optional sign, then decimal digits, within int64. *)
Definition Atoi (s : string) : option Z :=
  let go (neg : bool) (ds : string) :=
    match parse_digits ds with
    | Some n =>
        let z := if neg then (- Z.of_N n)%Z else Z.of_N n in
        if ((int64_min <=? z) && (z <=? int64_max))%Z then Some z else None
    | None => None
    end in
  match s with
  | String a r =>
      if Ascii.eqb a "-" then go true r
      else if Ascii.eqb a "+" then go false r
      else go false s
  | "" => None
  end.

(** The value strconv.Atoi returns next to its error: 0 on a syntax error, the
    nearest int64 when out of range. *)
Definition Atoi_value (s : string) : Z :=
  let clamp (z : Z) := Z.max int64_min (Z.min int64_max z) in
  let go (neg : bool) (ds : string) :=
    match parse_digits ds with
    | Some n => clamp (if neg then (- Z.of_N n)%Z else Z.of_N n)
    | None => 0%Z
    end in
  match s with
  | String a r =>
      if Ascii.eqb a "-" then go true r
      else if Ascii.eqb a "+" then go false r
      else go false s
  | "" => 0%Z
  end.

(** strconv.ParseUint(s, 10, 32). *)
Definition ParseUint32 (s : string) : option Z :=
  match parse_digits s with
  | Some n => if (Z.of_N n <? 2 ^ 32)%Z then Some (Z.of_N n) else None
  | None => None
  end.

(** fmt's %d and strconv.Itoa. *)
Definition FormatUint (n : N) : string := NilZero.string_of_uint (N.to_uint n).
Definition Itoa (z : Z) : string :=
  if (z <? 0)%Z then "-" +:+ FormatUint (Z.to_N (- z)) else FormatUint (Z.to_N z).

(** fmt's %q of a string without bytes that need escaping. *)
Definition quoted (s : string) : string :=
  String (ascii_of_nat 34) s +:+ String (ascii_of_nat 34) "".

(** [Error()] of an error, as %v prints it. *)
Definition error_text (e : go_error) : string :=
  match e with
  | EPlain msg => msg
  | EAPI ae => APIError_Error ae
  | EAPIs es => Join (APIError_Error <$> es) ", "
  end.

(** The text of the [*NumError] that [strconv.Atoi] and [strconv.ParseInt]
    return; [fn] is the function's name. *)
Definition num_error (fn s : string) : string :=
  let digits :=
    match s with
    | String a r => if Ascii.eqb a "-" || Ascii.eqb a "+" then r else s
    | "" => s
    end in
  "strconv." +:+ fn +:+ ": parsing " +:+ quoted s +:+
  match parse_digits digits with
  | Some _ => ": value out of range"
  | None => ": invalid syntax"
  end.

Definition Atoi_error : string -> string := num_error "Atoi".
Definition ParseInt_error : string -> string := num_error "ParseInt".

(** ** Lemmas *)

Lemma sapp_assoc (a b c : string) : (a +:+ b) +:+ c = a +:+ b +:+ c.
Proof. induction a as [|x a IH]; simpl; [done|by rewrite IH]. Qed.

Lemma sapp_nil_r (a : string) : a +:+ "" = a.
Proof. induction a as [|x a IH]; simpl; [done|by rewrite IH]. Qed.

Lemma slength_app (a b : string) :
  String.length (a +:+ b) = String.length a + String.length b.
Proof. induction a as [|x a IH]; simpl; [done|by rewrite IH]. Qed.

Lemma sapp_inj_l (a b c : string) : a +:+ b = a +:+ c -> b = c.
Proof. induction a as [|x a IH]; simpl; intros H; [done|]. simplify_eq. auto. Qed.

Lemma count_byte_app c (a b : string) :
  count_byte c (a +:+ b) = count_byte c a + count_byte c b.
Proof. induction a as [|x a IH]; simpl; [done|]. rewrite IH. lia. Qed.

Lemma strip_prefix_Some p s r : strip_prefix p s = Some r <-> s = p +:+ r.
Proof.
  revert s; induction p as [|a p IH]; intros s; simpl.
  - split; congruence.
  - destruct s as [|b s]; [split; discriminate|].
    destruct (Ascii.eqb_spec a b) as [->|Hne].
    + rewrite IH. split; congruence.
    + split; congruence.
Qed.

Lemma strip_prefix_app p r : strip_prefix p (p +:+ r) = Some r.
Proof. by apply strip_prefix_Some. Qed.

Lemma HasPrefix_spec s p : HasPrefix s p = true <-> exists r, s = p +:+ r.
Proof.
  unfold HasPrefix. destruct (strip_prefix p s) as [r|] eqn:E.
  - apply strip_prefix_Some in E. naive_solver.
  - split; [done|]. intros [r Hr]. apply strip_prefix_Some in Hr. congruence.
Qed.

Lemma HasSuffix_spec s p : HasSuffix s p = true <-> exists a, s = a +:+ p.
Proof.
  induction s as [|c s IH]; cbn [HasSuffix].
  - rewrite orb_false_r, String.eqb_eq. split.
    + intros <-. by exists "".
    + intros [[|x a] Ha]; simpl in Ha; congruence.
  - rewrite orb_true_iff, String.eqb_eq, IH. split.
    + intros [<-|[a ->]]; [by exists ""|by exists (String c a)].
    + intros [[|x a] Ha]; simpl in Ha; [by left|]. right. exists a. congruence.
Qed.

Lemma Cut_Some s sep b r :
  Cut s sep = Some (b, r) ->
  s = b +:+ sep +:+ r /\
  forall b' r', s = b' +:+ sep +:+ r' -> String.length b <= String.length b'.
Proof.
  revert b; induction s as [|c s IH]; intros b; cbn [Cut];
    destruct (strip_prefix sep _) as [r'|] eqn:E; intros H.
  - simplify_eq. apply strip_prefix_Some in E. simpl. split; [done|lia].
  - done.
  - simplify_eq. apply strip_prefix_Some in E. simpl. split; [done|lia].
  - destruct (Cut s sep) as [[b0 r0]|] eqn:E'; simplify_eq.
    destruct (IH _ eq_refl) as [-> Hmin]. split; [done|].
    intros [|x b'] r'' Heq; simpl in Heq.
    + apply strip_prefix_Some in Heq. congruence.
    + simpl. simplify_eq. apply le_n_S. by eapply Hmin.
Qed.

Lemma Cut_None s sep b r : Cut s sep = None -> s <> b +:+ sep +:+ r.
Proof.
  revert b; induction s as [|c s IH]; intros b; cbn [Cut];
    destruct (strip_prefix sep _) as [r'|] eqn:E; intros H; try done.
  - intros Heq. destruct b as [|x b]; simpl in Heq; [|done].
    apply strip_prefix_Some in Heq. congruence.
  - destruct (Cut s sep) as [[b0 r0]|] eqn:E'; [done|].
    intros Heq. destruct b as [|x b]; simpl in Heq.
    + apply strip_prefix_Some in Heq. congruence.
    + simplify_eq. by apply (IH b).
Qed.

Lemma Cut_is_Some s sep b r : s = b +:+ sep +:+ r -> is_Some (Cut s sep).
Proof.
  intros H. destruct (Cut s sep) eqn:E; [eauto|]. by apply (Cut_None _ _ b r) in E.
Qed.

Lemma Split_not_nil s c : Split s c <> [].
Proof. destruct s as [|a s]; simpl; [done|]. case_match; [done|]. by case_match. Qed.

Lemma Join_cons x y l sep : Join (x :: y :: l) sep = x +:+ sep +:+ Join (y :: l) sep.
Proof. done. Qed.

Lemma Join_Split s c : Join (Split s c) (String c "") = s.
Proof.
  induction s as [|a s IH]; [done|]. cbn [Split].
  destruct (Split s c) as [|h t] eqn:E; [by apply Split_not_nil in E|].
  destruct (Ascii.eqb_spec a c) as [->|Hne].
  - rewrite Join_cons. simpl. simpl in IH. by rewrite IH.
  - destruct t as [|h' t]; simpl in *; by rewrite IH.
Qed.

Lemma Split_no_sep s c : count_byte c s = 0 -> Split s c = [s].
Proof.
  induction s as [|a s IH]; simpl; [done|]. destruct (Ascii.eqb a c); intros H; [lia|].
  rewrite IH by lia. done.
Qed.

Lemma Split_app_sep a s c :
  count_byte c a = 0 -> Split (a +:+ String c s) c = a :: Split s c.
Proof.
  induction a as [|x a IH]; simpl; intros H.
  - by rewrite Ascii.eqb_refl.
  - destruct (Ascii.eqb x c); [lia|]. rewrite IH by lia. done.
Qed.

Lemma Split_elem_no_sep s c x : x ∈ Split s c -> count_byte c x = 0.
Proof.
  revert x; induction s as [|a s IH]; intros x; simpl.
  - intros ->%list_elem_of_singleton. done.
  - destruct (Ascii.eqb a c) eqn:E.
    + intros [->|H]%elem_of_cons; [done|auto].
    + destruct (Split s c) as [|h t] eqn:Es; [by apply Split_not_nil in Es|].
      intros [->|H]%elem_of_cons.
      * simpl. rewrite E. simpl. apply IH. left.
      * apply IH. by right.
Qed.

Lemma parse_FormatUint (n : N) : parse_digits (FormatUint n) = Some n.
Proof.
  unfold parse_digits, FormatUint. rewrite NilZero.usu.
  - by rewrite DecimalN.Unsigned.of_to.
  - intros H. pose proof (f_equal N.of_uint H) as H'.
    rewrite DecimalN.Unsigned.of_to in H'. simpl in H'. by subst n.
Qed.

Lemma FormatUint_hd n : exists c s, FormatUint n = String c s /\ is_digit c = true.
Proof.
  unfold FormatUint, NilZero.string_of_uint.
  destruct (N.to_uint n); simpl; eauto.
Qed.

Lemma Atoi_Itoa (z : Z) :
  (int64_min <= z <= int64_max)%Z -> Atoi (Itoa z) = Some z.
Proof.
  intros Hz. unfold Itoa. destruct (Z.ltb_spec z 0) as [Hlt|Hge].
  - simpl. rewrite parse_FormatUint. rewrite Z2N.id by lia.
    replace (- - z)%Z with z by lia.
    rewrite (proj2 (Z.leb_le _ _)), (proj2 (Z.leb_le _ _)) by lia. done.
  - destruct (FormatUint_hd (Z.to_N z)) as (c & s & Hs & Hc).
    unfold Atoi. rewrite Hs.
    destruct (Ascii.eqb_spec c "-") as [->|_]; [done|].
    destruct (Ascii.eqb_spec c "+") as [->|_]; [done|].
    rewrite <-Hs, parse_FormatUint, Z2N.id by lia.
    rewrite (proj2 (Z.leb_le _ _)), (proj2 (Z.leb_le _ _)) by lia. done.
Qed.

Lemma Atoi_range s z : Atoi s = Some z -> (int64_min <= z <= int64_max)%Z.
Proof.
  unfold Atoi. intros H.
  case_go; bool_prop; lia.
Qed.

Lemma Atoi_Some_value s z : Atoi s = Some z -> Atoi_value s = z.
Proof.
  unfold Atoi, Atoi_value. intros H. case_go; bool_prop; lia.
Qed.

Lemma Atoi_value_range s : (int64_min <= Atoi_value s <= int64_max)%Z.
Proof. unfold Atoi_value. repeat case_match; unfold int64_min, int64_max; lia. Qed.

Lemma FormatUint_inj n m : FormatUint n = FormatUint m -> n = m.
Proof.
  intros H. apply (f_equal parse_digits) in H. rewrite !parse_FormatUint in H. congruence.
Qed.

#[export] Instance Itoa_inj : Inj (=) (=) Itoa.
Proof.
  intros x y. unfold Itoa.
  destruct (FormatUint_hd (Z.to_N x)) as (cx & sx & Hx & Dx).
  destruct (FormatUint_hd (Z.to_N y)) as (cy & sy & Hy & Dy).
  destruct (Z.ltb_spec x 0), (Z.ltb_spec y 0); intros H1.
  - simpl in H1. injection H1 as H1. apply FormatUint_inj in H1. lia.
  - rewrite Hy in H1. simpl in H1. simplify_eq.
  - rewrite Hx in H1. simpl in H1. simplify_eq.
  - apply FormatUint_inj in H1. lia.
Qed.

#[export] Hint Rewrite sapp_assoc sapp_nil_r strip_prefix_app : proxi_rw.

(** ** Bytes and white space *)

Lemma string_forallb_app f a b :
  string_forallb f (a +:+ b) = string_forallb f a && string_forallb f b.
Proof. induction a as [|c a IH]; simpl; [done|]. by rewrite IH, andb_assoc. Qed.

Lemma string_forallb_impl (f g : ascii -> bool) s :
  (forall c, f c = true -> g c = true) -> string_forallb f s = true -> string_forallb g s = true.
Proof.
  intros Hfg. induction s as [|c s IH]; simpl; [done|].
  intros [H1 H2]%andb_true_iff. by rewrite Hfg, IH.
Qed.

Lemma TrimRight_id f s :
  string_forallb (fun c => negb (f c)) s = true -> TrimRightFunc f s = s.
Proof.
  induction s as [|c s IH]; simpl; [done|]. intros [Hc Hs]%andb_true_iff.
  rewrite IH by done. by destruct (f c).
Qed.

Lemma TrimSpace_no_space s :
  string_forallb (fun c => negb (is_space c)) s = true -> TrimSpace s = s.
Proof.
  intros H. unfold TrimSpace.
  assert (TrimLeftFunc is_space s = s) as ->.
  { destruct s as [|c s]; simpl in *; [done|]. by destruct (is_space c). }
  by apply TrimRight_id.
Qed.

Lemma TrimRightFunc_idem f s : TrimRightFunc f (TrimRightFunc f s) = TrimRightFunc f s.
Proof.
  induction s as [|c s IH]; [done|]. simpl.
  destruct (f c && (TrimRightFunc f s =? "")) eqn:E; [done|]. simpl. by rewrite IH, E.
Qed.

Lemma TrimLeftFunc_hd f s : TrimLeftFunc f s = "" \/
  exists c r, TrimLeftFunc f s = String c r /\ f c = false.
Proof.
  induction s as [|c s IH]; [by left|]. simpl. destruct (f c) eqn:E; [done|]. right. eauto.
Qed.

Lemma TrimSpace_idem s : TrimSpace (TrimSpace s) = TrimSpace s.
Proof.
  unfold TrimSpace. destruct (TrimLeftFunc_hd is_space s) as [->|(c & r & -> & Hc)]; [done|].
  simpl TrimRightFunc at 2 3. rewrite Hc. simpl. rewrite Hc. simpl.
  by rewrite Hc, TrimRightFunc_idem.
Qed.

Lemma FormatUint_digits n : string_forallb is_digit (FormatUint n) = true.
Proof.
  unfold FormatUint, NilZero.string_of_uint.
  assert (Hd : forall d, string_forallb is_digit (NilEmpty.string_of_uint d) = true).
  { induction d; cbn; done. }
  destruct (N.to_uint n); [done|..]; apply (Hd (_ _)).
Qed.

(** Text over a class of bytes has none of the bytes outside it. *)
Lemma count_byte_absent (f : ascii -> bool) c s :
  string_forallb f s = true -> f c = false -> count_byte c s = 0.
Proof.
  intros Hs Hc. induction s as [|a s IH]; cbn in *; [done|].
  apply andb_true_iff in Hs as [Ha Hs]. rewrite IH by done.
  destruct (Ascii.eqb_spec a c) as [->|]; [congruence|done].
Qed.

Lemma Itoa_nonneg z : (0 <= z)%Z -> Itoa z = FormatUint (Z.to_N z).
Proof. intros Hz. unfold Itoa. by destruct (Z.ltb_spec z 0); [lia|]. Qed.

Lemma ParseUint32_Itoa z : (0 <= z < 2 ^ 32)%Z -> ParseUint32 (Itoa z) = Some z.
Proof.
  intros Hz. rewrite Itoa_nonneg by lia. unfold ParseUint32. rewrite parse_FormatUint, Z2N.id by lia.
  by destruct (Z.ltb_spec z (2 ^ 32)); [|lia].
Qed.

Lemma ParseUint32_range s z : ParseUint32 s = Some z -> (0 <= z < 2 ^ 32)%Z.
Proof.
  unfold ParseUint32. destruct (parse_digits s) as [n|]; [|done].
  destruct (Z.ltb_spec (Z.of_N n) (2 ^ 32)); [|done]. intros [= <-]. lia.
Qed.
