(* ===== verification/BanList.v ===== *)
(** * Ban lists (share/security/banlist.go)

    [BanList] bans a visitor for a fixed time; [MaxBadAttemptsBanList] bans a
    visitor after a number of failed attempts and counts, for agents, distinct
    failing credentials only.  A Go pointer map is a [gmap]; each entry has
    one owner, so an update is an insert.  The clock is an argument. *)

From stdpp Require Import base gmap strings list numbers sets.
From Stdlib Require Import ZArith Lia.
From S2P Require Import Prelude.

Local Open Scope Z_scope.

(** ** BanList *)

Record BanList := mkBanList {
  bl_banDuration : duration;
  bl_visitors : gmap string time
}.

Definition NewBanList (banDuration : duration) : BanList :=
  mkBanList banDuration ∅.

Definition BanList_Add (now : time) (visitorKey : string) (l : BanList) : BanList :=
  mkBanList (bl_banDuration l)
    (<[visitorKey := now + bl_banDuration l]> (bl_visitors l)).

Definition BanList_IsBanned (now : time) (visitorKey : string) (l : BanList) : bool :=
  match bl_visitors l !! visitorKey with
  | Some banExpiry => now <? banExpiry
  | None => false
  end.

(** ** MaxBadAttemptsBanList *)

(** [seenFailures = None] is the nil map. *)
Record visitor := mkVisitor {
  badAttempts : Z;
  banTime : option time;
  seenFailures : option (gset string)
}.

Record MaxBadAttemptsBanList := mkMaxBadAttemptsBanList {
  banDuration : duration;
  maxBadAttempts : Z;
  visitors : gmap string visitor
}.

Definition NewMaxBadAttemptsBanList (maxBad : Z) (banDur : duration)
  : MaxBadAttemptsBanList := mkMaxBadAttemptsBanList banDur maxBad ∅.

Definition zero_visitor : visitor := mkVisitor 0 None None.

Definition find_visitor (k : string) (l : MaxBadAttemptsBanList) : visitor :=
  default zero_visitor (visitors l !! k).

Definition set_visitor (k : string) (v : visitor) (l : MaxBadAttemptsBanList)
  : MaxBadAttemptsBanList :=
  mkMaxBadAttemptsBanList (banDuration l) (maxBadAttempts l) (<[k := v]> (visitors l)).

Definition AddBadAttempt (now : time) (visitorKey : string)
    (l : MaxBadAttemptsBanList) : MaxBadAttemptsBanList :=
  let v := find_visitor visitorKey l in
  let bad := wrap64 (badAttempts v + 1) in
  let v' :=
    if bad =? maxBadAttempts l
    then mkVisitor 0 (Some (now + banDuration l)) (seenFailures v)
    else mkVisitor bad (banTime v) (seenFailures v) in
  set_visitor visitorKey v' l.

Definition AddDistinctBadAttempt (now : time) (visitorKey dedupKey : string)
    (l : MaxBadAttemptsBanList) : MaxBadAttemptsBanList :=
  let v := find_visitor visitorKey l in
  let seen := default ∅ (seenFailures v) in
  if bool_decide (dedupKey ∈ seen) then
    set_visitor visitorKey (mkVisitor (badAttempts v) (banTime v) (Some seen)) l
  else
    let seen' := {[dedupKey]} ∪ seen in
    let bad := wrap64 (badAttempts v + 1) in
    let v' :=
      if bad =? maxBadAttempts l
      then mkVisitor 0 (Some (now + banDuration l)) None
      else mkVisitor bad (banTime v) (Some seen') in
    set_visitor visitorKey v' l.

Definition AddSuccessAttempt (visitorKey : string) (l : MaxBadAttemptsBanList)
  : MaxBadAttemptsBanList :=
  match visitors l !! visitorKey with
  | Some _ => set_visitor visitorKey zero_visitor l
  | None => l
  end.

Definition IsBanned (now : time) (visitorKey : string)
    (l : MaxBadAttemptsBanList) : bool :=
  match visitors l !! visitorKey with
  | Some v => match banTime v with Some t => now <? t | None => false end
  | None => false
  end.

(** ** Runs of operations *)

Inductive attempt :=
  | BadAttempt (k : string)
  | DistinctBadAttempt (k dedup : string)
  | SuccessAttempt (k : string).

Definition attempt_key (a : attempt) : string :=
  match a with
  | BadAttempt k | DistinctBadAttempt k _ | SuccessAttempt k => k
  end.

Definition do_attempt (l : MaxBadAttemptsBanList) (ta : time * attempt)
  : MaxBadAttemptsBanList :=
  match ta.2 with
  | BadAttempt k => AddBadAttempt ta.1 k l
  | DistinctBadAttempt k d => AddDistinctBadAttempt ta.1 k d l
  | SuccessAttempt k => AddSuccessAttempt k l
  end.

Definition run (tas : list (time * attempt)) (l : MaxBadAttemptsBanList)
  : MaxBadAttemptsBanList := foldl do_attempt l tas.

(** The dedup keys visitor [k] presented in a run of distinct-credential
    failures. *)
Definition creds_of (k : string) (tas : list (time * attempt)) : gset string :=
  list_to_set (omap (fun ta => match ta.2 with
    | DistinctBadAttempt k' d => if bool_decide (k' = k) then Some d else None
    | _ => None end) tas).

(** Visitor [k] only ever failed, with a credential fingerprint. *)
Definition only_distinct_failures (k : string) (tas : list (time * attempt)) : Prop :=
  Forall (fun ta => attempt_key ta.2 = k ->
                    exists d, ta.2 = DistinctBadAttempt k d) tas.

(** ** Lemmas *)

Lemma find_visitor_set k v l : find_visitor k (set_visitor k v l) = v.
Proof. unfold find_visitor, set_visitor; simpl. by rewrite lookup_insert_eq. Qed.

Lemma find_visitor_set_ne k k' v l :
  k <> k' -> find_visitor k' (set_visitor k v l) = find_visitor k' l.
Proof. intros. unfold find_visitor, set_visitor; simpl. by rewrite lookup_insert_ne. Qed.

Lemma IsBanned_find now k l :
  IsBanned now k l =
  match banTime (find_visitor k l) with Some t => now <? t | None => false end.
Proof. unfold IsBanned, find_visitor. by destruct (visitors l !! k). Qed.

Lemma do_attempt_other l ta k :
  attempt_key ta.2 <> k -> find_visitor k (do_attempt l ta) = find_visitor k l.
Proof.
  destruct ta as [t [k'|k' d|k']]; simpl; intros Hne;
    unfold do_attempt, AddBadAttempt, AddDistinctBadAttempt, AddSuccessAttempt; simpl;
    [| case_bool_decide | destruct (visitors l !! k')];
    rewrite ?find_visitor_set_ne by done; done.
Qed.

Lemma do_attempt_config l ta :
  maxBadAttempts (do_attempt l ta) = maxBadAttempts l /\
  banDuration (do_attempt l ta) = banDuration l.
Proof.
  destruct ta as [t [k'|k' d|k']]; simpl;
    unfold do_attempt, AddBadAttempt, AddDistinctBadAttempt, AddSuccessAttempt; simpl;
    [| case_bool_decide | destruct (visitors l !! k')]; done.
Qed.

Lemma run_app tas tas' l : run (tas ++ tas') l = run tas' (run tas l).
Proof. apply foldl_app. Qed.

Lemma run_config tas l :
  maxBadAttempts (run tas l) = maxBadAttempts l /\
  banDuration (run tas l) = banDuration l.
Proof.
  revert l; induction tas as [|ta tas IH]; intros l; simpl; [done|].
  destruct (IH (do_attempt l ta)) as [-> ->]. apply do_attempt_config.
Qed.

(** One distinct-credential failure of [k], seen from the visitor record. *)
Lemma distinct_attempt_find now k d l :
  0 <= badAttempts (find_visitor k l) < int64_max ->
  let v := find_visitor k l in
  let seen := default ∅ (seenFailures v) in
  find_visitor k (AddDistinctBadAttempt now k d l) =
  if bool_decide (d ∈ seen) then mkVisitor (badAttempts v) (banTime v) (Some seen)
  else if badAttempts v + 1 =? maxBadAttempts l
       then mkVisitor 0 (Some (now + banDuration l)) None
       else mkVisitor (badAttempts v + 1) (banTime v) (Some ({[d]} ∪ seen)).
Proof.
  intros Hb; simpl. unfold AddDistinctBadAttempt.
  case_bool_decide; rewrite find_visitor_set; [done|].
  rewrite wrap64_small; [done|]. unfold int64_min in *; lia.
Qed.

Lemma creds_of_snoc_other k tas ta :
  attempt_key ta.2 <> k -> creds_of k (tas ++ [ta]) = creds_of k tas.
Proof.
  intros Hne. unfold creds_of. rewrite omap_app, list_to_set_app_L.
  destruct ta as [t [k'|k' d|k']]; simpl in *;
    rewrite ?bool_decide_eq_false_2 by done; simpl; by rewrite union_empty_r_L.
Qed.

Lemma creds_of_snoc k tas t d :
  creds_of k (tas ++ [(t, DistinctBadAttempt k d)]) = {[d]} ∪ creds_of k tas.
Proof.
  unfold creds_of. rewrite omap_app, list_to_set_app_L. simpl.
  rewrite bool_decide_eq_true_2 by done. simpl.
  rewrite union_empty_r_L. apply union_comm_L.
Qed.

(** While fewer than [max] distinct credentials failed, the visitor record is
    exactly the count of distinct credentials, with no ban. *)
Definition counts_exactly (k : string) (tas : list (time * attempt))
    (l : MaxBadAttemptsBanList) : Prop :=
  badAttempts (find_visitor k l) = Z.of_nat (size (creds_of k tas)) /\
  banTime (find_visitor k l) = None /\
  default ∅ (seenFailures (find_visitor k l)) = creds_of k tas.

Lemma run_counts_exactly k tas maxBad dur :
  0 < maxBad <= int64_max ->
  only_distinct_failures k tas ->
  Z.of_nat (size (creds_of k tas)) < maxBad ->
  counts_exactly k tas (run tas (NewMaxBadAttemptsBanList maxBad dur)).
Proof.
  intros Hmax. induction tas as [|ta tas IH] using rev_ind; intros Hall Hsz.
  { unfold counts_exactly, find_visitor; simpl. by rewrite lookup_empty. }
  apply Forall_app in Hall as [Hall Hta]. rewrite Forall_singleton in Hta.
  rewrite run_app; simpl.
  destruct (run_config tas (NewMaxBadAttemptsBanList maxBad dur)) as [Hm Hd].
  destruct (decide (attempt_key ta.2 = k)) as [Hk|Hne].
  - destruct (Hta Hk) as [d Hd']. destruct ta as [t a]; simpl in Hd'; subst a.
    rewrite creds_of_snoc in Hsz.
    destruct (decide (d ∈ creds_of k tas)) as [Hin|Hnin].
    + rewrite union_singleton_absorb in Hsz by done.
      destruct (IH Hall Hsz) as (Hb & Hbt & Hs).
      unfold counts_exactly, do_attempt; simpl. rewrite creds_of_snoc.
      rewrite distinct_attempt_find by (rewrite Hb; lia).
      by rewrite Hs, bool_decide_eq_true_2, union_singleton_absorb by done.
    + rewrite size_union_singleton in Hsz by done.
      destruct (IH Hall ltac:(lia)) as (Hb & Hbt & Hs).
      unfold counts_exactly, do_attempt; simpl. rewrite creds_of_snoc.
      rewrite distinct_attempt_find by (rewrite Hb; lia).
      rewrite Hs, bool_decide_eq_false_2 by done; simpl.
      rewrite Hm; simpl. rewrite (proj2 (Z.eqb_neq _ _)) by lia. simpl.
      rewrite Hb, size_union_singleton by done. split; [lia|done].
  - rewrite creds_of_snoc_other in Hsz by done.
    unfold counts_exactly. rewrite do_attempt_other, creds_of_snoc_other by done.
    exact (IH Hall Hsz).
Qed.

(** ** Properties *)

(** C22: A visitor that keeps failing while other visitors do anything is
    banned exactly when it presents its [maxBadAttempts]-th distinct failing
    credential: as long as fewer distinct credentials failed it is never
    banned, however often each is retried, and the next attempt bans it until
    [t + banDuration] if and only if its credential is new and completes the
    count. *)
Theorem distinct_failures_ban k tas maxBad dur t d :
  0 < maxBad <= int64_max ->
  only_distinct_failures k tas ->
  Z.of_nat (size (creds_of k tas)) < maxBad ->
  let l0 := NewMaxBadAttemptsBanList maxBad dur in
  (forall now, IsBanned now k (run tas l0) = false) /\
  (forall now,
    IsBanned now k (run (tas ++ [(t, DistinctBadAttempt k d)]) l0) =
    bool_decide ((d ∉ creds_of k tas) /\ Z.of_nat (size (creds_of k tas)) + 1 = maxBad)
      && (now <? t + dur)).
Proof.
  intros Hmax Hall Hsz l0.
  destruct (run_counts_exactly k tas maxBad dur Hmax Hall Hsz) as (Hb & Hbt & Hs).
  destruct (run_config tas l0) as [Hm Hd]. subst l0.
  split; intros now; rewrite IsBanned_find; [by rewrite Hbt|].
  rewrite run_app; unfold run at 1, do_attempt; simpl.
  rewrite distinct_attempt_find by (rewrite Hb; lia). rewrite Hs, Hb, Hm, Hd; simpl.
  case_bool_decide as Hin; simpl; [rewrite Hbt; by rewrite bool_decide_eq_false_2 by tauto|].
  destruct (Z.eqb_spec (Z.of_nat (size (creds_of k tas)) + 1) maxBad) as [E|E]; simpl.
  - by rewrite bool_decide_eq_true_2.
  - rewrite Hbt. by rewrite bool_decide_eq_false_2 by tauto.
Qed.

Definition example_retries : list (time * attempt) :=
  [(1, DistinctBadAttempt "1.2.3.4" "a"); (2, DistinctBadAttempt "1.2.3.4" "a");
   (3, BadAttempt "5.6.7.8"); (4, DistinctBadAttempt "1.2.3.4" "b")].

Lemma distinct_failures_ban_witness :
  (forall now, IsBanned now "1.2.3.4" (run example_retries (NewMaxBadAttemptsBanList 3 10)) = false) /\
  IsBanned 14 "1.2.3.4" (run (example_retries ++ [(5, DistinctBadAttempt "1.2.3.4" "c")])
    (NewMaxBadAttemptsBanList 3 10)) = true.
Proof.
  destruct (distinct_failures_ban "1.2.3.4" example_retries 3 10 5 "c") as [H1 H2].
  - by vm_compute.
  - repeat constructor; simpl; intros; [by eexists..| |by eexists]. discriminate.
  - by vm_compute.
  - split; [exact H1|]. rewrite H2. by vm_compute.
Defined.

(** A successful attempt lifts the ban of its visitor, forgets its
    failures, and leaves every other visitor's ban as it was. *)
Theorem success_clears_visitor k l now k' :
  IsBanned now k (AddSuccessAttempt k l) = false /\
  find_visitor k (AddSuccessAttempt k l) = zero_visitor /\
  (k' <> k -> IsBanned now k' (AddSuccessAttempt k l) = IsBanned now k' l).
Proof.
  assert (find_visitor k (AddSuccessAttempt k l) = zero_visitor) as Hz.
  { unfold AddSuccessAttempt. destruct (visitors l !! k) eqn:E.
    - by rewrite find_visitor_set.
    - unfold find_visitor. by rewrite E. }
  split; [by rewrite IsBanned_find, Hz|]. split; [done|].
  intros Hne. rewrite !IsBanned_find.
  pose proof (do_attempt_other l (now, SuccessAttempt k) k') as Ho.
  unfold do_attempt in Ho; simpl in Ho. by rewrite Ho.
Qed.

Lemma success_clears_visitor_witness :
  let l := AddBadAttempt 0 "b" (AddBadAttempt 0 "a" (NewMaxBadAttemptsBanList 1 10)) in
  IsBanned 5 "a" (AddSuccessAttempt "a" l) = false /\
  IsBanned 5 "b" (AddSuccessAttempt "a" l) = true.
Proof.
  intros l. destruct (success_clears_visitor "a" l 5 "b") as (H1 & _ & H3).
  split; [exact H1|]. rewrite H3 by done. by vm_compute.
Defined.
