(* ===== verification/Ports.v ===== *)
(** * Local ports (server/ports, share/models/protocol.go)

    The server hands out local ports for tunnels from one pool per protocol.
    [PortDistributor] is port_distributor.go: [mapset.Set] (a third-party set
    library) is a [gset]; [net.Connections] of gopsutil and the arbitrary
    choice of [Set.Pop] are arguments of the operations that call them.  The
    operations that hold the mutex are the atomic steps of [pd_step]. *)

From stdpp Require Import base gmap strings list numbers sets propset.
From Stdlib Require Import ZArith Ascii Lia.
From S2P Require Import Prelude GoStrings.

Local Open Scope Z_scope.

(** ** Protocols *)

Definition ProtocolTCP : string := "tcp".
Definition ProtocolUDP : string := "udp".
Definition ProtocolTCPUDP : string := "tcp+udp".

Definition IsValidProtocol (p : string) : bool :=
  String.eqb p ProtocolTCP || String.eqb p ProtocolUDP || String.eqb p ProtocolTCPUDP.

(** ** Port ranges (port_range.go) *)

Definition MaxUint16 : Z := 65535.

Definition tryParsePortNumber (portNumberStr : string) : result Z :=
  match Atoi portNumberStr with
  | None => Err (EPlain ("can't parse port number " +:+ portNumberStr +:+ ": " +:+
                           Atoi_error portNumberStr))
  | Some num =>
      if (num <? 0) || (MaxUint16 <? num)
      then Err (EPlain ("invalid port number: " +:+ Itoa num))
      else Ok num
  end.

(** The loop [for i := 0; i <= end-start; i++ { s.Add(start + i) }]. *)
Definition setFromRange (start end_ : Z) : gset Z :=
  list_to_set ((fun i => start + i) <$> seqZ 0 (end_ - start + 1)).

Definition tryParsePortNumberRange (rangeStart rangeEnd : string) : result (gset Z) :=
  let! start := tryParsePortNumber rangeStart in
  let! end_ := tryParsePortNumber rangeEnd in
  if end_ <? start
  then Err (EPlain ("invalid port range " +:+ rangeStart +:+ "-" +:+ rangeEnd))
  else Ok (setFromRange start end_).

Definition parse_range (acc : gset Z) (rangeStr : string) : result (gset Z) :=
  match Split rangeStr "-"%char with
  | [p] => let! n := tryParsePortNumber p in Ok ({[n]} ∪ acc)
  | [a; b] => let! r := tryParsePortNumberRange a b in Ok (acc ∪ r)
  | _ => Err (EPlain ("can't parse port range: incorrect range " +:+ rangeStr))
  end.

Fixpoint parse_ranges (acc : gset Z) (portRanges : list string) : result (gset Z) :=
  match portRanges with
  | [] => Ok acc
  | r :: rs => let! acc' := parse_range acc r in parse_ranges acc' rs
  end.

Definition TryParsePortRanges (portRanges : list string) : result (gset Z) :=
  parse_ranges ∅ portRanges.

(** ** PortDistributor (port_distributor.go) *)

Record PortDistributor := mkPortDistributor {
  allowedPorts : gset Z;
  portsPools : gmap string (gset Z);
  reserved : gset Z
}.

Definition NewPortDistributor (allowed : gset Z) : PortDistributor :=
  mkPortDistributor allowed ∅ ∅.

(** The fields of gopsutil's connection record the code reads. *)
Record ConnectionStat := mkConnectionStat {
  Status : string;
  LaddrPort : Z
}.

Abbreviation Connections_t := (string -> result (list ConnectionStat)) (only parsing).
Abbreviation Pop_t := (gset Z -> option Z) (only parsing).

Definition is_active (c : ConnectionStat) : bool :=
  (String.eqb (Status c) "LISTEN" || String.eqb (Status c) "NONE" || String.eqb (Status c) "")
  && negb (LaddrPort c =? 0).

Definition active_ports (cs : list ConnectionStat) : gset Z :=
  list_to_set (LaddrPort <$> filter (fun c => is_active c = true) cs).

Definition list_busy_single (conns : Connections_t) (protocol : string)
  : result (gset Z) :=
  let! cs := conns protocol in Ok (active_ports cs).

Definition ListBusyPorts (conns : Connections_t) (protocol : string)
  : result (gset Z) :=
  if negb (IsValidProtocol protocol)
  then Err (EPlain ("unsupported protocol " +:+ quoted protocol))
  else if String.eqb protocol ProtocolTCPUDP then
    let! tcpPorts := list_busy_single conns ProtocolTCP in
    let! udpPorts := list_busy_single conns ProtocolUDP in
    Ok (tcpPorts ∪ udpPorts)
  else list_busy_single conns protocol.

Definition subProtocols (protocol : string) : list string :=
  if String.eqb protocol ProtocolTCPUDP then [ProtocolTCP; ProtocolUDP] else [protocol].

(** The critical section of [refresh], given the busy ports listed before the
    lock was taken. *)
Definition refresh_with (protocol : string) (busyPorts : gset Z)
    (d : PortDistributor) : PortDistributor :=
  let reserved' := reserved d ∖ busyPorts in
  mkPortDistributor (allowedPorts d)
    (<[protocol := (allowedPorts d ∖ busyPorts) ∖ reserved']> (portsPools d))
    reserved'.

Definition refresh (conns : Connections_t) (protocol : string) : M PortDistributor unit :=
  fun d => match ListBusyPorts conns protocol with
           | Err e => (Err e, d)
           | Ok busyPorts => (Ok tt, refresh_with protocol busyPorts d)
           end.

Definition Refresh (conns : Connections_t) : M PortDistributor unit :=
  refresh conns ProtocolTCP ;;;
  refresh conns ProtocolUDP.

(** Initialise any missing sub-pool. *)
Fixpoint ensure_pools (conns : Connections_t) (ps : list string) : M PortDistributor unit :=
  match ps with
  | [] => ret tt
  | p :: ps' =>
      d <- get ;;
      match portsPools d !! p with
      | Some _ => ensure_pools conns ps'
      | None => refresh conns p ;;; ensure_pools conns ps'
      end
  end.

(** The intersection of the sub-pools; [None] when one of them is missing. *)
Fixpoint candidates_of (d : PortDistributor) (ps : list string) : option (gset Z) :=
  match ps with
  | [] => None
  | [p] => portsPools d !! p
  | p :: ps' =>
      match portsPools d !! p, candidates_of d ps' with
      | Some pool, Some rest => Some (pool ∩ rest)
      | _, _ => None
      end
  end.

Definition remove_from_pools (port : Z) (ps : list string)
    (pools : gmap string (gset Z)) : gmap string (gset Z) :=
  foldl (fun m p => alter (fun pool => pool ∖ {[port]}) p m) pools ps.

(** The part of [GetRandomPort] under the lock. *)
Definition take_port (pop : Pop_t) (protocol : string) : M PortDistributor Z :=
  fun d =>
    match candidates_of d (subProtocols protocol) with
    | None => (Err (EPlain "no ports available"), d)
    | Some candidates =>
        match pop candidates with
        | None => (Err (EPlain "no ports available"), d)
        | Some port =>
            (Ok port,
             mkPortDistributor (allowedPorts d)
               (remove_from_pools port (subProtocols protocol) (portsPools d))
               ({[port]} ∪ reserved d))
        end
    end.

Definition GetRandomPort (conns : Connections_t) (pop : Pop_t) (protocol : string)
  : M PortDistributor Z :=
  ensure_pools conns (subProtocols protocol) ;;;
  take_port pop protocol.

Definition Reserve (protocol : string) (port : Z) (d : PortDistributor) : PortDistributor :=
  mkPortDistributor (allowedPorts d)
    (remove_from_pools port (subProtocols protocol) (portsPools d))
    ({[port]} ∪ reserved d).

Definition IsPortAllowed (port : Z) (d : PortDistributor) : bool :=
  bool_decide (port ∈ allowedPorts d).

Definition getPool (protocol : string) (d : PortDistributor) : result (gset Z) :=
  if negb (IsValidProtocol protocol)
  then Err (EPlain ("unsupported protocol " +:+ quoted protocol))
  else if String.eqb protocol ProtocolTCPUDP then
    match portsPools d !! ProtocolTCP, portsPools d !! ProtocolUDP with
    | Some tcpPool, Some udpPool => Ok (tcpPool ∩ udpPool)
    | _, _ => Err (EPlain ("port pools for " +:+ quoted protocol +:+ " have not been refreshed yet"))
    end
  else match portsPools d !! protocol with
       | Some pool => Ok pool
       | None => Err (EPlain ("port pool for " +:+ quoted protocol +:+ " has not been refreshed yet"))
       end.

Definition IsPortBusy (protocol : string) (port : Z) (d : PortDistributor) : result bool :=
  let! pool := getPool protocol d in Ok (negb (bool_decide (port ∈ pool))).

(** ** The distributor as a transition system

    One step per critical section: a refresh of one protocol with the busy
    ports its caller had listed, a port taken out of the pools, a port
    reserved.  [pop] is any choice function of the set library. *)

Class PopSpec (pop : Pop_t) : Prop := {
  pop_elem : forall s x, pop s = Some x -> x ∈ s;
  pop_none : forall s, pop s = None -> s = ∅
}.

Inductive pd_op :=
  | OpRefresh (protocol : string) (busy : gset Z)
  | OpTake (protocol : string) (port : Z)
  | OpReserve (protocol : string) (port : Z).

Inductive pd_step (pop : Pop_t) : pd_op -> PortDistributor -> PortDistributor -> Prop :=
  | step_refresh protocol busy d :
      IsValidProtocol protocol = true ->
      pd_step pop (OpRefresh protocol busy) d (refresh_with protocol busy d)
  | step_take protocol port d d' :
      take_port pop protocol d = (Ok port, d') ->
      pd_step pop (OpTake protocol port) d d'
  | step_reserve protocol port d :
      pd_step pop (OpReserve protocol port) d (Reserve protocol port d).

Inductive pd_steps (pop : Pop_t) : list pd_op -> PortDistributor -> PortDistributor -> Prop :=
  | steps_nil d : pd_steps pop [] d d
  | steps_cons o os d d' d'' :
      pd_step pop o d d' -> pd_steps pop os d' d'' -> pd_steps pop (o :: os) d d''.

(** Every pool only holds allowed ports. *)
Definition pools_allowed (d : PortDistributor) : Prop :=
  forall p pool, portsPools d !! p = Some pool -> pool ⊆ allowedPorts d.

(** [port] is out of the pool of each sub-protocol of [protocol] and kept
    reserved. *)
Definition held (protocol : string) (port : Z) (d : PortDistributor) : Prop :=
  port ∈ reserved d /\
  forall p pool, p ∈ subProtocols protocol -> portsPools d !! p = Some pool -> port ∉ pool.

(** The operation does not observe [port] as bound. *)
Definition not_seen_busy (port : Z) (o : pd_op) : Prop :=
  match o with OpRefresh _ busy => port ∉ busy | _ => True end.

(** ** Lemmas *)

Lemma lookup_remove_from_pools port ps (m : gmap string (gset Z)) p pool :
  remove_from_pools port ps m !! p = Some pool ->
  exists pool0, m !! p = Some pool0 /\ pool ⊆ pool0 /\ (p ∈ ps -> port ∉ pool).
Proof.
  unfold remove_from_pools. revert m; induction ps as [|q ps IH]; intros m; simpl.
  - intros H. exists pool. split; [done|]. split; [done|]. by intros ?%elem_of_nil.
  - intros (pool0 & Hl & Hsub & Hnot)%IH.
    rewrite lookup_alter in Hl. case_decide as Hq.
    + subst q. apply fmap_Some in Hl as (pool1 & Hm & ->).
      exists pool1. split; [done|]. split; [set_solver|]. set_solver.
    + exists pool0. split; [done|]. split; [done|].
      intros [->|Hin]%elem_of_cons; [done|auto].
Qed.

Lemma remove_from_pools_is_Some port ps (m : gmap string (gset Z)) p :
  is_Some (remove_from_pools port ps m !! p) <-> is_Some (m !! p).
Proof.
  unfold remove_from_pools. revert m; induction ps as [|q ps IH]; intros m; simpl; [done|].
  rewrite IH, lookup_alter. case_decide; subst; [by rewrite fmap_is_Some|done].
Qed.

Lemma candidates_of_elem d ps c x p :
  candidates_of d ps = Some c -> x ∈ c -> p ∈ ps ->
  exists pool, portsPools d !! p = Some pool /\ x ∈ pool.
Proof.
  revert c; induction ps as [|q [|q' ps] IH]; intros c Hc Hx Hp.
  - by apply elem_of_nil in Hp.
  - apply list_elem_of_singleton in Hp as ->. eauto.
  - change (match portsPools d !! q, candidates_of d (q' :: ps) with
            | Some pool, Some rest => Some (pool ∩ rest) | _, _ => None end = Some c) in Hc.
    destruct (portsPools d !! q) as [pool|] eqn:Eq; [|done].
    destruct (candidates_of d (q' :: ps)) as [rest|]; simplify_eq.
    apply elem_of_intersection in Hx as [Hx1 Hx2].
    apply elem_of_cons in Hp as [->|Hp]; [eauto|]. by apply (IH rest).
Qed.

Lemma candidates_of_complete d ps x :
  ps <> [] ->
  (forall p, p ∈ ps -> exists pool, portsPools d !! p = Some pool /\ x ∈ pool) ->
  exists c, candidates_of d ps = Some c /\ x ∈ c.
Proof.
  intros Hne Hall. induction ps as [|q [|q' ps] IH]; [done| |].
  - destruct (Hall q) as (pool & H1 & H2); [left|]. exists pool. done.
  - destruct (Hall q) as (pool & H1 & H2); [left|].
    destruct IH as (rest & H3 & H4); [done|intros p Hp; apply Hall; by right|].
    exists (pool ∩ rest). split; [|set_solver].
    change (match portsPools d !! q, candidates_of d (q' :: ps) with
            | Some pool, Some rest => Some (pool ∩ rest) | _, _ => None end = Some (pool ∩ rest)).
    by rewrite H1, H3.
Qed.

Lemma subProtocols_nonnil protocol : subProtocols protocol <> [].
Proof. unfold subProtocols. by case_match. Qed.

Lemma Reserve_pools_allowed protocol port d :
  pools_allowed d -> pools_allowed (Reserve protocol port d).
Proof.
  intros Hd p pool (pool0 & H1 & H2 & _)%lookup_remove_from_pools.
  etrans; [done|]. by eapply Hd.
Qed.

Lemma refresh_pools_allowed protocol busy d :
  pools_allowed d -> pools_allowed (refresh_with protocol busy d).
Proof.
  intros Hd p pool; simpl. rewrite lookup_insert. case_decide.
  - intros; simplify_eq. set_solver.
  - apply Hd.
Qed.

Lemma Reserve_held protocol port d : held protocol port (Reserve protocol port d).
Proof.
  split; simpl; [set_solver|].
  intros p pool Hp (pool0 & _ & _ & H)%lookup_remove_from_pools. auto.
Qed.

Lemma Reserve_keeps_held protocol port protocol' port' d :
  held protocol port d -> held protocol port (Reserve protocol' port' d).
Proof.
  intros [Hr Hp]. split; simpl; [set_solver|].
  intros p pool Hin (pool0 & H1 & H2 & _)%lookup_remove_from_pools.
  specialize (Hp p pool0 Hin H1). set_solver.
Qed.

Lemma refresh_keeps_held protocol port protocol' busy d :
  port ∉ busy -> held protocol port d -> held protocol port (refresh_with protocol' busy d).
Proof.
  intros Hb [Hr Hp]. split; simpl; [set_solver|].
  intros p pool Hin. rewrite lookup_insert. case_decide; [|by apply Hp].
  intros; simplify_eq. set_solver.
Qed.

Section Steps.
Context (pop : Pop_t) `{!PopSpec pop}.

Lemma take_port_inv protocol port d d' :
  take_port pop protocol d = (Ok port, d') ->
  d' = Reserve protocol port d /\
  forall p, p ∈ subProtocols protocol ->
    exists pool, portsPools d !! p = Some pool /\ port ∈ pool.
Proof.
  unfold take_port. destruct (candidates_of d _) as [c|] eqn:Ec; [|done].
  destruct (pop c) as [x|] eqn:Ep; intros H; simplify_eq. split; [done|].
  intros p Hp. eapply candidates_of_elem; eauto using pop_elem.
Qed.

Lemma pd_step_pools_allowed o d d' :
  pd_step pop o d d' -> pools_allowed d -> pools_allowed d'.
Proof.
  destruct 1 as [protocol busy d _|protocol port d d' [-> _]%take_port_inv|protocol port d].
  - apply refresh_pools_allowed.
  - apply Reserve_pools_allowed.
  - apply Reserve_pools_allowed.
Qed.

Lemma pd_step_held o d d' protocol port :
  pd_step pop o d d' -> not_seen_busy port o -> held protocol port d -> held protocol port d'.
Proof.
  destruct 1 as [protocol' busy d _|protocol' port' d d' [-> _]%take_port_inv|protocol' port' d];
    simpl; intros Hb Hh.
  - by apply refresh_keeps_held.
  - by apply Reserve_keeps_held.
  - by apply Reserve_keeps_held.
Qed.

Lemma pd_steps_held os d d' protocol port :
  pd_steps pop os d d' -> Forall (not_seen_busy port) os ->
  held protocol port d -> held protocol port d'.
Proof.
  induction 1 as [|o os d d1 d2 Hs _ IH]; intros Hb Hh; [done|].
  inversion_clear Hb. eauto using pd_step_held.
Qed.

Lemma held_not_taken protocol port protocol' d d' p :
  held protocol port d -> p ∈ subProtocols protocol -> p ∈ subProtocols protocol' ->
  take_port pop protocol' d <> (Ok port, d').
Proof.
  intros [_ Hh] Hp Hp' [_ Ht]%take_port_inv.
  destruct (Ht p Hp') as (pool & Hl & Hin). by eapply Hh.
Qed.

End Steps.

#[export] Hint Resolve Reserve_held Reserve_keeps_held refresh_keeps_held
  Reserve_pools_allowed refresh_pools_allowed : proxi.

(** [ensure_pools] is a run of refresh steps that leaves no sub-pool missing. *)
Lemma ensure_pools_steps conns pop ps d d' :
  Forall (fun p => IsValidProtocol p = true) ps ->
  ensure_pools conns ps d = (Ok tt, d') ->
  exists os, pd_steps pop os d d' /\
    Forall (fun o => match o with OpRefresh _ _ => True | _ => False end) os.
Proof.
  revert d; induction ps as [|p ps IH]; intros d Hv; cbn [ensure_pools].
  - unfold ret. intros H. simplify_eq. exists []. split; constructor.
  - inversion_clear Hv as [|?? Hp Hps]. unfold bind at 1, get. simpl.
    destruct (portsPools d !! p); [by apply IH|].
    unfold bind, refresh. destruct (ListBusyPorts conns p) as [busy|]; [|done].
    intros (os & Hos & Hall)%IH; [|done].
    exists (OpRefresh p busy :: os). split; [|by constructor].
    econstructor; [by constructor|done].
Qed.

Lemma subProtocols_valid protocol :
  IsValidProtocol protocol = true -> Forall (fun p => IsValidProtocol p = true) (subProtocols protocol).
Proof. intros H. unfold subProtocols. case_match; repeat constructor; done. Qed.

Lemma GetRandomPort_inv conns pop protocol d port d' :
  IsValidProtocol protocol = true ->
  GetRandomPort conns pop protocol d = (Ok port, d') ->
  exists os d1, pd_steps pop os d d1 /\ take_port pop protocol d1 = (Ok port, d').
Proof.
  intros Hv. unfold GetRandomPort, bind.
  destruct (ensure_pools conns (subProtocols protocol) d) as [[[]|e] d1] eqn:E; [|done].
  intros H. apply (ensure_pools_steps _ pop) in E as (os & Hos & _);
    [|by apply subProtocols_valid]. eauto.
Qed.

Lemma pd_steps_pools_allowed pop `{!PopSpec pop} os d d' :
  pd_steps pop os d d' -> pools_allowed d -> pools_allowed d'.
Proof. induction 1; eauto using pd_step_pools_allowed. Qed.

Lemma pd_steps_allowed_same pop `{!PopSpec pop} os d d' :
  pd_steps pop os d d' -> allowedPorts d' = allowedPorts d.
Proof.
  induction 1 as [|o os d d1 d2 Hs _ ->]; [done|].
  destruct Hs as [| protocol port d d' H |]; try done.
  by apply (take_port_inv pop) in H as [-> _].
Qed.

Lemma held_busy protocol port d :
  IsValidProtocol protocol = true -> held protocol port d ->
  (forall p, p ∈ subProtocols protocol -> is_Some (portsPools d !! p)) ->
  IsPortBusy protocol port d = Ok true.
Proof.
  intros Hv [_ Hh] Hsome. unfold IsPortBusy, getPool. rewrite Hv; simpl.
  unfold subProtocols in *. destruct (String.eqb protocol ProtocolTCPUDP).
  - destruct (Hsome ProtocolTCP) as [pt Ht]; [left|].
    destruct (Hsome ProtocolUDP) as [pu Hu]; [right; left|].
    rewrite Ht, Hu. simpl. rewrite bool_decide_eq_false_2; [done|].
    intros [Hin _]%elem_of_intersection. eapply Hh; [left|done..].
  - destruct (Hsome protocol) as [pt Ht]; [left|]. rewrite Ht. simpl.
    rewrite bool_decide_eq_false_2; [done|]. eapply Hh; [left|done].
Qed.

(** The ports a range string of the configuration stands for. *)
Definition range_covers (r : string) (port : Z) : Prop :=
  (exists p, Split r "-"%char = [p] /\ Atoi p = Some port) \/
  (exists a b x y, Split r "-"%char = [a; b] /\ Atoi a = Some x /\ Atoi b = Some y /\
     x <= port <= y).

Lemma tryParsePortNumber_Ok s n :
  tryParsePortNumber s = Ok n -> Atoi s = Some n /\ 0 <= n <= MaxUint16.
Proof.
  unfold tryParsePortNumber. destruct (Atoi s); [|done].
  destruct ((z <? 0) || (MaxUint16 <? z)) eqn:E; [done|].
  intros; simplify_eq. bool_prop. split; [done|lia].
Qed.

Lemma elem_of_setFromRange start end_ x :
  x ∈ setFromRange start end_ <-> start <= x <= end_.
Proof.
  unfold setFromRange. rewrite elem_of_list_to_set, list_elem_of_fmap.
  setoid_rewrite elem_of_seqZ. split.
  - intros (i & -> & Hi). lia.
  - intros H. exists (x - start). lia.
Qed.

Lemma parse_range_Ok acc r s :
  parse_range acc r = Ok s ->
  (forall port, port ∈ s <-> port ∈ acc \/ range_covers r port) /\
  (forall port, range_covers r port -> 0 <= port <= MaxUint16).
Proof.
  unfold parse_range. intros H.
  destruct (Split r "-"%char) as [|a [|b [|]]] eqn:Es; try done.
  - destruct (tryParsePortNumber a) as [n|] eqn:E; [|done]. simpl in H; simplify_eq.
    apply tryParsePortNumber_Ok in E as [Ea Hr].
    assert (forall port, range_covers r port <-> port = n) as Hcov.
    { intros port. unfold range_covers. rewrite Es. split.
      - intros [(p & ? & ?)|(? & ? & ? & ? & ? & _)]; simplify_eq; done.
      - intros ->. left. eauto. }
    split; intros port; rewrite Hcov; [set_solver|lia].
  - unfold tryParsePortNumberRange in H.
    destruct (tryParsePortNumber a) as [x|] eqn:Ea; [|done].
    destruct (tryParsePortNumber b) as [y|] eqn:Eb; [|done]. simpl in H.
    destruct (Z.ltb_spec y x); [done|]. simpl in H; simplify_eq.
    apply tryParsePortNumber_Ok in Ea as [Ea Hx]. apply tryParsePortNumber_Ok in Eb as [Eb Hy].
    assert (forall port, range_covers r port <-> x <= port <= y) as Hcov.
    { intros port. unfold range_covers. rewrite Es. split.
      - intros [(p & ? & ?)|(a' & b' & x' & y' & ? & ? & ? & ?)]; simplify_eq; done.
      - intros ?. right. exists a, b, x, y. done. }
    split; intros port; rewrite Hcov; [rewrite elem_of_union, elem_of_setFromRange; done|lia].
Qed.

Lemma parse_ranges_Ok acc rs s :
  parse_ranges acc rs = Ok s ->
  forall port, port ∈ s <-> port ∈ acc \/ (0 <= port <= MaxUint16 /\ exists r, r ∈ rs /\ range_covers r port).
Proof.
  revert acc; induction rs as [|r rs IH]; intros acc; simpl.
  - intros; simplify_eq. split; [by left|]. intros [?|(_ & r & []%elem_of_nil & _)]; done.
  - destruct (parse_range acc r) as [acc'|] eqn:E; [|done]. simpl.
    apply parse_range_Ok in E as [Hacc Hbound].
    intros H port. rewrite (IH _ H port), Hacc. split.
    + intros [[?|Hc]|(Hb & r' & Hin & Hc)]; [by left|right|right].
      * split; [by apply Hbound|]. exists r. split; [left|done].
      * split; [done|]. exists r'. split; [by right|done].
    + intros [?|(Hb & r' & [->|Hin]%elem_of_cons & Hc)]; [tauto..|].
      right. eauto.
Qed.

(** ** Properties *)

(** The choice the witnesses use for [Set.Pop]. *)
Definition pop_first (s : gset Z) : option Z := head (elements s).

#[export] Instance pop_first_spec : PopSpec pop_first.
Proof.
  split; unfold pop_first.
  - intros s x H. apply elem_of_elements. apply head_Some_elem_of in H. done.
  - intros s H. apply leibniz_equiv, elements_empty_inv.
    by destruct (elements s).
Qed.

(** C14: A port handed out by [GetRandomPort] for a protocol is not handed out
    again for that protocol, for [tcp+udp] or for either half of it, whatever
    refreshes, allocations and reservations happen in between, until a refresh
    observes the port as bound. *)
Theorem port_not_handed_out_twice conns pop protocol d port d1 os d2 protocol' p :
  PopSpec pop ->
  IsValidProtocol protocol = true ->
  GetRandomPort conns pop protocol d = (Ok port, d1) ->
  pd_steps pop os d1 d2 -> Forall (not_seen_busy port) os ->
  p ∈ subProtocols protocol -> p ∈ subProtocols protocol' ->
  fst (take_port pop protocol' d2) <> Ok port.
Proof.
  intros Hpop Hv Hget Hsteps Hb Hp Hp'.
  destruct (take_port pop protocol' d2) as [r d3] eqn:E. simpl. intros ->. revert E.
  apply GetRandomPort_inv in Hget as (os0 & d0 & _ & Ht); [|done].
  apply (take_port_inv pop) in Ht as [-> _].
  eapply (held_not_taken pop); [|exact Hp|exact Hp'].
  eapply (pd_steps_held pop); [exact Hsteps|exact Hb|apply Reserve_held].
Qed.

Definition no_connections : Connections_t := fun _ => Ok [].

Lemma port_not_handed_out_twice_witness :
  let d1 := snd (GetRandomPort no_connections pop_first "tcp+udp" (NewPortDistributor {[20000; 20001]})) in
  fst (take_port pop_first "tcp" (refresh_with "tcp" {[20000]} d1)) <> Ok 20001.
Proof.
  intros d1.
  apply (port_not_handed_out_twice no_connections pop_first "tcp+udp"
    (NewPortDistributor {[20000; 20001]}) 20001 d1 [OpRefresh "tcp" {[20000]}]
    (refresh_with "tcp" {[20000]} d1) "tcp" "tcp").
  - apply _.
  - reflexivity.
  - subst d1. by vm_compute.
  - econstructor; [by constructor|constructor].
  - constructor; [|constructor]. simpl. by vm_compute.
  - left.
  - left.
Defined.

(** C39: [refresh] forgets a reservation as soon as the port is bound for the
    other protocol: a port that [GetRandomPort] handed out for TCP or for UDP and
    that is not bound there yet, while a listener of the other protocol has the
    same number, is free again after two runs of [Refresh]: it is not reserved
    any more, [IsPortBusy] denies that it is taken, it is back in the pool, and
    [GetRandomPort] hands it out a second time whenever [Pop] picks it. *)
Theorem reservation_lost_across_protocols conns pop protocol other port d d1 bound bound_other :
  PopSpec pop ->
  (protocol, other) ∈ [(ProtocolTCP, ProtocolUDP); (ProtocolUDP, ProtocolTCP)] ->
  port ∈ allowedPorts d -> GetRandomPort conns pop protocol d = (Ok port, d1) ->
  ListBusyPorts conns protocol = Ok bound -> port ∉ bound ->
  ListBusyPorts conns other = Ok bound_other -> port ∈ bound_other ->
  exists d2 pool, (Refresh conns ;;; Refresh conns) d1 = (Ok tt, d2) /\
    port ∉ reserved d2 /\ IsPortBusy protocol port d2 = Ok false /\
    getPool protocol d2 = Ok pool /\ port ∈ pool /\
    forall pop', pop' pool = Some port -> fst (GetRandomPort conns pop' protocol d2) = Ok port.
Proof.
  intros Hpop Hps Hal Hget Hb Hnb Hbo Hino.
  assert (Hv : IsValidProtocol protocol = true) by set_solver.
  assert (Hal1 : allowedPorts d1 = allowedPorts d).
  { apply GetRandomPort_inv in Hget as (os & d0 & Hos & Ht); [|done].
    apply (take_port_inv pop) in Ht as [-> _]. cbn. by eapply pd_steps_allowed_same. }
  rewrite <-Hal1 in Hal. clear Hget Hal1.
  assert (Hrefresh : exists tcp udp, ListBusyPorts conns ProtocolTCP = Ok tcp /\
    ListBusyPorts conns ProtocolUDP = Ok udp /\
    (forall d, Refresh conns d = (Ok tt, refresh_with ProtocolUDP udp (refresh_with ProtocolTCP tcp d)))).
  { apply elem_of_cons in Hps as [[= -> ->]|[= -> ->]%list_elem_of_singleton];
      eexists _, _; split_and!; try eassumption;
      intros d'; unfold Refresh, bind, refresh; by rewrite Hb, Hbo. }
  destruct Hrefresh as (tcp & udp & Ht & Hu & Hrefresh).
  unfold bind. rewrite Hrefresh, Hrefresh.
  set (d2 := refresh_with _ _ (refresh_with _ _ (refresh_with _ _ _))).
  assert (Hpool : exists pool, portsPools d2 !! protocol = Some pool /\ port ∈ pool /\ port ∉ reserved d2).
  { subst d2. apply elem_of_cons in Hps as [[= -> ->]|[= -> ->]%list_elem_of_singleton];
      rewrite Ht in *; rewrite Hu in *; simplify_eq; cbn;
      [rewrite lookup_insert_ne by done|]; rewrite lookup_insert_eq;
      eexists; split_and!; [reflexivity|set_solver..]. }
  destruct Hpool as (pool & Hl & Hin & Hres). exists d2, pool.
  assert (Hone : subProtocols protocol = [protocol] /\ String.eqb protocol ProtocolTCPUDP = false).
  { by apply elem_of_cons in Hps as [[= -> ->]|[= -> ->]%list_elem_of_singleton]. }
  destruct Hone as [Hsub Hneq].
  assert (Hgp : getPool protocol d2 = Ok pool) by (unfold getPool; by rewrite Hv, Hneq, Hl).
  split_and!; [done..| |done|done|].
  - unfold IsPortBusy. rewrite Hgp. cbn. by rewrite bool_decide_eq_true_2.
  - intros pop' Hp. unfold GetRandomPort, bind, take_port. rewrite Hsub. cbn [ensure_pools].
    unfold bind at 1, get. rewrite Hl. cbn [ensure_pools ret candidates_of]. by rewrite Hl, Hp.
Qed.

(** A TCP listener on 20001, nothing on UDP. *)
Definition tcp_listener (p : string) : result (list ConnectionStat) :=
  Ok (if String.eqb p "tcp" then [mkConnectionStat "LISTEN" 20001] else []).

Lemma reservation_lost_across_protocols_witness :
  let d := NewPortDistributor {[20001; 20002]} in
  let d1 := snd (GetRandomPort tcp_listener pop_first "udp" d) in
  IsPortBusy "udp" 20001 d1 = Ok true /\
  exists d2 pool, (Refresh tcp_listener ;;; Refresh tcp_listener) d1 = (Ok tt, d2) /\
    getPool "udp" d2 = Ok pool /\ 20001 ∈ pool.
Proof.
  intros d d1. split; [by vm_compute|].
  destruct (reservation_lost_across_protocols tcp_listener pop_first "udp" "tcp" 20001 d d1
    ∅ {[20001]}) as (d2 & pool & H1 & _ & _ & H2 & H3 & _).
  - apply _.
  - right. left.
  - by vm_compute.
  - by vm_compute.
  - by vm_compute.
  - by vm_compute.
  - by vm_compute.
  - by vm_compute.
  - exists d2, pool. done.
Defined.

(** C27: Every port the distributor ever hands out is an allowed port, is out
    of every pool it was drawn from, and is reported busy from then on. *)
Theorem handed_out_ports_are_allowed conns pop os allowed d protocol port d' :
  PopSpec pop ->
  pd_steps pop os (NewPortDistributor allowed) d ->
  IsValidProtocol protocol = true ->
  GetRandomPort conns pop protocol d = (Ok port, d') ->
  port ∈ allowed /\ held protocol port d' /\ IsPortBusy protocol port d' = Ok true.
Proof.
  intros Hpop Hos Hv (os1 & d1 & Hos1 & Ht)%GetRandomPort_inv; [|done].
  assert (pools_allowed (NewPortDistributor allowed)) as H0.
  { intros p pool H. simpl in H. by rewrite lookup_empty in H. }
  pose proof (pd_steps_pools_allowed pop _ _ _ Hos H0) as Hd.
  pose proof (pd_steps_pools_allowed pop _ _ _ Hos1 Hd) as Hd1.
  apply (take_port_inv pop) in Ht as [-> Hin].
  split; [|split; [apply Reserve_held|]].
  - destruct (subProtocols protocol) as [|p ps] eqn:E; [by apply subProtocols_nonnil in E|].
    destruct (Hin p) as (pool & Hl & Hx); [left|].
    apply (Hd1 _ _ Hl) in Hx.
    by rewrite (pd_steps_allowed_same pop _ _ _ Hos1), (pd_steps_allowed_same pop _ _ _ Hos) in Hx.
  - apply held_busy; [done|apply Reserve_held|]. intros p Hp. simpl.
    apply remove_from_pools_is_Some. destruct (Hin p Hp) as (pool & Hl & _). eauto.
Qed.

Lemma handed_out_ports_are_allowed_witness :
  20001 ∈ ({[20001]} : gset Z) /\
  IsPortBusy "udp" 20001 (snd (GetRandomPort no_connections pop_first "udp"
    (NewPortDistributor {[20001]}))) = Ok true.
Proof.
  destruct (handed_out_ports_are_allowed no_connections pop_first [] {[20001]}
    (NewPortDistributor {[20001]}) "udp" 20001
    (snd (GetRandomPort no_connections pop_first "udp" (NewPortDistributor {[20001]}))))
    as (H1 & _ & H3); [apply _|constructor|reflexivity|by vm_compute|].
  split; [exact H1|exact H3].
Defined.

(** C31: [TryParsePortRanges] either fails or returns exactly the ports its
    range strings name, all of them between 0 and 65535. *)
Theorem parsed_port_ranges rs s port :
  TryParsePortRanges rs = Ok s ->
  port ∈ s <-> 0 <= port <= MaxUint16 /\ exists r, r ∈ rs /\ range_covers r port.
Proof.
  intros H. rewrite (parse_ranges_Ok _ _ _ H port). set_solver.
Qed.

Lemma parsed_port_ranges_witness :
  exists s, TryParsePortRanges ["80"; "20000-20002"] = Ok s /\
  (20001 ∈ s <-> 0 <= 20001 <= MaxUint16 /\
    exists r, r ∈ ["80"; "20000-20002"] /\ range_covers r 20001).
Proof.
  eexists. split; [reflexivity|].
  apply (parsed_port_ranges ["80"; "20000-20002"]). reflexivity.
Defined.
