(* ===== verification/Query.v ===== *)
(** * List queries (share/query)

    Parsing, validation and translation to SQL of the list options every
    collection endpoint of the API takes: filters, sorts, sparse fields and
    pagination.  A Go [map[string]bool] is a [gmap string bool]; [url.Values]
    is the list of its entries in the order Go iterates over it.  The two
    regular expressions are written out as the recognisers they denote. *)

From stdpp Require Import base gmap strings list numbers sets sorting.
From Stdlib Require Import ZArith Ascii Lia.
From S2P Require Import Prelude GoStrings.

Local Open Scope string_scope.

Abbreviation fieldset := (gmap string bool) (only parsing).
Abbreviation url_values := (list (string * list string)) (only parsing).

(** [m[k]] of a Go [map[string]bool]: false for a missing key. *)
Definition mget (m : fieldset) (k : string) : bool := default false (m !! k).

Fixpoint values_get (vs : url_values) (k : string) : option (list string) :=
  match vs with
  | [] => None
  | (k', v) :: vs' => if String.eqb k' k then Some v else values_get vs' k
  end.

(** ** Filters (filter.go) *)

Definition FilterLogicalOperatorTypeOR : string := "or".
Definition FilterLogicalOperatorTypeAND : string := "and".

(** [FilterOperatorType.Code]. *)
Definition Code (fot : string) : string :=
  if String.eqb fot "eq" then "="
  else if String.eqb fot "gt" then ">"
  else if String.eqb fot "lt" then "<"
  else if String.eqb fot "since" then ">="
  else if String.eqb fot "until" then "<="
  else "=".

Record FilterOption := mkFilterOption {
  fo_Column : list string;
  fo_Operator : string;
  fo_Values : list string;
  fo_ValuesLogicalOperator : string;
  fo_CompareFunc : string
}.

Definition FilterOption_String (fo : FilterOption) : string :=
  let s := "filter[" +:+ Join (fo_Column fo) "|" +:+ "]" in
  if String.eqb (fo_Operator fo) "" then s
  else s +:+ "[" +:+ fo_Operator fo +:+ "]".

Definition column_supported (op : string) (supported : fieldset) (col : string) : bool :=
  (String.eqb op "" && mget supported col) || mget supported (col +:+ "[" +:+ op +:+ "]").

Definition isSupported (fo : FilterOption) (supported : fieldset) : bool :=
  forallb (column_supported (fo_Operator fo) supported) (fo_Column fo).

Definition string_le (a b : string) : Prop := String.leb a b = true.
#[export] Instance string_le_dec : RelDecision string_le := fun a b => bool_eq_dec _ _.

(** The plain (operator-free) keys of the supported map, sorted. *)
Definition wildcard_columns (supported : fieldset) : list string :=
  merge_sort string_le
    (filter (fun f => Contains f "[" = false) ((map_to_list supported).*1)).

Definition setWildcardColumns (supported : fieldset) (fo : FilterOption) : FilterOption :=
  mkFilterOption (wildcard_columns supported) (fo_Operator fo) (fo_Values fo)
    (fo_ValuesLogicalOperator fo) (fo_CompareFunc fo).

Definition is_wildcard (fo : FilterOption) : bool :=
  match fo_Column fo with [c] => String.eqb c "*" | _ => false end.

(** One iteration of the loop of [ValidateFilterOptions]: the option as the
    loop leaves it in the slice, and the errors it appends. *)
Definition validate_filter (supported : fieldset) (fo : FilterOption)
  : FilterOption * list APIError :=
  let fo' := if is_wildcard fo then setWildcardColumns supported fo else fo in
  if is_wildcard fo && bool_decide (fo_Column fo' = [])
  then (fo', [api_error StatusBadRequest "unsupported filter field 'filter[*]'"])
  else if isSupported fo' supported then (fo', [])
  else (fo', [api_error StatusBadRequest
                ("unsupported filter field '" +:+ FilterOption_String fo' +:+ "'")]).

Fixpoint ValidateFilterOptions (fos : list FilterOption) (supported : fieldset)
  : list FilterOption * list APIError :=
  match fos with
  | [] => ([], [])
  | fo :: fos' =>
      let '(fo', errs) := validate_filter supported fo in
      let '(rest, errs') := ValidateFilterOptions fos' supported in
      (fo' :: rest, (errs ++ errs')%list)
  end.

(** [\[\w|*\]] of filterRegex. *)
Definition is_filter_col (c : ascii) : bool :=
  is_word c || Ascii.eqb c "|" || Ascii.eqb c "*".

(** filterRegex: [^filter\[(\[\w|*\]+)\](\[(\w+)\])?], groups 1 and 3. *)
Definition filterRegex (key : string) : option (string * string) :=
  match strip_prefix "filter[" key with
  | None => None
  | Some r =>
      let '(col, r1) := span is_filter_col r in
      if String.eqb col "" then None
      else match strip_prefix "]" r1 with
           | None => None
           | Some r2 =>
               let op :=
                 match strip_prefix "[" r2 with
                 | None => ""
                 | Some r3 =>
                     let '(w, r4) := span is_word r3 in
                     if HasPrefix r4 "]" then w else ""
                 end in
               Some (col, op)
           end
  end.

(** The text before the last [c] of the first line. *)
Fixpoint upto_last (c : ascii) (s : string) : option string :=
  match s with
  | "" => None
  | String a s' =>
      if Ascii.eqb a (ascii_of_nat 10) then None
      else match upto_last c s' with
           | Some t => Some (String a t)
           | None => if Ascii.eqb a c then Some "" else None
           end
  end.

(** valuesLogicalOpsblock: [^(and|or){1}\((.+)\)], groups 1 and 2. *)
Definition valuesLogicalOpsblock (v : string) : option (string * string) :=
  let inner (op r : string) :=
    match upto_last ")" r with
    | Some t => if String.eqb t "" then None else Some (op, t)
    | None => None
    end in
  match strip_prefix "and(" v with
  | Some r => inner "and" r
  | None => match strip_prefix "or(" v with
            | Some r => inner "or" r
            | None => None
            end
  end.

(** [getFilterValues] of http_list.go. *)
Fixpoint getFilterValues_from (op : string) (values : list string) : list string * string :=
  match values with
  | [] => ([], op)
  | v :: vs =>
      let value := TrimSpace v in
      let '(op', value') :=
        match valuesLogicalOpsblock value with
        | Some (o, t) => (o, t)
        | None => (op, value)
        end in
      let operands := TrimSpace <$> Split value' "," in
      let '(rest, op'') := getFilterValues_from op' vs in
      ((operands ++ rest)%list, op'')
  end.

Definition getFilterValues (values : list string) : list string * string :=
  getFilterValues_from "" values.

Definition parse_filter (filterKey : string) (filterValues : list string)
  : option FilterOption :=
  if negb (HasPrefix filterKey "filter") || bool_decide (filterValues = []) then None
  else
    let '(operands, logicalOperator) := getFilterValues filterValues in
    if bool_decide (operands = []) then None
    else match filterRegex filterKey with
         | None => None
         | Some (m1, m3) =>
             let filterColumn := TrimSpace m1 in
             if String.eqb filterColumn "" then None
             else Some (mkFilterOption (Split filterColumn "|") (TrimSpace m3)
                          operands logicalOperator "")
         end.

Definition ParseFilterOptions (values : url_values) : list FilterOption :=
  omap (fun kv => parse_filter kv.1 kv.2) values.

Definition filter_has_key (keys : fieldset) (o : FilterOption) : bool :=
  existsb (fun c => match keys !! c with Some _ => true | None => false end) (fo_Column o).

Definition SplitFilters (options : list FilterOption) (keys : fieldset)
  : list FilterOption * list FilterOption :=
  (filter (fun o => filter_has_key keys o = true) options,
   filter (fun o => filter_has_key keys o = false) options).

(** ** Sorts (sort.go) *)

Record SortOption := mkSortOption { so_Column : string; so_IsASC : bool }.

Definition parse_sort (sort0 : string) : option SortOption :=
  let sort := TrimSpace sort0 in
  if String.eqb sort "" then None
  else if HasPrefix sort "-"
       then Some (mkSortOption (TrimLeftFunc (fun c => Ascii.eqb c "-") sort) false)
       else Some (mkSortOption sort true).

Definition ParseSortOptions (values : url_values) : list SortOption :=
  match values_get values "sort" with
  | None => []
  | Some sorts => omap parse_sort sorts
  end.

Definition ValidateSortOptions (so : list SortOption) (supported : fieldset) : list APIError :=
  omap (fun s => if mget supported (so_Column s) then None
                 else Some (api_error StatusBadRequest
                              ("unsupported sort field '" +:+ so_Column s +:+ "'"))) so.

(** ** Fields (fields.go) *)

Record FieldsOption := mkFieldsOption { fi_Resource : string; fi_Fields : list string }.

Definition validate_fields (supported : gmap string fieldset) (fo : FieldsOption)
  : list APIError :=
  match supported !! fi_Resource fo with
  | None => [api_error StatusBadRequest
               ("unsupported resource in fields: " +:+ quoted (fi_Resource fo))]
  | Some fields =>
      omap (fun f => if mget fields f then None
                     else Some (api_error StatusBadRequest
                       ("unsupported field " +:+ quoted f +:+ " for resource "
                          +:+ quoted (fi_Resource fo)))) (fi_Fields fo)
  end.

Definition ValidateFieldsOptions (fos : list FieldsOption) (supported : gmap string fieldset)
  : list APIError := concat (validate_fields supported <$> fos).

(** [getOrValues] of http_list.go. *)
Definition getOrValues (values : list string) : list string :=
  concat ((fun v => Split (TrimSpace v) ",") <$> values).

(** fieldsRegex: [^fields\[(\w+)\]], group 1. *)
Definition fieldsRegex (key : string) : option string :=
  match strip_prefix "fields[" key with
  | None => None
  | Some r =>
      let '(w, r1) := span is_word r in
      if negb (String.eqb w "") && HasPrefix r1 "]" then Some w else None
  end.

Definition parse_fields (fieldsKey : string) (fieldsValues : list string)
  : option FieldsOption :=
  if negb (HasPrefix fieldsKey "fields") || bool_decide (fieldsValues = []) then None
  else
    let orValues := getOrValues fieldsValues in
    if bool_decide (orValues = []) then None
    else match fieldsRegex fieldsKey with
         | None => None
         | Some m1 =>
             let resource := TrimSpace m1 in
             if String.eqb resource "" then None else Some (mkFieldsOption resource orValues)
         end.

Definition ParseFieldsOptions (values : url_values) : list FieldsOption :=
  omap (fun kv => parse_fields kv.1 kv.2) values.

Definition RequestedFields (fields : list FieldsOption) (resource : string) : gset string :=
  list_to_set (concat (fi_Fields <$> filter (fun fo => fi_Resource fo = resource) fields)).

(** ** Pagination (pagination.go) *)

Record Pagination := mkPagination {
  Limit : string;
  Offset : string;
  ValidatedLimit : Z;
  ValidatedOffset : Z
}.

Record PaginationConfig := mkPaginationConfig { MaxLimit : Z; DefaultLimit : Z }.

Definition NewPagination (limit offset : Z) : Pagination :=
  mkPagination (Itoa limit) (Itoa offset) limit offset.

Definition limit_errors (limitStr : string) (config : PaginationConfig) : list APIError :=
  match Atoi limitStr with
  | None => [NewAPIError StatusBadRequest "" "pagination limit must be a number" (Some (Atoi_error limitStr))]
  | Some limit =>
      ((if (MaxLimit config <? limit)%Z
        then [api_error StatusBadRequest ("pagination limit too big (" +:+ limitStr
                +:+ ") maximum is " +:+ Itoa (MaxLimit config))] else []) ++
       (if (limit <=? 0)%Z
        then [api_error StatusBadRequest "pagination limit must be positive"] else []))%list
  end.

Definition offset_errors (offsetStr : string) : list APIError :=
  match Atoi offsetStr with
  | None => [NewAPIError StatusBadRequest "" "pagination offset must be a number" (Some (Atoi_error offsetStr))]
  | Some offset =>
      if (offset <? 0)%Z
      then [api_error StatusBadRequest "pagination offset must not be negative"] else []
  end.

(** [ValidatePagination] on a non-nil pagination; [Atoi_value] is what Atoi
    leaves in the variable when it fails. *)
Definition ValidatePagination (p : Pagination) (config : PaginationConfig)
  : Pagination * list APIError :=
  let limitStr := if String.eqb (Limit p) "" then Itoa (DefaultLimit config) else Limit p in
  (mkPagination limitStr (Offset p) (Atoi_value limitStr) (Atoi_value (Offset p)),
   (limit_errors limitStr config ++ offset_errors (Offset p))%list).

Definition ParsePagination (values : url_values) : Pagination :=
  let limit := match values_get values "page[limit]" with Some (l :: _) => l | _ => "" end in
  let offset := match values_get values "page[offset]" with Some (o :: _) => o | _ => "0" end in
  mkPagination limit offset 0 0.

Definition GetStartEnd (p : Pagination) (totalCount : Z) : Z * Z :=
  let totalCount := if (totalCount <? 0)%Z then 0%Z else totalCount in
  let start := ValidatedOffset p in
  let start := if (start <? 0)%Z then 0%Z else start in
  let start := if (totalCount <? start)%Z then totalCount else start in
  let end_ := wrap64 (start + ValidatedLimit p) in
  let end_ := if (end_ <? start)%Z || (totalCount <? end_)%Z then totalCount else end_ in
  (start, end_).

(** ** List options (http_list.go, http_retrieve.go) *)

Record ListOptions := mkListOptions {
  lo_Sorts : list SortOption;
  lo_Filters : list FilterOption;
  lo_Fields : list FieldsOption;
  lo_Pagination : option Pagination
}.

Definition or_default {A} (parsed dflt : list A) : list A :=
  match parsed with [] => dflt | _ => parsed end.

(** [NewOptions]: [query] is the request's URL query. *)
Definition NewOptions (query sortsDefault filtersDefault fieldsDefault : url_values)
  : ListOptions :=
  mkListOptions
    (or_default (ParseSortOptions query) (ParseSortOptions sortsDefault))
    (or_default (ParseFilterOptions query) (ParseFilterOptions filtersDefault))
    (or_default (ParseFieldsOptions query) (ParseFieldsOptions fieldsDefault))
    (Some (ParsePagination query)).

Definition GetListOptions (query : url_values) : ListOptions := NewOptions query [] [] [].

(** [ValidateListOptions]: the options as the call leaves them, and the error
    it returns ([None] for nil). *)
Definition ValidateListOptions (lo : ListOptions) (supportedSorts supportedFilters : fieldset)
    (supportedFields : option (gmap string fieldset))
    (paginationConfig : option PaginationConfig)
  : ListOptions * option (list APIError) :=
  let sortErrs := ValidateSortOptions (lo_Sorts lo) supportedSorts in
  let '(filters', filterErrs) := ValidateFilterOptions (lo_Filters lo) supportedFilters in
  let '(fields', fieldErrs) :=
    match supportedFields with
    | Some sf => (lo_Fields lo, ValidateFieldsOptions (lo_Fields lo) sf)
    | None => ([], [])
    end in
  let '(pagination', paginationErrs) :=
    match paginationConfig, lo_Pagination lo with
    | Some cfg, Some p => let '(p', errs) := ValidatePagination p cfg in (Some p', errs)
    | Some _, None => (None, [])
    | None, _ => (None, [])
    end in
  let errs := (sortErrs ++ filterErrs ++ fieldErrs ++ paginationErrs)%list in
  (mkListOptions (lo_Sorts lo) filters' fields' pagination',
   if bool_decide (errs = []) then None else Some errs).

Definition GetRetrieveOptions (query : url_values) : list FieldsOption :=
  ParseFieldsOptions query.

Definition ValidateRetrieveOptions (fields : list FieldsOption)
    (supportedFields : gmap string fieldset) : option (list APIError) :=
  let errs := ValidateFieldsOptions fields supportedFields in
  if bool_decide (errs = []) then None else Some errs.

(** ** Conversion to SQL (convert.go)

    [mysql] tells whether the converter's driver name is ["mysql"]; bound
    parameters are strings. *)

(** One comparison and its bound value. *)
Definition where_part (mysql : bool) (fo : FilterOption) (col val : string)
  : string * string :=
  let operator := Code (fo_Operator fo) in
  let lhs := if String.eqb (fo_CompareFunc fo) "" then col
             else fo_CompareFunc fo +:+ "(" +:+ col +:+ ")" in
  let placeholder := if String.eqb (fo_CompareFunc fo) "" then "?"
                     else fo_CompareFunc fo +:+ "(?)" in
  let part := lhs +:+ " " +:+ operator +:+ " " +:+ placeholder in
  if String.eqb val "" then ("(" +:+ part +:+ " OR " +:+ col +:+ " IS NULL)", val)
  else if Contains val "*" && String.eqb operator "=" then
    let escape := if mysql then " LIKE ? ESCAPE '\\'" else " LIKE ? ESCAPE '\'" in
    ("LOWER(" +:+ col +:+ ")" +:+ escape,
     ReplaceAll (ToLower (ReplaceAll val "%" "\%")) "*" "%")
  else (part, val).

(** All comparisons of one filter option, columns outermost. *)
Definition filter_parts (mysql : bool) (fo : FilterOption) : list (string * string) :=
  concat ((fun col => where_part mysql fo col <$> fo_Values fo) <$> fo_Column fo).

Definition filter_where (mysql : bool) (fo : FilterOption) : option string :=
  match (filter_parts mysql fo).*1 with
  | [] => None
  | [p] => Some p
  | ps => Some ("(" +:+ Join ps " OR " +:+ ")")
  end.

Definition AddWhere (mysql : bool) (fos : list FilterOption) (q : string) (params : list string)
  : string * list string :=
  let params' := (params ++ concat ((fun fo => (filter_parts mysql fo).*2) <$> fos))%list in
  match omap (filter_where mysql) fos with
  | [] => (q, params')
  | whereParts =>
      let conj := if Contains (ToUpper q) " WHERE " then " AND " else " WHERE " in
      (q +:+ conj +:+ Join whereParts " AND ", params')
  end.

Definition AddOrderBy (sorts : list SortOption) (q : string) : string :=
  match sorts with
  | [] => q
  | _ => q +:+ " ORDER BY " +:+
         Join ((fun s => so_Column s +:+ " " +:+ (if so_IsASC s then "ASC" else "DESC")) <$> sorts) ", "
  end.

(** strings.Replace(q, "*", new, 1). *)
Definition replace_first_star (q new : string) : string :=
  match Cut q "*" with
  | Some (b, r) => b +:+ new +:+ r
  | None => q
  end.

Definition ReplaceStarSelect (fos : list FieldsOption) (q : string) : string :=
  if negb (HasPrefix (ToUpper q) "SELECT * ") then q
  else match fos with
       | [] => q
       | _ =>
           let fields := concat ((fun fo =>
             (fun f => fi_Resource fo +:+ "." +:+ f) <$> fi_Fields fo) <$> fos) in
           replace_first_star q (Join fields ", ")
       end.

Definition addLimitOffset (pagination : option Pagination) (q : string) (params : list string)
  : string * list string :=
  match pagination with
  | None => (q, params)
  | Some p => (q +:+ " LIMIT ? OFFSET ?", (params ++ [Limit p; Offset p])%list)
  end.

Definition AppendOptionsToQuery (mysql : bool) (o : option ListOptions) (q : string)
    (params : list string) : string * list string :=
  match o with
  | None => (q, params)
  | Some o =>
      let '(q, params) := AddWhere mysql (lo_Filters o) q params in
      let q := AddOrderBy (lo_Sorts o) q in
      let q := ReplaceStarSelect (lo_Fields o) q in
      addLimitOffset (lo_Pagination o) q params
  end.

Definition ConvertListOptionsToQuery (mysql : bool) (lo : option ListOptions) (q : string)
  : string * list string := AppendOptionsToQuery mysql lo q [].

Definition ConvertRetrieveOptionsToQuery (fields : list FieldsOption) (q : string) : string :=
  ReplaceStarSelect fields q.

Example where_example :
  ConvertListOptionsToQuery false
    (Some (mkListOptions [mkSortOption "id" false]
       [mkFilterOption ["a"; "b"] "eq" ["x*"; ""] "" ""; mkFilterOption ["t"] "gt" ["1"] "" "DATETIME"]
       [] (Some (NewPagination 10 0))))
    "SELECT * FROM t" =
  ("SELECT * FROM t WHERE (LOWER(a) LIKE ? ESCAPE '\' OR (a = ? OR a IS NULL) OR LOWER(b) LIKE ? ESCAPE '\' OR (b = ? OR b IS NULL)) AND DATETIME(t) > DATETIME(?) ORDER BY id DESC LIMIT ? OFFSET ?",
   ["x%"; ""; "x%"; ""; "1"; "10"; "0"]).
Proof. reflexivity. Qed.

(** ** Lemmas *)

(** A text without SQL placeholders. *)
Definition clean (s : string) : Prop := count_byte "?" s = 0.

Lemma clean_app a b : clean (a +:+ b) <-> clean a /\ clean b.
Proof. unfold clean. rewrite count_byte_app. lia. Qed.

Lemma count_Join l sep :
  clean sep -> count_byte "?" (Join l sep) = sum_list (count_byte "?" <$> l).
Proof.
  intros Hsep. induction l as [|x [|y l] IH]; [done|simpl; lia|].
  rewrite Join_cons, !count_byte_app, IH. unfold clean in Hsep. simpl. lia.
Qed.

Lemma sum_list_ones {A} (f : A -> nat) (l : list A) :
  Forall (fun x => f x = 1) l -> sum_list (f <$> l) = length l.
Proof. induction 1 as [|x l Hx _ IH]; csimpl; [done|]. rewrite Hx, IH. lia. Qed.

Lemma sum_list_zeros {A} (f : A -> nat) (l : list A) :
  Forall (fun x => f x = 0) l -> sum_list (f <$> l) = 0.
Proof. induction 1 as [|x l Hx _ IH]; csimpl; [done|]. rewrite Hx, IH. lia. Qed.

Lemma Code_clean op : clean (Code op).
Proof. unfold Code. repeat case_match; reflexivity. Qed.

Ltac count_placeholders :=
  rewrite ?count_byte_app; cbn [count_byte Ascii.eqb Bool.eqb];
  repeat match goal with H : clean _ |- _ => rewrite !H end.

Lemma where_part_one_placeholder mysql fo col val :
  clean col -> clean (fo_CompareFunc fo) ->
  count_byte "?" (where_part mysql fo col val).1 = 1.
Proof.
  intros Hc Hf. pose proof (Code_clean (fo_Operator fo)) as Ho.
  unfold where_part, clean in *.
  destruct (String.eqb (fo_CompareFunc fo) ""), (String.eqb val ""),
    (Contains val "*" && String.eqb (Code (fo_Operator fo)) "="), mysql;
    cbn [fst]; rewrite ?count_byte_app; rewrite ?Hc, ?Hf, ?Ho; reflexivity.
Qed.

Record filter_clean (fo : FilterOption) : Prop := {
  filter_clean_cols : Forall clean (fo_Column fo);
  filter_clean_func : clean (fo_CompareFunc fo)
}.

Lemma filter_parts_placeholders mysql fo :
  filter_clean fo ->
  Forall (fun p => count_byte "?" p = 1) (filter_parts mysql fo).*1.
Proof.
  intros [Hc Hf]. unfold filter_parts. apply Forall_fmap, Forall_concat, Forall_fmap.
  eapply Forall_impl; [exact Hc|]. intros col Hcol; simpl. apply Forall_fmap, Forall_true.
  intros v. by apply where_part_one_placeholder.
Qed.

Lemma filter_where_placeholders mysql fo :
  filter_clean fo ->
  match filter_where mysql fo with Some p => count_byte "?" p | None => 0 end =
  length (filter_parts mysql fo).*2.
Proof.
  intros Hc%(filter_parts_placeholders mysql).
  rewrite length_fmap, <-(length_fmap fst). unfold filter_where.
  destruct ((filter_parts mysql fo).*1) as [|p [|p' ps]]; [done|by inversion_clear Hc|].
  rewrite !count_byte_app, count_Join, sum_list_ones by done. simpl. lia.
Qed.

Lemma where_parts_placeholders mysql fos :
  Forall filter_clean fos ->
  sum_list (count_byte "?" <$> omap (filter_where mysql) fos) =
  length (concat ((fun fo => (filter_parts mysql fo).*2) <$> fos)).
Proof.
  induction 1 as [|fo fos Hfo _ IH]; csimpl; [done|].
  pose proof (filter_where_placeholders mysql fo Hfo) as Hp.
  rewrite length_app, <-Hp, <-IH. by destruct (filter_where mysql fo).
Qed.

Lemma AddWhere_placeholders mysql fos q params :
  Forall filter_clean fos ->
  count_byte "?" (AddWhere mysql fos q params).1 + length params =
  count_byte "?" q + length (AddWhere mysql fos q params).2.
Proof.
  intros H%(where_parts_placeholders mysql). unfold AddWhere.
  destruct (omap (filter_where mysql) fos) as [|p ps] eqn:E; cbn [fst snd];
    rewrite length_app; [simpl in H; lia|].
  rewrite !count_byte_app, count_Join, <-H by done. destruct (Contains _ _); simpl; lia.
Qed.

Lemma AddOrderBy_placeholders sorts q :
  Forall (fun s => clean (so_Column s)) sorts ->
  count_byte "?" (AddOrderBy sorts q) = count_byte "?" q.
Proof.
  intros H. unfold AddOrderBy. destruct sorts as [|s sorts]; [done|].
  rewrite !count_byte_app, count_Join by done. rewrite sum_list_zeros; [simpl; lia|].
  apply Forall_fmap. eapply Forall_impl; [exact H|]. intros [c asc] Hc; simpl in *.
  unfold clean in Hc. rewrite !count_byte_app, Hc. by destruct asc.
Qed.

Lemma ReplaceStarSelect_placeholders fos q :
  Forall (fun fo => clean (fi_Resource fo) /\ Forall clean (fi_Fields fo)) fos ->
  count_byte "?" (ReplaceStarSelect fos q) = count_byte "?" q.
Proof.
  intros H. unfold ReplaceStarSelect. destruct (negb _); [done|].
  destruct fos as [|fo fos]; [done|]. unfold replace_first_star.
  destruct (Cut q "*") as [[b r]|] eqn:E; [|done].
  apply Cut_Some in E as [-> _]. rewrite !count_byte_app, count_Join by done.
  rewrite sum_list_zeros; [simpl; lia|].
  apply Forall_concat, Forall_fmap. eapply Forall_impl; [exact H|].
  intros fo' [Hr Hf]; simpl. apply Forall_fmap. eapply Forall_impl; [exact Hf|].
  intros f Hc. unfold clean, compose in *. by rewrite count_byte_app, Hr.
Qed.

(** Supported fields none of whose names holds a placeholder. *)
Definition fieldset_clean (m : fieldset) : Prop := forall k, mget m k = true -> clean k.

Lemma ValidateFilterOptions_none fos supported fos' :
  ValidateFilterOptions fos supported = (fos', []) ->
  Forall2 (fun fo fo' => fo_CompareFunc fo' = fo_CompareFunc fo /\
             fo_Values fo' = fo_Values fo /\ fo_Operator fo' = fo_Operator fo /\
             isSupported fo' supported = true) fos fos'.
Proof.
  revert fos'; induction fos as [|fo fos IH]; intros fos'; simpl.
  - intros; simplify_eq. constructor.
  - destruct (validate_filter supported fo) as [fo1 errs] eqn:E.
    destruct (ValidateFilterOptions fos supported) as [rest errs'] eqn:E'.
    intros [= <- [-> ->]%app_eq_nil]. constructor; [|auto].
    unfold validate_filter in E.
    destruct (is_wildcard fo); simpl in E; case_go; done.
Qed.

Lemma isSupported_clean fo supported :
  fieldset_clean supported -> isSupported fo supported = true ->
  Forall clean (fo_Column fo).
Proof.
  intros Hm. unfold isSupported. rewrite forallb_forall. intros H.
  apply Forall_forall. intros col Hin. specialize (H col). apply list_elem_of_In in Hin. apply H in Hin.
  unfold column_supported in Hin. apply orb_true_iff in Hin as [Hin|Hin].
  - apply andb_true_iff in Hin as [_ Hin]. by apply Hm.
  - apply Hm in Hin. by apply clean_app in Hin as [? _].
Qed.

Lemma ValidateSortOptions_nil so supported :
  ValidateSortOptions so supported = [] ->
  Forall (fun s => mget supported (so_Column s) = true) so.
Proof.
  unfold ValidateSortOptions. induction so as [|s so IH]; csimpl; [done|].
  destruct (mget supported (so_Column s)) eqn:E; [|done]. auto.
Qed.

Lemma validate_fields_nil supported fo :
  validate_fields supported fo = [] ->
  exists fields, supported !! fi_Resource fo = Some fields /\
    Forall (fun f => mget fields f = true) (fi_Fields fo).
Proof.
  unfold validate_fields. destruct (supported !! fi_Resource fo) as [fields|]; [|done].
  intros H. exists fields. split; [done|]. revert H.
  induction (fi_Fields fo) as [|f fs IH]; csimpl; [done|].
  destruct (mget fields f) eqn:E; [|done]. auto.
Qed.

Lemma ValidateFieldsOptions_nil fos supported :
  ValidateFieldsOptions fos supported = [] ->
  Forall (fun fo => exists fields, supported !! fi_Resource fo = Some fields /\
    Forall (fun f => mget fields f = true) (fi_Fields fo)) fos.
Proof.
  unfold ValidateFieldsOptions. induction fos as [|fo fos IH]; csimpl; [done|].
  intros [H1 H2]%app_eq_nil. constructor; [by apply validate_fields_nil|auto].
Qed.

Lemma ParseFilterOptions_no_func values :
  Forall (fun fo => fo_CompareFunc fo = "") (ParseFilterOptions values).
Proof.
  unfold ParseFilterOptions. apply Forall_forall. intros fo ([k v] & _ & H)%list_elem_of_omap.
  simpl in H. unfold parse_filter in H. case_go; done.
Qed.

Lemma or_default_Forall {A} (P : A -> Prop) l l' :
  Forall P l -> Forall P l' -> Forall P (or_default l l').
Proof. by destruct l. Qed.

Lemma NewOptions_no_func query sd fd fid :
  Forall (fun fo => fo_CompareFunc fo = "") (lo_Filters (NewOptions query sd fd fid)).
Proof. apply or_default_Forall; apply ParseFilterOptions_no_func. Qed.

(** What an accepted list request looks like. *)
Record accepted (lo : ListOptions) (sorts filters : fieldset)
    (fields : option (gmap string fieldset)) : Prop := {
  accepted_sorts : Forall (fun s => mget sorts (so_Column s) = true) (lo_Sorts lo);
  accepted_filters : Forall (fun fo => isSupported fo filters = true) (lo_Filters lo);
  accepted_fields : Forall (fun fo => exists sf fs, fields = Some sf /\
    sf !! fi_Resource fo = Some fs /\ Forall (fun f => mget fs f = true) (fi_Fields fo))
    (lo_Fields lo)
}.

Lemma ValidateListOptions_accepted lo sorts filters fields pcfg lo' :
  ValidateListOptions lo sorts filters fields pcfg = (lo', None) ->
  accepted lo' sorts filters fields /\
  (Forall (fun fo => fo_CompareFunc fo = "") (lo_Filters lo) ->
   Forall (fun fo => fo_CompareFunc fo = "") (lo_Filters lo')).
Proof.
  unfold ValidateListOptions.
  destruct (ValidateFilterOptions (lo_Filters lo) filters) as [fos' ferrs] eqn:Ef.
  destruct (match fields with Some sf => _ | None => _ end) as [fields' fierrs] eqn:Efi.
  destruct (match pcfg with Some _ => _ | None => _ end) as [pag' perrs] eqn:Ep.
  case_bool_decide as Herr; [|done]. intros [= <-].
  apply app_eq_nil in Herr as [Hs [-> [-> _]%app_eq_nil]%app_eq_nil].
  apply ValidateFilterOptions_none in Ef.
  split.
  - split; simpl.
    + by apply ValidateSortOptions_nil.
    + clear -Ef. induction Ef as [|?? ?? (_ & _ & _ & ?)]; by constructor.
    + destruct fields as [sf|]; simplify_eq; [|constructor].
      eapply Forall_impl; [by apply ValidateFieldsOptions_nil|].
      intros fo (fs & ? & ?). eauto.
  - intros Hf; simpl. clear -Ef Hf.
    induction Ef as [|?? ?? (H & _)]; inversion_clear Hf; constructor; [congruence|auto].
Qed.

Lemma GetStartEnd_bounds p total :
  let '(start, end_) := GetStartEnd p total in
  (0 <= start <= end_ /\ end_ <= Z.max 0 total)%Z.
Proof.
  unfold GetStartEnd.
  destruct (Z.ltb_spec total 0), (Z.ltb_spec (ValidatedOffset p) 0); cbn zeta;
  match goal with |- context [wrap64 ?x] => generalize (wrap64 x) end; intros w;
  repeat match goal with |- context [(?a <? ?b)%Z] => destruct (Z.ltb_spec a b) end;
  simpl; lia.
Qed.

Lemma span_app f a r :
  string_forallb f a = true -> (match r with "" => true | String c _ => negb (f c) end) = true ->
  span f (a +:+ r) = (a, r).
Proof.
  intros Ha Hr. induction a as [|c a IH]; simpl in *.
  - destruct r as [|c r]; [done|]. simpl. by destruct (f c).
  - apply andb_true_iff in Ha as [-> Ha]. by rewrite (IH Ha).
Qed.

Lemma is_word_not_space c : is_word c = true -> is_space c = false.
Proof. destruct c as [[] [] [] [] [] [] [] []]; vm_compute; congruence. Qed.

Lemma is_word_filter_col c : is_word c = true -> is_filter_col c = true.
Proof. intros H. unfold is_filter_col. by rewrite H. Qed.

Lemma word_no_bar s : string_forallb is_word s = true -> count_byte "|" s = 0.
Proof.
  induction s as [|c s IH]; simpl; [done|]. intros [Hc Hs]%andb_true_iff.
  destruct (Ascii.eqb_spec c "|") as [->|_]; [done|]. simpl. auto.
Qed.

Lemma Split_Join l c :
  l <> [] -> Forall (fun x => count_byte c x = 0) l -> Split (Join l (String c "")) c = l.
Proof.
  intros Hne H. induction H as [|x [|y l] Hx _ IH]; [done|by apply Split_no_sep|].
  rewrite Join_cons. change (String c "" +:+ ?r) with (String c r).
  simpl (String c "" +:+ _). rewrite Split_app_sep by done. by rewrite IH.
Qed.

Lemma Join_forallb f l sep :
  string_forallb f sep = true -> Forall (fun x => string_forallb f x = true) l ->
  string_forallb f (Join l sep) = true.
Proof.
  intros Hs H. induction H as [|x [|y l] Hx _ IH]; [done|done|].
  by rewrite Join_cons, !string_forallb_app, Hx, Hs, IH.
Qed.

Lemma TrimRight_snoc f s c : f c = false -> TrimRightFunc f (s +:+ String c "") = s +:+ String c "".
Proof.
  intros Hc. induction s as [|a s IH]; simpl; [by rewrite Hc|]. rewrite IH.
  destruct (s +:+ String c "") eqn:E; [by destruct s|]. by rewrite andb_false_r.
Qed.

Lemma upto_last_snoc c s :
  count_byte (ascii_of_nat 10) s = 0 -> c <> ascii_of_nat 10 ->
  upto_last c (s +:+ String c "") = Some s.
Proof.
  intros Hs Hc. induction s as [|a s IH]; simpl in *.
  - destruct (Ascii.eqb_spec c (ascii_of_nat 10)); [done|]. by rewrite Ascii.eqb_refl.
  - destruct (Ascii.eqb a (ascii_of_nat 10)); [lia|]. by rewrite IH.
Qed.

(** A filter whose textual form is unambiguous: word-character columns and
    operator, values that are trimmed and hold no comma or line break. *)
Record printable_filter (fo : FilterOption) : Prop := {
  pf_cols : fo_Column fo <> [];
  pf_col : Forall (fun c => c <> "" /\ string_forallb is_word c = true) (fo_Column fo);
  pf_op : string_forallb is_word (fo_Operator fo) = true;
  pf_values : Join (fo_Values fo) "," <> "";
  pf_value : Forall (fun v => TrimSpace v = v /\ count_byte "," v = 0 /\
    count_byte (ascii_of_nat 10) v = 0) (fo_Values fo);
  pf_lop : fo_ValuesLogicalOperator fo = "and" \/ fo_ValuesLogicalOperator fo = "or";
  pf_func : fo_CompareFunc fo = ""
}.

(** The query parameter that asks for a filter: the key as the code prints it,
    and the value in the syntax the code parses, which it never prints. *)
Definition filter_param (fo : FilterOption) : string * list string :=
  (FilterOption_String fo,
   [fo_ValuesLogicalOperator fo +:+ "(" +:+ Join (fo_Values fo) "," +:+ ")"]).

Lemma word_no_space s :
  string_forallb is_word s = true -> string_forallb (fun c => negb (is_space c)) s = true.
Proof. apply string_forallb_impl. intros c Hc. by rewrite is_word_not_space. Qed.

Lemma Join_columns_nonempty cols :
  cols <> [] -> Forall (fun c => c <> "" /\ string_forallb is_word c = true) cols ->
  (Join cols "|" =? "") = false.
Proof.
  intros Hne H. apply String.eqb_neq. destruct H as [|c [|c' l] [Hc _] _]; [done|done|].
  rewrite Join_cons. by destruct c.
Qed.

Lemma filterRegex_String fo :
  printable_filter fo ->
  filterRegex (FilterOption_String fo) = Some (Join (fo_Column fo) "|", fo_Operator fo).
Proof.
  intros [Hne Hcols Hop _ _ _ _].
  assert (string_forallb is_filter_col (Join (fo_Column fo) "|") = true) as Hjoin.
  { apply Join_forallb; [done|]. eapply Forall_impl; [exact Hcols|]. intros c [_ Hc].
    eapply string_forallb_impl; [exact is_word_filter_col|exact Hc]. }
  pose proof (Join_columns_nonempty _ Hne Hcols) as Hnn.
  unfold filterRegex, FilterOption_String.
  destruct (String.eqb_spec (fo_Operator fo) "") as [Ho|Ho].
  - rewrite strip_prefix_app, (span_app _ _ "]") by done. rewrite Hnn. simpl. by rewrite Ho.
  - rewrite !sapp_assoc, strip_prefix_app, span_app by done. rewrite Hnn.
    simpl. rewrite span_app by done. reflexivity.
Qed.

Lemma count_Join_zero c l sep :
  count_byte c sep = 0 -> Forall (fun x => count_byte c x = 0) l -> count_byte c (Join l sep) = 0.
Proof.
  intros Hs H. induction H as [|x [|y l] Hx _ IH]; [done|done|].
  rewrite Join_cons, !count_byte_app. lia.
Qed.

Lemma getFilterValues_param fo :
  printable_filter fo ->
  getFilterValues [fo_ValuesLogicalOperator fo +:+ "(" +:+ Join (fo_Values fo) "," +:+ ")"] =
  (fo_Values fo, fo_ValuesLogicalOperator fo).
Proof.
  intros [_ _ _ Hne Hvs Hlop _]. unfold getFilterValues. cbn [getFilterValues_from].
  assert (Hnl : count_byte (ascii_of_nat 10) (Join (fo_Values fo) ",") = 0).
  { apply count_Join_zero; [done|]. eapply Forall_impl; [exact Hvs|]. tauto. }
  assert (Hsplit : TrimSpace <$> Split (Join (fo_Values fo) ",") "," = fo_Values fo).
  { rewrite Split_Join; [|by destruct (fo_Values fo)|eapply Forall_impl; [exact Hvs|]; tauto].
    clear -Hvs. induction Hvs as [|v vs (Hv & _) _ IH]; csimpl; [done|]. by rewrite Hv, IH. }
  assert (Htrim : forall op, op = "and" \/ op = "or" ->
    TrimSpace (op +:+ "(" +:+ Join (fo_Values fo) "," +:+ ")") =
    op +:+ "(" +:+ Join (fo_Values fo) "," +:+ ")").
  { intros op Hop. unfold TrimSpace.
    assert (TrimLeftFunc is_space (op +:+ "(" +:+ Join (fo_Values fo) "," +:+ ")") =
      (op +:+ "(" +:+ Join (fo_Values fo) ",") +:+ ")") as ->
      by (rewrite !sapp_assoc; destruct Hop as [-> | ->]; done).
    rewrite TrimRight_snoc by done. by rewrite !sapp_assoc. }
  assert (Hblock : forall op, op = "and" \/ op = "or" ->
    valuesLogicalOpsblock (op +:+ "(" +:+ Join (fo_Values fo) "," +:+ ")") =
    Some (op, Join (fo_Values fo) ",")).
  { intros op [-> | ->]; unfold valuesLogicalOpsblock; simpl; rewrite upto_last_snoc by done;
      by rewrite (proj2 (String.eqb_neq _ _) Hne). }
  rewrite Htrim, Hblock by done. by rewrite Hsplit, app_nil_r.
Qed.

Lemma parse_filter_param fo :
  printable_filter fo -> parse_filter (filter_param fo).1 (filter_param fo).2 = Some fo.
Proof.
  intros H. unfold filter_param, parse_filter. cbn [fst snd].
  rewrite (getFilterValues_param fo H), (filterRegex_String fo H).
  assert (HasPrefix (FilterOption_String fo) "filter" = true) as ->.
  { unfold FilterOption_String. by destruct (String.eqb _ _). }
  destruct H as [Hne Hcols Hop Hvne _ _ Hfun]. rewrite bool_decide_eq_false_2 by done.
  simpl. rewrite bool_decide_eq_false_2 by (by destruct (fo_Values fo)).
  rewrite TrimSpace_no_space.
  2:{ apply Join_forallb; [done|]. eapply Forall_impl; [exact Hcols|]. intros c [_ Hc].
      by apply word_no_space. }
  rewrite Join_columns_nonempty, (TrimSpace_no_space (fo_Operator fo)) by auto using word_no_space.
  rewrite Split_Join; [|done|].
  2:{ eapply Forall_impl; [exact Hcols|]. intros c [_ Hc]. by apply word_no_bar. }
  destruct fo; simpl in *. by subst.
Qed.

(** ** The words of a statement

    The maximal runs of word characters of a text: its keywords and names. *)

(** The run the text begins with, possibly empty, and the runs after it. *)
Fixpoint word_runs (s : string) : string * list string :=
  match s with
  | "" => ("", [])
  | String c s' =>
      let '(w, ws) := word_runs s' in
      if is_word c then (String c w, ws) else ("", w :: ws)
  end.

Definition words (s : string) : list string :=
  List.filter (fun w => negb (String.eqb w "")) ((word_runs s).1 :: (word_runs s).2).

Example words_example : words "SELECT t.a FROM t WHERE (b_1 = ?)" = ["SELECT"; "t"; "a"; "FROM"; "t"; "WHERE"; "b_1"].
Proof. reflexivity. Qed.

Definition sql_keywords : list string :=
  ["WHERE"; "AND"; "OR"; "IS"; "NULL"; "LOWER"; "LIKE"; "ESCAPE"; "ORDER"; "BY"; "ASC"; "DESC";
   "LIMIT"; "OFFSET"].

(** The names an endpoint's supported-field maps allow. *)
Definition supported_name (sorts filters : fieldset) (fields : option (gmap string fieldset))
    (name : string) : Prop :=
  mget sorts name = true \/
  (exists op, column_supported op filters name = true) \/
  (exists sf fs, fields = Some sf /\
    (sf !! name = Some fs \/ exists r, sf !! r = Some fs /\ mget fs name = true)).

Lemma word_runs_sep a c b :
  is_word c = false ->
  word_runs (a +:+ String c b) =
  ((word_runs a).1, ((word_runs a).2 ++ (word_runs b).1 :: (word_runs b).2)%list).
Proof.
  intros Hc. induction a as [|x a IH]; simpl.
  - rewrite Hc. by destruct (word_runs b).
  - rewrite IH.
    destruct (word_runs a) as [w ws]. by destruct (is_word x).
Qed.

Lemma words_sep a c b : is_word c = false -> words (a +:+ String c b) = (words a ++ words b)%list.
Proof.
  intros Hc. unfold words. rewrite word_runs_sep by done. cbn [fst snd].
  by rewrite app_comm_cons, List.filter_app.
Qed.

Section words_in.
Context (P : string -> Prop).

Definition words_in (s : string) : Prop := Forall P (words s).

Lemma words_in_sep a c b :
  is_word c = false -> words_in a -> words_in b -> words_in (a +:+ String c b).
Proof. intros Hc Ha Hb. unfold words_in. rewrite words_sep by done. by apply Forall_app. Qed.

Lemma words_in_sep_inv a c b :
  is_word c = false -> words_in (a +:+ String c b) -> words_in a /\ words_in b.
Proof. intros Hc. unfold words_in. rewrite words_sep by done. apply Forall_app. Qed.

(** A separator in front, and one after a literal. *)
Lemma words_in_cons c b : is_word c = false -> words_in b -> words_in (String c b).
Proof. intros Hc Hb. apply (words_in_sep "" c b); [done| |done]. by constructor. Qed.

Lemma words_in_literal a b :
  is_word b = false -> words_in a -> forall x, words_in x -> words_in ((a +:+ String b "") +:+ x).
Proof. intros Hb Ha x Hx. rewrite sapp_assoc. by apply words_in_sep. Qed.

Lemma words_in_Join l c d :
  is_word c = false -> Forall words_in l -> (forall s, words_in s -> words_in (d +:+ s)) ->
  words_in (Join l (String c d)).
Proof.
  intros Hc Hl Hd. induction Hl as [|x [|y l] Hx _ IH]; [by constructor|done|].
  rewrite Join_cons. apply (words_in_sep x c (d +:+ Join (y :: l) (String c d))); auto.
Qed.
End words_in.

Lemma ToUpper_cons_inv q c s :
  ToUpper q = String c s -> exists c' q', q = String c' q' /\ upper_byte c' = c /\ ToUpper q' = s.
Proof. destruct q as [|c' q']; [done|]. intros [= <- <-]. eauto. Qed.

Lemma upper_byte_symbol c d : upper_byte c = d -> d = " "%char \/ d = "*"%char -> c = d.
Proof.
  intros Hd [-> | ->]; revert Hd;
    destruct c as [[] [] [] [] [] [] [] []]; vm_compute; congruence.
Qed.

Lemma no_star c d : upper_byte c = d -> d <> "*"%char -> Ascii.eqb "*" c = false.
Proof. intros <- Hd. apply Ascii.eqb_neq. intros <-. by apply Hd. Qed.

(** A [SELECT] with a star has a space on each side of its first star. *)
Lemma select_star_inv q :
  HasPrefix (ToUpper q) "SELECT * " = true ->
  exists b r, q = b +:+ " * " +:+ r /\ Cut q "*" = Some (b +:+ " ", " " +:+ r).
Proof.
  intros [r0 Hq]%HasPrefix_spec.
  apply ToUpper_cons_inv in Hq as (c1 & q1 & -> & H1 & Hq).
  apply ToUpper_cons_inv in Hq as (c2 & q2 & -> & H2 & Hq).
  apply ToUpper_cons_inv in Hq as (c3 & q3 & -> & H3 & Hq).
  apply ToUpper_cons_inv in Hq as (c4 & q4 & -> & H4 & Hq).
  apply ToUpper_cons_inv in Hq as (c5 & q5 & -> & H5 & Hq).
  apply ToUpper_cons_inv in Hq as (c6 & q6 & -> & H6 & Hq).
  apply ToUpper_cons_inv in Hq as (c7 & q7 & -> & H7%upper_byte_symbol & Hq); [|by auto].
  apply ToUpper_cons_inv in Hq as (c8 & q8 & -> & H8%upper_byte_symbol & Hq); [|by auto].
  apply ToUpper_cons_inv in Hq as (c9 & q9 & -> & H9%upper_byte_symbol & Hq); [|by auto].
  subst c7 c8 c9.
  exists (String c1 (String c2 (String c3 (String c4 (String c5 (String c6 "")))))), q9.
  split; [reflexivity|]. cbn [Cut strip_prefix].
  rewrite (no_star _ _ H1), (no_star _ _ H2), (no_star _ _ H3), (no_star _ _ H4),
    (no_star _ _ H5), (no_star _ _ H6) by done.
  reflexivity.
Qed.

Section sql_words.
Context (P : string -> Prop) (HP : Forall P sql_keywords).

Lemma keyword_word k : words k = [k] -> k ∈ sql_keywords -> words_in P k.
Proof. intros Hk Hin. unfold words_in. rewrite Hk. constructor; [|done]. by eapply Forall_forall. Qed.

#[local] Ltac keyword := apply keyword_word; [reflexivity|unfold sql_keywords; set_solver].
#[local] Ltac sep := first
  [ match goal with |- words_in P (?a +:+ String ?c ?b) => apply (words_in_sep P a c b); [reflexivity|..] end
  | apply (words_in_cons P); [reflexivity|] ].

Lemma where_part_words mysql fo col val :
  fo_CompareFunc fo = "" -> words_in P col -> words_in P (where_part mysql fo col val).1.
Proof.
  intros Hf Hc. unfold where_part. rewrite Hf. cbn [String.eqb].
  assert (Hpart : words_in P (col +:+ " " +:+ Code (fo_Operator fo) +:+ " ?")).
  { apply (words_in_sep P col " " (_ +:+ _)); [done..|]. unfold Code. repeat case_match; by constructor. }
  destruct (String.eqb val ""); [|destruct (Contains val "*" && _)]; cbn [fst]; [| |exact Hpart].
  - change (_ ++ _)%string with (String "(" ((col +:+ " " +:+ Code (fo_Operator fo) +:+ " ?") +:+
      String " " ("OR" +:+ String " " (col +:+ String " " ("IS" +:+ String " " ("NULL" +:+ String ")" "")))))).
    repeat sep; try keyword; try done; by constructor.
  - assert (Hlike : forall tail, words tail = [] -> words_in P ("LOWER" +:+ String "(" (col +:+
        String ")" (String " " ("LIKE" +:+ String " " (String "?" (String " " ("ESCAPE" +:+
        String " " (String "'" tail))))))))).
    { intros tail Ht. repeat sep; try keyword; try done. unfold words_in. by rewrite Ht. }
    destruct mysql; [apply (Hlike "\\'")|apply (Hlike "\'")]; reflexivity.
Qed.

Lemma filter_where_words mysql fo s :
  fo_CompareFunc fo = "" -> Forall (words_in P) (fo_Column fo) -> filter_where mysql fo = Some s ->
  words_in P s.
Proof.
  intros Hf Hc. unfold filter_where.
  assert (Hparts : Forall (words_in P) (filter_parts mysql fo).*1).
  { unfold filter_parts. apply Forall_fmap, Forall_concat, Forall_fmap.
    eapply Forall_impl; [exact Hc|]. intros col Hcol; simpl. apply Forall_fmap, Forall_true.
    intros v. by apply where_part_words. }
  destruct ((filter_parts mysql fo).*1) as [|p [|p' ps]]; [done| |]; intros [= <-].
  - by inversion_clear Hparts.
  - change (words_in P (String "(" (Join (p :: p' :: ps) " OR " +:+ String ")" ""))).
    sep. sep; [|by constructor]. apply (words_in_Join P _ " " "OR "); [done..|]. intros x Hx.
    change (words_in P ("OR" +:+ String " " x)). sep; [keyword|done].
Qed.

Lemma AddWhere_words mysql fos q params :
  Forall (fun fo => fo_CompareFunc fo = "" /\ Forall (words_in P) (fo_Column fo)) fos ->
  words_in P q -> words_in P (AddWhere mysql fos q params).1.
Proof.
  intros Hfos Hq. unfold AddWhere.
  assert (Hparts : Forall (words_in P) (omap (filter_where mysql) fos)).
  { apply Forall_forall. intros s (fo & Hin & Hs)%list_elem_of_omap.
    destruct (proj1 (Forall_forall _ _) Hfos fo Hin). by eapply filter_where_words. }
  destruct (omap (filter_where mysql) fos) as [|s parts]; [done|]. cbn [fst].
  assert (Hjoin : words_in P (Join (s :: parts) " AND ")).
  { apply (words_in_Join P _ " " "AND "); [done..|]. intros x Hx.
    change (words_in P ("AND" +:+ String " " x)). sep; [keyword|done]. }
  destruct (Contains _ _).
  - change (words_in P (q +:+ String " " ("AND" +:+ String " " (Join (s :: parts) " AND ")))).
    repeat sep; try keyword; done.
  - change (words_in P (q +:+ String " " ("WHERE" +:+ String " " (Join (s :: parts) " AND ")))).
    repeat sep; try keyword; done.
Qed.

Lemma words_in_Join_comma l :
  Forall (words_in P) l -> words_in P (Join l ", ").
Proof.
  intros Hl. apply (words_in_Join P _ "," " "); [done..|]. intros x Hx.
  change (words_in P (String " " x)). by sep.
Qed.

Lemma AddOrderBy_words sorts q :
  Forall (fun s => words_in P (so_Column s)) sorts -> words_in P q -> words_in P (AddOrderBy sorts q).
Proof.
  intros Hs Hq. unfold AddOrderBy. destruct sorts as [|s sorts]; [done|].
  set (keys := Join _ ", "). change (words_in P (q +:+ String " " ("ORDER" +:+ String " "
    ("BY" +:+ String " " keys)))).
  repeat sep; try keyword; [done|]. subst keys. apply words_in_Join_comma, Forall_fmap.
  eapply Forall_impl; [exact Hs|]. intros [c asc] Hc; simpl in *.
  apply (words_in_sep P c " "); [done..|]. destruct asc; keyword.
Qed.

Lemma ReplaceStarSelect_words fos q :
  Forall (fun fo => words_in P (fi_Resource fo) /\ Forall (words_in P) (fi_Fields fo)) fos ->
  words_in P q -> words_in P (ReplaceStarSelect fos q).
Proof.
  intros Hfos Hq. unfold ReplaceStarSelect.
  destruct (HasPrefix (ToUpper q) "SELECT * ") eqn:Hsel; cbn [negb]; [|done].
  destruct fos as [|fo fos]; [done|]. set (fields := Join _ ", ").
  assert (Hfields : words_in P fields).
  { subst fields. apply words_in_Join_comma, Forall_concat, Forall_fmap.
    eapply Forall_impl; [exact Hfos|]. intros fo' [Hr Hf]; simpl. apply Forall_fmap.
    eapply Forall_impl; [exact Hf|]. intros f Hff. by apply (words_in_sep P _ "."). }
  apply select_star_inv in Hsel as (b & r & -> & Hcut).
  unfold replace_first_star. rewrite Hcut.
  change (words_in P (b +:+ String " " (String "*" (String " " r)))) in Hq.
  apply words_in_sep_inv in Hq as [Hb Hr]; [|done].
  apply (words_in_sep_inv P "" "*") in Hr as [_ Hr]; [|done].
  apply (words_in_sep_inv P "" " ") in Hr as [_ Hr]; [|done].
  rewrite sapp_assoc. apply (words_in_sep P b " "); [done..|].
  by apply (words_in_sep P fields " ").
Qed.

Lemma addLimitOffset_words pagination q params :
  words_in P q -> words_in P (addLimitOffset pagination q params).1.
Proof.
  intros Hq. unfold addLimitOffset. destruct pagination as [p|]; [|done].
  change (words_in P (q +:+ String " " ("LIMIT" +:+ String " " (String "?" (String " "
    ("OFFSET" +:+ String " " "?")))))).
  repeat sep; try keyword; try done; by constructor.
Qed.

End sql_words.

(** The words an endpoint's query may come to hold. *)
Definition allowed_word (sorts filters : fieldset) (fields : option (gmap string fieldset))
    (q w : string) : Prop :=
  w ∈ words q \/ w ∈ sql_keywords \/
  exists name, supported_name sorts filters fields name /\ w ∈ words name.

Lemma accepted_words mysql lo sorts filters fields q :
  accepted lo sorts filters fields ->
  Forall (fun fo => fo_CompareFunc fo = "") (lo_Filters lo) ->
  words_in (allowed_word sorts filters fields q) (ConvertListOptionsToQuery mysql (Some lo) q).1.
Proof.
  intros [Hs Hf Hfi] Hfun. set (P := allowed_word sorts filters fields q).
  assert (HP : Forall P sql_keywords) by (apply Forall_forall; intros w ?; right; by left).
  assert (Hname : forall name, supported_name sorts filters fields name -> words_in P name).
  { intros name Hn. apply Forall_forall. intros w Hw. right. right. eauto. }
  assert (Hq : words_in P q) by (apply Forall_forall; intros w ?; by left).
  unfold ConvertListOptionsToQuery, AppendOptionsToQuery.
  assert (Hw : words_in P (AddWhere mysql (lo_Filters lo) q []).1).
  { apply AddWhere_words; [done| |done]. apply Forall_forall. intros fo Hin.
    rewrite Forall_forall in Hf, Hfun. split; [by apply Hfun|]. apply Forall_forall.
    intros col Hcol%list_elem_of_In. apply Hname. right. left. exists (fo_Operator fo).
    pose proof (Hf fo Hin) as Hsup. unfold isSupported in Hsup. rewrite forallb_forall in Hsup.
    by apply Hsup. }
  destruct (AddWhere mysql (lo_Filters lo) q []) as [q1 params1]. apply addLimitOffset_words; [done|].
  apply ReplaceStarSelect_words.
  - eapply Forall_impl; [exact Hfi|]. intros fo (sf & fs & -> & Hr & Hfs). split.
    + apply Hname. right. right. exists sf, fs. eauto.
    + eapply Forall_impl; [exact Hfs|]. intros f Hff. apply Hname. right. right. exists sf, fs. eauto.
  - apply AddOrderBy_words; [done| |done]. eapply Forall_impl; [exact Hs|].
    intros s Hso. apply Hname. by left.
Qed.

(** ** Properties *)

(** C15: Every list request that validation accepts becomes an SQL statement
    with exactly one placeholder per bound parameter, whatever the request
    asks for, and nothing of the request but supported names gets into its text:
    every word of the statement (a maximal run of word characters) is a word of
    the endpoint's own query, an SQL keyword the converter writes, or a word of
    a sort column, filter column, resource or field that the endpoint's
    supported-field maps name. *)
Theorem accepted_query_binds_every_value mysql query sd fd fid sorts filters fields pcfg lo q :
  fieldset_clean sorts -> fieldset_clean filters ->
  (forall sf r fs, fields = Some sf -> sf !! r = Some fs -> clean r /\ fieldset_clean fs) ->
  ValidateListOptions (NewOptions query sd fd fid) sorts filters fields pcfg = (lo, None) ->
  let '(sql, params) := ConvertListOptionsToQuery mysql (Some lo) q in
  count_byte "?" sql = count_byte "?" q + length params /\ accepted lo sorts filters fields /\
  forall w, w ∈ words sql -> w ∈ words q \/ w ∈ sql_keywords \/
    exists name, supported_name sorts filters fields name /\ w ∈ words name.
Proof.
  intros Hs Hf Hfi [Hacc Hfun]%ValidateListOptions_accepted.
  specialize (Hfun (NewOptions_no_func query sd fd fid)).
  pose proof (accepted_words mysql lo sorts filters fields q Hacc Hfun) as Hwords.
  destruct (ConvertListOptionsToQuery _ _ _) as [sql params] eqn:E.
  split; [|split; [done|]; intros w Hw; by apply (proj1 (Forall_forall _ _) Hwords)].
  unfold ConvertListOptionsToQuery, AppendOptionsToQuery in E.
  assert (Forall filter_clean (lo_Filters lo)) as Hfc.
  { apply Forall_forall. intros fo Hin. split.
    - eapply isSupported_clean; [exact Hf|].
      exact (proj1 (Forall_forall _ _) (accepted_filters _ _ _ _ Hacc) fo Hin).
    - rewrite (proj1 (Forall_forall _ _) Hfun fo Hin). done. }
  pose proof (AddWhere_placeholders mysql (lo_Filters lo) q [] Hfc) as Hw.
  destruct (AddWhere mysql (lo_Filters lo) q []) as [q1 params1]. simpl in Hw.
  assert (count_byte "?" (ReplaceStarSelect (lo_Fields lo) (AddOrderBy (lo_Sorts lo) q1)) =
    count_byte "?" q1) as Hq.
  { rewrite ReplaceStarSelect_placeholders, AddOrderBy_placeholders; [done| |].
    - eapply Forall_impl; [exact (accepted_sorts _ _ _ _ Hacc)|]. intros s; apply Hs.
    - eapply Forall_impl; [exact (accepted_fields _ _ _ _ Hacc)|].
      intros fo (sf & fs & Hsf & Hl & Hall). destruct (Hfi _ _ _ Hsf Hl) as [Hr Hfs].
      split; [done|]. eapply Forall_impl; [exact Hall|]. intros f; apply Hfs. }
  unfold addLimitOffset in E. destruct (lo_Pagination lo); simplify_eq; [|lia].
  rewrite count_byte_app, length_app, Hq. simpl. lia.
Qed.

Definition vault_supportedFields : fieldset :=
  list_to_map ((fun k => (k, true)) <$> ["id"; "client_id"; "created_by"; "created_at"; "key"]).

Lemma vault_supportedFields_clean : fieldset_clean vault_supportedFields.
Proof.
  intros k. unfold mget. destruct (vault_supportedFields !! k) as [b|] eqn:E; [|done].
  intros _. apply elem_of_list_to_map_2 in E. revert E.
  set_unfold. intros E. naive_solver.
Qed.

Lemma accepted_query_binds_every_value_witness :
  exists lo,
  ValidateListOptions (GetListOptions [("filter[key]", ["a*,b"]); ("sort", ["-id"])])
    vault_supportedFields vault_supportedFields None None = (lo, None) /\
  let '(sql, params) := ConvertListOptionsToQuery false (Some lo) "SELECT * FROM v WHERE x = ?" in
  count_byte "?" sql = 1 + length params /\
  forall w, w ∈ words sql -> w ∈ words "SELECT * FROM v WHERE x = ?" \/ w ∈ sql_keywords \/
    exists name, supported_name vault_supportedFields vault_supportedFields None name /\ w ∈ words name.
Proof.
  eexists. split; [vm_compute; reflexivity|].
  pose proof (accepted_query_binds_every_value false
    [("filter[key]", ["a*,b"]); ("sort", ["-id"])] [] [] []
    vault_supportedFields vault_supportedFields None None _ "SELECT * FROM v WHERE x = ?"
    vault_supportedFields_clean vault_supportedFields_clean
    ltac:(discriminate) ltac:(vm_compute; reflexivity)) as H.
  destruct (ConvertListOptionsToQuery _ _ _) as [sql params]. destruct H as (H1 & _ & H2). done.
Defined.

(** C23: For every pagination value, also one that failed validation, the
    bounds of [GetStartEnd] lie within the list, and on a validated page they
    cut out the elements from [offset] on, [limit] of them at most. *)
Theorem pagination_slice {A} (l : list A) (p : Pagination) :
  let total := Z.of_nat (length l) in
  let '(start, end_) := GetStartEnd p total in
  (0 <= start <= end_ /\ end_ <= total)%Z /\
  ((0 <= ValidatedOffset p)%Z -> (0 <= ValidatedLimit p)%Z ->
   (total + ValidatedLimit p <= int64_max)%Z ->
   take (Z.to_nat (end_ - start)) (drop (Z.to_nat start) l) =
   take (Z.to_nat (ValidatedLimit p)) (drop (Z.to_nat (ValidatedOffset p)) l)).
Proof.
  intros total. pose proof (GetStartEnd_bounds p total) as Hb.
  destruct (GetStartEnd p total) as [start end_] eqn:E.
  split; [subst total; lia|]. intros Ho Hl Hov. unfold GetStartEnd in E.
  rewrite (proj2 (Z.ltb_ge total 0)), (proj2 (Z.ltb_ge (ValidatedOffset p) 0)) in E by lia.
  destruct (Z.ltb_spec total (ValidatedOffset p)) as [Hgt|Hle].
  - assert (start = total) by congruence. subst start.
    rewrite !(drop_ge l) by lia. by rewrite !take_nil.
  - rewrite wrap64_small in E by (unfold int64_min; lia).
    rewrite (proj2 (Z.ltb_ge (ValidatedOffset p + ValidatedLimit p) (ValidatedOffset p))) in E by lia.
    simpl in E. destruct (Z.ltb_spec total (ValidatedOffset p + ValidatedLimit p)) as [Hc|Hc];
      simplify_eq; [|f_equal; lia].
    rewrite !take_ge; rewrite ?length_drop; try lia. done.
Qed.

Lemma pagination_slice_witness :
  GetStartEnd (NewPagination 2 int64_max) 3 = (3, 3)%Z /\
  take 1 (drop 2 [7; 8; 9]) = take 2 (drop 2 [7; 8; 9]).
Proof.
  split; [reflexivity|].
  pose proof (pagination_slice [7; 8; 9] (NewPagination 2 2)) as H.
  vm_compute (GetStartEnd _ _) in H. cbn zeta in H. destruct H as [_ H].
  apply H; by vm_compute.
Defined.

(** C24: A filter survives the trip through a URL: parsing the query parameter
    that [FilterOption.String] and the and/or value syntax spell out gives
    back the filter, if its text is unambiguous ([printable_filter]).  The key is
    printed by the code, the value by [filter_param]. *)
Theorem filter_roundtrip fo :
  printable_filter fo -> ParseFilterOptions [filter_param fo] = [fo].
Proof.
  intros H.
  change (match parse_filter (filter_param fo).1 (filter_param fo).2 with
          | Some y => [y] | None => [] end = [fo]).
  by rewrite parse_filter_param.
Qed.

Lemma filter_roundtrip_witness :
  ParseFilterOptions [filter_param (mkFilterOption ["name"; "os"] "gt" ["a b"; ""] "and" "")] =
  [mkFilterOption ["name"; "os"] "gt" ["a b"; ""] "and" ""].
Proof.
  apply filter_roundtrip. split; simpl; try done.
  - repeat constructor; done.
  - repeat constructor; done.
  - by left.
Defined.
