(* ===== verification/ClientGroups.v ===== *)
(** * Client groups (server/cgroups/group.go)

    A client group selects clients by patterns on their attributes and tags
    and is opened to API users by user group.  [Param_matches] is the pattern
    matcher; [glob] below is what a pattern means.  The JSON decoding of a raw
    tag definition ([json.Unmarshal] into the two types the code tries) is an
    argument of [ParseTag]. *)

From stdpp Require Import base gmap strings list numbers sets.
From Stdlib Require Import ZArith Ascii Lia.
From S2P Require Import Prelude GoStrings.

Local Open Scope string_scope.

(** ** Patterns *)

(** The loop over the parts between the stars: each is searched in what the
    previous one left. *)
Fixpoint scan_parts (parts : list string) (value : string) : bool :=
  match parts with
  | [] => true
  | part :: parts' =>
      match Cut value part with
      | None => false
      | Some (_, rest) => scan_parts parts' rest
      end
  end.

(** [Param.matches]. *)
Definition Param_matches (p value : string) : bool :=
  let str := ToLower p in
  let value := ToLower value in
  if Contains str "*" then
    let parts := Split str "*" in
    if negb (HasPrefix value (default "" (head parts)))
       || negb (HasSuffix value (List.last parts ""))
    then false
    else scan_parts parts value
  else String.eqb str value.

(** [ParamValues.MatchesOneOf]; [None] is the nil pointer. *)
Definition MatchesOneOf (p : option (list string)) (values : list string) : bool :=
  match p with
  | None => true
  | Some ps =>
      if bool_decide (ps = []) && bool_decide (values = []) then true
      else existsb (fun curParam => existsb (Param_matches curParam) values) ps
  end.

(** ** Tags *)

Definition allowedOperator (op : string) : bool :=
  String.eqb (ToLower op) "and" || String.eqb (ToLower op) "or".

(** What json.Unmarshal yields for a raw message, as a map of string lists
    and as a string list. *)
Record TagDecoder := mkTagDecoder {
  as_map : string -> option (gmap string (list string));
  as_list : string -> option (list string)
}.

Definition ParseTag (dec : TagDecoder) (raw : string) : result (string * list string) :=
  let as_patterns :=
    match as_list dec raw with
    | Some (x :: l) => Ok ("or", x :: l)
    | _ => Err (EPlain "error parsing tags group definitions")
    end in
  match as_map dec raw with
  | Some m =>
      match map_to_list m with
      | [(operator, operands)] =>
          if negb (allowedOperator operator)
          then Err (EPlain "error, only and/or is allowed for tags group definitions")
          else if bool_decide (operands = [])
               then Err (EPlain "error parsing tags group definitions")
               else Ok (operator, operands)
      | _ => as_patterns
      end
  | None => as_patterns
  end.

(** The operands that match one of the values: the keys of [matches]. *)
Definition matched_operands (operands values : list string) : gset string :=
  list_to_set (filter (fun o => existsb (Param_matches o) values = true) operands).

Definition MatchesRawTags (dec : TagDecoder) (p : option string) (values : list string) : bool :=
  match p with
  | None => true
  | Some raw =>
      if String.eqb raw "" && bool_decide (values = []) then true
      else match ParseTag dec raw with
           | Err _ => false
           | Ok (operator, operands) =>
               if bool_decide (operands = []) then false
               else
                 let matches := matched_operands operands values in
                 if String.eqb operator "and" then bool_decide (size matches = length operands)
                 else if String.eqb operator "or" then bool_decide (0 < size matches)
                 else false
           end
  end.

(** ** Groups *)

Record ClientParams := mkClientParams {
  cp_ClientID : option (list string);
  cp_Name : option (list string);
  cp_OS : option (list string);
  cp_OSArch : option (list string);
  cp_OSFamily : option (list string);
  cp_OSKernel : option (list string);
  cp_Hostname : option (list string);
  cp_IPv4 : option (list string);
  cp_IPv6 : option (list string);
  cp_Tag : option string;
  cp_Version : option (list string);
  cp_Address : option (list string);
  cp_ClientAuthID : option (list string);
  cp_ConnectionState : option (list string)
}.

Definition noParams : ClientParams :=
  mkClientParams None None None None None None None None None None None None None None.

#[export] Instance ClientParams_eq_dec : EqDecision ClientParams.
Proof. solve_decision. Defined.

(** [ClientParams.HasNoParams]; [None] is the nil pointer. *)
Definition HasNoParams (p : option ClientParams) : bool :=
  match p with
  | None => true
  | Some p => bool_decide (p = noParams)
  end.

Record ClientGroup := mkClientGroup {
  cg_ID : string;
  cg_Description : string;
  cg_Params : option ClientParams;
  cg_AllowedUserGroups : list string;
  cg_ClientIDs : list string
}.

Definition UserGroupIsAllowed (g : ClientGroup) (requiredUserGroup : string) : bool :=
  existsb (fun allowed => String.eqb allowed requiredUserGroup) (cg_AllowedUserGroups g).

Definition OneOfUserGroupsIsAllowed (g : ClientGroup) (userGroups : list string) : bool :=
  existsb (UserGroupIsAllowed g) userGroups.

(** ** What a pattern means *)

(** [glob p s]: [s] is [p] with every star replaced by some text. *)
Inductive glob : string -> string -> Prop :=
  | glob_nil : glob "" ""
  | glob_skip p s : glob p s -> glob (String "*" p) s
  | glob_take p c s : glob (String "*" p) s -> glob (String "*" p) (String c s)
  | glob_char c p s : c <> "*"%char -> glob p s -> glob (String c p) (String c s).

(** [v] is gap, part, gap, part, ... and ends with the last part. *)
Fixpoint embeds (parts : list string) (v : string) : Prop :=
  match parts with
  | [] => v = ""
  | p :: ps => exists x r, v = x +:+ p +:+ r /\ embeds ps r
  end.

(** The same with anything after the last part. *)
Fixpoint sub_embeds (parts : list string) (v : string) : Prop :=
  match parts with
  | [] => True
  | p :: ps => exists x r, v = x +:+ p +:+ r /\ sub_embeds ps r
  end.

(** ** Lemmas *)

Lemma glob_star p s : glob (String "*" p) s <-> exists x r, s = x +:+ r /\ glob p r.
Proof.
  split.
  - remember (String "*" p) as q eqn:E. intros H. revert p E.
    induction H as [|p' s H _|p' c s H IH|c p' s Hc H _]; intros p E; simplify_eq.
    + by exists "", s.
    + destruct (IH _ eq_refl) as (x & r & -> & Hr). by exists (String c x), r.
  - intros (x & r & -> & H). induction x as [|c x IH]; simpl; by constructor.
Qed.

Lemma glob_text a p s :
  count_byte "*" a = 0 -> glob (a +:+ p) s <-> exists r, s = a +:+ r /\ glob p r.
Proof.
  revert s; induction a as [|c a IH]; intros s; simpl; intros Hc.
  - naive_solver.
  - destruct (Ascii.eqb_spec c "*") as [->|Hne]; [simpl in Hc; lia|]. simpl in Hc. split.
    + inversion 1; simplify_eq. apply IH in H4 as (r & -> & Hr); [|done]. by exists r.
    + intros (r & -> & Hr). constructor; [done|]. apply IH; eauto.
Qed.

Lemma glob_literal a s : count_byte "*" a = 0 -> glob a s <-> a = s.
Proof.
  intros Ha. rewrite <-(sapp_nil_r a) at 1. rewrite glob_text by done. split.
  - intros (r & -> & H). inversion H. by rewrite sapp_nil_r.
  - intros ->. exists "". rewrite sapp_nil_r. split; [done|constructor].
Qed.

Lemma glob_parts a parts v :
  Forall (fun x => count_byte "*" x = 0) (a :: parts) ->
  glob (Join (a :: parts) "*") v <-> exists r, v = a +:+ r /\ embeds parts r.
Proof.
  revert a v; induction parts as [|b parts IH]; intros a v Hall;
    inversion_clear Hall as [|?? Ha Hps].
  - simpl. rewrite glob_literal by done. split.
    + intros ->. exists "". by rewrite sapp_nil_r.
    + intros (r & -> & ->). by rewrite sapp_nil_r.
  - rewrite Join_cons, glob_text by done.
    apply exist_proper; intros r. apply and_iff_compat_l.
    change ("*" +:+ ?q) with (String "*" q). simpl ("*" +:+ _). rewrite glob_star. simpl.
    split.
    + intros (x & r' & -> & (r'' & -> & H)%IH); [|done]. by exists x, r''.
    + intros (x & r' & -> & H). exists x, (b +:+ r'). split; [done|]. apply IH; eauto.
Qed.

Lemma sub_embeds_weaken ps x v : sub_embeds ps v -> sub_embeds ps (x +:+ v).
Proof.
  destruct ps as [|p ps]; simpl; [done|]. intros (y & r & -> & H).
  exists (x +:+ y), r. by rewrite sapp_assoc.
Qed.

Lemma sapp_split_le a b c d :
  a +:+ b = c +:+ d -> String.length a <= String.length c -> exists x, b = x +:+ d.
Proof.
  revert c; induction a as [|h a IH]; intros c; simpl; intros H Hl.
  - subst. by exists c.
  - destruct c as [|h' c]; simpl in *; [lia|]. simplify_eq. apply (IH c); [done|lia].
Qed.

Lemma scan_parts_spec ps v : scan_parts ps v = true <-> sub_embeds ps v.
Proof.
  revert v; induction ps as [|p ps IH]; intros v; simpl; [done|].
  destruct (Cut v p) as [[b r]|] eqn:E.
  - apply Cut_Some in E as [-> Hmin]. rewrite IH. split; [by exists b, r|].
    intros (x & r' & Heq & H). pose proof (Hmin _ _ Heq) as Hle.
    rewrite <-!sapp_assoc in Heq.
    destruct (sapp_split_le _ _ _ _ Heq) as [y ->]; [rewrite !slength_app; lia|].
    by apply sub_embeds_weaken.
  - split; [done|]. intros (x & r' & Heq & _). by apply (Cut_None _ _ x r') in E.
Qed.

Lemma sub_embeds_last_length ps v :
  ps <> [] -> sub_embeds ps v -> String.length (List.last ps "") <= String.length v.
Proof.
  intros Hne. revert v; induction ps as [|p [|p' ps] IH]; intros v; [done| |].
  - simpl. intros (x & r & -> & _). rewrite !slength_app. lia.
  - intros (x & r & -> & H). change (List.last (p :: p' :: ps) "") with (List.last (p' :: ps) "").
    apply IH in H; [|done]. rewrite !slength_app. lia.
Qed.

Lemma suffix_of_tail a b p :
  HasSuffix (a +:+ b) p = true -> String.length p <= String.length b -> HasSuffix b p = true.
Proof.
  intros [y Hy]%HasSuffix_spec Hl. apply HasSuffix_spec.
  apply (sapp_split_le a b y p); [done|].
  apply (f_equal String.length) in Hy. rewrite !slength_app in Hy. lia.
Qed.

Lemma sub_embeds_suffix ps v :
  ps <> [] -> sub_embeds ps v -> HasSuffix v (List.last ps "") = true -> embeds ps v.
Proof.
  intros Hne. revert v; induction ps as [|p [|p' ps] IH]; intros v; [done| |].
  - simpl. intros _ [y ->]%HasSuffix_spec. exists y, "". by rewrite sapp_nil_r.
  - intros (x & r & -> & H) Hs. exists x, r. split; [done|].
    change (List.last (p :: p' :: ps) "") with (List.last (p' :: ps) "") in Hs.
    apply IH; [done|done|]. rewrite <-sapp_assoc in Hs.
    eapply suffix_of_tail; [exact Hs|]. by apply sub_embeds_last_length.
Qed.

Lemma embeds_sub_embeds ps v : embeds ps v -> sub_embeds ps v.
Proof.
  revert v; induction ps as [|p ps IH]; intros v; simpl; [done|].
  intros (x & r & -> & H%IH). by exists x, r.
Qed.

Lemma embeds_suffix ps v : ps <> [] -> embeds ps v -> HasSuffix v (List.last ps "") = true.
Proof.
  intros Hne. revert v; induction ps as [|p [|p' ps] IH]; intros v; [done| |].
  - simpl. intros (x & r & -> & ->). apply HasSuffix_spec. exists x. by rewrite sapp_nil_r.
  - intros (x & r & -> & H).
    change (List.last (p :: p' :: ps) "") with (List.last (p' :: ps) "").
    apply IH, HasSuffix_spec in H as [y ->]; [|done].
    apply HasSuffix_spec. exists (x +:+ p +:+ y). by rewrite !sapp_assoc.
Qed.

Lemma Cut_prefix a r : Cut (a +:+ r) a = Some ("", r).
Proof. destruct (a +:+ r) eqn:E; cbn [Cut]; by rewrite <-E, strip_prefix_app. Qed.

(** The prefix test, the suffix test and the left-to-right scan together
    decide the decomposition. *)
Lemma scan_decides a ps v :
  ps <> [] ->
  HasPrefix v a && HasSuffix v (List.last ps "") && scan_parts (a :: ps) v = true <->
  exists r, v = a +:+ r /\ embeds ps r.
Proof.
  intros Hne. rewrite !andb_true_iff. split.
  - intros [[[r ->]%HasPrefix_spec Hs] Hscan]. cbn [scan_parts] in Hscan.
    rewrite Cut_prefix, scan_parts_spec in Hscan. exists r. split; [done|].
    apply sub_embeds_suffix; [done|done|]. eapply suffix_of_tail; [exact Hs|].
    by apply sub_embeds_last_length.
  - intros (r & -> & H). cbn [scan_parts]. rewrite Cut_prefix, scan_parts_spec.
    split; [split|by apply embeds_sub_embeds].
    + apply HasPrefix_spec. eauto.
    + apply embeds_suffix, HasSuffix_spec in H as [y ->]; [|done].
      apply HasSuffix_spec. exists (a +:+ y). by rewrite sapp_assoc.
Qed.

Lemma Contains_byte s c : Contains s (String c "") = true <-> count_byte c s <> 0.
Proof.
  unfold Contains. split.
  - destruct (Cut s (String c "")) as [[b r]|] eqn:E; [|done]. apply Cut_Some in E as [-> _].
    rewrite !count_byte_app. simpl. rewrite Ascii.eqb_refl. lia.
  - intros H. enough (is_Some (Cut s (String c ""))) as [[b r] ->] by done.
    induction s as [|a s IH]; simpl in *; [lia|].
    destruct (Ascii.eqb_spec c a) as [->|Hne]; [eauto|].
    rewrite (proj2 (Ascii.eqb_neq a c)) in H by congruence.
    destruct IH as [[b r] ->]; [lia|]. eauto.
Qed.

Lemma Split_cons_inv s c : count_byte c s <> 0 -> exists a b ps, Split s c = a :: b :: ps.
Proof.
  induction s as [|x s IH]; simpl; [lia|].
  destruct (Ascii.eqb x c).
  - intros _. destruct (Split s c) as [|b ps] eqn:E; [by apply Split_not_nil in E|]. eauto.
  - intros H. destruct IH as (a & b & ps & ->); [lia|]. eauto.
Qed.

Lemma Split_Forall_no_sep s c : Forall (fun x => count_byte c x = 0) (Split s c).
Proof. apply Forall_forall. intros x. apply Split_elem_no_sep. Qed.

Lemma size_matched_le operands values :
  size (matched_operands operands values) <= length (remove_dups operands).
Proof.
  unfold matched_operands.
  rewrite <-(size_list_to_set (C := gset string)) by apply NoDup_remove_dups.
  apply subseteq_size. intros x. rewrite !elem_of_list_to_set, list_elem_of_filter.
  rewrite elem_of_remove_dups. tauto.
Qed.

Lemma length_remove_dups_le {A} `{EqDecision A} (l : list A) : length (remove_dups l) <= length l.
Proof. induction l as [|x l IH]; simpl; [lia|]. case_decide; simpl; lia. Qed.

Lemma length_remove_dups_eq {A} `{EqDecision A} (l : list A) :
  length (remove_dups l) = length l -> NoDup l.
Proof.
  induction l as [|x l IH]; simpl; [constructor|]. pose proof (length_remove_dups_le l).
  case_decide; simpl; intros Hl; [lia|]. constructor; [done|]. apply IH. lia.
Qed.

Lemma matched_all operands values :
  size (matched_operands operands values) = length operands <->
  NoDup operands /\ Forall (fun o => exists v, v ∈ values /\ Param_matches o v = true) operands.
Proof.
  assert (Hex : forall o, existsb (Param_matches o) values = true <->
    exists v, v ∈ values /\ Param_matches o v = true).
  { intros o. rewrite existsb_exists. by setoid_rewrite list_elem_of_In. }
  split.
  - intros H. pose proof (size_matched_le operands values) as Hle.
    pose proof (length_remove_dups_le operands) as Hle'.
    assert (NoDup operands) as Hnd by (apply length_remove_dups_eq; lia).
    split; [done|]. unfold matched_operands in H.
    rewrite size_list_to_set in H by by apply NoDup_filter.
    apply Forall_forall. intros o Ho. apply Hex.
    assert (filter (fun o => existsb (Param_matches o) values = true) operands ≡ₚ operands) as Hp.
    { apply submseteq_length_Permutation; [|lia].
      apply sublist_submseteq, sublist_filter. }
    rewrite <-Hp in Ho. by apply list_elem_of_filter in Ho as [? _].
  - intros [Hnd Hall]. unfold matched_operands. rewrite size_list_to_set by by apply NoDup_filter.
    f_equal. clear Hnd. induction Hall as [|o os Ho _ IH]; [done|].
    apply Hex in Ho. rewrite filter_cons_True by done. by rewrite IH.
Qed.

Lemma matched_some operands values :
  0 < size (matched_operands operands values) <->
  exists o v, o ∈ operands /\ v ∈ values /\ Param_matches o v = true.
Proof.
  assert (0 < size (matched_operands operands values) <->
    exists o, o ∈ matched_operands operands values) as ->.
  { split.
    - intros H. by apply size_pos_elem_of.
    - intros [o Ho]. destruct (decide (size (matched_operands operands values) = 0)) as [E|E]; [|lia].
      apply size_empty_inv in E. exfalso. set_solver. }
  unfold matched_operands. setoid_rewrite elem_of_list_to_set.
  setoid_rewrite list_elem_of_filter. setoid_rewrite existsb_exists.
  setoid_rewrite <-list_elem_of_In. naive_solver.
Qed.

(** ** Properties *)

(** C16: The pattern matcher of client groups decides glob matching: a
    parameter matches a value exactly when the lower-cased value is the
    lower-cased parameter with each star replaced by some text. *)
Theorem param_matches_is_glob p value :
  Param_matches p value = true <-> glob (ToLower p) (ToLower value).
Proof.
  unfold Param_matches. destruct (Contains (ToLower p) "*") eqn:E.
  - apply Contains_byte in E.
    destruct (Split_cons_inv _ _ E) as (a & b & ps & Hs).
    pose proof (Join_Split (ToLower p) "*") as Hj. rewrite Hs in *. rewrite <-Hj.
    rewrite glob_parts by (rewrite <-Hs; apply Split_Forall_no_sep).
    rewrite <-(scan_decides a (b :: ps)) by done.
    change (List.last (a :: b :: ps) "") with (List.last (b :: ps) "").
    cbn [head default]. destruct (HasPrefix _ _), (HasSuffix _ _); simpl; done.
  - assert (count_byte "*" (ToLower p) = 0) as H0.
    { destruct (decide (count_byte "*" (ToLower p) = 0)) as [|Hn]; [done|].
      by rewrite (proj2 (Contains_byte _ _) Hn) in E. }
    rewrite String.eqb_eq, glob_literal by done. done.
Qed.

(** C30: A tag definition [{"and": [...]}] selects a client exactly when its
    operands are pairwise different and each matches one of the client's tags;
    [{"or": [...]}], with or without repetitions, when one operand matches one
    tag; any other spelling of
    the operator, also one [ParseTag] accepts such as AND, selects nothing. *)
Theorem raw_tags_meaning dec raw operator operands values :
  raw <> "" -> ParseTag dec raw = Ok (operator, operands) ->
  MatchesRawTags dec (Some raw) values = true <->
  (operator = "and" /\ NoDup operands /\
     Forall (fun o => exists v, v ∈ values /\ Param_matches o v = true) operands) \/
  (operator = "or" /\ exists o v, o ∈ operands /\ v ∈ values /\ Param_matches o v = true).
Proof.
  intros Hraw Hp. unfold MatchesRawTags. rewrite Hp.
  rewrite (proj2 (String.eqb_neq raw "") Hraw); simpl.
  assert (operands <> []) as Hne.
  { unfold ParseTag in Hp. case_go; bool_prop; try congruence.
    all: apply bool_decide_eq_false in Heqb0; done. }
  rewrite bool_decide_eq_false_2 by done.
  destruct (String.eqb_spec operator "and") as [->|Hand].
  { rewrite bool_decide_eq_true, matched_all. split; [by left|]. naive_solver. }
  destruct (String.eqb_spec operator "or") as [->|Hor].
  { rewrite bool_decide_eq_true, matched_some. naive_solver. }
  naive_solver.
Qed.

Definition example_decoder : TagDecoder :=
  mkTagDecoder
    (fun raw => if String.eqb raw "and-dup" then Some {["and" := ["a"; "a"]]}
                else if String.eqb raw "AND" then Some {["AND" := ["a"]]} else None)
    (fun _ => None).

Lemma raw_tags_meaning_witness :
  MatchesRawTags example_decoder (Some "and-dup") ["a"] <> true /\
  ~ NoDup ["a"; "a"].
Proof.
  assert (~ NoDup ["a"; "a"]) as Hnd by (intros [H _]%NoDup_cons; apply H; left).
  split; [|exact Hnd].
  pose proof (raw_tags_meaning example_decoder "and-dup" "and" ["a"; "a"] ["a"]
    ltac:(discriminate) ltac:(reflexivity)) as H.
  intros [(_ & Hn & _)|(Ho & _)]%H; [exact (Hnd Hn)|discriminate].
Defined.
