(* ===== verification/Db.v ===== *)
(** * Databases

    The server keeps its tables in SQLite through [sqlx].  A database is the
    data of its tables together with the outcomes the driver is going to
    report: the head of [db_faults] says whether the next statement fails, and
    with which message.  A failing statement changes nothing.  [DATETIME] is
    SQLite's function of that name, a parameter with its documented behaviour:
    it orders instants at the resolution of a second. *)

From stdpp Require Import base gmap strings list numbers.
From Stdlib Require Import ZArith Lia.
From S2P Require Import Prelude.

Record DB (T : Type) := mkDB {
  db_data : T;
  db_faults : list (option string)
}.
Arguments mkDB {T} _ _.
Arguments db_data {T} _.
Arguments db_faults {T} _.

(** One statement: [wrap] is what the caller makes of the driver's error. *)
Definition db_call {T A} (wrap : string -> go_error) (f : T -> A * T) : M (DB T) A :=
  fun db =>
    match db_faults db with
    | Some msg :: fs => (Err (wrap msg), mkDB (db_data db) fs)
    | fs => let '(a, t) := f (db_data db) in (Ok a, mkDB t (tail fs))
    end.

(** SELECT and the statements that change a table. *)
Definition db_query {T A} (wrap : string -> go_error) (f : T -> A) : M (DB T) A :=
  db_call wrap (fun t => (f t, t)).
Definition db_exec {T} (wrap : string -> go_error) (f : T -> T) : M (DB T) unit :=
  db_call wrap (fun t => (tt, f t)).

(** ["msg: %w"]. *)
Definition wrapf (msg err : string) : go_error := EPlain (msg +:+ ": " +:+ err).

Definition raw_error (err : string) : go_error := EPlain err.

Class SqlDatetime := {
  DATETIME : time -> Z;
  DATETIME_mono a b : (a <= b)%Z -> (DATETIME a <= DATETIME b)%Z;
  DATETIME_second a b : (a + Second <= b)%Z -> (DATETIME a < DATETIME b)%Z
}.

(** Whole seconds: the instance the witnesses run with. *)
#[export] Program Instance whole_seconds : SqlDatetime := {
  DATETIME t := (t / Second)%Z
}.
Next Obligation. intros a b H. by apply Z.div_le_mono. Qed.
Next Obligation.
  intros a b H. unfold DATETIME, Second in *. Z.to_euclidean_division_equations. lia.
Qed.

(** ** Lemmas *)

Lemma db_call_inv {T A} wrap (f : T -> A * T) db r db' :
  db_call wrap f db = (r, db') ->
  (exists msg, r = Err (wrap msg) /\ db_data db' = db_data db) \/
  (exists a, r = Ok a /\ f (db_data db) = (a, db_data db')).
Proof.
  unfold db_call. destruct (db_faults db) as [|[msg|] fs].
  - destruct (f _) as [a t] eqn:E. intros [= <- <-]. right. eauto.
  - intros [= <- <-]. left. eauto.
  - destruct (f _) as [a t] eqn:E. intros [= <- <-]. right. eauto.
Qed.

Lemma db_query_inv {T A} wrap (f : T -> A) db r db' :
  db_query wrap f db = (r, db') ->
  db_data db' = db_data db /\
  ((exists msg, r = Err (wrap msg)) \/ r = Ok (f (db_data db))).
Proof.
  intros [(msg & -> & ?)|(a & -> & [= <- <-])]%db_call_inv; eauto.
Qed.

Lemma db_exec_inv {T} wrap (f : T -> T) db r db' :
  db_exec wrap f db = (r, db') ->
  (exists msg, r = Err (wrap msg) /\ db_data db' = db_data db) \/
  (r = Ok tt /\ db_data db' = f (db_data db)).
Proof.
  intros [(msg & -> & ?)|(a & -> & [= <- <-])]%db_call_inv; eauto.
Qed.

Lemma db_call_no_fault {T A} wrap (f : T -> A * T) db :
  db_faults db = [] ->
  db_call wrap f db = (Ok (fst (f (db_data db))), mkDB (snd (f (db_data db))) []).
Proof. intros H. unfold db_call. rewrite H. by destruct (f _). Qed.

#[export] Hint Rewrite @db_call_no_fault using done : proxi_rw.
