(* ===== verification/Sessions.v ===== *)
(** * API sessions (server/api/session)

    A login session is a row of the table [api_sessions] (sqlite.go) and, while
    it is live, an entry of an in-memory cache (cache.go).  The cache is
    go-cache behind [InternalCacheProvider]: a parameter with its documented
    behaviour.  The storage is an interface too; [Cache] is proved against
    [StorageSpec] and [SqliteProvider] discharges it. *)

From stdpp Require Import base gmap strings list numbers sorting.
From Stdlib Require Import ZArith Lia.
From S2P Require Import Prelude GoStrings Db.

Local Open Scope Z_scope.

(** ** Data and interfaces (session.go) *)

Record APISession := mkAPISession {
  SessionID : Z;
  ExpiresAt : time;
  LastAccessAt : time;
  as_Username : string;
  as_UserAgent : string;
  as_IPAddress : string
}.

#[export] Instance APISession_eq_dec : EqDecision APISession.
Proof. solve_decision. Defined.

Definition with_id (id : Z) (s : APISession) : APISession :=
  mkAPISession id (ExpiresAt s) (LastAccessAt s) (as_Username s) (as_UserAgent s) (as_IPAddress s).

Definition with_expiry (e : time) (s : APISession) : APISession :=
  mkAPISession (SessionID s) e (LastAccessAt s) (as_Username s) (as_UserAgent s) (as_IPAddress s).

Class InternalCacheProvider (C : Type) := {
  c_New : C;
  c_Set : time -> string -> APISession -> duration -> C -> C;
  c_Get : time -> string -> C -> option APISession;
  c_Delete : string -> C -> C;
  c_Items : time -> C -> gmap string APISession
}.

(** go-cache's documentation: an item set with a positive duration is served
    until it runs out and not after; [Delete] removes a key; [Items] is a copy
    of the unexpired items. *)
Class InternalCacheSpec (C : Type) `{!InternalCacheProvider C} := {
  get_new t k : c_Get t k c_New = None;
  get_set_live now now' k s d c :
    now <= now' < now + d -> c_Get now' k (c_Set now k s d c) = Some s;
  get_set_expired now now' k s d c :
    0 < d -> now + d < now' -> c_Get now' k (c_Set now k s d c) = None;
  get_set_value now now' k s d c s' :
    c_Get now' k (c_Set now k s d c) = Some s' -> s' = s;
  get_set_ne now now' k k' s d c :
    k <> k' -> c_Get now' k' (c_Set now k s d c) = c_Get now' k' c;
  get_delete now k c : c_Get now k (c_Delete k c) = None;
  get_delete_ne now k k' c : k <> k' -> c_Get now k' (c_Delete k c) = c_Get now k' c;
  items_get now k c : c_Items now c !! k = c_Get now k c;
  get_expiry now now' k c s :
    now <= now' -> c_Get now' k c = Some s -> c_Get now k c = Some s
}.

Class StorageProvider (S : Type) := {
  st_Get : Z -> M S (option APISession);
  st_GetAll : time -> M S (list APISession);
  st_Save : APISession -> M S Z;
  st_Delete : Z -> M S unit;
  st_DeleteExpired : time -> M S unit;
  st_DeleteAllByUser : string -> M S unit;
  st_DeleteByID : string -> Z -> M S unit
}.

(** ** SqliteProvider (sqlite.go) *)

Abbreviation sessions_table := (gmap Z APISession) (only parsing).

Section sqlite.
Context `{!SqlDatetime}.

Definition SqliteProvider_GetAll (now : time) : M (DB sessions_table) (list APISession) :=
  db_query (wrapf "unable to get api sessions from DB")
    (fun t => (filter (fun p => DATETIME now <= DATETIME (ExpiresAt p.2)) (map_to_list t)).*2).

Definition SqliteProvider_Get (sessionID : Z) : M (DB sessions_table) (option APISession) :=
  db_query (wrapf "unable to get api session from DB by token") (fun t => t !! sessionID).

(** The rowid SQLite gives to a row inserted without one: one more than the
    largest in use ([session_id] is an INTEGER PRIMARY KEY, without
    AUTOINCREMENT). *)
Definition next_rowid (t : sessions_table) : Z :=
  1 + foldr Z.max 0 (map_to_list t).*1.

Definition SqliteProvider_add (session : APISession) : M (DB sessions_table) Z :=
  db_call (wrapf "unable to create api session")
    (fun t => let id := next_rowid t in (id, <[id := with_id id session]> t)).

Definition SqliteProvider_update (session : APISession) : M (DB sessions_table) Z :=
  db_exec (wrapf "unable to update api session")
    (alter (fun _ => session) (SessionID session)) ;;;
  ret (SessionID session).

Definition SqliteProvider_Save (session : APISession) : M (DB sessions_table) Z :=
  if SessionID session =? 0 then SqliteProvider_add session else SqliteProvider_update session.

Definition SqliteProvider_Delete (sessionID : Z) : M (DB sessions_table) unit :=
  db_exec (wrapf "unable to delete api session by token") (delete sessionID).

Definition SqliteProvider_DeleteExpired (now : time) : M (DB sessions_table) unit :=
  db_exec (wrapf "unable to delete expired api sessions")
    (filter (fun p => ~ (DATETIME (ExpiresAt p.2) <= DATETIME now))).

Definition SqliteProvider_DeleteAllByUser (username : string) : M (DB sessions_table) unit :=
  db_exec raw_error (filter (fun p => ~ (as_Username p.2 = username))).

Definition SqliteProvider_DeleteByID (username : string) (sessionID : Z) : M (DB sessions_table) unit :=
  db_exec raw_error
    (filter (fun p => ~ (as_Username p.2 = username /\ p.1 = sessionID))).

End sqlite.

#[export] Instance SqliteProvider_storage `{!SqlDatetime} :
    StorageProvider (DB sessions_table) := {
  st_Get := SqliteProvider_Get;
  st_GetAll := SqliteProvider_GetAll;
  st_Save := SqliteProvider_Save;
  st_Delete := SqliteProvider_Delete;
  st_DeleteExpired := SqliteProvider_DeleteExpired;
  st_DeleteAllByUser := SqliteProvider_DeleteAllByUser;
  st_DeleteByID := SqliteProvider_DeleteByID
}.

(** What the storage promises to the cache: it is a map from ids to sessions,
    fresh ids are given to new sessions, and a failing call changes nothing. *)
Class StorageSpec (S : Type) `{!SqlDatetime, !StorageProvider S} := {
  st_rows : S -> gmap Z APISession;
  save_error s db e db' : st_Save s db = (Err e, db') -> st_rows db' = st_rows db;
  save_new s db id db' :
    SessionID s = 0 -> st_Save s db = (Ok id, db') ->
    0 < id /\ st_rows db !! id = None /\ st_rows db' = <[id := with_id id s]> (st_rows db);
  save_known s db id db' :
    SessionID s <> 0 -> st_Save s db = (Ok id, db') ->
    id = SessionID s /\ st_rows db' = alter (fun _ => s) id (st_rows db);
  delete_rows id db r db' :
    st_Delete id db = (r, db') ->
    st_rows db' = match r with Ok _ => delete id (st_rows db) | Err _ => st_rows db end;
  delete_expired_rows now db r db' :
    st_DeleteExpired now db = (r, db') ->
    st_rows db' = match r with
      | Ok _ => filter (fun p => ~ (DATETIME (ExpiresAt p.2) <= DATETIME now)) (st_rows db)
      | Err _ => st_rows db
      end;
  delete_by_user_rows u db r db' :
    st_DeleteAllByUser u db = (r, db') ->
    st_rows db' = match r with
      | Ok _ => filter (fun p => ~ (as_Username p.2 = u)) (st_rows db)
      | Err _ => st_rows db
      end;
  delete_by_id_rows u id db r db' :
    st_DeleteByID u id db = (r, db') ->
    st_rows db' = match r with
      | Ok _ => filter (fun p => ~ (as_Username p.2 = u /\ p.1 = id)) (st_rows db)
      | Err _ => st_rows db
      end;
  getall_rows now db r db' :
    st_GetAll now db = (r, db') ->
    st_rows db' = st_rows db /\
    (forall l s, r = Ok l -> s ∈ l <->
      exists id, st_rows db !! id = Some s /\ DATETIME now <= DATETIME (ExpiresAt s))
}.

(** ** Cache (cache.go) *)

Record Cache (C S : Type) := mkCache {
  cache : C;
  storage : S
}.
Arguments mkCache {C S} _ _.
Arguments cache {C S} _.
Arguments storage {C S} _.

(** [formatID]. *)
Definition formatID (sessionID : Z) : string := Itoa sessionID.

Section cache_ops.
Context {C S : Type} `{!InternalCacheProvider C, !StorageProvider S}.

Definition on_storage {A} (m : M S A) : M (Cache C S) A :=
  zoom storage (fun s p => mkCache (cache p) s) m.

Definition on_cache (f : C -> C) : M (Cache C S) unit :=
  modify (fun p => mkCache (f (cache p)) (storage p)).

(** [NewCache], with the cache it creates itself. *)
Definition NewCache (now : time) (st : S) : result (Cache C S) :=
  match st_GetAll now st with
  | (Err _, _) => Err (EPlain "unable to get api sessions from storage")
  | (Ok validSessions, st') =>
      Ok (mkCache
        (foldl (fun c cur => c_Set now (formatID (SessionID cur)) cur (ExpiresAt cur - now) c)
           c_New validSessions) st')
  end.

Definition getFromCache (now : time) (sessionID : Z) : M (Cache C S) (option APISession) :=
  gets (fun p => c_Get now (formatID sessionID) (cache p)).

Definition Cache_Get (now : time) (sessionID : Z) : M (Cache C S) (option APISession) :=
  getFromCache now sessionID.

Definition Cache_Save (now : time) (session : APISession) : M (Cache C S) Z :=
  sessionID <- on_storage (st_Save session) ;;
  let session := with_id sessionID session in
  on_cache (c_Set now (formatID sessionID) session (ExpiresAt session - now)) ;;;
  ret sessionID.

Definition Cache_Delete (sessionID : Z) : M (Cache C S) unit :=
  on_storage (st_Delete sessionID) ;;;
  on_cache (c_Delete (formatID sessionID)).

Definition Cache_DeleteExpired (now : time) : M (Cache C S) unit :=
  on_storage (st_DeleteExpired now).

(** The sort of [GetAllByUser]: least recently accessed first, stable. *)
Fixpoint insert_by_access (s : APISession) (l : list APISession) : list APISession :=
  match l with
  | [] => [s]
  | x :: l' => if LastAccessAt x <? LastAccessAt s then x :: insert_by_access s l' else s :: l
  end.

Definition Cache_GetAllByUser (now : time) (username : string) : M (Cache C S) (list APISession) :=
  gets (fun p =>
    foldr insert_by_access []
      (filter (fun s => as_Username s = username) (map_to_list (c_Items now (cache p))).*2)).

Definition deleteUserSessionsFromCache (now : time) (username : string) (sessionID : Z)
    : M (Cache C S) unit :=
  if negb (sessionID =? -1) then on_cache (c_Delete (formatID sessionID))
  else on_cache (fun c =>
    foldl (fun c session =>
        if String.eqb (as_Username session) username
        then c_Delete (formatID (SessionID session)) c else c)
      c (map_to_list (c_Items now c)).*2).

Definition deleteUserSessionFromStorage (username : string) (sessionID : Z)
    : M (Cache C S) unit :=
  on_error (fun _ => EPlain "unable to delete session from storage")
    (on_storage (st_DeleteByID username sessionID)).

Definition Cache_DeleteByID (now : time) (username : string) (sessionID : Z)
    : M (Cache C S) unit :=
  deleteUserSessionsFromCache now username sessionID ;;;
  deleteUserSessionFromStorage username sessionID.

Definition deleteUserSessionsFromStorage (username : string) : M (Cache C S) unit :=
  on_error (fun _ => EPlain "unable to delete sessions from storage")
    (on_storage (st_DeleteAllByUser username)).

Definition Cache_DeleteAllByUser (now : time) (username : string) : M (Cache C S) unit :=
  deleteUserSessionsFromCache now username (-1) ;;;
  deleteUserSessionsFromStorage username.

(** [CleanupTask.Run] of cleanup.go. *)
Definition CleanupTask_Run (now : time) : M (Cache C S) unit := Cache_DeleteExpired now.

End cache_ops.

(** ** SqliteProvider implements the storage contract *)

Lemma foldr_max_ge (l : list Z) x : x ∈ l -> x <= foldr Z.max 0 l.
Proof. induction 1; simpl; lia. Qed.

Lemma foldr_max_nonneg (l : list Z) : 0 <= foldr Z.max 0 l.
Proof. induction l; simpl; lia. Qed.

Lemma next_rowid_fresh t : 0 < next_rowid t /\ t !! next_rowid t = None.
Proof.
  pose proof (foldr_max_nonneg (map_to_list t).*1). unfold next_rowid.
  split; [lia|]. destruct (t !! _) as [s|] eqn:E; [|done].
  apply elem_of_map_to_list in E.
  pose proof (foldr_max_ge (map_to_list t).*1 _ (list_elem_of_fmap_2 fst _ _ E)) as Hm.
  cbn [fst] in Hm. lia.
Qed.

#[export] Program Instance SqliteProvider_spec `{!SqlDatetime} :
    StorageSpec (DB sessions_table) := {
  st_rows := db_data
}.
Next Obligation.
  intros ? s db e db'. cbn. unfold SqliteProvider_Save, SqliteProvider_update.
  destruct (_ =? _).
  - by intros [(? & _ & ?)|(? & [=] & _)]%db_call_inv.
  - unfold bind. destruct (db_exec _ _ db) as [r db1] eqn:E.
    apply db_exec_inv in E as [(? & -> & ?)|(-> & ?)]; by intros [= _ <-].
Qed.
Next Obligation.
  intros ? s db id db' Hs. cbn. unfold SqliteProvider_Save. rewrite Hs. cbn.
  intros [(? & [=] & ?)|(? & [= <-] & [= <- <-])]%db_call_inv.
  destruct (next_rowid_fresh (db_data db)). done.
Qed.
Next Obligation.
  intros ? s db id db' Hs. cbn. unfold SqliteProvider_Save, SqliteProvider_update.
  destruct (Z.eqb_spec (SessionID s) 0) as [?|_]; [done|].
  unfold bind. destruct (db_exec _ _ db) as [r db1] eqn:E.
  apply db_exec_inv in E as [(? & -> & ?)|(-> & ?)]; [done|]. by intros [= <- <-].
Qed.
Next Obligation. intros ? id db r db' [(? & -> & ->)|(-> & ->)]%db_exec_inv; done. Qed.
Next Obligation. intros ? now db r db' [(? & -> & ->)|(-> & ->)]%db_exec_inv; done. Qed.
Next Obligation. intros ? u db r db' [(? & -> & ->)|(-> & ->)]%db_exec_inv; done. Qed.
Next Obligation. intros ? u id db r db' [(? & -> & ->)|(-> & ->)]%db_exec_inv; done. Qed.
Next Obligation.
  intros ? now db r db' [Hd Hr]%db_query_inv. split; [done|]. intros l s ->.
  destruct Hr as [(? & [=])|[= ->]].
  rewrite list_elem_of_fmap. split.
  - intros ([id s'] & -> & [Hf Hl]%list_elem_of_filter). cbn [snd] in *.
    apply elem_of_map_to_list in Hl. eauto.
  - intros (id & Hl & Hf). exists (id, s). split; [done|].
    apply list_elem_of_filter. split; [done|]. by apply elem_of_map_to_list.
Qed.

(** ** Invariants of the cache

    [keyed]: every entry sits under its session's id, in the cache and in the
    storage.  [coherent]: a cached session that does not expire within the
    current second is stored, unless it was touched late ([late_touch]).  The steps are the requests of the API, each run on its own. *)

Inductive session_op :=
  | OpLogin (s : APISession)
  | OpTouch (id : Z) (f : APISession -> APISession)
  | OpLogout (id : Z)
  | OpDeleteByID (u : string) (id : Z)
  | OpDeleteAllByUser (u : string)
  | OpCleanup.

Section invariants.
Context {C S : Type} `{!InternalCacheProvider C, !InternalCacheSpec C}.
Context `{!SqlDatetime, !StorageProvider S, !StorageSpec S}.
Implicit Types (p : Cache C S) (now t : time) (s : APISession).

(** What a request does to the sessions: a login saves a new session, an
    authenticated request saves the session it found with a new expiry and
    access time, the others delete. *)
Definition session_step (now : time) (op : session_op) (p : Cache C S) : Cache C S :=
  match op with
  | OpLogin s => snd (Cache_Save now (with_id 0 s) p)
  | OpTouch id f =>
      match Cache_Get now id p with
      | (Ok (Some s), p') => snd (Cache_Save now (with_id (SessionID s) (f s)) p')
      | _ => p
      end
  | OpLogout id => snd (Cache_Delete id p)
  | OpDeleteByID u id => snd (Cache_DeleteByID now u id p)
  | OpDeleteAllByUser u => snd (Cache_DeleteAllByUser now u p)
  | OpCleanup => snd (CleanupTask_Run now p)
  end.

(** The session an authenticated request touches in the second in which it
    expires, or later while the cache still serves it: the cleanup may have
    deleted its row already, and the UPDATE would find no row. *)
Definition late_touch (now : time) (op : session_op) (p : Cache C S) : list Z :=
  match op with
  | OpTouch id _ =>
      match c_Get now (formatID id) (cache p) with
      | Some s => if DATETIME (ExpiresAt s) <=? DATETIME now then [id] else []
      | None => []
      end
  | _ => []
  end.

(** Requests one after the other, each with the time at which it runs. *)
Fixpoint run_ops (ops : list (time * session_op)) (p : Cache C S) : Cache C S :=
  match ops with
  | [] => p
  | (t, op) :: ops => run_ops ops (session_step t op p)
  end.

(** The sessions touched late along the way. *)
Fixpoint late_ids (ops : list (time * session_op)) (p : Cache C S) : list Z :=
  match ops with
  | [] => []
  | (t, op) :: ops => late_touch t op p ++ late_ids ops (session_step t op p)
  end.

(** The requests run between [now] and [last], in the order of their times. *)
Fixpoint in_order (now : time) (ops : list (time * session_op)) (last : time) : Prop :=
  match ops with
  | [] => now <= last
  | (t, _) :: ops => now <= t /\ in_order t ops last
  end.

Definition keyed (p : Cache C S) : Prop :=
  (forall t k s, c_Get t k (cache p) = Some s -> k = formatID (SessionID s)) /\
  (forall id s, st_rows (storage p) !! id = Some s -> SessionID s = id /\ 0 < id).

Definition coherent (now : time) (p : Cache C S) (late : list Z) : Prop :=
  forall id s, id ∉ late -> c_Get now (formatID id) (cache p) = Some s ->
    DATETIME now < DATETIME (ExpiresAt s) -> st_rows (storage p) !! id = Some s.

#[local] Instance formatID_inj : Inj (=) (=) formatID := Itoa_inj.

Lemma with_id_id id s : SessionID (with_id id s) = id.
Proof. done. Qed.

(** The cases of [Save]. *)
Lemma Cache_Save_inv now s p r p' :
  Cache_Save now s p = (r, p') ->
  (exists e, r = Err e /\ cache p' = cache p /\ st_rows (storage p') = st_rows (storage p)) \/
  (exists id, r = Ok id /\
    st_Save s (storage p) = (Ok id, storage p') /\
    cache p' = c_Set now (formatID id) (with_id id s) (ExpiresAt s - now) (cache p)).
Proof.
  unfold Cache_Save, bind, on_storage, zoom, on_cache, modify, ret.
  destruct (st_Save s (storage p)) as [[id|e] st'] eqn:E; intros [= <- <-].
  - right. eauto.
  - left. exists e. split; [done|]. split; [done|]. by eapply save_error.
Qed.

Lemma Cache_Delete_inv id p r p' :
  Cache_Delete id p = (r, p') ->
  (exists e, r = Err e /\ cache p' = cache p /\ st_rows (storage p') = st_rows (storage p)) \/
  (r = Ok tt /\ cache p' = c_Delete (formatID id) (cache p) /\
   st_rows (storage p') = delete id (st_rows (storage p))).
Proof.
  unfold Cache_Delete, bind, on_storage, zoom, on_cache, modify.
  destruct (st_Delete id (storage p)) as [[u|e] st'] eqn:E; intros [= <- <-];
    apply delete_rows in E; cbn.
  - right. done.
  - left. eauto.
Qed.

(** The entries of the user that [deleteUserSessionsFromCache] drops. *)
Lemma drop_entries_get u l c t k :
  c_Get t k (foldl (fun c session =>
      if String.eqb (as_Username session) u
      then c_Delete (formatID (SessionID session)) c else c) c l) =
  if decide (Exists (fun s => as_Username s = u /\ k = formatID (SessionID s)) l)
  then None else c_Get t k c.
Proof.
  revert c; induction l as [|s l IH]; intros c; cbn [foldl].
  - by destruct (decide _) as [?%Exists_nil|].
  - rewrite IH. clear IH.
    destruct (decide (Exists _ l)) as [Hl|Hl]; destruct (decide (Exists _ (s :: l))) as [H'|H'].
    + done.
    + exfalso. apply H'. by right.
    + apply Exists_cons in H' as [[Hu ->]|?]; [|done].
      destruct (String.eqb_spec (as_Username s) u); [|done]. by rewrite get_delete.
    + destruct (String.eqb_spec (as_Username s) u); [|done].
      rewrite get_delete_ne; [done|]. intros <-. apply H'. by left.
Qed.

(** What a user's removal from the cache leaves, on a keyed cache. *)
Lemma cache_without_user now u p t k s :
  keyed p -> now <= t ->
  let c' := foldl (fun c session =>
      if String.eqb (as_Username session) u
      then c_Delete (formatID (SessionID session)) c else c)
    (cache p) (map_to_list (c_Items now (cache p))).*2 in
  c_Get t k c' = Some s <-> c_Get t k (cache p) = Some s /\ as_Username s <> u.
Proof.
  intros [Hk _] Ht c'. subst c'. rewrite drop_entries_get.
  destruct (decide _) as [(s' & Hin & Hu & ->)%Exists_exists|Hn].
  - split; [done|]. intros [Hg Hne]. exfalso.
    apply list_elem_of_fmap in Hin as ([k' s''] & -> & Hin). cbn [snd] in *.
    apply elem_of_map_to_list in Hin. rewrite items_get in Hin.
    pose proof (Hk _ _ _ Hin) as ->.
    apply (get_expiry now) in Hg; [|done]. rewrite Hin in Hg. by simplify_eq.
  - split; [|by intros [? _]]. intros Hg. split; [done|]. intros Hu. apply Hn.
    apply Exists_exists. exists s. split; [|split; [done|by eapply Hk]].
    apply list_elem_of_fmap. exists (k, s). split; [done|].
    apply elem_of_map_to_list. rewrite items_get. by eapply get_expiry.
Qed.

Lemma Cache_DeleteAllByUser_inv now u p r p' :
  Cache_DeleteAllByUser now u p = (r, p') ->
  (forall t k s, keyed p -> now <= t ->
    c_Get t k (cache p') = Some s <-> c_Get t k (cache p) = Some s /\ as_Username s <> u) /\
  (forall t k s, c_Get t k (cache p') = Some s -> c_Get t k (cache p) = Some s) /\
  st_rows (storage p') = match r with
    | Ok _ => filter (fun x => ~ (as_Username x.2 = u)) (st_rows (storage p))
    | Err _ => st_rows (storage p)
    end.
Proof.
  unfold Cache_DeleteAllByUser, deleteUserSessionsFromCache, deleteUserSessionsFromStorage.
  unfold bind, on_error, on_storage, zoom, on_cache, modify. cbn.
  destruct (st_DeleteAllByUser u (storage p)) as [r0 st'] eqn:E.
  pose proof (delete_by_user_rows _ _ _ _ E) as Hr.
  intros Heq. assert (p' = mkCache (foldl (fun c session =>
      if String.eqb (as_Username session) u
      then c_Delete (formatID (SessionID session)) c else c)
    (cache p) (map_to_list (c_Items now (cache p))).*2) st') as ->.
  { by destruct r0; injection Heq. }
  split; [|split].
  - intros t k s Hk Ht. by apply cache_without_user.
  - intros t k s. cbn. rewrite drop_entries_get. by destruct (decide _).
  - by destruct r0; injection Heq as <-.
Qed.

Lemma Cache_DeleteByID_inv now u id p r p' :
  Cache_DeleteByID now u id p = (r, p') ->
  (forall t k s, c_Get t k (cache p') = Some s -> c_Get t k (cache p) = Some s) /\
  (id <> -1 -> cache p' = c_Delete (formatID id) (cache p)) /\
  st_rows (storage p') = match r with
    | Ok _ => filter (fun x => ~ (as_Username x.2 = u /\ x.1 = id)) (st_rows (storage p))
    | Err _ => st_rows (storage p)
    end.
Proof.
  unfold Cache_DeleteByID, deleteUserSessionsFromCache, deleteUserSessionFromStorage.
  unfold bind, on_error, on_storage, zoom, on_cache, modify.
  destruct (st_DeleteByID u id (storage p)) as [r0 st'] eqn:E.
  pose proof (delete_by_id_rows _ _ _ _ _ E) as Hr.
  destruct (Z.eqb_spec id (-1)) as [->|Hid]; cbn; rewrite E; cbn; intros Heq.
  - split; [|split; [done|]].
    + intros t k s. assert (cache p' = foldl (fun c session =>
        if String.eqb (as_Username session) u
        then c_Delete (formatID (SessionID session)) c else c)
        (cache p) (map_to_list (c_Items now (cache p))).*2) as ->
        by (by destruct r0; injection Heq as <- <-).
      rewrite drop_entries_get. by destruct (decide _).
    + by destruct r0; injection Heq as <- <-.
  - assert (cache p' = c_Delete (formatID id) (cache p)) as ->
      by (by destruct r0; injection Heq as <- <-).
    split; [|split; [done|]].
    + intros t k s. destruct (decide (formatID id = k)) as [<-|Hne].
      * by rewrite get_delete.
      * by rewrite get_delete_ne.
    + by destruct r0; injection Heq as <- <-.
Qed.

Lemma coherent_later now now' p late :
  now <= now' -> coherent now p late -> coherent now' p late.
Proof.
  intros Hle Hc id s Hin Hg He. eapply Hc; [done| |].
  - by eapply get_expiry.
  - pose proof (DATETIME_mono now now' Hle). lia.
Qed.

(** Dropping entries and rows that are not cached keeps both invariants. *)
Lemma keyed_shrink p p' :
  (forall t k s, c_Get t k (cache p') = Some s -> c_Get t k (cache p) = Some s) ->
  (forall id s, st_rows (storage p') !! id = Some s -> st_rows (storage p) !! id = Some s) ->
  keyed p -> keyed p'.
Proof. intros Hc Hs [Hk1 Hk2]. split; eauto. Qed.

Lemma keyed_Save now s p r p' : Cache_Save now s p = (r, p') -> keyed p -> keyed p'.
Proof.
  intros [(e & -> & Hc & Hr)|(id & -> & Hs & Hc)]%Cache_Save_inv.
  { apply keyed_shrink; [by rewrite Hc|by rewrite Hr]. }
  intros [Hk1 Hk2]. split.
  - intros t k x. rewrite Hc. destruct (decide (formatID id = k)) as [<-|?].
    + by intros ->%get_set_value.
    + rewrite get_set_ne by done. apply Hk1.
  - intros i x. destruct (decide (SessionID s = 0)) as [E|E].
    + apply save_new in Hs as (Hid & _ & ->); [|done].
      intros [[<- <-]|[_ ?]]%lookup_insert_Some; [by split|by apply Hk2].
    + apply save_known in Hs as (-> & ->); [|done].
      intros [(<- & y & Hy & ->)|[_ ?]]%lookup_alter_Some; [|by apply Hk2].
      split; [done|]. by apply (Hk2 _ y).
Qed.

Lemma coherent_Save now s p late r p' :
  Cache_Save now s p = (r, p') ->
  SessionID s = 0 \/ SessionID s ∈ late \/ is_Some (st_rows (storage p) !! SessionID s) ->
  keyed p -> coherent now p late -> coherent now p' late.
Proof.
  intros [(e & -> & Hc & Hr)|(id & -> & Hs & Hc)]%Cache_Save_inv Hst Hk Hcoh.
  { intros i x. rewrite Hc, Hr. apply Hcoh. }
  intros i x Hi. rewrite Hc. destruct (decide (i = id)) as [->|Hne].
  - intros ->%get_set_value _. destruct (decide (SessionID s = 0)) as [E|E].
    + apply save_new in Hs as (_ & _ & ->); [|done]. by rewrite lookup_insert_eq.
    + apply save_known in Hs as (-> & ->); [|done]. rewrite lookup_alter_eq.
      destruct Hst as [?|[?|[y ->]]]; [done..|]. by destruct s.
  - rewrite get_set_ne by (by intros ?%(inj formatID)). intros Hg He.
    pose proof (Hcoh i x Hi Hg He) as Hrow. destruct (decide (SessionID s = 0)) as [E|E].
    + apply save_new in Hs as (_ & _ & ->); [|done]. by rewrite lookup_insert_ne.
    + apply save_known in Hs as (-> & ->); [|done]. by rewrite lookup_alter_ne.
Qed.

Lemma step_keyed now op p : keyed p -> keyed (session_step now op p).
Proof.
  intros Hk. destruct op as [s|id f|id|u id|u|]; cbn [session_step].
  - destruct (Cache_Save _ _ _) eqn:E. by eapply keyed_Save.
  - unfold Cache_Get, getFromCache, gets. destruct (c_Get _ _ _) as [s|]; [|done].
    destruct (Cache_Save _ _ _) eqn:E. by eapply keyed_Save.
  - destruct (Cache_Delete _ _) as [r p'] eqn:E. cbn.
    apply Cache_Delete_inv in E as [(e & -> & Hc & Hr)|(-> & Hc & Hr)];
      revert Hk; apply keyed_shrink; rewrite ?Hc, ?Hr; try done.
    + intros t k x. destruct (decide (formatID id = k)) as [<-|?].
      * by rewrite get_delete.
      * by rewrite get_delete_ne.
    + by intros i x [_ ?]%lookup_delete_Some.
  - destruct (Cache_DeleteByID _ _ _ _) as [r p'] eqn:E. cbn.
    apply Cache_DeleteByID_inv in E as (Hc & _ & Hr). revert Hk. apply keyed_shrink; [done|].
    intros i x. rewrite Hr. destruct r; [|done]. by intros [? _]%map_lookup_filter_Some.
  - destruct (Cache_DeleteAllByUser _ _ _) as [r p'] eqn:E. cbn.
    apply Cache_DeleteAllByUser_inv in E as (_ & Hc & Hr). revert Hk. apply keyed_shrink; [done|].
    intros i x. rewrite Hr. destruct r; [|done]. by intros [? _]%map_lookup_filter_Some.
  - unfold CleanupTask_Run, Cache_DeleteExpired, on_storage, zoom.
    destruct (st_DeleteExpired now (storage p)) as [r st'] eqn:E.
    apply delete_expired_rows in E. revert Hk. apply keyed_shrink; [done|]. cbn.
    intros i x. rewrite E. destruct r; [|done]. by intros [? _]%map_lookup_filter_Some.
Qed.

Lemma step_coherent now op p late :
  keyed p -> coherent now p late ->
  coherent now (session_step now op p) (late_touch now op p ++ late).
Proof.
  intros Hk Hcoh. destruct op as [s|id f|id|u id|u|]; cbn [session_step late_touch app].
  - destruct (Cache_Save _ _ _) eqn:E. eapply coherent_Save; eauto.
  - unfold Cache_Get, getFromCache, gets. destruct (c_Get _ _ _) as [s|] eqn:Eg; [|done].
    pose proof (proj1 Hk _ _ _ Eg) as ->%(inj formatID).
    destruct (Cache_Save _ _ _) eqn:E. eapply coherent_Save; [done| |done|].
    + right. cbn [SessionID with_id]. destruct (Z.leb_spec (DATETIME (ExpiresAt s)) (DATETIME now)).
      { left. set_solver. }
      destruct (decide (SessionID s ∈ late)); [left; set_solver|right].
      exists s. by apply Hcoh.
    + intros i x Hi. apply Hcoh. set_solver.
  - destruct (Cache_Delete _ _) as [r p'] eqn:E. cbn.
    apply Cache_Delete_inv in E as [(e & -> & Hc & Hr)|(-> & Hc & Hr)];
      intros i x Hi; rewrite Hc, Hr; [by apply Hcoh|].
    destruct (decide (id = i)) as [->|Hne]; [by rewrite get_delete|].
    rewrite get_delete_ne, lookup_delete_ne by (done || by intros ?%(inj formatID)). by apply Hcoh.
  - destruct (Cache_DeleteByID _ _ _ _) as [r p'] eqn:E. cbn.
    apply Cache_DeleteByID_inv in E as (Hc & Hc1 & Hr). intros i x Hi Hg He. rewrite Hr.
    pose proof (Hcoh _ _ Hi (Hc _ _ _ Hg) He) as Hrow. destruct r; [|done].
    apply map_lookup_filter_Some. split; [done|]. cbn. intros [Hu ->].
    destruct (decide (id = -1)) as [->|Hne].
    + apply (proj2 Hk) in Hrow. lia.
    + rewrite (Hc1 Hne), get_delete in Hg. done.
  - destruct (Cache_DeleteAllByUser _ _ _) as [r p'] eqn:E. cbn.
    apply Cache_DeleteAllByUser_inv in E as (Hu & Hc & Hr). intros i x Hi Hg He. rewrite Hr.
    pose proof (Hcoh _ _ Hi (Hc _ _ _ Hg) He) as Hrow. destruct r; [|done].
    apply map_lookup_filter_Some. split; [done|]. cbn.
    by apply (Hu now (formatID i)).
  - unfold CleanupTask_Run, Cache_DeleteExpired, on_storage, zoom.
    destruct (st_DeleteExpired now (storage p)) as [r st'] eqn:E.
    apply delete_expired_rows in E. intros i x Hi Hg He. cbn in *. rewrite E.
    pose proof (Hcoh _ _ Hi Hg He). destruct r; [|done].
    apply map_lookup_filter_Some. split; [done|]. cbn. lia.
Qed.

Lemma run_ops_invariants now ops last p late :
  in_order now ops last -> keyed p -> coherent now p late ->
  keyed (run_ops ops p) /\ coherent last (run_ops ops p) (late_ids ops p ++ late).
Proof.
  revert now p late. induction ops as [|[t op] ops IH]; intros now p late; cbn [in_order run_ops late_ids].
  { intros Hle Hk Hc. split; [done|]. by eapply coherent_later. }
  intros [Hle Hin] Hk Hc.
  destruct (IH t (session_step t op p) (late_touch t op p ++ late)) as [Hk' Hc']; [done| | |].
  - by apply step_keyed.
  - apply step_coherent; [done|]. by eapply coherent_later.
  - split; [done|]. intros id s Hi. apply Hc'. set_solver.
Qed.

(** The cache that [NewCache] fills. *)
Lemma load_sessions_inv now l c t k s :
  c_Get t k (foldl (fun c cur => c_Set now (formatID (SessionID cur)) cur (ExpiresAt cur - now) c)
    c l) = Some s ->
  (s ∈ l /\ k = formatID (SessionID s)) \/ c_Get t k c = Some s.
Proof.
  revert c; induction l as [|x l IH]; intros c; cbn [foldl]; [by right|].
  intros [[? ?]|Hg]%IH; [left; split; [by right|done]|].
  destruct (decide (formatID (SessionID x) = k)) as [<-|Hne].
  - apply get_set_value in Hg as ->. left. split; [left|done].
  - rewrite get_set_ne in Hg by done. by right.
Qed.

Lemma load_sessions_get now l c t s :
  (forall a b, a ∈ l -> b ∈ l -> SessionID a = SessionID b -> a = b) ->
  s ∈ l -> now <= t < ExpiresAt s ->
  c_Get t (formatID (SessionID s))
    (foldl (fun c cur => c_Set now (formatID (SessionID cur)) cur (ExpiresAt cur - now) c) c l)
  = Some s.
Proof.
  revert c; induction l as [|x l IH] using rev_ind; intros c Huniq Hin Ht.
  { by apply elem_of_nil in Hin. }
  rewrite foldl_app. cbn [foldl].
  destruct (decide (SessionID x = SessionID s)) as [E|E].
  - assert (x = s) as -> by (apply Huniq; [set_solver|done..]).
    apply get_set_live. lia.
  - rewrite get_set_ne by (by intros ?%(inj formatID)).
    apply elem_of_app in Hin as [Hin|Hin%list_elem_of_singleton]; [|by subst].
    apply IH; [|done..]. intros a b ? ?. apply Huniq; apply elem_of_app; by left.
Qed.

Lemma NewCache_inv now st p :
  NewCache now st = Ok p ->
  (forall id s, st_rows st !! id = Some s -> SessionID s = id /\ 0 < id) ->
  st_rows (storage p) = st_rows st /\ keyed p /\
  (forall t id s, c_Get t (formatID id) (cache p) = Some s -> st_rows st !! id = Some s) /\
  (forall t id s, st_rows st !! id = Some s -> now <= t < ExpiresAt s ->
    c_Get t (formatID id) (cache p) = Some s).
Proof.
  unfold NewCache. destruct (st_GetAll now st) as [[l|e] st'] eqn:E; [|done].
  intros [= <-] Hrows. apply getall_rows in E as [Hst Hl].
  specialize (fun s => Hl l s eq_refl). cbn [cache storage].
  assert (Hrow : forall s, s ∈ l -> st_rows st !! SessionID s = Some s).
  { intros s (id & Hs & _)%Hl. by destruct (Hrows _ _ Hs) as [-> _]. }
  assert (Hback : forall t k s, c_Get t k (foldl (fun c cur =>
      c_Set now (formatID (SessionID cur)) cur (ExpiresAt cur - now) c) c_New l) = Some s ->
    s ∈ l /\ k = formatID (SessionID s)).
  { intros t k s [?|Hg]%load_sessions_inv; [done|]. by rewrite get_new in Hg. }
  split; [done|]. split; [split|split].
  - intros t k s Hg. by apply Hback in Hg as [_ ?].
  - intros id s. cbn. rewrite Hst. apply Hrows.
  - intros t id s [Hin Hid]%Hback. apply (inj formatID) in Hid as ->. by apply Hrow.
  - intros t id s Hs Ht. destruct (Hrows _ _ Hs) as [<- _].
    apply load_sessions_get; [|apply Hl|done].
    + intros a b Ha Hb Hab. apply Hrow in Ha, Hb. rewrite Hab in Ha. by simplify_eq.
    + exists (SessionID s). split; [done|]. apply DATETIME_mono. lia.
Qed.

End invariants.

(** ** A cache that satisfies the contract

    A map with an expiry per entry; the witnesses run with it. *)

Definition TTLMap := gmap string (APISession * option time).

Definition ttl_live (now : time) (e : APISession * option time) : option APISession :=
  match e with
  | (s, None) => Some s
  | (s, Some exp) => if now <=? exp then Some s else None
  end.

#[export] Instance TTLMap_cache : InternalCacheProvider TTLMap := {
  c_New := ∅;
  c_Set now k s d c := <[k := (s, if 0 <? d then Some (now + d) else None)]> c;
  c_Get now k c := c !! k ≫= ttl_live now;
  c_Delete k c := delete k c;
  c_Items now c := omap (ttl_live now) c
}.

#[export] Instance TTLMap_spec : InternalCacheSpec TTLMap.
Proof.
  split; cbn [c_New c_Set c_Get c_Delete c_Items TTLMap_cache]; unfold TTLMap.
  - done.
  - intros now now' k s d c ?. rewrite lookup_insert_eq. cbn.
    destruct (Z.ltb_spec 0 d); [|done]. destruct (Z.leb_spec now' (now + d)); [done|lia].
  - intros now now' k s d c ? ?. rewrite lookup_insert_eq. cbn.
    destruct (Z.ltb_spec 0 d); [|lia]. destruct (Z.leb_spec now' (now + d)); [lia|done].
  - intros now now' k s d c s'. rewrite lookup_insert_eq. cbn.
    destruct (0 <? d); cbn; [destruct (_ <=? _)|]; naive_solver.
  - intros. by rewrite lookup_insert_ne.
  - intros. by rewrite lookup_delete_eq.
  - intros. by rewrite lookup_delete_ne.
  - intros. by rewrite lookup_omap.
  - intros now now' k c s ?. destruct (c !! k) as [[x [e|]]|]; cbn; [|done..].
    destruct (Z.leb_spec now' e); [|done]. destruct (Z.leb_spec now e); [done|lia].
Qed.

Definition example_session : APISession :=
  mkAPISession 0 (600 * Second) 0 "alice" "curl" "10.0.0.1".

Definition empty_storage : DB sessions_table := mkDB ∅ [].

Definition example_cache : Cache TTLMap (DB sessions_table) := mkCache c_New empty_storage.

(** One session of alice, under id 1. *)
Definition alice_cache : Cache TTLMap (DB sessions_table) :=
  snd (Cache_Save 0 example_session example_cache).

(** ** Properties *)

(** C9: A session saved with a future expiry is served, with its id filled
    in, from then until it expires and never after; the other sessions are not
    touched, a new session gets an id that no stored session has, and its row
    is stored under it. *)
Theorem saved_session_is_served {C S} `{!InternalCacheProvider C, !InternalCacheSpec C}
    `{!SqlDatetime, !StorageProvider S, !StorageSpec S} now s id (p p' : Cache C S) :
  Cache_Save now s p = (Ok id, p') -> now < ExpiresAt s ->
  (forall t, now <= t < ExpiresAt s -> Cache_Get t id p' = (Ok (Some (with_id id s)), p')) /\
  (forall t, ExpiresAt s < t -> Cache_Get t id p' = (Ok None, p')) /\
  (forall t id', id' <> id -> fst (Cache_Get t id' p') = fst (Cache_Get t id' p)) /\
  (SessionID s = 0 -> st_rows (storage p) !! id = None /\
    st_rows (storage p') !! id = Some (with_id id s)).
Proof.
  intros [(? & [=] & _)|(? & [= <-] & Hs & Hc)]%Cache_Save_inv Hexp.
  unfold Cache_Get, getFromCache, gets. rewrite Hc. split_and!.
  - intros t ?. rewrite get_set_live; [done|lia].
  - intros t ?. rewrite get_set_expired; [done|lia..].
  - intros t id' ?. rewrite get_set_ne; [done|]. by intros ?%Itoa_inj.
  - intros Hz. apply save_new in Hs as (_ & Hn & ->); [|done].
    by rewrite lookup_insert_eq.
Qed.

Lemma saved_session_is_served_witness :
  fst (Cache_Get (599 * Second) 1 alice_cache) = Ok (Some (with_id 1 example_session)) /\
  fst (Cache_Get (601 * Second) 1 alice_cache) = Ok None.
Proof.
  destruct (saved_session_is_served 0 example_session 1 example_cache alice_cache)
    as (H1 & H2 & _ & _); [by vm_compute|by vm_compute|].
  rewrite H1, H2 by (by vm_compute). done.
Defined.

(** C8: Deleting all sessions of a user revokes them for good: from then on
    the cache serves no session of that user, none is left in the storage for
    a restart to load, and the sessions of other users are served as before. *)
Theorem deleted_user_has_no_session {C S} `{!InternalCacheProvider C, !InternalCacheSpec C}
    `{!SqlDatetime, !StorageProvider S, !StorageSpec S} now u (p p' : Cache C S) :
  keyed p -> Cache_DeleteAllByUser now u p = (Ok tt, p') ->
  (forall t id s, now <= t ->
    fst (Cache_Get t id p') = Ok (Some s) <->
    fst (Cache_Get t id p) = Ok (Some s) /\ as_Username s <> u) /\
  (forall id s, st_rows (storage p') !! id = Some s <->
    st_rows (storage p) !! id = Some s /\ as_Username s <> u).
Proof.
  intros Hk (Hg & _ & Hr)%Cache_DeleteAllByUser_inv. split.
  - intros t id s Ht. cbn. specialize (Hg t (formatID id) s Hk Ht).
    destruct Hg as [Hg1 Hg2]. split.
    + intros [= Hx]. destruct (Hg1 Hx) as [-> ?]. done.
    + intros [[= Hx] Hu]. by rewrite (Hg2 (conj Hx Hu)).
  - intros id s. rewrite Hr, map_lookup_filter_Some. done.
Qed.

Lemma alice_cache_keyed : keyed alice_cache.
Proof.
  apply (keyed_Save 0 example_session example_cache (Ok 1)); [by vm_compute|].
  split.
  - intros t k s. change (cache _) with (c_New : TTLMap). by rewrite get_new.
  - intros id s. change (st_rows _) with (∅ : gmap Z APISession). by rewrite lookup_empty.
Qed.

Lemma deleted_user_has_no_session_witness :
  fst (Cache_Get 5 1 alice_cache) = Ok (Some (with_id 1 example_session)) /\
  fst (Cache_Get 5 1 (snd (Cache_DeleteAllByUser 2 "alice" alice_cache)))
    <> Ok (Some (with_id 1 example_session)).
Proof.
  split; [by vm_compute|].
  destruct (deleted_user_has_no_session 2 "alice" alice_cache
    (snd (Cache_DeleteAllByUser 2 "alice" alice_cache))) as [H _];
    [exact alice_cache_keyed|by vm_compute|].
  intros [_ Hu]%H; [|lia]. by apply Hu.
Defined.

(** C7: A restart is invisible to logged-in users: after any sequence of
    logins, authenticated requests, logouts, deletions and cleanups, in any
    order and failing or not, every session that is served and does not expire
    within the current second is served unchanged until its expiry by a cache
    rebuilt from the storage, unless a request touched that session in the very
    second in which it was about to expire ([late_ids]); and the rebuilt cache
    serves stored sessions only. *)
Theorem sessions_survive_restart {C S} `{!InternalCacheProvider C, !InternalCacheSpec C}
    `{!SqlDatetime, !StorageProvider S, !StorageSpec S} now0 st (p0 : Cache C S) ops now p' :
  (forall id s, st_rows st !! id = Some s -> SessionID s = id /\ 0 < id) ->
  NewCache now0 st = Ok p0 -> in_order now0 ops now ->
  NewCache now (storage (run_ops ops p0)) = Ok p' ->
  (forall id s t, id ∉ late_ids ops p0 ->
    fst (Cache_Get now id (run_ops ops p0)) = Ok (Some s) ->
    DATETIME now < DATETIME (ExpiresAt s) -> now <= t < ExpiresAt s ->
    fst (Cache_Get t id p') = Ok (Some s)) /\
  (forall id s t, fst (Cache_Get t id p') = Ok (Some s) ->
    st_rows (storage (run_ops ops p0)) !! id = Some s).
Proof.
  intros Hrows (Hst & Hk0 & Hload & _)%NewCache_inv Hord Hnew; [|done].
  destruct (run_ops_invariants now0 ops now p0 []) as [Hk Hc]; [done..| |].
  - intros id s _ Hg _. rewrite Hst. by eapply Hload.
  - apply NewCache_inv in Hnew as (_ & _ & Hback & Hserve); [|apply Hk].
    split; unfold Cache_Get, getFromCache, gets; cbn.
    + intros id s t Hl [= Hg] Hd Ht. f_equal. apply Hserve; [|done].
      apply Hc; [set_solver|done..].
    + intros id s t [= Hg]. by eapply Hback.
Qed.

Definition restarted_cache : Cache TTLMap (DB sessions_table) :=
  match NewCache (2 * Second) (storage alice_cache) with Ok p => p | Err _ => alice_cache end.

(** Alice logs in, an authenticated request of hers touches the session, and
    the cleanup runs. *)
Definition example_ops : list (time * session_op) :=
  [(0, OpLogin example_session); (Second, OpTouch 1 (fun s => s)); (2 * Second, OpCleanup)].

Lemma sessions_survive_restart_witness :
  fst (Cache_Get (500 * Second) 1 restarted_cache) = Ok (Some (with_id 1 example_session)).
Proof.
  destruct (sessions_survive_restart 0 empty_storage example_cache example_ops (2 * Second)
    restarted_cache) as [H _].
  - intros id s. change (st_rows _) with (∅ : gmap Z APISession). by rewrite lookup_empty.
  - by vm_compute.
  - cbn. unfold Second. lia.
  - by vm_compute.
  - apply H; [|by vm_compute..].
    replace (late_ids _ _) with (@nil Z) by (by vm_compute). apply not_elem_of_nil.
Defined.

(** The exception is real.  Alice's session expires at 600.5s.  The cleanup at
    600.0s deletes its row ([DATETIME] compares whole seconds), and a request at
    600.2s, which the cache still authenticates, extends it to 1200s: the UPDATE
    finds no row, so the session is served, but a restart loses it. *)
Definition late_session : APISession := with_expiry (600 * Second + 500000000) example_session.

Definition late_ops : list (time * session_op) :=
  [(0, OpLogin late_session); (600 * Second, OpCleanup);
   (600 * Second + 200000000, OpTouch 1 (with_expiry (1200 * Second)))].

Example late_touch_lost_on_restart :
  let p := run_ops late_ops example_cache in
  fst (Cache_Get (700 * Second) 1 p) = Ok (Some (with_id 1 (with_expiry (1200 * Second) example_session))) /\
  late_ids late_ops example_cache = [1] /\
  match NewCache (700 * Second) (storage p) with
  | Ok p' => fst (Cache_Get (700 * Second) 1 p') = Ok None
  | Err _ => False
  end.
Proof. by vm_compute. Qed.

(** C38: A logout can be undone by a request in flight: when an authenticated
    request has looked its session up, a logout deletes the session, and the
    request then saves it with its extended expiry, the session is served again
    until that expiry although no row of the storage has it. *)
Theorem logout_undone_by_request_in_flight {C S}
    `{!InternalCacheProvider C, !InternalCacheSpec C}
    `{!SqlDatetime, !StorageProvider S, !StorageSpec S}
    now now' id s e (p p1 p2 : Cache C S) r :
  keyed p -> 0 < id ->
  Cache_Get now id p = (Ok (Some s), p) ->
  Cache_Delete id p = (Ok tt, p1) ->
  Cache_Save now' (with_expiry e s) p1 = (Ok r, p2) -> now' < e ->
  (forall t, now' <= t < e -> Cache_Get t id p2 = (Ok (Some (with_expiry e s)), p2)) /\
  st_rows (storage p2) !! id = None.
Proof.
  intros [Hk _] Hid [= Hg] Hdel Hsave He.
  apply Hk in Hg as Hid'. apply Itoa_inj in Hid' as ->.
  apply Cache_Delete_inv in Hdel as [(? & [=] & _)|(_ & _ & Hr1)].
  apply Cache_Save_inv in Hsave as [(? & [=] & _)|(? & [= <-] & Hs & Hc)].
  apply save_known in Hs as [-> Hr2]; [|cbn; lia]. cbn in Hr2, Hc. split.
  - intros t Ht. unfold Cache_Get, getFromCache, gets. rewrite Hc.
    rewrite get_set_live; [by destruct s|lia].
  - by rewrite Hr2, lookup_alter_eq, Hr1, lookup_delete_eq.
Qed.

Lemma logout_undone_by_request_in_flight_witness :
  let s := with_id 1 example_session in
  let p1 := snd (Cache_Delete 1 alice_cache) in
  let p2 := snd (Cache_Save 10 (with_expiry (700 * Second) s) p1) in
  fst (Cache_Get 9 1 p1) = Ok None /\
  fst (Cache_Get 11 1 p2) = Ok (Some (with_expiry (700 * Second) s)).
Proof.
  intros s p1 p2. split; [by vm_compute|].
  destruct (logout_undone_by_request_in_flight 5 10 1 s (700 * Second) alice_cache p1 p2 1)
    as [H _]; [exact alice_cache_keyed|lia|by vm_compute..|].
  rewrite H by (by vm_compute). done.
Defined.

(** C40: Deleting one session of a user by id evicts the session from the
    cache whoever owns it, but deletes the row only if the user owns it: naming
    another user's session logs that user out until the next restart. *)
Theorem delete_by_id_ignores_owner {C S} `{!InternalCacheProvider C, !InternalCacheSpec C}
    `{!SqlDatetime, !StorageProvider S, !StorageSpec S} now u id s (p p' : Cache C S) :
  id <> -1 -> Cache_DeleteByID now u id p = (Ok tt, p') ->
  st_rows (storage p) !! id = Some s ->
  (forall t, fst (Cache_Get t id p') = Ok None) /\
  st_rows (storage p') !! id = (if decide (as_Username s = u) then None else Some s).
Proof.
  intros Hid (_ & Hc & Hr)%Cache_DeleteByID_inv Hs. split.
  - intros t. unfold Cache_Get, getFromCache, gets. rewrite (Hc Hid). cbn.
    by rewrite get_delete.
  - rewrite Hr. destruct (decide _) as [E|E].
    + apply map_lookup_filter_None. right. intros x Hx. simplify_eq. cbn. tauto.
    + apply map_lookup_filter_Some. cbn. tauto.
Qed.

Lemma delete_by_id_ignores_owner_witness :
  let p' := snd (Cache_DeleteByID 2 "bob" 1 alice_cache) in
  fst (Cache_Get 3 1 p') = Ok None /\
  st_rows (storage p') !! 1 = Some (with_id 1 example_session).
Proof.
  intros p'.
  destruct (delete_by_id_ignores_owner 2 "bob" 1 (with_id 1 example_session) alice_cache p')
    as [H1 H2]; [lia|by vm_compute..|].
  split; [apply H1|]. rewrite H2. by vm_compute.
Defined.
