(* ===== verification/Bearer.v ===== *)
(** * Bearer tokens (server/bearer/bearer_auth.go)

    A login mints a JWT that names the user, the session and the scopes, and
    saves the session.  A request is accepted when the scopes cover it and the
    session named by the token is live.  Signing and parsing JWTs is the
    library golang-jwt: a parameter with its documented behaviour.  The session
    store is an interface ([APISessionUpdater] and [APISessionGetter]) that
    [Sessions.Cache] implements. *)

From stdpp Require Import base gmap strings list numbers.
From Stdlib Require Import ZArith Ascii Lia.
From S2P Require Import Prelude GoStrings Db Sessions.

Local Open Scope Z_scope.

(** ** Data *)

Definition DefaultMaxTokenLifetime : duration := 90 * 24 * Hour.
Definition DefaultTokenLifetime : duration := 10 * Minute.

Record Scope := mkScope {
  sc_URI : string;
  sc_Method : string;
  sc_Exclude : bool
}.

(** [AppTokenClaims]; of the standard claims the code sets [Id] and
    [ExpiresAt] (seconds since the epoch). *)
Record AppTokenClaims := mkClaims {
  cl_Username : string;
  cl_SessionID : Z;
  cl_Scopes : list Scope;
  cl_Id : string;
  cl_ExpiresAt : Z
}.

Definition AllRoutesPrefix : string := "/api/v1".
Definition TotPRoutes : string := "/me/totp-secret".
Definition Verify2FaRoute : string := "/verify-2fa".

Definition ScopesAllExcluding2FaCheck : list Scope :=
  [ mkScope "*" "*" false;
    mkScope (AllRoutesPrefix +:+ Verify2FaRoute) "*" true ].

Definition ScopesTotPCreateOnly : list Scope :=
  [ mkScope (AllRoutesPrefix +:+ TotPRoutes) "POST" false ].

Definition Scopes2FaCheckOnly : list Scope :=
  [ mkScope (AllRoutesPrefix +:+ Verify2FaRoute) "POST" false ].

(** [time.Time.Unix]. *)
Definition Unix (t : time) : Z := t / Second.

Class JWT := {
  jwt_sign : string -> AppTokenClaims -> result string;
  jwt_parse : time -> string -> string -> result (AppTokenClaims * bool)
}.

(** golang-jwt: a signed token parses back to its claims while it has not
    expired; parsing checks the expiry claim when it is set. *)
Class JWTSpec `{!JWT} := {
  parse_sign secret c tok now :
    jwt_sign secret c = Ok tok -> Unix now < cl_ExpiresAt c ->
    jwt_parse now secret tok = Ok (c, true);
  parse_signed secret c tok now c' v :
    jwt_sign secret c = Ok tok -> jwt_parse now secret tok = Ok (c', v) -> c' = c;
  parse_expiry now secret tok c v :
    jwt_parse now secret tok = Ok (c, v) -> cl_ExpiresAt c = 0 \/ Unix now <= cl_ExpiresAt c
}.

Class APISessions (S : Type) := {
  sess_Get : time -> Z -> M S (option APISession);
  sess_Save : time -> APISession -> M S Z
}.

#[export] Instance Cache_sessions {C S} `{!InternalCacheProvider C, !StorageProvider S} :
    APISessions (Cache C S) := {
  sess_Get := Cache_Get;
  sess_Save := Cache_Save
}.

(** The parts of an HTTP request the handlers look at.  [Authorization] is the
    header ("" when absent) and [BasicAuth] what net/http decodes from it. *)
Record Request := mkRequest {
  req_Method : string;
  req_Path : string;
  req_Authorization : string;
  req_BasicAuth : option (string * string);
  req_RemoteIP : string;
  req_RemoteAddr : string;
  req_UserAgent : string;
  req_Query : gmap string string;
  req_Header : gmap string string
}.

(** ** Operations *)

Definition TrimSlash (s : string) : string :=
  TrimRightFunc (Ascii.eqb "/"%char) (TrimLeftFunc (Ascii.eqb "/"%char) s).

Definition scope_matches (uri method : string) (s : Scope) : bool :=
  (String.eqb (sc_URI s) "*" || String.eqb uri (sc_URI s)) &&
  (String.eqb (sc_Method s) "*" || String.eqb method (sc_Method s)).

Definition currentURIMatchesTokenScopes (currentURI currentMethod : string)
    (tokenScopes : list Scope) : bool :=
  match tokenScopes with
  | [] => true
  | _ =>
      let currentURI := ("/" +:+ TrimSlash currentURI)%string in
      let '(hasAtLeastOneMatch, hasExcludeMatch) :=
        foldl (fun '(one, excl) tokenScope =>
          if scope_matches currentURI currentMethod tokenScope
          then if sc_Exclude tokenScope then (one, true) else (true, excl)
          else (one, excl)) (false, false) tokenScopes in
      hasAtLeastOneMatch && negb hasExcludeMatch
  end.

Section bearer.
Context `{!JWT} {S : Type} `{!APISessions S}.

(** [jti] is the random token id. *)
Definition CreateAuthToken (now : time) (jti JWTSecret : string) (lifetime : duration)
    (username : string) (scopes : list Scope) (userAgent remoteAddress : string)
    : M S string :=
  if String.eqb username "" then fail (EPlain "username cannot be empty")
  else
    let expiresAt := now + lifetime in
    sessionID <- sess_Save now (mkAPISession 0 expiresAt now username userAgent remoteAddress) ;;
    lift (jwt_sign JWTSecret (mkClaims username sessionID scopes jti (Unix expiresAt))).

Definition IncreaseSessionLifetime (now : time) (s : APISession) : M S unit :=
  let newExpirationDate := now + DefaultTokenLifetime in
  let s := if ExpiresAt s <? newExpirationDate then with_expiry newExpirationDate s else s in
  sess_Save now s ;;; ret tt.

(** [ParseToken]: the claims and whether the library calls the token valid. *)
Definition ParseToken (now : time) (tokenStr JWTSecret : string)
    : result (AppTokenClaims * bool) :=
  jwt_parse now JWTSecret tokenStr.

Definition zero_session : APISession := mkAPISession 0 0 0 "" "" "".

Definition ValidateBearerToken (now : time) (tokCtx : AppTokenClaims * bool)
    (uri method : string) : M S (bool * APISession) :=
  let '(AppClaims, Valid) := tokCtx in
  if negb (currentURIMatchesTokenScopes uri method (cl_Scopes AppClaims))
  then ret (false, zero_session)
  else if negb Valid || String.eqb (cl_Username AppClaims) ""
  then ret (false, zero_session)
  else
    found <- sess_Get now (cl_SessionID AppClaims) ;;
    match found with
    | None => ret (false, zero_session)
    | Some sessionInfo =>
        if negb (now <? ExpiresAt sessionInfo) then ret (false, sessionInfo)
        else ret (true, sessionInfo)
    end.

End bearer.

(** [GetBearerToken]. *)
Definition GetBearerToken (req : Request) : option string :=
  let auth := req_Authorization req in
  let prefix := "Bearer "%string in
  let n := String.length prefix in
  if (String.length auth <? n)%nat || negb (EqualFold (String.substring 0 n auth) prefix)
  then None
  else Some (String.substring n (String.length auth - n) auth).

(** [parseTokenLifetime] of server/api_handler_login.go, with the product at
    the width of a Duration. *)
Definition parseTokenLifetime (req : Request) : result duration :=
  let lifetimeStr := default ""%string (req_Query req !! "token-lifetime"%string) in
  let lifetimeStr := if String.eqb lifetimeStr "" then "0"%string else lifetimeStr in
  match Atoi lifetimeStr with
  | None => Err (EPlain ("invalid token-lifetime : " +:+ ParseInt_error lifetimeStr))
  | Some lifetime =>
      let result := wrap64 (lifetime * Second) in
      if DefaultMaxTokenLifetime <? result
      then Err (EPlain ("requested token lifetime exceeds max allowed " +:+
                        Itoa (DefaultMaxTokenLifetime / Second)))
      else if result <=? 0 then Ok DefaultTokenLifetime
      else Ok result
  end.

(** ** Lemmas *)

Definition in_scope (uri method : string) (scopes : list Scope) : Prop :=
  scopes = [] \/
  (exists s, s ∈ scopes /\ scope_matches ("/" +:+ TrimSlash uri) method s = true /\
    sc_Exclude s = false) /\
  (forall s, s ∈ scopes -> scope_matches ("/" +:+ TrimSlash uri) method s = true ->
    sc_Exclude s = false).

Lemma scan_scopes uri method scopes one excl :
  foldl (fun '(one, excl) tokenScope =>
      if scope_matches uri method tokenScope
      then if sc_Exclude tokenScope then (one, true) else (true, excl)
      else (one, excl)) (one, excl) scopes =
  (one || existsb (fun s => scope_matches uri method s && negb (sc_Exclude s)) scopes,
   excl || existsb (fun s => scope_matches uri method s && sc_Exclude s) scopes).
Proof.
  revert one excl; induction scopes as [|s l IH]; intros one excl; simpl.
  - by rewrite !orb_false_r.
  - destruct (scope_matches uri method s), (sc_Exclude s); simpl; rewrite IH, ?orb_true_r; done.
Qed.

Lemma in_scope_iff uri method scopes :
  currentURIMatchesTokenScopes uri method scopes = true <-> in_scope uri method scopes.
Proof.
  unfold currentURIMatchesTokenScopes, in_scope.
  destruct scopes as [|x l]; [naive_solver|]. set (scopes := x :: l).
  rewrite scan_scopes. cbn beta iota zeta delta [orb].
  generalize (scope_matches ("/" +:+ TrimSlash uri) method); intros matches.
  rewrite andb_true_iff, negb_true_iff, <-not_true_iff_false, !existsb_exists.
  setoid_rewrite <-list_elem_of_In. setoid_rewrite andb_true_iff. setoid_rewrite negb_true_iff.
  split.
  - intros [(s0 & Hs0 & Hm0 & He0) H2]. right. split; [by exists s0|]. intros s Hs Hm.
    apply not_true_iff_false. intros He. apply H2. eauto.
  - intros [?|[(s0 & Hs0 & Hm0 & He0) H2]]; [done|]. split; [by exists s0|].
    intros (s & Hs & Hm & He). specialize (H2 s Hs Hm). congruence.
Qed.

Lemma scope_matches_exact uri m s :
  sc_URI s <> "*"%string -> sc_Method s <> "*"%string ->
  scope_matches uri m s = true -> uri = sc_URI s /\ m = sc_Method s.
Proof.
  unfold scope_matches. intros Hu Hm H.
  apply andb_true_iff in H as [H1 H2].
  apply orb_true_iff in H1 as [H1|H1]; apply orb_true_iff in H2 as [H2|H2];
    bool_prop; naive_solver.
Qed.

Section validate.
Context `{!JWT} {S : Type} `{!APISessions S}.

Lemma ValidateBearerToken_true now c v uri method (p : S) s p' :
  ValidateBearerToken now (c, v) uri method p = (Ok (true, s), p') ->
  in_scope uri method (cl_Scopes c) /\ v = true /\ cl_Username c <> ""%string /\
  sess_Get now (cl_SessionID c) p = (Ok (Some s), p') /\ now < ExpiresAt s.
Proof.
  unfold ValidateBearerToken, bind, ret.
  destruct (currentURIMatchesTokenScopes _ _ _) eqn:Es; [|done].
  apply in_scope_iff in Es. destruct v; [|done]. simpl.
  destruct (String.eqb_spec (cl_Username c) ""); [done|].
  destruct (sess_Get _ _ p) as [[[x|]|] q] eqn:Eg; try done.
  destruct (Z.ltb_spec now (ExpiresAt x)); [|done]. simpl. intros [= <- <-]. done.
Qed.

Lemma CreateAuthToken_inv now jti secret lifetime u scopes ua ra (p : S) tok p' :
  CreateAuthToken now jti secret lifetime u scopes ua ra p = (Ok tok, p') ->
  u <> ""%string /\
  exists id, sess_Save now (mkAPISession 0 (now + lifetime) now u ua ra) p = (Ok id, p') /\
    jwt_sign secret (mkClaims u id scopes jti (Unix (now + lifetime))) = Ok tok.
Proof.
  unfold CreateAuthToken, bind, lift. destruct (String.eqb_spec u ""); [done|].
  destruct (sess_Save _ _ p) as [[id|] q]; [|done]. intros [= ? <-]. eauto.
Qed.

End validate.

Lemma parseTokenLifetime_bounds req d :
  parseTokenLifetime req = Ok d -> 0 < d <= DefaultMaxTokenLifetime.
Proof.
  unfold parseTokenLifetime. destruct (Atoi _) as [z|]; [|done].
  destruct (Z.ltb_spec DefaultMaxTokenLifetime (wrap64 (z * Second))); [done|].
  destruct (Z.leb_spec (wrap64 (z * Second)) 0); intros [= <-]; [by vm_compute|lia].
Qed.

(** A JWT library that satisfies the contract: the token is the position of its
    claims in the list of claims signed so far; here a single pair. *)
Definition example_claims (u : string) (id : Z) (scopes : list Scope) (exp : Z) : AppTokenClaims :=
  mkClaims u id scopes "jti" exp.

Section example_jwt.
Variable known : list (string * AppTokenClaims).

#[local] Instance Scope_eq_dec : EqDecision Scope.
Proof. solve_decision. Defined.
#[local] Instance AppTokenClaims_eq_dec : EqDecision AppTokenClaims.
Proof. solve_decision. Defined.

Fixpoint sign_from (n : nat) (l : list (string * AppTokenClaims)) (secret : string)
    (c : AppTokenClaims) : result string :=
  match l with
  | [] => Err (EPlain "cannot sign")
  | (s, c') :: l' =>
      if bool_decide (s = secret) && bool_decide (c' = c) then Ok (FormatUint (N.of_nat n))
      else sign_from (S n) l' secret c
  end.

Definition parse_known (now : time) (secret tok : string) : result (AppTokenClaims * bool) :=
  match parse_digits tok with
  | Some n =>
      match known !! N.to_nat n with
      | Some (s, c) =>
          if bool_decide (s = secret) && ((cl_ExpiresAt c =? 0) || (Unix now <=? cl_ExpiresAt c))
          then Ok (c, true) else Err (EPlain "token is expired")
      | None => Err (EPlain "malformed")
      end
  | None => Err (EPlain "malformed")
  end.

Definition ledger_jwt : JWT := {|
  jwt_sign := sign_from 0 known;
  jwt_parse := parse_known
|}.

Lemma sign_from_Ok n l secret c tok :
  sign_from n l secret c = Ok tok ->
  exists i, tok = FormatUint (N.of_nat (n + i)) /\ l !! i = Some (secret, c).
Proof.
  revert n; induction l as [|[s c'] l IH]; intros n; simpl; [done|].
  destruct (bool_decide (s = secret) && bool_decide (c' = c)) eqn:E.
  - apply andb_true_iff in E as [->%bool_decide_eq_true ->%bool_decide_eq_true].
    intros [= <-]. exists 0%nat. by rewrite Nat.add_0_r.
  - intros (i & -> & ?)%IH. exists (S i). by rewrite Nat.add_succ_r.
Qed.

Lemma ledger_parse secret c tok now :
  sign_from 0 known secret c = Ok tok ->
  parse_known now secret tok =
  if (cl_ExpiresAt c =? 0) || (Unix now <=? cl_ExpiresAt c)
  then Ok (c, true) else Err (EPlain "token is expired").
Proof.
  intros (i & -> & Hi)%sign_from_Ok. unfold parse_known.
  rewrite parse_FormatUint, Nat2N.id. simpl. rewrite Hi.
  by rewrite bool_decide_eq_true_2.
Qed.

Lemma ledger_jwt_spec : @JWTSpec ledger_jwt.
Proof.
  split; cbn.
  - intros secret c tok now Hs He. rewrite (ledger_parse _ _ _ _ Hs).
    destruct (Z.leb_spec (Unix now) (cl_ExpiresAt c)); [by rewrite orb_true_r|lia].
  - intros secret c tok now c' v Hs. rewrite (ledger_parse _ _ _ _ Hs).
    destruct (_ || _); by intros [= -> _].
  - intros now secret tok c v. unfold parse_known.
    destruct (parse_digits tok) as [n|]; [|done].
    destruct (known !! _) as [[s c']|]; [|done].
    destruct (bool_decide (s = secret)); [|done]. simpl.
    destruct (Z.eqb_spec (cl_ExpiresAt c') 0), (Z.leb_spec (Unix now) (cl_ExpiresAt c'));
      simpl; intros E; simplify_eq; auto.
Qed.
End example_jwt.

(** ** Properties *)

(** C5: A token minted for the second factor opens nothing else: when a
    request is accepted with it, the request is the POST to /verify-2fa, or to
    /me/totp-secret when the user has no TOTP secret yet.  A full token never
    opens /verify-2fa. *)
Theorem pending_2fa_token_confined `{!JWT} {S} `{!APISessions S} now c v uri method
    (p p' : S) s :
  ValidateBearerToken now (c, v) uri method p = (Ok (true, s), p') ->
  (cl_Scopes c = Scopes2FaCheckOnly ->
    method = "POST"%string /\ ("/" +:+ TrimSlash uri = "/api/v1/verify-2fa")%string) /\
  (cl_Scopes c = Scopes2FaCheckOnly ++ ScopesTotPCreateOnly ->
    method = "POST"%string /\ ("/" +:+ TrimSlash uri = "/api/v1/verify-2fa" \/
      "/" +:+ TrimSlash uri = "/api/v1/me/totp-secret")%string) /\
  (cl_Scopes c = ScopesAllExcluding2FaCheck ->
    ("/" +:+ TrimSlash uri <> "/api/v1/verify-2fa")%string).
Proof.
  intros (Hsc & _)%ValidateBearerToken_true. split_and!; intros E; rewrite E in Hsc;
    destruct Hsc as [?|[(x & Hx & Hm & He) Hex]]; try done.
  - apply list_elem_of_singleton in Hx as ->. by apply scope_matches_exact in Hm as [-> ->].
  - apply elem_of_cons in Hx as [->|Hx%list_elem_of_singleton]; [|subst x];
      apply scope_matches_exact in Hm as [-> ->]; auto.
  - intros Huri.
    assert (sc_Exclude (mkScope (AllRoutesPrefix +:+ Verify2FaRoute) "*" true) = false); [|done].
    apply Hex; [right; left|]. unfold scope_matches. by rewrite Huri.
Qed.

(** C6: A minted token opens the requests in its scope until it expires and
    nothing afterwards, whatever its session became in the meantime: no token
    is accepted more than a second after the lifetime it was minted with, which
    is at most 90 days for every value of the token-lifetime parameter. *)
Theorem minted_token_until_expiry `{!JWT, !JWTSpec} {C S}
    `{!InternalCacheProvider C, !InternalCacheSpec C}
    `{!SqlDatetime, !StorageProvider S, !StorageSpec S}
    req L now jti secret u scopes ua ra (p p1 : Cache C S) tok :
  parseTokenLifetime req = Ok L -> Second <= now ->
  CreateAuthToken now jti secret L u scopes ua ra p = (Ok tok, p1) ->
  (forall t uri method, now <= t -> Unix t < Unix (now + L) -> in_scope uri method scopes ->
    exists c s, ParseToken t tok secret = Ok (c, true) /\ cl_Username c = u /\
      ValidateBearerToken t (c, true) uri method p1 = (Ok (true, s), p1) /\ as_Username s = u) /\
  (forall t c v, ParseToken t tok secret = Ok (c, v) ->
    t < now + L + Second /\ L <= DefaultMaxTokenLifetime).
Proof.
  intros HL Hnow (Hu & id & Hsave & Hsign)%CreateAuthToken_inv.
  apply parseTokenLifetime_bounds in HL.
  unfold Unix, Second in *. split.
  - intros t uri method Ht Hlt Hsc.
    eexists; eexists (mkAPISession id (now + L) now u ua ra).
    split; [eapply parse_sign; [exact Hsign|done]|]. split; [done|]. split; [|done].
    cbn in Hsave. apply Cache_Save_inv in Hsave as [(? & [=] & _)|(? & [= <-] & _ & Hc)].
    unfold ValidateBearerToken. cbn [cl_Scopes cl_Username cl_SessionID].
    apply in_scope_iff in Hsc as ->. destruct (String.eqb_spec u ""); [done|]. cbn.
    unfold bind, Cache_Get, getFromCache, gets. rewrite Hc.
    assert (t < now + L) by (revert Hlt; Z.to_euclidean_division_equations; lia).
    rewrite get_set_live by (cbn; lia). cbn.
    destruct (Z.ltb_spec t (now + L)); [done|lia].
  - intros t c v Hp. split; [|lia].
    pose proof (parse_signed _ _ _ _ _ _ Hsign Hp) as ->.
    destruct (parse_expiry _ _ _ _ _ Hp) as [Hx|Hx]; cbn in Hx; unfold Unix, Second in Hx;
      revert Hx Hnow; Z.to_euclidean_division_equations; lia.
Qed.

Definition login_request : Request :=
  mkRequest "POST" "/api/v1/login" "" None "10.0.0.1" "10.0.0.1:4711" "curl"
    {[ "token-lifetime"%string := "3600"%string ]} ∅.

Definition alice_claims : AppTokenClaims :=
  mkClaims "alice" 1 ScopesAllExcluding2FaCheck "jti" 3602.

Lemma pending_2fa_token_confined_witness :
  let jwt := ledger_jwt [] in
  let c := example_claims "alice" 1 Scopes2FaCheckOnly 600 in
  fst (ValidateBearerToken 0 (c, true) "/api/v1/verify-2fa/" "POST" alice_cache)
    = Ok (true, with_id 1 example_session) /\
  ("/" +:+ TrimSlash "/api/v1/verify-2fa/" = "/api/v1/verify-2fa")%string.
Proof.
  intros jwt c. split; [by vm_compute|].
  assert (ValidateBearerToken 0 (c, true) "/api/v1/verify-2fa/" "POST" alice_cache
    = (Ok (true, with_id 1 example_session), alice_cache)) as H by (by vm_compute).
  destruct (pending_2fa_token_confined 0 c true "/api/v1/verify-2fa/" "POST" alice_cache
    alice_cache (with_id 1 example_session) H) as [H1 _].
  by apply H1.
Defined.

Lemma minted_token_until_expiry_witness :
  let jwt := ledger_jwt [("secret"%string, alice_claims)] in
  let p1 := snd (CreateAuthToken (2 * Second) "jti" "secret" (3600 * Second) "alice"
    ScopesAllExcluding2FaCheck "curl" "10.0.0.1" example_cache) in
  exists c s, ParseToken (3000 * Second) "0" "secret" = Ok (c, true) /\ cl_Username c = "alice"%string /\
    ValidateBearerToken (3000 * Second) (c, true) "/api/v1/me" "GET" p1 = (Ok (true, s), p1) /\
    as_Username s = "alice"%string.
Proof.
  intros jwt p1.
  pose proof (ledger_jwt_spec [("secret"%string, alice_claims)]) as Hspec.
  destruct (minted_token_until_expiry login_request (3600 * Second) (2 * Second) "jti" "secret"
    "alice" ScopesAllExcluding2FaCheck "curl" "10.0.0.1" example_cache p1 "0") as [H _];
    [by vm_compute|by vm_compute|by vm_compute|].
  apply H; [by vm_compute|by vm_compute|]. apply in_scope_iff. by vm_compute.
Defined.

Lemma Save_new_rowid now s {C} `{!InternalCacheProvider C, !SqlDatetime}
    (p p' : Cache C (DB sessions_table)) id :
  SessionID s = 0 -> Cache_Save now s p = (Ok id, p') ->
  id = next_rowid (db_data (storage p)) /\
  db_data (storage p') = <[id := with_id id s]> (db_data (storage p)) /\
  cache p' = c_Set now (formatID id) (with_id id s) (ExpiresAt s - now) (cache p).
Proof.
  intros Hz [(? & [=] & _)|(? & [= <-] & Hs & Hc)]%Cache_Save_inv.
  cbn in Hs. unfold SqliteProvider_Save in Hs. rewrite Hz in Hs. cbn in Hs.
  apply db_call_inv in Hs as [(? & [=] & _)|(? & [= <-] & [= <- <-])]. done.
Qed.

(** C34: A token outlives its logout when the id of its session is given out
    again: after a logout of the most recent session, the next login of any
    user gets the same id, and the token of the logged-out user is accepted
    again, in its own name, until it expires. *)
Theorem stale_token_accepted_after_id_reuse `{!JWT, !JWTSpec} {C}
    `{!InternalCacheProvider C, !InternalCacheSpec C, !SqlDatetime}
    now1 j1 secret L1 alice sc1 ua1 ra1 (p p1 p2 p3 : Cache C (DB sessions_table)) tokA cA
    now2 j2 L2 bob sc2 ua2 ra2 tokB t uri method :
  CreateAuthToken now1 j1 secret L1 alice sc1 ua1 ra1 p = (Ok tokA, p1) ->
  ParseToken now1 tokA secret = Ok (cA, true) ->
  Cache_Delete (cl_SessionID cA) p1 = (Ok tt, p2) ->
  CreateAuthToken now2 j2 secret L2 bob sc2 ua2 ra2 p2 = (Ok tokB, p3) ->
  now2 <= t < now2 + L2 -> Unix t < Unix (now1 + L1) -> in_scope uri method sc1 ->
  exists s, ParseToken t tokA secret = Ok (cA, true) /\ cl_Username cA = alice /\
    ValidateBearerToken t (cA, true) uri method p3 = (Ok (true, s), p3) /\
    as_Username s = bob.
Proof.
  intros (Hu & id & Hs1 & Hsign)%CreateAuthToken_inv Hp1 Hdel
    (_ & id2 & Hs2 & _)%CreateAuthToken_inv Ht Hexp Hsc.
  pose proof (parse_signed _ _ _ _ _ _ Hsign Hp1) as ->.
  pose proof (parse_sign _ _ _ t Hsign Hexp) as Hp.
  apply Save_new_rowid in Hs1 as (Hid & Hr1 & _); [|done].
  apply Save_new_rowid in Hs2 as (Hid2 & _ & Hc3); [|done].
  apply Cache_Delete_inv in Hdel as [(? & [=] & _)|(_ & _ & Hr2)].
  cbn in Hr2. assert (id2 = id) as ->.
  { rewrite Hid2, Hr2, Hr1, delete_insert_id; [done|].
    rewrite Hid. apply next_rowid_fresh. }
  exists (mkAPISession id (now2 + L2) now2 bob ua2 ra2).
  split; [done|]. split; [done|]. split; [|done].
  unfold ValidateBearerToken. cbn [cl_Scopes cl_Username cl_SessionID].
  apply in_scope_iff in Hsc as ->. destruct (String.eqb_spec alice ""); [done|]. cbn.
  unfold bind, Cache_Get, getFromCache, gets. rewrite Hc3.
  rewrite get_set_live by (cbn; lia). cbn.
  destruct (Z.ltb_spec t (now2 + L2)); [done|lia].
Qed.

Definition bob_claims : AppTokenClaims :=
  mkClaims "bob" 1 ScopesAllExcluding2FaCheck "jti" 3604.

Lemma stale_token_accepted_after_id_reuse_witness :
  let jwt := ledger_jwt [("secret"%string, alice_claims); ("secret"%string, bob_claims)] in
  let mint now u p := snd (CreateAuthToken (now * Second) "jti" "secret" (3600 * Second) u
    ScopesAllExcluding2FaCheck "curl" "10.0.0.1" p) in
  let p3 := mint 4 "bob"%string (snd (Cache_Delete 1 (mint 2 "alice"%string example_cache))) in
  exists s, ParseToken (5 * Second) "0" "secret" = Ok (alice_claims, true) /\
    cl_Username alice_claims = "alice"%string /\
    ValidateBearerToken (5 * Second) (alice_claims, true) "/api/v1/me" "GET" p3
      = (Ok (true, s), p3) /\
    as_Username s = "bob"%string.
Proof.
  intros jwt mint p3.
  pose proof (ledger_jwt_spec [("secret"%string, alice_claims); ("secret"%string, bob_claims)])
    as Hspec.
  apply (stale_token_accepted_after_id_reuse (2 * Second) "jti" "secret" (3600 * Second) "alice"
    ScopesAllExcluding2FaCheck "curl" "10.0.0.1" example_cache (mint 2 "alice"%string example_cache)
    (snd (Cache_Delete 1 (mint 2 "alice"%string example_cache))) p3 "0" alice_claims
    (4 * Second) "jti" (3600 * Second) "bob" ScopesAllExcluding2FaCheck "curl" "10.0.0.1" "1"
    (5 * Second) "/api/v1/me" "GET"); try (by vm_compute).
  apply in_scope_iff. by vm_compute.
Defined.
