(* ===== verification/Users.v ===== *)
(** * API users (server/api/users)

    Users and their groups, the providers that keep them (a JSON file, a single
    configured user) and the service in front of them.  A provider is an
    interface; the service's theorems are about any provider or about the file
    adapter.  bcrypt, zxcvbn and the validation of a 2FA receiver are
    parameters. *)

From stdpp Require Import base gmap strings list numbers sets.
From Stdlib Require Import ZArith Ascii Lia.
From S2P Require Import Prelude GoStrings Db.

Local Open Scope string_scope.

(** ** Users, groups, permissions *)

(** user.go.  A nil slice or pointer is [None]. *)
Record User := mkUser {
  u_Username : string;
  u_Password : string;
  u_PasswordExpired : option bool;
  u_Groups : option (list string);
  u_TwoFASendTo : string;
  u_TotP : string
}.

#[export] Instance User_eq_dec : EqDecision User.
Proof. solve_decision. Defined.

Definition no_user : User := mkUser "" "" None None "" "".

Definition GetGroups (u : User) : list string := default [] (u_Groups u).

Definition Administrators : string := "Administrators".

Definition IsAdmin (u : User) : bool :=
  existsb (fun group => String.eqb group Administrators) (GetGroups u).

Definition PermissionTunnels := "tunnels".
Definition PermissionScripts := "scripts".
Definition PermissionCommands := "commands".
Definition PermissionVault := "vault".
Definition PermissionScheduler := "scheduler".
Definition PermissionMonitoring := "monitoring".
Definition PermissionUploads := "uploads".
Definition PermissionsAuditLog := "auditlog".

Definition AllPermissions : list string :=
  [PermissionTunnels; PermissionScripts; PermissionCommands; PermissionVault;
   PermissionScheduler; PermissionMonitoring; PermissionUploads; PermissionsAuditLog].

(** permissions.go: a nil map has no permission. *)
Definition Permissions := option (gmap string bool).

Definition NewPermissions (perms : list string) : Permissions :=
  Some (foldl (fun d p => <[p := true]> d) ∅ perms).

Definition Has (permissions : Permissions) (p : string) : bool :=
  match permissions with
  | None => false
  | Some data => default false (data !! p)
  end.

Definition All (permissions : Permissions) : gmap string bool :=
  foldl (fun result p => <[p := Has permissions p]> result) ∅ AllPermissions.

(** [Permissions.UnmarshalJSON], after the decoding into a map. *)
Definition permissions_of_map (result : gmap string bool) : Prelude.result Permissions :=
  if forallb (fun kv => existsb (String.eqb kv.1) AllPermissions) (map_to_list result)
  then Ok (Some result) else Err (EPlain "invalid permission").

(** Decoded JSON, for the extended permissions that are only carried along. *)
Inductive json :=
  | JNull | JBool (b : bool) | JNum (text : string) | JString (s : string)
  | JArray (l : list json) | JObject (l : list (string * json)).

Record Group := mkGroup {
  g_Name : string;
  g_Permissions : Permissions;
  g_TunnelsRestricted : option (list (string * json));
  g_CommandsRestricted : option (list (string * json))
}.

Definition AdministratorsGroup : Group :=
  mkGroup Administrators (NewPermissions AllPermissions) None None.

Definition NewGroup (name : string) (tr cr : option (list (string * json)))
    (perms : list string) : Group :=
  if String.eqb name Administrators then AdministratorsGroup
  else mkGroup name (NewPermissions perms) tr cr.

(** ** Providers *)

Inductive ProviderSource := ProviderSourceStatic | ProviderSourceFile | ProviderSourceDB | ProviderSourceMock.

Class Provider (P : Type) := {
  p_Type : ProviderSource;
  p_SupportsGroupPermissions : bool;
  p_GetAll : M P (list User);
  p_ListGroups : M P (list Group);
  p_GetGroup : string -> M P Group;
  p_UpdateGroup : string -> Group -> M P unit;
  p_DeleteGroup : string -> M P unit;
  p_GetByUsername : string -> M P (option User);
  p_Add : User -> M P unit;
  p_Update : User -> string -> M P unit;
  p_Delete : string -> M P unit
}.

(** cache.go. *)
Abbreviation UserCache := (gmap string User) (only parsing).

Definition UserCache_Load (users : list User) : UserCache :=
  foldl (fun m u => <[u_Username u := u]> m) ∅ users.

Definition UserCache_GetByUsername (username : string) (c : UserCache) : option User :=
  c !! username.

Definition UserCache_GetAll (c : UserCache) : list User := (map_to_list c).*2.

(** file.go *)
Definition HtpasswdBcryptPrefix := "$2y$".
Definition HtpasswdBcryptAltPrefix := "$2a$".
Definition HtpasswdBcryptAltPrefix2b := "$2b$".

Definition IsBcryptHash (s : string) : bool :=
  HasPrefix s HtpasswdBcryptPrefix || HasPrefix s HtpasswdBcryptAltPrefix ||
  HasPrefix s HtpasswdBcryptAltPrefix2b.

(** The text of the users file, as the JSON decoder sees it: the users whose
    objects are complete, in order, and, when the text breaks off after a comma
    or inside an object, the decoder's error there.  A text that ends at the end
    of an object, or is empty, decodes without an error ([decoder.More] is false
    and the closing bracket is never read). *)
Record UsersText := mkUsersText {
  ut_users : list User;
  ut_torn : option string
}.

(** What [json.MarshalIndent] writes. *)
Definition whole (users : list User) : UsersText := mkUsersText users None.

(** [parseUsers], on the users the JSON decoder yields. *)
Fixpoint parse_users (usernames : gset string) (raw : list User) (torn : option string)
    : result (list User) :=
  match raw with
  | [] =>
      match torn with
      | Some err => Err (wrapf "failed to parse user" err)
      | None => Ok []
      end
  | user :: raw' =>
      let u := TrimSpace (u_Username user) in
      if String.eqb u "" then Err (EPlain "username can not be empty") else
      let p := TrimSpace (u_Password user) in
      if String.eqb p "" then Err (EPlain "password can not be empty") else
      if negb (IsBcryptHash p)
      then Err (EPlain "require passwords to be bcrypt hashed") else
      if bool_decide (u ∈ usernames) then Err (EPlain "non unique username") else
      let! users := parse_users ({[u]} ∪ usernames) raw' torn in
      Ok (mkUser u p (u_PasswordExpired user) (u_Groups user) (u_TwoFASendTo user) (u_TotP user)
          :: users)
  end.

Definition parseUsers (text : UsersText) : result (list User) :=
  parse_users ∅ (ut_users text) (ut_torn text).

(** The users file: its text, and what the file system is going to report of
    the next accesses.  Opening may fail, and leaves the file alone.
    [ioutil.WriteFile] opens with O_TRUNC and then writes: a write that is
    interrupted (no space left, an I/O error, a crash) leaves a prefix of the
    new text, with [n] users complete and possibly torn after them. *)
Inductive file_outcome :=
  | Accessed
  | OpenFailed (err : string)
  | WriteInterrupted (n : nat) (torn : option string) (err : string).

Record UsersFile := mkUsersFile {
  uf_text : UsersText;
  uf_outcomes : list file_outcome
}.

Definition next_outcome (f : UsersFile) : file_outcome :=
  match uf_outcomes f with [] => Accessed | o :: _ => o end.

Definition ReadUsersFromFile : M UsersFile (list User) := fun f =>
  let f' := mkUsersFile (uf_text f) (tail (uf_outcomes f)) in
  match next_outcome f with
  | OpenFailed err => (Err (wrapf "failed to open users file" err), f')
  | _ => (parseUsers (uf_text f), f')
  end.

Definition SaveUsersToFile (usrs : list User) : M UsersFile unit := fun f =>
  let outcomes := tail (uf_outcomes f) in
  match next_outcome f with
  | Accessed => (Ok tt, mkUsersFile (whole usrs) outcomes)
  | OpenFailed err => (Err (raw_error err), mkUsersFile (uf_text f) outcomes)
  | WriteInterrupted n torn err =>
      (Err (raw_error err), mkUsersFile (mkUsersText (take n usrs) torn) outcomes)
  end.

(** file_adapter.go *)
Record FileAdapter := mkFileAdapter {
  fa_cache : UserCache;
  fa_file : UsersFile
}.

Definition on_file {A} (m : M UsersFile A) : M FileAdapter A :=
  zoom fa_file (fun f fa => mkFileAdapter (fa_cache fa) f) m.

Definition FileAdapter_load : M FileAdapter unit :=
  users <- on_file ReadUsersFromFile ;;
  modify (fun fa => mkFileAdapter (UserCache_Load users) (fa_file fa)).

(** [NewFileAdapter]. *)
Definition NewFileAdapter (file : UsersFile) : result FileAdapter :=
  match FileAdapter_load (mkFileAdapter ∅ file) with
  | (Ok _, fa) => Ok fa
  | (Err e, _) => Err e
  end.

Definition file_unsupported : go_error :=
  EAPI (api_error StatusBadRequest
    "The json file authentication backend doesn't support this feature.").

Definition user_not_found (username : string) : go_error :=
  EAPI (api_error StatusNotFound ("cannot find user by username '" +:+ username +:+ "'")).

Definition username_taken : go_error :=
  EAPI (api_error StatusBadRequest "Another user with this username already exists").

(** The list without the first user of that name. *)
Fixpoint remove_user (username : string) (users : list User) : option (list User) :=
  match users with
  | [] => None
  | u :: users' =>
      if String.eqb (u_Username u) username then Some users'
      else match remove_user username users' with
           | Some l => Some (u :: l)
           | None => None
           end
  end.

Definition FileAdapter_Delete (usernameToDelete : string) : M FileAdapter unit :=
  usersFromFile <- on_file ReadUsersFromFile ;;
  match remove_user usernameToDelete usersFromFile with
  | None => fail (user_not_found usernameToDelete)
  | Some usersToWriteToFile =>
      on_file (SaveUsersToFile usersToWriteToFile) ;;;
      FileAdapter_load
  end.

(** The changes [Update] makes to the user it found. *)
Definition apply_changes (data u : User) : User :=
  let '(pw, exp) :=
    if String.eqb (u_Password data) "" then (u_Password u, u_PasswordExpired u)
    else (u_Password data, Some false) in
  mkUser
    (if String.eqb (u_Username data) "" then u_Username u else u_Username data)
    pw
    (match u_PasswordExpired data with Some b => Some b | None => exp end)
    (match u_Groups data with Some g => Some g | None => u_Groups u end)
    (if String.eqb (u_TwoFASendTo data) "" then u_TwoFASendTo u else u_TwoFASendTo data)
    (if String.eqb (u_TotP data) "" then u_TotP u else u_TotP data).

(** The scan of [Update]: the index of the last user of that name, or the clash
    with the new name. *)
Fixpoint scan_update (newName username : string) (i : nat) (found : option nat)
    (users : list User) : result (option nat) :=
  match users with
  | [] => Ok found
  | u :: users' =>
      let found := if String.eqb (u_Username u) username then Some i else found in
      if negb (String.eqb newName "") && String.eqb (u_Username u) newName &&
         negb (String.eqb newName username)
      then Err username_taken
      else scan_update newName username (S i) found users'
  end.

Definition FileAdapter_Update (dataToChange : User) (usernameToFind : string)
    : M FileAdapter unit :=
  users <- on_file ReadUsersFromFile ;;
  userFound <- lift (scan_update (u_Username dataToChange) usernameToFind 0 None users) ;;
  match userFound with
  | None => fail (user_not_found usernameToFind)
  | Some i =>
      on_file (SaveUsersToFile (alter (apply_changes dataToChange) i users)) ;;;
      FileAdapter_load
  end.

Definition FileAdapter_Add (dataToChange : User) : M FileAdapter unit :=
  users <- on_file ReadUsersFromFile ;;
  if existsb (fun u => String.eqb (u_Username u) (u_Username dataToChange)) users
  then fail username_taken
  else
    on_file (SaveUsersToFile (users ++ [dataToChange])%list) ;;;
    FileAdapter_load.

#[export] Instance FileAdapter_provider : Provider FileAdapter := {
  p_Type := ProviderSourceFile;
  p_SupportsGroupPermissions := false;
  p_GetAll := gets (fun fa => UserCache_GetAll (fa_cache fa));
  p_ListGroups := fail file_unsupported;
  p_GetGroup _ := fail file_unsupported;
  p_UpdateGroup _ _ := fail file_unsupported;
  p_DeleteGroup _ := fail file_unsupported;
  p_GetByUsername username := gets (fun fa => UserCache_GetByUsername username (fa_cache fa));
  p_Add := FileAdapter_Add;
  p_Update := FileAdapter_Update;
  p_Delete := FileAdapter_Delete
}.

(** single_user.go *)
Record StaticProvider := mkStaticProvider { sp_cache : UserCache }.

Definition NewStaticProvider (users : list User) : StaticProvider :=
  mkStaticProvider (UserCache_Load users).

Definition static_unsupported (what : string) : go_error :=
  EAPI (api_error StatusBadRequest
    ("The single user authentication doesn't support this " +:+ what +:+ ".")).

#[export] Instance StaticProvider_provider : Provider StaticProvider := {
  p_Type := ProviderSourceStatic;
  p_SupportsGroupPermissions := false;
  p_GetAll := gets (fun p => UserCache_GetAll (sp_cache p));
  p_ListGroups := fail (static_unsupported "feature");
  p_GetGroup _ := fail (static_unsupported "feature");
  p_UpdateGroup _ _ := fail (static_unsupported "feature");
  p_DeleteGroup _ := fail (static_unsupported "feature");
  p_GetByUsername username := gets (fun p => UserCache_GetByUsername username (sp_cache p));
  p_Add _ := fail (static_unsupported "operation");
  p_Update _ _ := fail (static_unsupported "operation");
  p_Delete _ := fail (static_unsupported "operation")
}.

(** ** The service (service.go) *)

(** golang.org/x/crypto/bcrypt; [salt] is the randomness it draws. *)
Class Bcrypt := {
  GenerateFromPassword : string -> string -> result string;
  CompareHashAndPassword : string -> string -> bool
}.

(** strings.Replace(s, old, new, 1). *)
Definition ReplaceFirst (s old new : string) : string :=
  match Cut s old with
  | Some (b, r) => b +:+ new +:+ r
  | None => s
  end.

(** A hash carries bcrypt's identifier and has no white space; its version
    under htpasswd's identifier verifies the password. *)
Class BcryptSpec `{!Bcrypt} := {
  bcrypt_format salt pw h :
    GenerateFromPassword salt pw = Ok h ->
    HasPrefix h HtpasswdBcryptAltPrefix = true /\
    string_forallb (fun c => negb (is_space c)) h = true;
  bcrypt_verifies salt pw h :
    GenerateFromPassword salt pw = Ok h ->
    CompareHashAndPassword (ReplaceFirst h HtpasswdBcryptAltPrefix HtpasswdBcryptPrefix) pw = true
}.

Record APIService := mkAPIService {
  as_DeliverySrv : option (string -> option string);
  as_TwoFAOn : bool;
  as_PasswordMinLength : Z;
  as_PasswordZxcvbnMinscore : Z
}.

Section service.
Context {P : Type} `{!Provider P, !Bcrypt}.
(** zxcvbn's score of a password, given the user's own inputs. *)
Context (PasswordStrength : string -> list string -> Z).

Definition UpdateGroup (name : string) (g : Group) : M P Group :=
  if String.eqb name Administrators
  then fail (EAPI (api_error StatusBadRequest
    "The built-in Administrators group grants every permission and cannot be modified."))
  else p_UpdateGroup name g ;;; p_GetGroup name.

Definition DeleteGroup (name : string) : M P unit :=
  if String.eqb name Administrators
  then fail (EAPI (api_error StatusBadRequest
    "The built-in Administrators group cannot be deleted."))
  else p_DeleteGroup name.

Definition no_permission (permission : string) : go_error :=
  EAPI (api_error StatusForbidden
    ("user does not have " +:+ quoted permission +:+ " permission")).

Fixpoint check_groups (groups : list string) (permission : string) : M P unit :=
  match groups with
  | [] => fail (no_permission permission)
  | groupName :: groups' =>
      group <- p_GetGroup groupName ;;
      if Has (g_Permissions group) permission then ret tt
      else check_groups groups' permission
  end.

Definition CheckPermission (user : User) (permission : string) : M P unit :=
  check_groups (GetGroups user) permission.

(** [permissionsMiddleware] of server/api_middleware.go, from the user it has
    looked up: the permission is checked where the provider has groups, and
    [next] handles the request that passes. *)
Definition permissionsMiddleware {A} (permission : string) (currUser : User) (next : M P A)
    : M P A :=
  (if p_SupportsGroupPermissions
   then CheckPermission currUser permission
   else ret tt) ;;;
  next.

Fixpoint extended_of (groups : list string)
    (tr cr : list (list (string * json)))
    : M P (list (list (string * json)) * list (list (string * json))) :=
  match groups with
  | [] => ret (tr, cr)
  | groupName :: groups' =>
      r <- try (p_GetGroup groupName) ;;
      match r with
      | Ok group =>
          extended_of groups' (tr ++ option_list (g_TunnelsRestricted group))%list
            (cr ++ option_list (g_CommandsRestricted group))%list
      | Err _ => extended_of groups' tr cr
      end
  end.

Definition GetEffectiveUserExtendedPermissions (user : User) :=
  extended_of (GetGroups user) [] [].

(** The inner loop of [GetEffectiveUserPermissions]. *)
Definition grant (group : Group) (permissions : gmap string bool) : gmap string bool :=
  foldl (fun perms permission =>
      if Has (g_Permissions group) permission && negb (default false (perms !! permission))
      then <[permission := true]> perms else perms)
    permissions AllPermissions.

Fixpoint effective_of (groups : list string) (permissions : gmap string bool)
    : M P (gmap string bool) :=
  match groups with
  | [] => ret permissions
  | groupName :: groups' =>
      group <- p_GetGroup groupName ;;
      effective_of groups' (grant group permissions)
  end.

Definition GetEffectiveUserPermissions (user : User) : M P (gmap string bool) :=
  if negb p_SupportsGroupPermissions then ret (All (NewPermissions AllPermissions))
  else effective_of (GetGroups user) (All (NewPermissions [])).

Definition ExistGroups (groups : list string) : M P unit :=
  existingGroups <- p_ListGroups ;;
  let groupsNotFound :=
    List.filter (fun group =>
      negb (existsb (fun existing => String.eqb (g_Name existing) group) existingGroups)) groups in
  match groupsNotFound with
  | [] => ret tt
  | _ => fail (EAPI (api_error StatusNotFound
           ("user groups not found: " +:+ Join groupsNotFound ", ")))
  end.

Definition GenerateTokenHash (salt newTokenClear : string) : result string :=
  let! tokenHash := GenerateFromPassword salt newTokenClear in
  Ok (ReplaceFirst tokenHash HtpasswdBcryptAltPrefix HtpasswdBcryptPrefix).

(** The errors [validate] collects, one block of the function each. *)
Definition bad_request (msg : string) : APIError := api_error StatusBadRequest msg.

Definition validate_required (svc : APIService) (data : User) (usernameToFind : string)
    : list APIError :=
  if String.eqb usernameToFind "" then
    ((if String.eqb (u_Username data) "" then [bad_request "username is required"] else []) ++
     (if String.eqb (u_Password data) "" then [bad_request "password is required"] else []) ++
     (if as_TwoFAOn svc && String.eqb (u_TwoFASendTo data) ""
      then [bad_request "two_fa_send_to is required"] else []))%list
  else
    if (String.eqb (u_Username data) "" || String.eqb (u_Username data) usernameToFind) &&
       String.eqb (u_Password data) "" &&
       bool_decide (u_PasswordExpired data = None) &&
       bool_decide (u_Groups data = None) &&
       (negb (as_TwoFAOn svc) || String.eqb (u_TwoFASendTo data) "") &&
       String.eqb (u_TotP data) ""
    then [bad_request "nothing to change"] else [].

Definition validate_username (data : User) : list APIError :=
  if negb (String.eqb (u_Username data) "") &&
     negb (String.eqb (TrimSpace (u_Username data)) (u_Username data))
  then [bad_request "username must not start or end with whitespace"] else [].

Definition validate_password (svc : APIService) (inputs : list string) (data : User)
    : list APIError :=
  if String.eqb (u_Password data) "" then []
  else
    ((if (Z.of_nat (String.length (u_Password data)) <? as_PasswordMinLength svc)%Z
      then [mkAPIError "Your password is too short"
             (Some ("password must be at least " +:+ Itoa (as_PasswordMinLength svc) +:+ " characters"))
             StatusBadRequest ""] else []) ++
     (if (0 <=? as_PasswordZxcvbnMinscore svc)%Z then
        if (PasswordStrength (u_Password data) inputs <? as_PasswordZxcvbnMinscore svc)%Z
        then [mkAPIError "Your password is too guessable"
               (Some ("zxcvbn score is " +:+ Itoa (PasswordStrength (u_Password data) inputs) +:+
                      ", must be at least " +:+ Itoa (as_PasswordZxcvbnMinscore svc)))
               StatusBadRequest ""] else []
      else []))%list.

Definition validate_receiver (svc : APIService) (data : User) : list APIError :=
  if String.eqb (u_TwoFASendTo data) "" then []
  else match as_DeliverySrv svc with
       | None => []
       | Some ValidateReceiver =>
           match ValidateReceiver (u_TwoFASendTo data) with
           | None => []
           | Some err => [mkAPIError "" (Some ("invalid two_fa_send_to: " +:+ err)) StatusBadRequest ""]
           end
       end.

Definition validate (svc : APIService) (dataToChange : User) (usernameToFind : string)
    : result unit :=
  let zxcvbnUserInputs :=
    ((if String.eqb usernameToFind "" then [] else [usernameToFind]) ++
     (if String.eqb (u_Username dataToChange) "" then [] else [u_Username dataToChange]))%list in
  let errs :=
    (validate_required svc dataToChange usernameToFind ++
     validate_username dataToChange ++
     validate_password svc zxcvbnUserInputs dataToChange ++
     validate_receiver svc dataToChange)%list in
  match errs with
  | [] => Ok tt
  | _ => Err (EAPIs errs)
  end.

Definition addUser (dataToChange : User) : M P unit :=
  existingUser <- p_GetByUsername (u_Username dataToChange) ;;
  match existingUser with
  | Some _ => fail username_taken
  | None => p_Add dataToChange
  end.

Definition updateUser (dataToChange : User) (usernameToFind : string) : M P unit :=
  existingUser <- p_GetByUsername usernameToFind ;;
  match existingUser with
  | None => fail (user_not_found usernameToFind)
  | Some _ =>
      (if negb (String.eqb (u_Username dataToChange) "") &&
          negb (String.eqb (u_Username dataToChange) usernameToFind)
       then other <- p_GetByUsername (u_Username dataToChange) ;;
            match other with
            | Some _ => fail username_taken
            | None => ret tt
            end
       else ret tt) ;;;
      p_Update dataToChange usernameToFind
  end.

Definition with_password (pw : string) (u : User) : User :=
  mkUser (u_Username u) pw (u_PasswordExpired u) (u_Groups u) (u_TwoFASendTo u) (u_TotP u).

Definition Change (svc : APIService) (salt : string) (usr : User) (username : string)
    : M P unit :=
  lift (validate svc usr username) ;;;
  usr <- (if String.eqb (u_Password usr) "" then ret usr
          else passHash <- lift (GenerateTokenHash salt (u_Password usr)) ;;
               ret (with_password passHash usr)) ;;
  if String.eqb username "" then addUser usr else updateUser usr username.

Definition Users_Delete (usernameToDelete : string) : M P unit :=
  user <- p_GetByUsername usernameToDelete ;;
  match user with
  | None => fail (user_not_found usernameToDelete)
  | Some _ => p_Delete usernameToDelete
  end.

End service.

(** [ParseAuth] of share/user.go and [parseHTTPAuthStr]. *)
Definition ParseAuth (auth : string) : string * string :=
  match Cut auth ":" with
  | Some (user, pass) => (user, pass)
  | None => ("", "")
  end.

Definition parseHTTPAuthStr (basicAuth : string) : result (option User) :=
  if String.eqb basicAuth "" then Ok None
  else
    let '(user, pass) := ParseAuth basicAuth in
    if String.eqb user "" || String.eqb pass ""
    then Err (EPlain ("invalid auth format: expected <user>:<password>, actual " +:+ basicAuth))
    else Ok (Some (mkUser user pass None None "" "")).

(** ** Lemmas: the users file *)

(** What [parseUsers] accepts and returns. *)
Definition good_user (u : User) : Prop :=
  u_Username u <> "" /\ TrimSpace (u_Username u) = u_Username u /\
  u_Password u <> "" /\ TrimSpace (u_Password u) = u_Password u /\
  IsBcryptHash (u_Password u) = true.

Definition good_users (l : list User) : Prop :=
  Forall good_user l /\ NoDup (u_Username <$> l).

Lemma parse_users_good seen l :
  Forall good_user l -> NoDup (u_Username <$> l) ->
  (forall u, u ∈ l -> u_Username u ∉ seen) -> parse_users seen l None = Ok l.
Proof.
  revert seen; induction l as [|u l IH]; intros seen Hg Hd Hs; [done|].
  apply Forall_cons_1 in Hg as [(H1 & H2 & H3 & H4 & H5) Hg].
  csimpl in Hd. apply NoDup_cons in Hd as [Hn Hd]. cbn [parse_users].
  rewrite H2, H4, H5. destruct (String.eqb_spec (u_Username u) ""); [done|].
  destruct (String.eqb_spec (u_Password u) ""); [done|]. cbn [negb].
  rewrite bool_decide_eq_false_2 by (apply Hs; left). rewrite IH; [by destruct u|done..|].
  intros v Hv [Heq%elem_of_singleton|Hin]%elem_of_union.
  - apply Hn. rewrite <-Heq. by apply list_elem_of_fmap_2.
  - apply (Hs v); [by right|done].
Qed.

Lemma parse_users_Ok seen raw torn l :
  parse_users seen raw torn = Ok l ->
  torn = None /\ Forall good_user l /\ NoDup (u_Username <$> l) /\ (forall u, u ∈ l -> u_Username u ∉ seen).
Proof.
  revert seen l; induction raw as [|u raw IH]; intros seen l; cbn [parse_users].
  { destruct torn; [done|]. intros [= <-]. split_and!; [done|done|constructor|]. by intros u ?%elem_of_nil. }
  destruct (String.eqb_spec (TrimSpace (u_Username u)) ""); [done|].
  destruct (String.eqb_spec (TrimSpace (u_Password u)) ""); [done|].
  destruct (IsBcryptHash _) eqn:Eb; [|done]. cbn [negb].
  case_bool_decide as Hseen; [done|].
  destruct (parse_users _ raw _) as [l'|] eqn:E; [|done]. intros [= <-].
  apply IH in E as (-> & Hg & Hd & Hn). split_and!; [done|..].
  - constructor; [|done]. split_and!; cbn [u_Username u_Password]; auto using TrimSpace_idem.
  - csimpl. constructor; [|done]. intros (v & Heq & Hv)%list_elem_of_fmap.
    apply (Hn v Hv). rewrite <-Heq. set_solver.
  - intros v [->|Hv]%elem_of_cons; [done|]. specialize (Hn v Hv). set_solver.
Qed.

Lemma parseUsers_Ok text l : parseUsers text = Ok l -> ut_torn text = None /\ good_users l.
Proof. intros (? & ? & ? & _)%parse_users_Ok. by split. Qed.

Lemma parseUsers_good l : good_users l -> parseUsers (whole l) = Ok l.
Proof. intros [? ?]. apply parse_users_good; set_solver. Qed.

Lemma good_users_app l u :
  good_users l -> good_user u -> (forall v, v ∈ l -> u_Username v <> u_Username u) ->
  good_users (l ++ [u])%list.
Proof.
  intros [Hg Hd] Hu Hf. split; [by apply Forall_app; split; [|constructor]|].
  rewrite fmap_app. apply NoDup_app. split_and!; [done| |csimpl; apply NoDup_singleton].
  intros n (v & -> & Hv)%list_elem_of_fmap Hn. csimpl in Hn.
  apply list_elem_of_singleton in Hn. by apply (Hf v).
Qed.

Lemma remove_user_sublist name l l' :
  remove_user name l = Some l' -> l' `sublist_of` l.
Proof.
  revert l'; induction l as [|u l IH]; intros l'; simpl; [done|].
  destruct (String.eqb _ _).
  - intros [= <-]. by constructor.
  - destruct (remove_user name l); [|done]. intros [= <-]. constructor. by apply IH.
Qed.

Lemma good_users_sublist l l' : l' `sublist_of` l -> good_users l -> good_users l'.
Proof.
  intros Hs [Hg Hd]. split.
  - apply Forall_forall. intros u Hu. rewrite Forall_forall in Hg. apply Hg.
    by eapply elem_of_sublist.
  - assert ((u_Username <$> l') `sublist_of` (u_Username <$> l)) as Hs'
      by (clear Hg Hd; induction Hs; csimpl; by constructor).
    by eapply sublist_NoDup.
Qed.

(** ** Lemmas: the operations of the adapter *)

Lemma ReadUsersFromFile_inv f r f' :
  ReadUsersFromFile f = (r, f') ->
  f' = mkUsersFile (uf_text f) (tail (uf_outcomes f)) /\
  forall l, r = Ok l -> parseUsers (uf_text f) = Ok l.
Proof. unfold ReadUsersFromFile. by destruct (next_outcome f); intros [= <- <-]. Qed.

(** Reloading changes the cache only, and to what the file holds. *)
Lemma FileAdapter_load_inv fa r fa' :
  FileAdapter_load fa = (r, fa') ->
  uf_text (fa_file fa') = uf_text (fa_file fa) /\
  match r with
  | Ok _ => exists l, parseUsers (uf_text (fa_file fa)) = Ok l /\ fa_cache fa' = UserCache_Load l
  | Err _ => fa_cache fa' = fa_cache fa
  end.
Proof.
  unfold FileAdapter_load, bind, on_file, zoom, modify.
  destruct (ReadUsersFromFile (fa_file fa)) as [[l|e] f] eqn:E;
    apply ReadUsersFromFile_inv in E as [-> Hl]; intros [= <- <-]; cbn.
  - split; [done|]. eauto.
  - done.
Qed.

(** Every operation of the adapter reads the file, decides on new contents
    (or fails), writes them and reloads. *)
Definition rewrite_file (f : list User -> result (list User)) : M FileAdapter unit :=
  users <- on_file ReadUsersFromFile ;;
  new <- lift (f users) ;;
  on_file (SaveUsersToFile new) ;;;
  FileAdapter_load.

(** The text after a rewrite is the old one, the new one or, when the second
    access to the file is a write that is interrupted, a prefix of the new one. *)
Lemma rewrite_file_inv f fa r fa' :
  rewrite_file f fa = (r, fa') ->
  uf_text (fa_file fa') = uf_text (fa_file fa) \/
  exists l new, parseUsers (uf_text (fa_file fa)) = Ok l /\ f l = Ok new /\
    (uf_text (fa_file fa') = whole new \/
     exists n torn err, uf_outcomes (fa_file fa) !! 1%nat = Some (WriteInterrupted n torn err) /\
       is_ok r = false /\ uf_text (fa_file fa') = mkUsersText (take n new) torn).
Proof.
  unfold rewrite_file, bind, on_file, zoom, lift.
  destruct (ReadUsersFromFile (fa_file fa)) as [[l|e] f1] eqn:E1;
    apply ReadUsersFromFile_inv in E1 as [-> Hl]; [|intros [= _ <-]; by left].
  destruct (f l) as [new|e] eqn:Ef; [|intros [= _ <-]; by left]. cbn.
  unfold SaveUsersToFile, next_outcome. cbn [uf_outcomes uf_text].
  destruct (uf_outcomes (fa_file fa)) as [|o1 [|[|err|n torn err] os]]; cbn -[FileAdapter_load].
  - intros [Hd _]%FileAdapter_load_inv. right. exists l, new. auto.
  - intros [Hd _]%FileAdapter_load_inv. right. exists l, new. auto.
  - intros [Hd _]%FileAdapter_load_inv. right. exists l, new. auto.
  - intros [= _ <-]. by left.
  - intros [= <- <-]. right. exists l, new. split_and!; [auto..|]. right. by exists n, torn, err.
Qed.

Lemma rewrite_file_Ok f fa fa' :
  rewrite_file f fa = (Ok tt, fa') ->
  exists l new l', parseUsers (uf_text (fa_file fa)) = Ok l /\ f l = Ok new /\
    uf_text (fa_file fa') = whole new /\ parseUsers (whole new) = Ok l' /\
    fa_cache fa' = UserCache_Load l'.
Proof.
  unfold rewrite_file, bind, on_file, zoom, lift.
  destruct (ReadUsersFromFile (fa_file fa)) as [[l|e] f1] eqn:E1; [|done].
  apply ReadUsersFromFile_inv in E1 as [-> Hl].
  destruct (f l) as [new|e] eqn:Ef; [|done]. cbn.
  unfold SaveUsersToFile. destruct (next_outcome _); cbn -[FileAdapter_load]; [|done..].
  intros [Hd (l' & Hp & Hc)]%FileAdapter_load_inv.
  exists l, new, l'. split_and!; eauto.
Qed.

Definition delete_plan (name : string) (users : list User) : result (list User) :=
  match remove_user name users with
  | None => Err (user_not_found name)
  | Some l => Ok l
  end.

Definition update_plan (data : User) (name : string) (users : list User) : result (list User) :=
  match scan_update (u_Username data) name 0 None users with
  | Err e => Err e
  | Ok None => Err (user_not_found name)
  | Ok (Some i) => Ok (alter (apply_changes data) i users)
  end.

Definition add_plan (data : User) (users : list User) : result (list User) :=
  if existsb (fun u => String.eqb (u_Username u) (u_Username data)) users
  then Err username_taken else Ok (users ++ [data])%list.

Lemma adapter_ops_rewrite fa :
  (forall name, FileAdapter_Delete name fa = rewrite_file (delete_plan name) fa) /\
  (forall data name, FileAdapter_Update data name fa = rewrite_file (update_plan data name) fa) /\
  (forall data, FileAdapter_Add data fa = rewrite_file (add_plan data) fa).
Proof.
  unfold FileAdapter_Delete, FileAdapter_Update, FileAdapter_Add, rewrite_file,
    delete_plan, update_plan, add_plan, bind, lift, fail.
  destruct (on_file ReadUsersFromFile fa) as [[l|e] fa1]; split_and!; intros; try done.
  - by destruct (remove_user _ l).
  - by destruct (scan_update _ _ _ _ l) as [[i|]|].
  - by destruct (existsb _ l).
Qed.

Lemma scan_update_Ok newName name users i0 found r :
  scan_update newName name i0 found users = Ok r ->
  (newName <> "" -> newName <> name -> forall u, u ∈ users -> u_Username u <> newName) /\
  (forall i, r = Some i -> found = Some i \/
    exists j u, i = (i0 + j)%nat /\ users !! j = Some u /\ u_Username u = name) /\
  (r = None -> found = None /\ forall u, u ∈ users -> u_Username u <> name).
Proof.
  revert i0 found; induction users as [|u users IH]; intros i0 found; cbn [scan_update].
  { intros [= <-]. split_and!; [by intros _ _ u ?%elem_of_nil|by left|].
    intros ->. split; [done|]. by intros u ?%elem_of_nil. }
  destruct (negb (newName =? "") && _ && _) eqn:Ec; [done|].
  intros (H1 & H2 & H3)%IH. split_and!.
  - intros Hn Hne v [->|Hv]%elem_of_cons; [|by apply H1].
    intros Heq. destruct (String.eqb_spec newName ""), (String.eqb_spec newName name); try done.
    rewrite Heq, String.eqb_refl in Ec. done.
  - intros i Hi. destruct (H2 i Hi) as [Hf|(j & v & -> & Hj & Hv)].
    + destruct (String.eqb_spec (u_Username u) name); [|by left].
      injection Hf as <-. right. exists 0%nat, u. split; [lia|done].
    + right. exists (S j), v. split; [lia|done].
  - intros Hr. destruct (H3 Hr) as [Hf Hn].
    destruct (String.eqb_spec (u_Username u) name); [done|]. split; [done|].
    intros v [->|Hv]%elem_of_cons; [done|by apply Hn].
Qed.

Lemma NoDup_alter_key {A K} (key : A -> K) (f : A -> A) (l : list A) i x :
  NoDup (key <$> l) -> l !! i = Some x ->
  (forall j y, j <> i -> l !! j = Some y -> key y <> key (f x)) ->
  NoDup (key <$> alter f i l).
Proof.
  intros Hd Hi Hn. rewrite NoDup_alt in Hd |- *. intros j k n.
  rewrite !list_lookup_fmap, !fmap_Some. intros (y & Hy & ->) (z & Hz & Hk).
  destruct (decide (j = i)) as [->|Hj], (decide (k = i)) as [->|Hk']; [done|..].
  - rewrite list_lookup_alter_eq, Hi in Hy. rewrite list_lookup_alter_ne in Hz by done.
    simplify_eq/=. exfalso. by eapply Hn.
  - rewrite list_lookup_alter_eq, Hi in Hz. rewrite list_lookup_alter_ne in Hy by done.
    simplify_eq/=. exfalso. by eapply Hn.
  - rewrite list_lookup_alter_ne in Hy, Hz by done.
    apply (Hd j k (key y)); rewrite list_lookup_fmap, fmap_Some; eauto.
Qed.

(** The data of a change that keep a user good: the name is absent or trimmed,
    the password absent or a clean hash. *)
Definition good_change (data : User) : Prop :=
  (u_Username data = "" \/ TrimSpace (u_Username data) = u_Username data) /\
  (u_Password data = "" \/
    TrimSpace (u_Password data) = u_Password data /\ IsBcryptHash (u_Password data) = true).

Lemma apply_changes_name data u :
  u_Username (apply_changes data u) =
  if String.eqb (u_Username data) "" then u_Username u else u_Username data.
Proof. unfold apply_changes. by destruct (u_Password data =? ""). Qed.

Lemma apply_changes_password data u :
  u_Password (apply_changes data u) =
  if String.eqb (u_Password data) "" then u_Password u else u_Password data.
Proof. unfold apply_changes. by destruct (u_Password data =? ""). Qed.

Lemma apply_changes_good data u : good_change data -> good_user u -> good_user (apply_changes data u).
Proof.
  intros [Hn Hp] (H1 & H2 & H3 & H4 & H5). unfold good_user.
  rewrite apply_changes_name, apply_changes_password.
  destruct (String.eqb_spec (u_Username data) ""),
    (String.eqb_spec (u_Password data) ""); naive_solver.
Qed.

Lemma update_plan_Ok data name l new :
  NoDup (u_Username <$> l) -> update_plan data name l = Ok new ->
  exists i u, l !! i = Some u /\ u_Username u = name /\
    new = alter (apply_changes data) i l /\
    NoDup (u_Username <$> new).
Proof.
  intros Hd. unfold update_plan.
  destruct (scan_update _ _ _ _ _) as [[i|]|e] eqn:E; [|done..]. intros [= <-].
  apply scan_update_Ok in E as (Hclash & Hi & _).
  destruct (Hi i eq_refl) as [?|(j & u & -> & Hj & Hu)]; [done|]. simpl in *.
  exists j, u. split_and!; [done..|]. apply (NoDup_alter_key _ _ _ _ u); [done..|].
  intros k y Hk Hy. rewrite apply_changes_name.
  assert (u_Username y <> name) as Hne.
  { intros Heq. apply Hk. rewrite NoDup_alt in Hd. apply (Hd k j name);
      rewrite list_lookup_fmap, fmap_Some; eauto. }
  destruct (String.eqb_spec (u_Username data) ""); [congruence|].
  destruct (decide (u_Username data = name)) as [->|]; [congruence|].
  apply Hclash; [done..|]. by eapply list_elem_of_lookup_2.
Qed.

Lemma update_plan_good data name l new :
  good_users l -> good_change data -> update_plan data name l = Ok new -> good_users new.
Proof.
  intros [Hg Hd] Hc (i & u & Hi & _ & -> & Hn)%update_plan_Ok; [|done].
  split; [|done]. apply Forall_alter; [done|]. intros x Hx Hgx. by apply apply_changes_good.
Qed.

Lemma add_plan_good data l new :
  good_users l -> good_user data -> add_plan data l = Ok new -> good_users new.
Proof.
  intros Hl Hu. unfold add_plan. destruct (existsb _ l) eqn:E; [done|]. intros [= <-].
  apply good_users_app; [done..|]. intros v Hv Heq.
  apply not_true_iff_false in E. apply E. apply existsb_exists. exists v.
  split; [by apply list_elem_of_In|]. by apply String.eqb_eq.
Qed.

Lemma UserCache_Load_lookup_aux l (m : gmap string User) n :
  foldl (fun m u => <[u_Username u := u]> m) m l !! n =
  match List.find (fun u => String.eqb (u_Username u) n) (reverse l) with
  | Some u => Some u
  | None => m !! n
  end.
Proof.
  induction l as [|u l IH] using rev_ind; [done|].
  rewrite foldl_app, reverse_snoc. simpl.
  destruct (String.eqb_spec (u_Username u) n) as [<-|Hne].
  - by rewrite lookup_insert_eq.
  - by rewrite lookup_insert_ne.
Qed.

Lemma UserCache_Load_Some l n u :
  NoDup (u_Username <$> l) ->
  UserCache_Load l !! n = Some u <-> u ∈ l /\ u_Username u = n.
Proof.
  intros Hd. unfold UserCache_Load. rewrite UserCache_Load_lookup_aux.
  destruct (List.find _ _) as [v|] eqn:E.
  - apply find_some in E as [Hin%list_elem_of_In Hv%String.eqb_eq].
    rewrite elem_of_reverse in Hin. split; [intros [= <-]; done|].
    intros [Hu <-]. f_equal.
    apply list_elem_of_lookup in Hin as [i Hi], Hu as [j Hj].
    rewrite NoDup_alt in Hd.
    assert (i = j) as -> by (apply (Hd i j (u_Username u)); rewrite list_lookup_fmap, fmap_Some; eauto).
    congruence.
  - rewrite lookup_empty. split; [done|]. intros [Hu Hn].
    apply (find_none _ _) with (x := u) in E; [by rewrite Hn, String.eqb_refl in E|].
    apply list_elem_of_In. by rewrite elem_of_reverse.
Qed.

(** ** Lemmas: the service on a users file *)

Lemma GenerateTokenHash_clean `{!Bcrypt, !BcryptSpec} salt pw h :
  GenerateTokenHash salt pw = Ok h ->
  h <> "" /\ TrimSpace h = h /\ IsBcryptHash h = true /\ CompareHashAndPassword h pw = true.
Proof.
  unfold GenerateTokenHash. destruct (GenerateFromPassword salt pw) as [t|] eqn:E; [|done].
  intros [= <-]. pose proof (bcrypt_verifies _ _ _ E) as Hv.
  apply bcrypt_format in E as [[r ->]%HasPrefix_spec Hs].
  assert (ReplaceFirst (HtpasswdBcryptAltPrefix +:+ r) HtpasswdBcryptAltPrefix HtpasswdBcryptPrefix
    = HtpasswdBcryptPrefix +:+ r) as Hr by done.
  rewrite Hr in *. split_and!; [done| |done|done].
  apply TrimSpace_no_space. rewrite string_forallb_app in Hs. by rewrite string_forallb_app.
Qed.

Lemma validate_Ok PS svc data name :
  validate PS svc data name = Ok tt ->
  (name = "" -> u_Username data <> "" /\ u_Password data <> "") /\
  (u_Username data = "" \/ TrimSpace (u_Username data) = u_Username data).
Proof.
  unfold validate. set (inputs := (_ ++ _)%list).
  destruct (validate_required svc data name) eqn:Er; [|done].
  destruct (validate_username data) eqn:Eu; [|done]. intros _. split.
  - intros ->. unfold validate_required in Er. cbn in Er.
    destruct (String.eqb_spec (u_Username data) ""); [done|].
    destruct (String.eqb_spec (u_Password data) ""); done.
  - unfold validate_username in Eu.
    destruct (String.eqb_spec (u_Username data) ""); [by left|].
    destruct (String.eqb_spec (TrimSpace (u_Username data)) (u_Username data)); [by right|done].
Qed.

Lemma Change_inv `{!Bcrypt, !BcryptSpec} PS svc salt usr name (fa : FileAdapter) r fa' :
  Change PS svc salt usr name fa = (r, fa') ->
  (fa' = fa /\ r <> Ok tt) \/
  exists data,
    (if String.eqb (u_Password usr) "" then data = usr
     else exists h, GenerateTokenHash salt (u_Password usr) = Ok h /\ data = with_password h usr) /\
    ((name = "" /\ good_user data /\ rewrite_file (add_plan data) fa = (r, fa')) \/
     (name <> "" /\ good_change data /\ rewrite_file (update_plan data name) fa = (r, fa'))).
Proof.
  unfold Change, bind, lift. destruct (validate PS svc usr name) as [[]|e] eqn:Ev;
    [|intros [= <- <-]; by left].
  apply validate_Ok in Ev as [Hreq Hname].
  destruct (adapter_ops_rewrite fa) as (_ & Hupd & Hadd).
  set (hash := if u_Password usr =? "" then _ else _).
  assert (hash fa = (match (if u_Password usr =? "" then Ok usr
     else let! h := GenerateTokenHash salt (u_Password usr) in Ok (with_password h usr)) with
     | Ok d => (Ok d, fa) | Err e => (Err e, fa) end)) as ->.
  { subst hash. destruct (u_Password usr =? ""); [done|].
    by destruct (GenerateTokenHash salt (u_Password usr)). }
  clear hash. destruct (if u_Password usr =? "" then _ else _) as [data|e] eqn:Ed;
    [|intros [= <- <-]; by left].
  assert (Hdata : if u_Password usr =? "" then data = usr
     else exists h, GenerateTokenHash salt (u_Password usr) = Ok h /\ data = with_password h usr).
  { destruct (u_Password usr =? ""); [by simplify_eq|].
    destruct (GenerateTokenHash salt (u_Password usr)) as [h|] eqn:Eh; [|done].
    simplify_eq/=. eauto. }
  clear Ed. assert (Hd : u_Username data = u_Username usr /\ good_change data /\
    (u_Password usr <> "" -> u_Password data <> "")).
  { destruct (String.eqb_spec (u_Password usr) "") as [E|E].
    - subst data. split_and!; [done|by split; [|left]|done].
    - destruct Hdata as (h & Hh & ->). apply GenerateTokenHash_clean in Hh as (? & ? & ? & _).
      split_and!; [done|by split; [|right]|done]. }
  destruct Hd as (Hn & Hgc & Hpw).
  destruct (String.eqb_spec name "") as [->|Hne].
  - destruct (Hreq eq_refl) as [Hu Hp]. unfold addUser, bind. cbn.
    destruct (UserCache_GetByUsername _ _); [intros [= <- <-]; by left|].
    rewrite Hadd. intros Hrun. right. exists data. split; [done|]. left.
    split_and!; [done| |done]. destruct Hgc as [[?|Hg1] [?|[Hg2 Hg3]]]; [congruence|congruence| |].
    + by specialize (Hpw Hp).
    + rewrite <-Hn in Hu. split_and!; auto.
  - unfold updateUser, bind. cbn.
    destruct (UserCache_GetByUsername name _); [|intros [= <- <-]; by left].
    destruct (negb (u_Username data =? "") && negb (u_Username data =? name)); cbn.
    + destruct (UserCache_GetByUsername (u_Username data) _); [intros [= <- <-]; by left|].
      cbn. rewrite Hupd. intros Hrun. right. exists data. auto.
    + rewrite Hupd. intros Hrun. right. exists data. auto.
Qed.

(** The file loads, as it is or once its torn end is cut off. *)
Definition file_loads (f : UsersFile) : bool := is_ok (parseUsers (uf_text f)).
Definition entries_load (f : UsersFile) : bool := is_ok (parseUsers (whole (ut_users (uf_text f)))).

Lemma rewrite_file_loadable f fa r fa' :
  rewrite_file f fa = (r, fa') ->
  (forall l new, good_users l -> f l = Ok new -> good_users new) ->
  file_loads (fa_file fa) = true ->
  entries_load (fa_file fa') = true /\
  (file_loads (fa_file fa') = true \/ exists n torn err,
    uf_outcomes (fa_file fa) !! 1%nat = Some (WriteInterrupted n (Some torn) err)).
Proof.
  unfold entries_load, file_loads. intros Hrw Hgood Hok.
  destruct (uf_text (fa_file fa)) as [us torn0] eqn:Et.
  assert (torn0 = None) as ->.
  { destruct (parseUsers _) eqn:E; [|done]. by apply parseUsers_Ok in E as [? _]. }
  apply rewrite_file_inv in Hrw as [->|(l & new & Hp & Hf & Hcases)].
  - rewrite Et. auto.
  - apply parseUsers_Ok in Hp as [_ Hg]. pose proof (Hgood _ _ Hg Hf) as Hnew.
    destruct Hcases as [->|(n & torn & err & Ho & _ & ->)]; cbn [ut_users ut_torn whole].
    + rewrite parseUsers_good by done. auto.
    + rewrite parseUsers_good by (eapply good_users_sublist, Hnew; apply sublist_take).
      split; [done|]. destruct torn as [torn|]; [right; eauto|left].
      change (mkUsersText _ None) with (whole (take n new)).
      rewrite parseUsers_good; [done|]. eapply good_users_sublist, Hnew. apply sublist_take.
Qed.

Lemma delete_plan_good name l new :
  good_users l -> delete_plan name l = Ok new -> good_users new.
Proof.
  intros Hl. unfold delete_plan. destruct (remove_user name l) as [l'|] eqn:Er; [|done].
  intros [= <-]. eapply good_users_sublist, Hl. by eapply remove_user_sublist.
Qed.

(** The cache is what the file holds. *)
Definition fa_coherent (fa : FileAdapter) : Prop :=
  exists l, parseUsers (uf_text (fa_file fa)) = Ok l /\ fa_cache fa = UserCache_Load l.

Definition GetByUsername (name : string) (fa : FileAdapter) : option User :=
  UserCache_GetByUsername name (fa_cache fa).

Lemma rewrite_file_update_served data name fa fa' :
  fa_coherent fa -> good_change data -> rewrite_file (update_plan data name) fa = (Ok tt, fa') ->
  let newname := if String.eqb (u_Username data) "" then name else u_Username data in
  exists old, GetByUsername name fa = Some old /\
    GetByUsername newname fa' = Some (apply_changes data old) /\
    (newname <> name -> GetByUsername name fa' = None) /\
    (forall n, n <> name -> n <> newname -> GetByUsername n fa' = GetByUsername n fa).
Proof.
  intros (l0 & Hp0 & Hc0) Hgc (l & new & l' & Hp & Hf & _ & Hp' & Hc')%rewrite_file_Ok newname.
  rewrite Hp0 in Hp. injection Hp as ->. apply parseUsers_Ok in Hp0 as [_ Hg].
  pose proof (update_plan_good _ _ _ _ Hg Hgc Hf) as Hg'.
  rewrite (parseUsers_good _ Hg') in Hp'. injection Hp' as <-.
  apply update_plan_Ok in Hf as (i & u & Hi & Hu & Hnew & _); [|apply Hg].
  assert (Hold : u_Username (apply_changes data u) = newname)
    by (rewrite apply_changes_name, Hu; done).
  unfold GetByUsername, UserCache_GetByUsername. rewrite Hc0, Hc'.
  assert (Hsame : forall j, j <> i -> new !! j = l !! j)
    by (intros j ?; by rewrite Hnew, list_lookup_alter_ne).
  assert (Hat : new !! i = Some (apply_changes data u))
    by (by rewrite Hnew, list_lookup_alter_eq, Hi).
  assert (Huniq : forall j v, l !! j = Some v -> u_Username v = name -> j = i).
  { intros j v Hj Hv. destruct Hg as [_ Hd]. rewrite NoDup_alt in Hd.
    apply (Hd j i name); rewrite list_lookup_fmap, fmap_Some; eauto. }
  exists u. split_and!.
  - apply UserCache_Load_Some; [apply Hg|]. split; [by eapply list_elem_of_lookup_2|done].
  - apply UserCache_Load_Some; [apply Hg'|]. split; [by eapply list_elem_of_lookup_2|done].
  - intros Hne. apply eq_None_not_Some. intros [v Hv].
    apply UserCache_Load_Some in Hv as [[j Hj]%list_elem_of_lookup Hv]; [|apply Hg'].
    destruct (decide (j = i)) as [->|Hji]; [congruence|].
    rewrite Hsame in Hj by done. by eapply Hji, Huniq.
  - intros n Hn Hnn. apply option_eq. intros v.
    rewrite !UserCache_Load_Some by (apply Hg || apply Hg').
    rewrite !list_elem_of_lookup. split; intros [[j Hj] Hv]; (split; [|done]); exists j.
    + destruct (decide (j = i)) as [->|]; [congruence|]. by rewrite <-Hsame.
    + destruct (decide (j = i)) as [->|]; [congruence|]. by rewrite Hsame.
Qed.

(** ** Lemmas: permissions *)

Lemma grant_lookup_aux group l m perm :
  foldl (fun perms permission =>
      if Has (g_Permissions group) permission && negb (default false (perms !! permission))
      then <[permission := true]> perms else perms) m l !! perm =
  if bool_decide (perm ∈ l) && Has (g_Permissions group) perm then Some true
  else (m : gmap string bool) !! perm.
Proof.
  revert m; induction l as [|x l IH]; intros m; cbn [foldl]; [done|]. rewrite IH.
  destruct (decide (perm = x)) as [->|Hne].
  - rewrite (bool_decide_eq_true_2 (x ∈ x :: l)) by left. cbn [andb].
    destruct (Has (g_Permissions group) x) eqn:E; rewrite ?andb_false_r; cbn [andb]; [|done].
    rewrite andb_true_r. case_bool_decide; [done|].
    destruct (m !! x) as [[]|] eqn:Em; cbn; rewrite ?lookup_insert_eq; done.
  - assert (bool_decide (perm ∈ x :: l) = bool_decide (perm ∈ l)) as ->.
    { apply bool_decide_ext. rewrite elem_of_cons. tauto. }
    destruct (Has (g_Permissions group) x && _); [|done].
    by rewrite lookup_insert_ne.
Qed.

Lemma All_none perm : perm ∈ AllPermissions -> All (NewPermissions []) !! perm = Some false.
Proof.
  intros H. repeat (apply elem_of_cons in H as [->|H]; [by vm_compute|]). by apply elem_of_nil in H.
Qed.

Lemma All_full perm :
  perm ∈ AllPermissions -> All (NewPermissions AllPermissions) !! perm = Some true.
Proof.
  intros H. repeat (apply elem_of_cons in H as [->|H]; [by vm_compute|]). by apply elem_of_nil in H.
Qed.

Section permissions.
Context {P : Type} `{!Provider P}.

Lemma check_groups_state groups perm p :
  (forall g, snd (p_GetGroup g p) = p) -> snd (check_groups groups perm p) = p.
Proof.
  intros Hro. induction groups as [|g groups IH]; [done|]. cbn [check_groups]. unfold bind.
  pose proof (Hro g) as Hg. destruct (p_GetGroup g p) as [[group|e] p1]; cbn in Hg; subst p1; [|done].
  by destruct (Has (g_Permissions group) perm).
Qed.

Lemma effective_of_spec p groups perm m0 m :
  (forall g, snd (p_GetGroup g p) = p) -> perm ∈ AllPermissions -> is_Some (m0 !! perm) ->
  fst (effective_of groups m0 p) = Ok m ->
  m !! perm = Some (default false (m0 !! perm) || is_ok (fst (check_groups groups perm p))).
Proof.
  intros Hro Hperm. revert m0; induction groups as [|g groups IH]; intros m0 [b Hb].
  - cbn. intros [= <-]. rewrite Hb. cbn. by rewrite orb_false_r.
  - cbn [effective_of check_groups]. unfold bind. pose proof (Hro g) as Hg.
    destruct (p_GetGroup g p) as [[group|e] p1]; cbn in Hg; subst p1; [|done].
    assert (Hgr : grant group m0 !! perm =
      Some (Has (g_Permissions group) perm || b)).
    { unfold grant. rewrite grant_lookup_aux, bool_decide_eq_true_2 by done. cbn.
      by destruct (Has _ _). }
    intros H%IH; [|by rewrite Hgr]. rewrite H, Hgr, Hb. cbn.
    destruct (Has (g_Permissions group) perm); cbn; [by rewrite orb_true_r|].
    done.
Qed.
End permissions.

(** ** Instances for the witnesses *)

(** A stand-in for bcrypt that satisfies its contract: the hash spells the
    password out byte by byte. *)
Fixpoint spell (s : string) : string :=
  match s with
  | "" => ""
  | String c s' => FormatUint (N_of_ascii c) +:+ "." +:+ spell s'
  end.

Definition strip_any (h : string) : string :=
  match strip_prefix HtpasswdBcryptPrefix h with Some r => r | None => h end.

Definition toy_bcrypt : Bcrypt := {|
  GenerateFromPassword salt pw := Ok (HtpasswdBcryptAltPrefix +:+ spell pw);
  CompareHashAndPassword h pw := String.eqb (strip_any h) (spell pw)
|}.

Lemma uint_no_space u :
  string_forallb (fun c => negb (is_space c)) (DecimalString.NilZero.string_of_uint u) = true.
Proof.
  assert (forall v, string_forallb (fun c => negb (is_space c))
    (DecimalString.NilEmpty.string_of_uint v) = true) as H by (induction v; cbn; auto).
  unfold DecimalString.NilZero.string_of_uint. destruct u; try done; apply H.
Qed.

Lemma toy_bcrypt_spec : @BcryptSpec toy_bcrypt.
Proof.
  split; cbn; intros salt pw h [= <-].
  - split; [done|].
    change (string_forallb (fun c => negb (is_space c)) (spell pw) = true).
    induction pw as [|c pw IH]; [done|]. cbn [spell].
    rewrite !string_forallb_app. unfold FormatUint. rewrite uint_no_space. done.
  - change (ReplaceFirst _ _ _) with (HtpasswdBcryptPrefix +:+ spell pw).
    unfold strip_any. rewrite strip_prefix_app. apply String.eqb_refl.
Qed.

Definition hash_of (pw : string) : string := HtpasswdBcryptPrefix +:+ spell pw.

Definition example_users : list User :=
  [mkUser "alice" (hash_of "a") None (Some [Administrators]) "" "";
   mkUser "bob" (hash_of "b") (Some true) (Some ["Ops"]) "" ""].

Definition example_adapter : FileAdapter :=
  mkFileAdapter (UserCache_Load example_users) (mkUsersFile (whole example_users) []).

Definition example_service : APIService := mkAPIService None false 3 (-1).

Definition bob_change : User := mkUser "robert" "secret" None None "" "".

(** A provider with groups and nothing else. *)
Record GroupStore := mkGroupStore { gs_groups : gmap string Group }.

Definition group_store_error : go_error := EPlain "not supported".

#[export] Instance GroupStore_provider : Provider GroupStore := {
  p_Type := ProviderSourceMock;
  p_SupportsGroupPermissions := true;
  p_GetAll := ret [];
  p_ListGroups := gets (fun gs => (map_to_list (gs_groups gs)).*2);
  p_GetGroup name := gets (fun gs => default (mkGroup name None None None) (gs_groups gs !! name));
  p_UpdateGroup name g := modify (fun gs => mkGroupStore (<[name := g]> (gs_groups gs)));
  p_DeleteGroup name := modify (fun gs => mkGroupStore (delete name (gs_groups gs)));
  p_GetByUsername _ := ret None;
  p_Add _ := fail group_store_error;
  p_Update _ _ := fail group_store_error;
  p_Delete _ := fail group_store_error
}.

(** ** Properties *)

(** C10: No request through the API can put a user into the users file that
    the server refuses to load.  If the file loads before a user is added,
    changed or deleted, then afterwards, whatever the request and whether it
    succeeded or not, every complete entry of the file loads, and the file as a
    whole loads unless the write itself, the second access to the file, was
    interrupted in the middle of the text. *)
Theorem writes_keep_users_file_loadable `{!Bcrypt, !BcryptSpec} PS svc salt usr name del
    (fa fa' : FileAdapter) :
  file_loads (fa_file fa) = true ->
  fa' = snd (Change PS svc salt usr name fa) \/ fa' = snd (Users_Delete del fa) ->
  entries_load (fa_file fa') = true /\
  (file_loads (fa_file fa') = true \/ exists n torn err,
    uf_outcomes (fa_file fa) !! 1%nat = Some (WriteInterrupted n (Some torn) err)).
Proof.
  intros Hok. assert (Hsame : entries_load (fa_file fa) = true).
  { revert Hok. unfold file_loads, entries_load. destruct (uf_text _) as [us torn].
    destruct (parseUsers _) eqn:E; [|done]. apply parseUsers_Ok in E as Ht.
    destruct Ht as [Ht _]. cbn in Ht. subst torn. cbn [ut_users]. unfold whole. by rewrite E. }
  intros [-> | ->].
  - destruct (Change PS svc salt usr name fa) as [r fa'] eqn:E. cbn.
    apply Change_inv in E as [[-> _]|(data & _ & [(_ & Hg & E)|(_ & Hg & E)])]; [auto|..].
    + eapply rewrite_file_loadable; [exact E| |done]. intros. by eapply add_plan_good.
    + eapply rewrite_file_loadable; [exact E| |done]. intros. by eapply update_plan_good.
  - unfold Users_Delete, bind. cbn. destruct (UserCache_GetByUsername del _); [|auto].
    destruct (adapter_ops_rewrite fa) as (-> & _ & _).
    destruct (rewrite_file _ fa) as [r fa'] eqn:E. cbn.
    eapply rewrite_file_loadable; [exact E| |done]. apply delete_plan_good.
Qed.

Lemma writes_keep_users_file_loadable_witness :
  let bc := toy_bcrypt in
  file_loads (fa_file (snd (Change (fun _ _ => 4%Z) example_service "salt"
    bob_change "bob" example_adapter))) = true.
Proof.
  intros bc. pose proof toy_bcrypt_spec as Hspec.
  destruct (writes_keep_users_file_loadable (fun _ _ => 4%Z) example_service "salt" bob_change
    "bob" "alice" example_adapter _ eq_refl (or_introl eq_refl)) as [_ [H|(? & ? & ? & [=])]].
  exact H.
Defined.

(** An interrupted write is where the guarantee ends: when the disk is full
    after the first byte of the rewritten file, the change of bob fails, and
    neither alice, an administrator, nor bob is left in the file, which the next
    start loads without complaint; when it is full inside the second entry, the
    next start refuses the file. *)
Definition full_disk_adapter (n : nat) (torn : option string) : FileAdapter :=
  mkFileAdapter (UserCache_Load example_users)
    (mkUsersFile (whole example_users) [Accessed; WriteInterrupted n torn "no space left on device"]).

Example interrupted_write_loses_users :
  let bc := toy_bcrypt in
  let change := Change (fun _ _ => 4%Z) example_service "salt" bob_change "bob" in
  fst (change (full_disk_adapter 0 None)) = Err (EPlain "no space left on device") /\
  parseUsers (uf_text (fa_file (snd (change (full_disk_adapter 0 None))))) = Ok [] /\
  NewFileAdapter (fa_file (snd (change (full_disk_adapter 1 (Some "unexpected EOF"))))) =
    Err (EPlain "failed to parse user: unexpected EOF").
Proof. intros bc change. by vm_compute. Qed.

(** C13: A successful change of a user, on an adapter whose cache is what its
    file holds, is what the server serves from then on: the user is found under
    the new name (or the old one when it is not renamed) and no longer under the
    old; the new password verifies; its expiry is the one the request sends, is
    cleared when the request sends a password without one, and is as before
    when it sends neither; an absent password, group list, 2FA
    receiver or TOTP secret stays; and every other user is served as before. *)
Theorem changed_user_is_served `{!Bcrypt, !BcryptSpec} PS svc salt usr name (fa fa' : FileAdapter) :
  fa_coherent fa -> name <> "" -> Change PS svc salt usr name fa = (Ok tt, fa') ->
  let newname := if String.eqb (u_Username usr) "" then name else u_Username usr in
  exists old new, GetByUsername name fa = Some old /\ GetByUsername newname fa' = Some new /\
    (newname <> name -> GetByUsername name fa' = None) /\
    (forall n, n <> name -> n <> newname -> GetByUsername n fa' = GetByUsername n fa) /\
    (u_Password usr = "" -> u_Password new = u_Password old) /\
    (u_Password usr <> "" -> CompareHashAndPassword (u_Password new) (u_Password usr) = true) /\
    u_PasswordExpired new =
      match u_PasswordExpired usr with
      | Some b => Some b
      | None => if String.eqb (u_Password usr) "" then u_PasswordExpired old else Some false
      end /\
    u_Groups new = match u_Groups usr with Some g => Some g | None => u_Groups old end /\
    u_TwoFASendTo new =
      (if String.eqb (u_TwoFASendTo usr) "" then u_TwoFASendTo old else u_TwoFASendTo usr) /\
    u_TotP new = (if String.eqb (u_TotP usr) "" then u_TotP old else u_TotP usr).
Proof.
  intros Hco Hne [[_ ?]|(data & Hdata & [(-> & _)|(_ & Hg & E)])]%Change_inv newname; [done..|].
  assert (Hn : u_Username data = u_Username usr /\ u_Groups data = u_Groups usr /\
    u_PasswordExpired data = u_PasswordExpired usr /\
    u_TwoFASendTo data = u_TwoFASendTo usr /\ u_TotP data = u_TotP usr /\
    (u_Password data = "" <-> u_Password usr = "")).
  { destruct (String.eqb_spec (u_Password usr) "") as [Ep|Ep]; [by subst|].
    destruct Hdata as (h & Hh & ->). apply GenerateTokenHash_clean in Hh as (Hh & _). done. }
  destruct Hn as (Hn & Hgr & Hexp & Hsend & Htotp & Hpw).
  apply rewrite_file_update_served in E as (old & Ho & Hnew & Hgone & Hoth); [|done..].
  rewrite Hn in *. exists old, (apply_changes data old). split_and!; [done..| | | | | |].
  - rewrite apply_changes_password. intros Hp%Hpw. by rewrite Hp.
  - intros Hp. destruct (String.eqb_spec (u_Password usr) ""); [done|].
    destruct Hdata as (h & Hh & ->).
    apply GenerateTokenHash_clean in Hh as (Hh1 & _ & _ & Hv).
    rewrite apply_changes_password. cbn. by destruct (String.eqb_spec h "").
  - unfold apply_changes. rewrite <-Hexp.
    destruct (String.eqb_spec (u_Password data) ""), (String.eqb_spec (u_Password usr) "");
      by (done || tauto).
  - unfold apply_changes. rewrite <-Hgr. by destruct (u_Password data =? "").
  - unfold apply_changes. rewrite <-Hsend. by destruct (u_Password data =? "").
  - unfold apply_changes. rewrite <-Htotp. by destruct (u_Password data =? "").
Qed.

Lemma changed_user_is_served_witness :
  let bc := toy_bcrypt in
  exists old new, GetByUsername "bob" example_adapter = Some old /\
    GetByUsername "robert" (snd (Change (fun _ _ => 4%Z) example_service "salt" bob_change "bob"
      example_adapter)) = Some new /\
    CompareHashAndPassword (u_Password new) "secret" = true /\ u_PasswordExpired new = Some false /\
    u_Groups new = u_Groups old.
Proof.
  intros bc. pose proof toy_bcrypt_spec as Hspec.
  destruct (changed_user_is_served (fun _ _ => 4%Z) example_service "salt" bob_change "bob"
    example_adapter (snd (Change (fun _ _ => 4%Z) example_service "salt" bob_change "bob"
      example_adapter))) as (old & new & H1 & H2 & _ & _ & _ & H3 & H4 & H5 & _).
  - exists example_users. split; [by vm_compute|done].
  - done.
  - by vm_compute.
  - exists old, new. split_and!; [done..|by apply H3|done|done].
Defined.

(** C19: The permissions the API lists for a user are the ones it enforces,
    with every provider, with groups or without: when the listing succeeds, it
    names every permission, and the middleware lets the user through to the
    handler exactly when the permission is listed as granted, and otherwise
    refuses with an error and runs nothing. *)
Theorem permission_check_agrees_with_listing {P} `{!Provider P} (p : P) user m perm :
  (forall g, snd (p_GetGroup g p) = p) ->
  fst (GetEffectiveUserPermissions user p) = Ok m -> perm ∈ AllPermissions ->
  exists granted : bool, m !! perm = Some granted /\
    forall A (next : M P A),
      if granted then permissionsMiddleware perm user next p = next p
      else exists e, permissionsMiddleware perm user next p = (Err e, p).
Proof.
  intros Hro Hm Hperm. unfold GetEffectiveUserPermissions in Hm. unfold permissionsMiddleware.
  destruct (p_SupportsGroupPermissions (P := P)); cbn [negb] in Hm.
  - exists (is_ok (fst (CheckPermission user perm p))). split.
    + erewrite effective_of_spec; [|exact Hro|exact Hperm|by rewrite All_none|exact Hm].
      by rewrite All_none.
    + intros A next. unfold bind. pose proof (check_groups_state (GetGroups user) perm p Hro) as Hs.
      unfold CheckPermission. destruct (check_groups _ _ p) as [[[]|e] p']; cbn in *; subst p'; eauto.
  - injection Hm as <-. exists true. split; [by apply All_full|done].
Qed.

Lemma permission_check_agrees_with_listing_witness :
  let gs := mkGroupStore {[ "Ops" := NewGroup "Ops" None None ["vault"; "scripts"] ]} in
  let user := mkUser "bob" "" None (Some ["Ops"]) "" "" in
  (permissionsMiddleware "vault" user (ret 7) gs = (Ok 7, gs) /\
   exists e, permissionsMiddleware "tunnels" user (ret 7) gs = (Err e, gs)) /\
  permissionsMiddleware "tunnels" user (ret 7) example_adapter = (Ok 7, example_adapter).
Proof.
  intros gs user. split; [split|].
  - edestruct (permission_check_agrees_with_listing gs user) with (perm := "vault")
      as ([] & Hm & Hnext); [done|reflexivity|do 3 right; left|exact (Hnext nat (ret 7))|].
    by vm_compute in Hm.
  - edestruct (permission_check_agrees_with_listing gs user) with (perm := "tunnels")
      as ([] & Hm & Hnext); [done|reflexivity|left|by vm_compute in Hm|exact (Hnext nat (ret 7))].
  - edestruct (permission_check_agrees_with_listing example_adapter user) with (perm := "tunnels")
      as ([] & Hm & Hnext); [done|reflexivity|left|exact (Hnext nat (ret 7))|by vm_compute in Hm].
Defined.
