(* ===== verification/TwoFA.v ===== *)
(** * Second factor (server/2fa_auth.go, server/totp.go, share/security/token.go)

    A login that has passed the password step leaves a pending session, a heap
    object reached through [tokensByUser].  The code reads the pointer under
    one lock and mutates the object and the map under later ones, so pointers
    are part of the model: [heap] holds the objects and identity of sessions is
    identity of addresses.  Delivering a code, the random source, TOTP codes
    (library pquerna/otp), URLs and QR images are parameters. *)

From stdpp Require Import base gmap strings list numbers sets.
From Stdlib Require Import ZArith Ascii Lia.
From S2P Require Import Prelude GoStrings Users.

Local Open Scope Z_scope.

(** ** Random tokens (token.go) *)

Definition chars : string :=
  "0123456789abcdefghijklmnopqrstuvwxyzABCDEFGHIJKLMNOPQRSTUVWXYZ".

Definition maxByte : Z := 256 - (256 mod 62).

Definition char_at (i : Z) : ascii :=
  match String.get (Z.to_nat i) chars with Some c => c | None => zero end.

(** One buffer: the bytes kept until [length] of them are there. *)
Fixpoint take_bytes (length : nat) (out : list ascii) (buf : list Z) : list ascii :=
  match buf with
  | [] => out
  | b :: buf' =>
      if Nat.eqb (List.length out) length then out
      else take_bytes length (if b <? maxByte then out ++ [char_at (b mod 62)] else out) buf'
  end.

(** [NewRandomToken] on the buffers that rand.Read delivers, [None] standing
    for its error; the result is [None] while more buffers are needed. *)
Fixpoint random_token (length : nat) (out : list ascii) (reads : list (option (list Z)))
    : option (result string) :=
  if Nat.ltb (List.length out) length then
    match reads with
    | [] => None
    | None :: _ => Some (Err (EPlain "rand"))
    | Some buf :: reads' => random_token length (take_bytes length out buf) reads'
    end
  else Some (Ok (String.string_of_list_ascii out)).

Definition NewRandomToken (length : nat) (reads : list (option (list Z)))
    : option (result string) := random_token length [] reads.

(** ** TOTP secrets (totp.go) *)

Inductive Algorithm := AlgorithmSHA1 | AlgorithmSHA256 | AlgorithmSHA512 | AlgorithmMD5.

Definition Algorithm_String (a : Algorithm) : string :=
  match a with
  | AlgorithmSHA1 => "SHA1"
  | AlgorithmSHA256 => "SHA256"
  | AlgorithmSHA512 => "SHA512"
  | AlgorithmMD5 => "MD5"
  end.

(** otp.Key, through the methods the code calls. *)
Record OtpKey := mkOtpKey {
  key_URL : string;
  key_Type : string;
  key_Secret : string;
  key_Period : Z
}.

(** A parsed URL: its scheme and the first value of each query parameter. *)
Record URL := mkURL {
  url_Scheme : string;
  url_Query : gmap string string
}.

Class OtpLib := {
  NewKeyFromURL : string -> result OtpKey;
  url_Parse : string -> result URL;
  key_Image : OtpKey -> result string;
  ValidateCustom : string -> string -> time -> Z -> Z -> Algorithm -> result bool
}.

Record TotP := mkTotP {
  tp_Secret : string;
  tp_QRImageBase64 : string;
  tp_TotPKey : option OtpKey;
  tp_baseURL : URL
}.

Section totp.
Context `{!OtpLib}.

Definition generateImage (key : OtpKey) : result string :=
  if String.eqb (key_URL key) "" then Ok ""%string else key_Image key.

Definition NewTotP (key : OtpKey) : result TotP :=
  let! u := url_Parse (key_URL key) in
  let! imgBase64 := generateImage key in
  Ok (mkTotP (key_Secret key) imgBase64 (Some key) u).

(** [TotP.Serialize]; [None] is the nil pointer. *)
Definition Serialize (tp : option TotP) : string :=
  match tp with
  | None => ""
  | Some tp => match tp_TotPKey tp with None => "" | Some key => key_URL key end
  end.

Definition TotP_Algorithm (tp : TotP) : result Algorithm :=
  let algoStr := default ""%string (url_Query (tp_baseURL tp) !! "algorithm"%string) in
  if String.eqb algoStr "" then Err (EPlain "empty algorithm value")
  else if String.eqb algoStr (Algorithm_String AlgorithmSHA1) then Ok AlgorithmSHA1
  else if String.eqb algoStr (Algorithm_String AlgorithmSHA256) then Ok AlgorithmSHA256
  else if String.eqb algoStr (Algorithm_String AlgorithmSHA512) then Ok AlgorithmSHA512
  else if String.eqb algoStr (Algorithm_String AlgorithmMD5) then Ok AlgorithmMD5
  else Err (EPlain ("invalid/unsupported algorithm value " +:+ algoStr)).

Definition TotP_Digits (tp : TotP) : result Z :=
  let digitsStr := default ""%string (url_Query (tp_baseURL tp) !! "digits"%string) in
  if String.eqb digitsStr "" then Err (EPlain "empty digits value")
  else match Atoi digitsStr with
       | None => Err (EPlain ("invalid digits value " +:+ digitsStr))
       | Some digits =>
           if (digits =? 6) || (digits =? 8) then Ok digits
           else Err (EPlain ("invalid digits value " +:+ digitsStr))
       end.

Definition TotP_Scheme (tp : TotP) : string := url_Scheme (tp_baseURL tp).

Definition TotP_Valid (tp : TotP) : result unit :=
  match tp_TotPKey tp with
  | None => Err (EPlain "empty totp secret key")
  | Some key =>
      if negb (String.eqb (TotP_Scheme tp) "otpauth")
      then Err (EPlain ("unexpected totp key scheme " +:+ TotP_Scheme tp +:+ ", otpauth is expected"))
      else if negb (String.eqb (key_Type key) "totp")
      then Err (EPlain ("invalid totp key type " +:+ key_Type key +:+ ", totp type is expected"))
      else if String.eqb (key_Secret key) ""
      then Err (EPlain "empty totp secret key")
      else if key_Period key =? 0
      then Err (EPlain "zero totp secret validity period, a positive integer is expected")
      else let! _ := TotP_Algorithm tp in
           let! _ := TotP_Digits tp in
           Ok tt
  end.

Definition unSerializeTotP (rawKeyData : string) : result TotP :=
  let! k := NewKeyFromURL rawKeyData in
  let! totP := NewTotP k in
  let! _ := TotP_Valid totP in
  Ok totP.

Definition GetUsersTotPCode (usr : User) : result (option TotP) :=
  if String.eqb (TrimSpace (u_TotP usr)) "" then Ok None
  else match unSerializeTotP (u_TotP usr) with
       | Err e => Err (EPlain ("failed to convert '" +:+ u_TotP usr +:+
                               "' to TotP secret data: " +:+ error_text e))
       | Ok totP => Ok (Some totP)
       end.

Definition MaxInt32 : Z := 2 ^ 31 - 1.

(** [time.Time.Unix]; the division of an int64 truncates. *)
Definition unix (t : time) : Z := t / Second.

Fixpoint try_offsets (now : time) (code secret : string) (period digits : Z) (algo : Algorithm)
    (offsets : list Z) : option Z :=
  match offsets with
  | [] => None
  | offset :: offsets' =>
      let at_ := now + offset * period * Second in
      match ValidateCustom code secret at_ period digits algo with
      | Ok true => Some (unix at_ ÷ period)
      | _ => try_offsets now code secret period digits algo offsets'
      end
  end.

(** A nil key cannot get here from [GetUsersTotPCode]; its dereference ends
    the request, and no code is accepted. *)
Definition CheckTotPCodeStep (now : time) (code : string) (totP : TotP) : option Z :=
  match TotP_Algorithm totP with
  | Err _ => None
  | Ok algo =>
      match TotP_Digits totP, tp_TotPKey totP with
      | Err _, _ | _, None => None
      | Ok digits, Some key =>
          let raw := key_Period key in
          let period := if (0 <? raw) && (raw <=? MaxInt32) then raw else 30 in
          try_offsets now code (tp_Secret totP) period digits algo [0; -1; 1]
      end
  end.

End totp.

(** ** Pending logins (2fa_auth.go) *)

Record expirableToken := mkExpirableToken {
  et_token : string;
  et_expiry : time;
  et_failures : Z;
  et_pendingPassword : string
}.

(** An address of the heap. *)
Abbreviation ptr := nat (only parsing).

Record TwoFAService := mkTwoFAService {
  TokenTTL : duration;
  tf_heap : gmap ptr expirableToken;
  tf_next : ptr;
  tokensByUser : gmap string ptr;
  lastTotPStep : gmap string Z;
  (** what was delivered: receiver and code *)
  tf_sent : list (string * string)
}.

Definition NewTwoFAService (tokenTTLSeconds : Z) : TwoFAService :=
  mkTwoFAService (tokenTTLSeconds * Second) ∅ 0%nat ∅ ∅ [].

Definition twoFATokenLength : nat := 6.
Definition maxTwoFAFailures : Z := 5.
Definition minTwoFAResendInterval : duration := 30 * Second.

Definition set_heap (h : gmap ptr expirableToken) (srv : TwoFAService) : TwoFAService :=
  mkTwoFAService (TokenTTL srv) h (tf_next srv) (tokensByUser srv) (lastTotPStep srv) (tf_sent srv).
Definition set_tokens (m : gmap string ptr) (srv : TwoFAService) : TwoFAService :=
  mkTwoFAService (TokenTTL srv) (tf_heap srv) (tf_next srv) m (lastTotPStep srv) (tf_sent srv).

(** [srv.tokensByUser[username] = &expirableToken{...}]. *)
Definition new_session (username : string) (t : expirableToken) (srv : TwoFAService)
    : TwoFAService :=
  mkTwoFAService (TokenTTL srv) (<[tf_next srv := t]> (tf_heap srv)) (S (tf_next srv))
    (<[username := tf_next srv]> (tokensByUser srv)) (lastTotPStep srv) (tf_sent srv).

Definition acceptTotPStep (username : string) (step : Z) (srv : TwoFAService)
    : bool * TwoFAService :=
  let accept := mkTwoFAService (TokenTTL srv) (tf_heap srv) (tf_next srv) (tokensByUser srv)
    (<[username := step]> (lastTotPStep srv)) (tf_sent srv) in
  match lastTotPStep srv !! username with
  | Some last => if step <=? last then (false, srv) else (true, accept)
  | None => (true, accept)
  end.

Definition registerFailure (username : string) (t : ptr) (srv : TwoFAService) : TwoFAService :=
  match tokensByUser srv !! username with
  | None => srv
  | Some cur =>
      if negb (Nat.eqb cur t) then srv
      else match tf_heap srv !! cur with
           | None => srv
           | Some o =>
               let o' := mkExpirableToken (et_token o) (et_expiry o) (et_failures o + 1)
                 (et_pendingPassword o) in
               let srv := set_heap (<[cur := o']> (tf_heap srv)) srv in
               if maxTwoFAFailures <=? et_failures o'
               then set_tokens (delete username (tokensByUser srv)) srv
               else srv
           end
  end.

Definition unauthorized (msg : string) : go_error := EAPI (api_error StatusUnauthorized msg).

(** The guard that reuses a live code. *)
Definition live_code (now : time) (username : string) (srv : TwoFAService) : bool :=
  match tokensByUser srv !! username ≫= fun p => tf_heap srv !! p with
  | None => false
  | Some existing =>
      negb (String.eqb (et_token existing) "") &&
      (now <? et_expiry existing - minTwoFAResendInterval)
  end.

(** [SendToken]: [lookup] is the user service, [newToken] what the random
    source yields, [send] the outcome of the delivery. *)
Definition SendToken (lookup : string -> result (option User)) (newToken : result string)
    (send : string -> string -> result unit) (now : time) (username : string)
    : M TwoFAService string :=
  if String.eqb username ""
  then fail (EAPI (api_error StatusBadRequest "username cannot be empty"))
  else
  user <- lift (lookup username) ;;
  match user with
  | None => fail (EAPI (api_error StatusNotFound
              ("user with username " +:+ username +:+ " not found")))
  | Some user =>
      if String.eqb (u_TwoFASendTo user) ""
      then fail (EAPI (api_error StatusBadRequest "no two_fa_send_to set for this user"))
      else
      live <- gets (live_code now username) ;;
      if (live : bool) then ret (u_TwoFASendTo user)
      else
      (* the format of the code is "%wv" *)
      token <- on_error (fun e => EPlain ("failed to generate 2fa token: " +:+ error_text e +:+ "v"))
                 (lift newToken) ;;
      on_error (fun e => EPlain ("failed to send 2fa verification code: " +:+ error_text e))
        (lift (send (u_TwoFASendTo user) token)) ;;;
      modify (fun srv =>
        new_session username (mkExpirableToken token (now + TokenTTL srv) 0 "")
          (mkTwoFAService (TokenTTL srv) (tf_heap srv) (tf_next srv) (tokensByUser srv)
             (lastTotPStep srv) (tf_sent srv ++ [(u_TwoFASendTo user, token)]))) ;;;
      ret (u_TwoFASendTo user)
  end.

Definition SetPendingPasswordChange (username newPassword : string) (srv : TwoFAService)
    : TwoFAService :=
  match tokensByUser srv !! username with
  | None => srv
  | Some t =>
      set_heap (alter (fun o => mkExpirableToken (et_token o) (et_expiry o) (et_failures o)
        newPassword) t (tf_heap srv)) srv
  end.

Definition SetTotPLoginSession (now : time) (username : string) (loginSessionTTL : duration)
    (srv : TwoFAService) : TwoFAService :=
  new_session username (mkExpirableToken "" (now + loginSessionTTL) 0 "") srv.

(** The read under the first lock of the two validations. *)
Definition read_session (username : string) (srv : TwoFAService) : option ptr :=
  tokensByUser srv !! username.

(** The last critical section: consume the session if it is still the one
    that was read, and return its pending password. *)
Definition consume (username : string) (t : ptr) (srv : TwoFAService) : string * TwoFAService :=
  match tokensByUser srv !! username with
  | Some cur =>
      if Nat.eqb cur t
      then (match tf_heap srv !! cur with Some o => et_pendingPassword o | None => "" end,
            set_tokens (delete username (tokensByUser srv)) srv)
      else (""%string, srv)
  | None => (""%string, srv)
  end.

(** A dereference; the sessions in the map are allocated. *)
Definition deref {A} (t : ptr) (k : expirableToken -> M TwoFAService A) : M TwoFAService A :=
  o <- gets (fun srv => tf_heap srv !! t) ;;
  match o with
  | Some o => k o
  | None => fail (EPlain "nil pointer dereference")
  end.

(** [ValidateToken] after its first critical section. *)
Definition ValidateToken_from (now : time) (username token : string) (t : option ptr)
    : M TwoFAService string :=
  match t with
  | None => fail (unauthorized "2fa token not found for provided username")
  | Some t =>
      deref t (fun o =>
        if et_expiry o <? now then fail (unauthorized "2fa token expired")
        else if negb (String.eqb (et_token o) token)
        then modify (registerFailure username t) ;;; fail (unauthorized "invalid token")
        else fun srv => let '(pw, srv') := consume username t srv in (Ok pw, srv'))
  end.

Definition ValidateToken (now : time) (username token : string) : M TwoFAService string :=
  t <- gets (read_session username) ;;
  ValidateToken_from now username token t.

Section validate_totp.
Context `{!OtpLib}.

(** The checks of [ValidateTotPCode] between the locks; the result is the
    step the code matched, [None] for a wrong code. *)
Definition check_totp (now : time) (user : User) (code : string) (o : expirableToken)
    : result (option Z) :=
  if et_expiry o <? now then Err (unauthorized "login request expired")
  else match GetUsersTotPCode user with
       | Err e => Err (EAPI (mkAPIError "" (Some (error_text e)) StatusInternalServerError ""))
       | Ok None => Err (EAPI (api_error StatusConflict
           "time based one time secret key should be generated for this user"))
       | Ok (Some totP) =>
           if String.eqb (tp_Secret totP) ""
           then Err (EAPI (api_error StatusConflict
             "time based one time secret key should be generated for this user"))
           else Ok (CheckTotPCodeStep now code totP)
       end.

(** [ValidateTotPCode] after its first critical section. *)
Definition ValidateTotPCode_from (now : time) (user : User) (code : string) (t : option ptr)
    : M TwoFAService string :=
  match t with
  | None => fail (unauthorized "login request not found for provided username")
  | Some t =>
      deref t (fun o =>
        r <- lift (check_totp now user code o) ;;
        match r with
        | None => modify (registerFailure (u_Username user) t) ;;; fail (unauthorized "invalid code")
        | Some step =>
            fun srv =>
              let '(ok, srv) := acceptTotPStep (u_Username user) step srv in
              if negb ok
              then (Err (unauthorized "code already used, wait for the next one"),
                    registerFailure (u_Username user) t srv)
              else let '(pw, srv) := consume (u_Username user) t srv in (Ok pw, srv)
        end)
  end.

Definition ValidateTotPCode (now : time) (user : User) (code : string) : M TwoFAService string :=
  t <- gets (read_session (u_Username user)) ;;
  ValidateTotPCode_from now user code t.

End validate_totp.

(** ** Concurrent validations

    A request in [ValidateTotPCode] runs in sections that are atomic under the
    mutex; requests interleave between them.  [check_totp] reads fields of the
    session that never change after its creation. *)

Inductive vstate :=
  | VStart
  | VRead (t : option ptr)
  | VAccept (t : ptr) (step : Z)
  | VConsume (t : ptr) (step : Z)
  | VReject (t : ptr)
  | VDone (step : Z) (pendingPassword : string)
  | VRefused.

Record vthread := mkVThread {
  v_user : User;
  v_code : string;
  v_state : vstate
}.

Definition at_state (th : vthread) (s : vstate) : vthread := mkVThread (v_user th) (v_code th) s.

Section threads.
Context `{!OtpLib}.

(** The next section of a request; a finished request has none. *)
Definition thread_step (now : time) (th : vthread) (srv : TwoFAService)
    : option (vthread * TwoFAService) :=
  let u := u_Username (v_user th) in
  match v_state th with
  | VStart => Some (at_state th (VRead (read_session u srv)), srv)
  | VRead None => Some (at_state th VRefused, srv)
  | VRead (Some t) =>
      Some (at_state th
        (match tf_heap srv !! t with
         | None => VRefused
         | Some o =>
             match check_totp now (v_user th) (v_code th) o with
             | Err _ => VRefused
             | Ok None => VReject t
             | Ok (Some step) => VAccept t step
             end
         end), srv)
  | VAccept t step =>
      let '(ok, srv') := acceptTotPStep u step srv in
      Some (at_state th (if ok then VConsume t step else VReject t), srv')
  | VConsume t step =>
      let '(pw, srv') := consume u t srv in
      Some (at_state th (VDone step pw), srv')
  | VReject t => Some (at_state th VRefused, registerFailure u t srv)
  | VDone _ _ | VRefused => None
  end.

(** Requests interleave with each other and with logins. *)
Inductive sys_step : list vthread * TwoFAService -> list vthread * TwoFAService -> Prop :=
  | sys_thread now i th th' ths srv srv' :
      ths !! i = Some th -> thread_step now th srv = Some (th', srv') ->
      sys_step (ths, srv) (<[i := th']> ths, srv')
  | sys_login now u ttl ths srv :
      sys_step (ths, srv) (ths, SetTotPLoginSession now u ttl srv)
  | sys_pending u pw ths srv :
      sys_step (ths, srv) (ths, SetPendingPasswordChange u pw srv).

Inductive reachable (ths0 : list vthread) (srv0 : TwoFAService) : list vthread * TwoFAService -> Prop :=
  | reach_init : reachable ths0 srv0 (ths0, srv0)
  | reach_step s s' : reachable ths0 srv0 s -> sys_step s s' -> reachable ths0 srv0 s'.

(** A request running alone, until it is finished or the fuel is spent. *)
Fixpoint run_thread (fuel : nat) (now : time) (th : vthread) (srv : TwoFAService)
    : vthread * TwoFAService :=
  match fuel with
  | O => (th, srv)
  | S fuel =>
      match thread_step now th srv with
      | None => (th, srv)
      | Some (th', srv') => run_thread fuel now th' srv'
      end
  end.

(** The step a request had accepted. *)
Definition accepted_step (th : vthread) : option Z :=
  match v_state th with
  | VConsume _ step | VDone step _ => Some step
  | _ => None
  end.

(** Accepted steps are recorded, and no two requests of a user share one. *)
Definition steps_inv (s : list vthread * TwoFAService) : Prop :=
  (forall i th step, s.1 !! i = Some th -> accepted_step th = Some step ->
    exists last, lastTotPStep s.2 !! u_Username (v_user th) = Some last /\ step <= last) /\
  (forall i j th th' step step', s.1 !! i = Some th -> s.1 !! j = Some th' -> i <> j ->
    u_Username (v_user th) = u_Username (v_user th') ->
    accepted_step th = Some step -> accepted_step th' = Some step' -> step <> step').

Lemma acceptTotPStep_true u step srv srv' :
  acceptTotPStep u step srv = (true, srv') ->
  lastTotPStep srv' = <[u := step]> (lastTotPStep srv) /\
  (forall last, lastTotPStep srv !! u = Some last -> last < step).
Proof.
  unfold acceptTotPStep. destruct (lastTotPStep srv !! u) as [last|] eqn:E.
  - destruct (Z.leb_spec step last); [done|]. intros [= <-]. split; [done|]. by intros ? [= <-].
  - intros [= <-]. split; [done|]. by intros ? [=].
Qed.

Lemma acceptTotPStep_false u step srv srv' :
  acceptTotPStep u step srv = (false, srv') -> srv' = srv.
Proof.
  unfold acceptTotPStep. destruct (lastTotPStep srv !! u) as [last|]; [|done].
  destruct (step <=? last); congruence.
Qed.

Lemma registerFailure_steps u t srv : lastTotPStep (registerFailure u t srv) = lastTotPStep srv.
Proof.
  unfold registerFailure. destruct (tokensByUser srv !! u) as [cur|]; [|done].
  destruct (negb _); [done|]. destruct (tf_heap srv !! cur); [|done]. by case_match.
Qed.

Lemma consume_steps u t srv pw srv' :
  consume u t srv = (pw, srv') -> lastTotPStep srv' = lastTotPStep srv.
Proof.
  unfold consume. destruct (tokensByUser srv !! u) as [cur|]; [|congruence].
  destruct (Nat.eqb cur t); [|congruence]. by intros [= _ <-].
Qed.

Lemma pending_steps u pw srv : lastTotPStep (SetPendingPasswordChange u pw srv) = lastTotPStep srv.
Proof. unfold SetPendingPasswordChange. by destruct (tokensByUser srv !! u). Qed.

(** What one section of a request does to the accepted steps. *)
Lemma thread_step_accepted now th srv th' srv' :
  thread_step now th srv = Some (th', srv') ->
  v_user th' = v_user th /\
  ((lastTotPStep srv' = lastTotPStep srv /\
    (accepted_step th' = None \/ accepted_step th' = accepted_step th)) \/
   exists step, accepted_step th' = Some step /\
     lastTotPStep srv' = <[u_Username (v_user th) := step]> (lastTotPStep srv) /\
     (forall last, lastTotPStep srv !! u_Username (v_user th) = Some last -> last < step)).
Proof.
  unfold thread_step. destruct (v_state th) as [|[t|]|t step|t step|t|step pw|] eqn:Est;
    try (intros [= <- <-]); try done.
  - split; [done|]. left. split; [done|]. by left.
  - split; [done|]. left. split; [done|]. cbn.
    destruct (tf_heap srv !! t) as [o|]; [|by left].
    destruct (check_totp _ _ _ _) as [[?|]|]; by left.
  - split; [done|]. left. split; [done|]. by left.
  - destruct (acceptTotPStep _ step srv) as [[] srv1] eqn:E; intros [= <- <-]; (split; [done|]).
    + apply acceptTotPStep_true in E as [? ?]. right. by exists step.
    + apply acceptTotPStep_false in E as ->. left. split; [done|]. by left.
  - destruct (consume _ t srv) as [pw srv1] eqn:E. intros [= <- <-]. split; [done|].
    left. split; [by eapply consume_steps|]. right. unfold accepted_step. by rewrite Est.
  - split; [done|]. left. split; [apply registerFailure_steps|]. by left.
Qed.

Lemma sys_step_inv s s' : sys_step s s' -> steps_inv s -> steps_inv s'.
Proof.
  intros Hstep [H1 H2]. destruct Hstep as [now i th th' ths srv srv' Hi Hst|now u ttl ths srv|u pw ths srv];
    cbn in *; [|done|split; cbn; by rewrite ?pending_steps].
  assert (i < length ths)%nat as Hlt by (by eapply lookup_lt_Some).
  apply thread_step_accepted in Hst as (Hu & Hcase).
  assert (Hother : forall j th0, j <> i -> <[i:=th']> ths !! j = Some th0 -> ths !! j = Some th0)
    by (intros j th0 ?; by rewrite list_lookup_insert_ne).
  assert (Hself : <[i:=th']> ths !! i = Some th') by (by apply list_lookup_insert_eq).
  destruct Hcase as [[Hl Ha]|(step & Ha & Hl & Hnew)].
  - assert (Hback : forall x, accepted_step th' = Some x -> accepted_step th = Some x)
      by (intros x Hx; destruct Ha as [Ha|Ha]; congruence).
    split; cbn.
    + intros j th0 x Hj Hx. rewrite Hl. destruct (decide (j = i)) as [->|].
      * simplify_eq. rewrite Hu. apply (H1 i th); auto.
      * apply (H1 j th0); auto.
    + intros j k a b x y Hj Hk Hne Huser Hx Hy.
      destruct (decide (j = i)) as [->|], (decide (k = i)) as [->|]; [done|..]; simplify_eq.
      * apply (H2 i k th b); auto. congruence.
      * apply (H2 j i a th); auto. congruence.
      * apply (H2 j k a b); auto.
  - assert (Hless : forall j th0 x, j <> i -> ths !! j = Some th0 ->
      u_Username (v_user th0) = u_Username (v_user th) -> accepted_step th0 = Some x -> x < step).
    { intros j th0 x _ Hj Huser Hx. destruct (H1 j th0 x Hj Hx) as (last & Hlast & ?).
      rewrite Huser in Hlast. specialize (Hnew _ Hlast). lia. }
    split; cbn.
    + intros j th0 x Hj Hx. rewrite Hl.
      destruct (decide (u_Username (v_user th0) = u_Username (v_user th))) as [E|Hne].
      * rewrite E, lookup_insert_eq. exists step. split; [done|].
        destruct (decide (j = i)) as [->|Hji]; [simplify_eq; lia|].
        pose proof (Hless j th0 x Hji (Hother j th0 Hji Hj) E Hx). lia.
      * rewrite lookup_insert_ne by done. apply (H1 j th0); [|done].
        apply Hother; [|done]. intros ->. simplify_eq. congruence.
    + intros j k a b x y Hj Hk Hne Huser Hx Hy.
      destruct (decide (j = i)) as [->|], (decide (k = i)) as [->|]; [done|..]; simplify_eq.
      * assert (y < step); [|lia]. eapply (Hless k b); eauto; congruence.
      * assert (x < step); [|lia]. eapply (Hless j a); eauto; congruence.
      * apply (H2 j k a b); auto.
Qed.

End threads.

(** ** Lemmas: random tokens *)

Definition accepted_bytes (buf : list Z) : list Z := List.filter (fun b => b <? maxByte) buf.

Lemma take_bytes_spec n out buf :
  (length out <= n)%nat ->
  take_bytes n out buf =
  out ++ ((fun b => char_at (b mod 62)) <$> take (n - length out) (accepted_bytes buf)).
Proof.
  revert out; induction buf as [|b buf IH]; intros out Hle; cbn [take_bytes].
  - unfold accepted_bytes. cbn. by rewrite take_nil, app_nil_r.
  - destruct (Nat.eqb_spec (length out) n) as [<-|Hne].
    { by rewrite Nat.sub_diag, take_0, app_nil_r. }
    unfold accepted_bytes in *. cbn [List.filter]. destruct (b <? maxByte).
    + rewrite IH by (rewrite length_app; cbn; lia). rewrite <-app_assoc, length_app. cbn.
      replace (n - length out)%nat with (S (n - (length out + 1))) by lia. done.
    + apply IH. lia.
Qed.

Lemma random_token_spec n out reads :
  (length out <= n)%nat ->
  (n <= length out + length (accepted_bytes (concat (omap id reads))))%nat ->
  Forall (fun r => is_Some r) reads ->
  exists s, random_token n out reads = Some (Ok s) /\
    String.list_ascii_of_string s = out ++
      ((fun b => char_at (b mod 62)) <$>
       take (n - length out) (accepted_bytes (concat (omap id reads)))).
Proof.
  revert out; induction reads as [|r reads IH]; intros out Hle Hn Hr; cbn [random_token].
  - destruct (Nat.ltb_spec (length out) n); [cbn in Hn; lia|]. eexists. split; [done|].
    rewrite String.list_ascii_of_string_of_list_ascii. cbn. by rewrite take_nil, app_nil_r.
  - apply Forall_cons_1 in Hr as [[buf ->] Hr]. cbn [omap list_omap id concat] in *.
    assert (accepted_bytes (buf ++ concat (omap id reads)) =
      accepted_bytes buf ++ accepted_bytes (concat (omap id reads))) as Happ
      by apply List.filter_app.
    rewrite Happ in *. rewrite length_app in Hn.
    destruct (Nat.ltb_spec (length out) n).
    + set (out' := take_bytes n out buf).
      assert (Hout : out' = out ++ ((fun b => char_at (b mod 62)) <$>
        take (n - length out) (accepted_bytes buf))) by (by apply take_bytes_spec).
      assert (length out' = length out + min (n - length out) (length (accepted_bytes buf)))%nat
        as Hlen by (rewrite Hout, length_app, length_fmap, length_take; done).
      destruct (IH out') as (s & -> & Hs); [lia|lia|done|].
      exists s. split; [done|]. rewrite Hs, Hout, <-app_assoc, <-fmap_app. f_equal. f_equal.
      rewrite <-Hout. rewrite take_app. f_equal. f_equal. lia.
    + eexists. split; [done|]. rewrite String.list_ascii_of_string_of_list_ascii.
      replace (n - length out)%nat with 0%nat by lia. by rewrite take_0, app_nil_r.
Qed.

(** ** Lemmas: pending sessions *)

Lemma registerFailure_current u p srv o :
  tokensByUser srv !! u = Some p -> tf_heap srv !! p = Some o ->
  if maxTwoFAFailures <=? et_failures o + 1
  then tokensByUser (registerFailure u p srv) !! u = None
  else tokensByUser (registerFailure u p srv) !! u = Some p /\
       tf_heap (registerFailure u p srv) !! p =
         Some (mkExpirableToken (et_token o) (et_expiry o) (et_failures o + 1) (et_pendingPassword o)).
Proof.
  intros Hu Hp. unfold registerFailure. rewrite Hu, Nat.eqb_refl, Hp. cbn.
  destruct (maxTwoFAFailures <=? et_failures o + 1); cbn.
  - by rewrite lookup_delete_eq.
  - by rewrite lookup_insert_eq.
Qed.

Lemma ValidateToken_gone now u tok srv :
  tokensByUser srv !! u = None ->
  ValidateToken now u tok srv =
  (Err (unauthorized "2fa token not found for provided username"), srv).
Proof. intros Hu. unfold ValidateToken, bind, gets, read_session. by rewrite Hu. Qed.

Lemma ValidateToken_wrong now u tok srv p o :
  tokensByUser srv !! u = Some p -> tf_heap srv !! p = Some o ->
  now <= et_expiry o -> tok <> et_token o ->
  snd (ValidateToken now u tok srv) = registerFailure u p srv.
Proof.
  intros Hu Hp Hexp Htok. unfold ValidateToken, ValidateToken_from, deref, bind, gets, read_session.
  rewrite Hu, Hp. destruct (Z.ltb_spec (et_expiry o) now); [lia|].
  destruct (String.eqb_spec (et_token o) tok); [congruence|]. done.
Qed.

Lemma ValidateToken_right now u srv p o :
  tokensByUser srv !! u = Some p -> tf_heap srv !! p = Some o -> now <= et_expiry o ->
  ValidateToken now u (et_token o) srv =
  (Ok (et_pendingPassword o), set_tokens (delete u (tokensByUser srv)) srv).
Proof.
  intros Hu Hp Hexp. unfold ValidateToken, ValidateToken_from, deref, bind, gets, read_session.
  rewrite Hu, Hp. destruct (Z.ltb_spec (et_expiry o) now); [lia|].
  rewrite String.eqb_refl. cbn. unfold consume. by rewrite Hu, Nat.eqb_refl, Hp.
Qed.

Lemma ValidateToken_Ok_inv now u tok srv pw srv' :
  ValidateToken now u tok srv = (Ok pw, srv') ->
  exists p o, tokensByUser srv !! u = Some p /\ tf_heap srv !! p = Some o /\
    now <= et_expiry o /\ tok = et_token o.
Proof.
  unfold ValidateToken, ValidateToken_from, deref, bind, gets, read_session.
  destruct (tokensByUser srv !! u) as [p|] eqn:Eu; [|done].
  destruct (tf_heap srv !! p) as [o|] eqn:Ep; [|done].
  destruct (Z.ltb_spec (et_expiry o) now); [done|].
  destruct (String.eqb_spec (et_token o) tok) as [<-|]; [|done]. intros _.
  exists p, o. done.
Qed.

(** A wrong guess at the code of the pending login. *)
Definition guess (u : string) (srv : TwoFAService) (g : time * string) : TwoFAService :=
  snd (ValidateToken g.1 u g.2 srv).

Lemma guesses_spec u p o srv guesses :
  tokensByUser srv !! u = Some p -> tf_heap srv !! p = Some o -> et_failures o < maxTwoFAFailures ->
  Forall (fun g => g.1 <= et_expiry o /\ g.2 <> et_token o) guesses ->
  if maxTwoFAFailures <=? et_failures o + Z.of_nat (length guesses)
  then tokensByUser (foldl (guess u) srv guesses) !! u = None
  else tokensByUser (foldl (guess u) srv guesses) !! u = Some p /\
       tf_heap (foldl (guess u) srv guesses) !! p =
         Some (mkExpirableToken (et_token o) (et_expiry o)
           (et_failures o + Z.of_nat (length guesses)) (et_pendingPassword o)).
Proof.
  revert srv o; induction guesses as [|[now tok] guesses IH]; intros srv o Hu Hp Hlt Hg.
  - cbn [length foldl]. rewrite Z.add_0_r. destruct (Z.leb_spec maxTwoFAFailures (et_failures o)); [lia|].
    split; [done|]. rewrite Hp. by destruct o.
  - apply Forall_cons_1 in Hg as [[Hexp Htok] Hg]. cbn [fst snd] in Hexp, Htok. cbn [foldl length].
    change (guess u srv (now, tok)) with (snd (ValidateToken now u tok srv)).
    rewrite (ValidateToken_wrong _ _ _ _ _ _ Hu Hp Hexp Htok).
    pose proof (registerFailure_current _ _ _ _ Hu Hp) as Hreg.
    destruct (Z.leb_spec maxTwoFAFailures (et_failures o + 1)) as [Hge|Hlt'].
    + destruct (Z.leb_spec maxTwoFAFailures (et_failures o + Z.of_nat (S (length guesses)))); [|lia].
      clear -Hreg. generalize dependent (registerFailure u p srv). intros srv' Hgone.
      induction guesses as [|g l IH]; [done|]. cbn [foldl]. unfold guess at 2.
      by rewrite ValidateToken_gone.
    + destruct Hreg as [Hu' Hp']. apply (IH _ _ Hu') in Hp'; [|done..].
      cbn [et_failures et_token et_expiry et_pendingPassword] in Hp'.
      replace (et_failures o + 1 + Z.of_nat (length guesses))
        with (et_failures o + Z.of_nat (S (length guesses))) in Hp' by lia. done.
Qed.

(** ** A TOTP library for the witnesses

    The code of an instant is the number of its step. *)

Definition toy_otp : OtpLib := {|
  NewKeyFromURL raw := Ok (mkOtpKey raw "totp" "SECRET" 30);
  url_Parse _ := Ok (mkURL "otpauth" {[ "algorithm" := "SHA1"; "digits" := "6" ]}%string);
  key_Image _ := Ok "png"%string;
  ValidateCustom code _ at_ period _ _ := Ok (String.eqb code (Itoa (unix at_ ÷ period)))
|}.

Definition totp_user : User := mkUser "alice" "" None None "" "otpauth://totp/alice".

Definition pending_login (now : time) : TwoFAService :=
  SetTotPLoginSession now "alice" (300 * Second) (NewTwoFAService 300).

Lemma try_offsets_Some `{!OtpLib} now code secret period digits algo offsets step :
  try_offsets now code secret period digits algo offsets = Some step ->
  exists offset, offset ∈ offsets /\
    ValidateCustom code secret (now + offset * period * Second) period digits algo = Ok true /\
    step = unix (now + offset * period * Second) ÷ period.
Proof.
  induction offsets as [|x l IH]; cbn; [done|].
  destruct (ValidateCustom _ _ _ _ _ _) as [[]|] eqn:E.
  - intros [= <-]. exists x. split; [left|done].
  - intros (o & ? & ?)%IH. exists o. split; [by right|done].
  - intros (o & ? & ?)%IH. exists o. split; [by right|done].
Qed.

(** ** Properties *)

(** C4: A TOTP code is accepted once per user under every interleaving of
    requests: whatever validations run concurrently, with each other and with
    logins, no two of them are accepted for the same time step of a user. *)
Theorem totp_step_accepted_once `{!OtpLib} ths0 srv0 ths srv i j th th' step step' :
  Forall (fun th => v_state th = VStart) ths0 -> reachable ths0 srv0 (ths, srv) ->
  ths !! i = Some th -> ths !! j = Some th' -> i <> j ->
  u_Username (v_user th) = u_Username (v_user th') ->
  accepted_step th = Some step -> accepted_step th' = Some step' -> step <> step'.
Proof.
  intros Hstart Hr. assert (Hinv : steps_inv (ths, srv)); [|by apply Hinv].
  assert (H0 : steps_inv (ths0, srv0)).
  { rewrite Forall_forall in Hstart.
    assert (Hn : forall k t, ths0 !! k = Some t -> accepted_step t = None).
    { intros k t Hk%list_elem_of_lookup_2. unfold accepted_step. by rewrite Hstart. }
    split; cbn; intros *; intros Hk; intros; by rewrite (Hn _ _ Hk) in *. }
  clear Hstart. revert H0. induction Hr as [|s s' _ IH Hstep]; [done|].
  intros H0. eapply sys_step_inv; eauto.
Qed.

(** The request [i] runs its sections at [now]. *)
Lemma reachable_run `{!OtpLib} ths0 srv0 ths srv now i th fuel :
  reachable ths0 srv0 (ths, srv) -> ths !! i = Some th ->
  reachable ths0 srv0
    (<[i := fst (run_thread fuel now th srv)]> ths, snd (run_thread fuel now th srv)).
Proof.
  revert ths srv th; induction fuel as [|fuel IH]; intros ths srv th Hr Hi; cbn [run_thread].
  { cbn. by rewrite list_insert_id. }
  destruct (thread_step now th srv) as [[th1 srv1]|] eqn:E; [|cbn; by rewrite list_insert_id].
  assert (Hr1 : reachable ths0 srv0 (<[i := th1]> ths, srv1))
    by (eapply reach_step; [exact Hr|by econstructor]).
  rewrite <-(list_insert_insert_eq ths i (fst (run_thread fuel now th1 srv1)) th1).
  apply IH; [done|]. apply list_lookup_insert_eq. by eapply lookup_lt_Some.
Qed.

Lemma totp_step_accepted_once_witness :
  let otp := toy_otp in
  exists ths srv th th',
    reachable [mkVThread totp_user "100" VStart; mkVThread totp_user "101" VStart]
      (pending_login 0) (ths, srv) /\
    ths !! 0%nat = Some th /\ ths !! 1%nat = Some th' /\
    accepted_step th = Some 100 /\ accepted_step th' = Some 101 /\ 100 <> 101.
Proof.
  intros otp.
  set (ths0 := [mkVThread totp_user "100" VStart; mkVThread totp_user "101" VStart]).
  set (srv0 := SetTotPLoginSession (2999 * Second) "alice" (300 * Second) (pending_login 0)).
  assert (Hr0 : reachable ths0 (pending_login 0) (ths0, srv0))
    by (eapply reach_step; [apply reach_init|constructor]).
  pose proof (reachable_run _ _ _ _ (3001 * Second) 0 _ 4 Hr0 eq_refl) as Hr1.
  pose proof (reach_step _ _ _ _ Hr1 (sys_login (3002 * Second) "alice" (300 * Second) _ _)) as Hr2.
  pose proof (reachable_run _ _ _ _ (3003 * Second) 1 _ 4 Hr2 eq_refl) as Hr3.
  eexists _, _, _, _. split; [exact Hr3|]. split; [reflexivity|]. split; [reflexivity|].
  split; [by vm_compute|]. split; [by vm_compute|].
  eapply (totp_step_accepted_once ths0 (pending_login 0) _ _ 0 1); [|exact Hr3|reflexivity|
    reflexivity|done|by vm_compute|by vm_compute|by vm_compute].
  repeat constructor.
Defined.

(** The code matches a time step of the user's secret that is later than the
    last one accepted for the user. *)
Definition fresh_step `{!OtpLib} (now : time) (user : User) (code : string) (srv : TwoFAService)
    (step : Z) : Prop :=
  exists totP, GetUsersTotPCode user = Ok (Some totP) /\ tp_Secret totP <> ""%string /\
    CheckTotPCodeStep now code totP = Some step /\
    forall last, lastTotPStep srv !! u_Username user = Some last -> last < step.

(** The user has a usable TOTP secret. *)
Definition has_secret `{!OtpLib} (user : User) : Prop :=
  exists totP, GetUsersTotPCode user = Ok (Some totP) /\ tp_Secret totP <> ""%string.

(** The cases of [ValidateTotPCode] on a pending login. *)
Lemma ValidateTotPCode_cases `{!OtpLib} now user code srv p o :
  tokensByUser srv !! u_Username user = Some p -> tf_heap srv !! p = Some o ->
  (now <= et_expiry o /\ exists step, fresh_step now user code srv step /\
    ValidateTotPCode now user code srv = (Ok (et_pendingPassword o),
      mkTwoFAService (TokenTTL srv) (tf_heap srv) (tf_next srv)
        (delete (u_Username user) (tokensByUser srv))
        (<[u_Username user := step]> (lastTotPStep srv)) (tf_sent srv))) \/
  ((et_expiry o < now \/ ~ has_secret user) /\
    exists e, ValidateTotPCode now user code srv = (Err e, srv)) \/
  (now <= et_expiry o /\ has_secret user /\ (forall step, ~ fresh_step now user code srv step) /\
    exists e, ValidateTotPCode now user code srv = (Err e, registerFailure (u_Username user) p srv)).
Proof.
  intros Hu Hp. unfold ValidateTotPCode, ValidateTotPCode_from, deref, bind, gets, read_session,
    lift, modify, fail, check_totp. rewrite Hu, Hp.
  destruct (Z.ltb_spec (et_expiry o) now); [right; left; eauto|].
  destruct (GetUsersTotPCode user) as [[totP|]|e] eqn:Eg.
  2,3: right; left; split; [right; intros (? & ? & _); congruence|eauto].
  destruct (String.eqb_spec (tp_Secret totP) "") as [Es|Es].
  { right; left. split; [right; intros (? & ? & ?); congruence|eauto]. }
  assert (Hs : has_secret user) by (exists totP; done).
  destruct (CheckTotPCodeStep now code totP) as [step|] eqn:Ec.
  2:{ right; right. split_and!; [done..| |eauto]. intros step (? & ? & _ & ? & _). congruence. }
  destruct (acceptTotPStep (u_Username user) step srv) as [[] srv1] eqn:Ea; cbn [negb].
  - left. split; [done|]. exists step. split.
    { exists totP. split_and!; [done..|]. by apply acceptTotPStep_true in Ea as [_ ?]. }
    unfold acceptTotPStep in Ea. destruct (lastTotPStep srv !! u_Username user);
      [destruct (step <=? z); [done|]|]; injection Ea as <-;
      unfold consume; cbn; by rewrite Hu, Nat.eqb_refl, Hp.
  - right; right. split_and!; [done..| |].
    + intros step' (? & ? & _ & ? & Hlast). assert (step' = step) as -> by congruence.
      unfold acceptTotPStep in Ea. destruct (lastTotPStep srv !! u_Username user) as [last|]; [|done].
      specialize (Hlast last eq_refl). destruct (Z.leb_spec step last); [lia|done].
    + apply acceptTotPStep_false in Ea as ->. eauto.
Qed.

(** C17: What a TOTP code does to a pending login.  It completes the login
    exactly when the login has not expired and the code matches a time step
    that is later than the last one accepted for the user; then the pending
    session is gone, the step is recorded, and no code of that step or an
    earlier one completes a later login of the user.  A code that is wrong or
    was used before is counted, and the fifth one ends the pending login; a
    refused request never changes what was accepted, nor any other user's
    pending login. *)
Theorem totp_login_is_decided `{!OtpLib} now user code srv p o r srv' :
  let u := u_Username user in
  tokensByUser srv !! u = Some p -> tf_heap srv !! p = Some o ->
  ValidateTotPCode now user code srv = (r, srv') ->
  (is_ok r = true <-> now <= et_expiry o /\ exists step, fresh_step now user code srv step) /\
  (forall pw, r = Ok pw -> pw = et_pendingPassword o /\ tokensByUser srv' !! u = None /\
    exists step, fresh_step now user code srv step /\
      lastTotPStep srv' = <[u := step]> (lastTotPStep srv) /\
      forall now' ttl now'' code' step', step' <= step ->
        ~ fresh_step now'' user code' (SetTotPLoginSession now' u ttl srv') step') /\
  (is_ok r = false -> lastTotPStep srv' = lastTotPStep srv /\
    (forall u', u' <> u -> tokensByUser srv' !! u' = tokensByUser srv !! u') /\
    (now <= et_expiry o -> has_secret user ->
      if 5 <=? et_failures o + 1 then tokensByUser srv' !! u = None
      else tokensByUser srv' !! u = Some p /\ tf_heap srv' !! p =
        Some (mkExpirableToken (et_token o) (et_expiry o) (et_failures o + 1) (et_pendingPassword o)))).
Proof.
  intros u Hu Hp Hrun.
  destruct (ValidateTotPCode_cases now user code srv p o Hu Hp)
    as [(Hexp & step & Hfresh & E)|[(Hno & e & E)|(Hexp & Hsec & Hno & e & E)]];
    rewrite E in Hrun; injection Hrun as <- <-; clear E.
  - split_and!; [split; eauto| |done]. intros pw [= <-]. cbn. split; [done|].
    split; [by rewrite lookup_delete_eq|]. exists step. split_and!; [done..|].
    intros now' ttl now'' code' step' Hle (totP & _ & _ & _ & Hlast). cbn in Hlast.
    specialize (Hlast step). rewrite lookup_insert_eq in Hlast. specialize (Hlast eq_refl). lia.
  - split_and!; [|done|].
    + split; [done|]. intros (Hexp & step & totP & Hg & Hs & _). exfalso.
      destruct Hno as [?|Hno]; [lia|]. apply Hno. by exists totP.
    + intros _. split_and!; [done..|]. intros Hexp Hsec. destruct Hno; [lia|done].
  - split_and!; [|done|].
    + split; [done|]. intros (_ & step & Hf). by destruct (Hno step).
    + intros _. split; [apply registerFailure_steps|]. split.
      * intros u' Hne. unfold registerFailure. fold u. rewrite Hu, Nat.eqb_refl, Hp. cbn.
        destruct (maxTwoFAFailures <=? _); cbn; [|done]. by rewrite lookup_delete_ne.
      * intros _ _. by apply registerFailure_current.
Qed.

Lemma totp_user_has_secret : @has_secret toy_otp totp_user.
Proof.
  exists (mkTotP "SECRET" "png" (Some (mkOtpKey "otpauth://totp/alice" "totp" "SECRET" 30))
    (mkURL "otpauth" {[ "algorithm" := "SHA1"; "digits" := "6" ]}%string)).
  split; [by vm_compute|done].
Qed.

(** Alice's code 100 is accepted once; for her next login it is refused, and
    counted. *)
Lemma totp_login_is_decided_witness :
  let otp := toy_otp in
  let srv1 := snd (ValidateTotPCode (3001 * Second) totp_user "100" (pending_login 3000000000000)) in
  let srv2 := SetTotPLoginSession (3002 * Second) "alice" (300 * Second) srv1 in
  let srv3 := snd (ValidateTotPCode (3003 * Second) totp_user "100" srv2) in
  lastTotPStep srv1 !! "alice"%string = Some 100 /\ lastTotPStep srv3 = lastTotPStep srv2 /\
  tokensByUser srv3 !! "alice"%string = Some 1%nat /\
  tf_heap srv3 !! 1%nat = Some (mkExpirableToken "" (3302 * Second) 1 "").
Proof.
  intros otp srv1 srv2 srv3.
  destruct (totp_login_is_decided (3001 * Second) totp_user "100" (pending_login 3000000000000)
    0%nat (mkExpirableToken "" (3300 * Second) 0 "") (Ok ""%string) srv1)
    as (_ & H1 & _); [by vm_compute..|].
  destruct (totp_login_is_decided (3003 * Second) totp_user "100" srv2
    1%nat (mkExpirableToken "" (3302 * Second) 0 "")
    (fst (ValidateTotPCode (3003 * Second) totp_user "100" srv2)) srv3)
    as (_ & _ & H2); [by vm_compute..|].
  destruct (H1 ""%string eq_refl) as (_ & _ & step & Hf & Hl & _).
  destruct H2 as (H2 & _ & H3); [by vm_compute|]. split_and!.
  - by vm_compute.
  - exact H2.
  - apply H3; [by vm_compute|exact totp_user_has_secret].
  - apply H3; [by vm_compute|exact totp_user_has_secret].
Defined.

(** The sections of a request, run one after the other, are [ValidateTotPCode]:
    the interleaving model and the function describe the same request. *)
Lemma run_thread_alone `{!OtpLib} now user code srv :
  exists st,
    run_thread 4 now (mkVThread user code VStart) srv =
      (mkVThread user code st, snd (ValidateTotPCode now user code srv)) /\
    match fst (ValidateTotPCode now user code srv) with
    | Ok pw => exists step, st = VDone step pw
    | Err _ => st = VRefused
    end.
Proof.
  unfold ValidateTotPCode, ValidateTotPCode_from, deref, bind, gets, lift, fail, modify.
  cbn [run_thread thread_step v_state v_user v_code at_state].
  destruct (read_session (u_Username user) srv) as [t|];
    cbn [run_thread thread_step v_state v_user v_code at_state]; [|by eexists].
  destruct (tf_heap srv !! t) as [o|];
    cbn [run_thread thread_step v_state v_user v_code at_state]; [|by eexists].
  destruct (check_totp now user code o) as [[step|]|];
    cbn [run_thread thread_step v_state v_user v_code at_state]; [|by eexists..].
  destruct (acceptTotPStep (u_Username user) step srv) as [[] srv1];
    cbn [run_thread thread_step v_state v_user v_code at_state negb]; [|by eexists].
  destruct (consume (u_Username user) t srv1) as [pw srv2]. cbn. eauto.
Qed.

(** C18: A pending login tolerates five wrong codes and not one more: as long
    as fewer have been tried the right code still completes the login, and
    after five the login is gone and no code is accepted. *)
Theorem wrong_codes_end_the_login u p o srv guesses :
  tokensByUser srv !! u = Some p -> tf_heap srv !! p = Some o -> et_failures o = 0 ->
  Forall (fun g => g.1 <= et_expiry o /\ g.2 <> et_token o) guesses ->
  let srv' := foldl (guess u) srv guesses in
  ((length guesses < 5)%nat -> forall now, now <= et_expiry o ->
    fst (ValidateToken now u (et_token o) srv') = Ok (et_pendingPassword o)) /\
  ((5 <= length guesses)%nat -> forall now tok,
    fst (ValidateToken now u tok srv') =
    Err (unauthorized "2fa token not found for provided username")).
Proof.
  intros Hu Hp H0 Hg srv'. subst srv'.
  assert (Hlt : et_failures o < maxTwoFAFailures) by (rewrite H0; by vm_compute).
  pose proof (guesses_spec _ _ _ _ _ Hu Hp Hlt Hg) as Hspec. rewrite H0 in Hspec.
  change maxTwoFAFailures with 5 in Hspec. rewrite Z.add_0_l in Hspec.
  destruct (Z.leb_spec 5 (Z.of_nat (length guesses))); split; intros Hn; try lia.
  - intros now tok. by rewrite ValidateToken_gone.
  - intros now Hnow. destruct Hspec as [Hu' Hp'].
    pose proof (ValidateToken_right now u _ _ _ Hu' Hp' Hnow) as Hr. cbn [et_token] in Hr.
    by rewrite Hr.
Qed.

Definition sent_login : TwoFAService :=
  new_session "alice" (mkExpirableToken "abc123" (300 * Second) 0 "") (NewTwoFAService 300).

Lemma wrong_codes_end_the_login_witness :
  fst (ValidateToken 5 "alice" "abc123" (foldl (guess "alice") sent_login (replicate 4 (1, "x"%string))))
    = Ok ""%string /\
  fst (ValidateToken 5 "alice" "abc123" (foldl (guess "alice") sent_login (replicate 5 (1, "x"%string))))
    = Err (unauthorized "2fa token not found for provided username").
Proof.
  pose proof (wrong_codes_end_the_login "alice" 0
    (mkExpirableToken "abc123" (300 * Second) 0 "") sent_login) as H.
  assert (Hg : forall n, Forall (fun g : time * string => g.1 <= 300 * Second /\ g.2 <> "abc123"%string)
    (replicate n (1, "x"%string))) by (intros n; apply Forall_replicate; split; [by vm_compute|done]).
  split; apply H; try reflexivity; try apply Hg; cbn; try lia. by vm_compute.
Defined.

(** C35: A delivered code is single-use only in sequence.  After it was
    accepted, a later request is refused; but a request that looked the pending
    login up before is accepted with the same code as well. *)
Theorem otp_single_use_only_in_sequence now u tok srv pw srv' :
  ValidateToken now u tok srv = (Ok pw, srv') ->
  (forall now' tok', fst (ValidateToken now' u tok' srv') =
    Err (unauthorized "2fa token not found for provided username")) /\
  (forall now', now' <= now ->
    ValidateToken_from now' u tok (read_session u srv) srv' = (Ok ""%string, srv')).
Proof.
  intros H. pose proof (ValidateToken_Ok_inv _ _ _ _ _ _ H) as (p & o & Hu & Hp & Hexp & ->).
  rewrite (ValidateToken_right _ _ _ _ _ Hu Hp Hexp) in H. injection H as <- <-.
  assert (Hgone : tokensByUser (set_tokens (delete u (tokensByUser srv)) srv) !! u = None)
    by (cbn; by rewrite lookup_delete_eq).
  split.
  - intros now' tok'. by rewrite ValidateToken_gone.
  - intros now' Hle. unfold read_session, ValidateToken_from, deref, bind, gets.
    rewrite Hu. cbn [tf_heap set_tokens]. rewrite Hp.
    destruct (Z.ltb_spec (et_expiry o) now'); [lia|]. rewrite String.eqb_refl. cbn [negb].
    unfold consume. by rewrite Hgone.
Qed.

Lemma otp_single_use_only_in_sequence_witness :
  let srv' := snd (ValidateToken 7 "alice" "abc123" sent_login) in
  ValidateToken_from 7 "alice" "abc123" (read_session "alice" sent_login) srv'
    = (Ok ""%string, srv').
Proof.
  intros srv'.
  destruct (otp_single_use_only_in_sequence 7 "alice" "abc123" sent_login "" srv') as [_ H];
    [by vm_compute|]. apply H. lia.
Defined.

(** C36: The code delivered for one login confirms the password change asked
    for by another: while a code is live, a second login with the password
    sends nothing and keeps the pending session, the new password it asks for
    is put on that session, and the owner who then enters the code they were
    sent gets that password set. *)
Theorem live_code_confirms_later_password_change lookup newToken send now now' u user p o pw srv :
  u <> ""%string -> lookup u = Ok (Some user) -> u_TwoFASendTo user <> ""%string ->
  tokensByUser srv !! u = Some p -> tf_heap srv !! p = Some o ->
  live_code now u srv = true -> now' <= et_expiry o ->
  SendToken lookup newToken send now u srv = (Ok (u_TwoFASendTo user), srv) /\
  fst (ValidateToken now' u (et_token o) (SetPendingPasswordChange u pw srv)) = Ok pw.
Proof.
  intros Hne Hl Hto Hu Hp Hlive Hexp. split.
  - unfold SendToken, bind, lift, gets, ret. destruct (String.eqb_spec u ""); [done|].
    rewrite Hl. destruct (String.eqb_spec (u_TwoFASendTo user) ""); [done|]. by rewrite Hlive.
  - unfold SetPendingPasswordChange. rewrite Hu.
    set (o' := mkExpirableToken (et_token o) (et_expiry o) (et_failures o) pw).
    change (et_token o) with (et_token o').
    rewrite (ValidateToken_right now' u _ p o'); [done|exact Hu| |exact Hexp].
    cbn [tf_heap set_heap]. by rewrite lookup_alter_eq, Hp.
Qed.

Lemma live_code_confirms_later_password_change_witness :
  fst (ValidateToken 9 "alice" "abc123" (SetPendingPasswordChange "alice" "evil" sent_login))
    = Ok "evil"%string.
Proof.
  apply (live_code_confirms_later_password_change
    (fun _ => Ok (Some (mkUser "alice" "" None None "alice@example.com" "")))
    (Ok "zzzzzz"%string) (fun _ _ => Ok tt) 8 9 "alice"
    (mkUser "alice" "" None None "alice@example.com" "") 0
    (mkExpirableToken "abc123" (300 * Second) 0 "") "evil" sent_login); by vm_compute.
Defined.

(** C32: As long as the random source delivers, [NewRandomToken] returns a
    token of the requested length made of the first usable bytes, and every
    character of the alphabet is hit by exactly four of the 256 byte values, so
    that uniform bytes give uniform tokens. *)
Theorem random_token_is_uniform n reads :
  Forall (fun r => is_Some r) reads ->
  (n <= length (accepted_bytes (concat (omap id reads))))%nat ->
  (exists s, NewRandomToken n reads = Some (Ok s) /\ String.length s = n /\
    String.list_ascii_of_string s =
      (fun b => char_at (b mod 62)) <$> take n (accepted_bytes (concat (omap id reads)))) /\
  forall c, c ∈ String.list_ascii_of_string chars ->
    length (List.filter (fun b => Ascii.eqb (char_at (b mod 62)) c)
      (accepted_bytes (seqZ 0 256))) = 4%nat.
Proof.
  intros Hr Hn. split.
  - destruct (random_token_spec n [] reads) as (s & Hs & Hl); [cbn; lia|done..|].
    cbn in Hl. rewrite Nat.sub_0_r in Hl. exists s. split; [done|]. split; [|done].
    assert (String.length s = length (String.list_ascii_of_string s)) as ->
      by (clear; induction s; cbn; congruence).
    rewrite Hl, length_fmap, length_take. lia.
  - assert (Hall : forallb (fun c => Nat.eqb (length (List.filter
      (fun b => Ascii.eqb (char_at (b mod 62)) c) (accepted_bytes (seqZ 0 256)))) 4)
      (String.list_ascii_of_string chars) = true) by (vm_compute; reflexivity).
    intros c Hc%list_elem_of_In. rewrite forallb_forall in Hall. by apply Nat.eqb_eq, Hall.
Qed.

Lemma random_token_is_uniform_witness :
  exists s, NewRandomToken 2 [Some [250; 0]; Some [61; 255]] = Some (Ok s) /\
    String.length s = 2%nat.
Proof.
  destruct (random_token_is_uniform 2 [Some [250; 0]; Some [61; 255]]) as [(s & H1 & H2 & _) _].
  - repeat constructor; eauto.
  - vm_compute. lia.
  - exists s. split; [exact H1|exact H2].
Defined.

(** C33: An accepted TOTP code belongs to the current time step or to one of
    its two neighbours. *)
Theorem accepted_code_is_within_one_step `{!OtpLib} now code totP key step :
  let period := key_Period key in
  tp_TotPKey totP = Some key -> 0 < period <= MaxInt32 -> period * Second <= now ->
  CheckTotPCodeStep now code totP = Some step ->
  unix now / period - 1 <= step <= unix now / period + 1 /\
  exists at_ digits algo, unix at_ / period = step /\ 
    ValidateCustom code (tp_Secret totP) at_ period digits algo = Ok true.
Proof.
  intros period Hkey Hper Hnow. unfold CheckTotPCodeStep.
  destruct (TotP_Algorithm totP) as [algo|]; [|done].
  destruct (TotP_Digits totP) as [digits|]; [|done]. rewrite Hkey.
  change (key_Period key) with period.
  destruct (Z.ltb_spec 0 period); [|lia]. destruct (Z.leb_spec period MaxInt32); [|lia]. cbn [andb].
  intros (offset & Hin & Hv & ->)%try_offsets_Some.
  assert (Hoff : -1 <= offset <= 1) by set_solver by lia.
  assert (Hu : unix (now + offset * period * Second) = unix now + offset * period).
  { unfold unix. rewrite Z.div_add by done. done. }
  assert (period <= unix now).
  { unfold unix. apply Z.div_le_lower_bound; [done|]. lia. }
  assert (0 <= unix now + offset * period) by nia.
  rewrite Hu, Z.quot_div_nonneg by lia.
  rewrite Z.div_add by lia. split; [lia|].
  exists (now + offset * period * Second), digits, algo. split; [|done].
  by rewrite Hu, Z.div_add by lia.
Qed.

Definition example_totp : TotP :=
  mkTotP "SECRET" "" (Some (mkOtpKey "otpauth://totp/alice" "totp" "SECRET" 30))
    (mkURL "otpauth" {[ "algorithm" := "SHA1"; "digits" := "6" ]}%string).

Lemma accepted_code_is_within_one_step_witness :
  let otp := toy_otp in
  CheckTotPCodeStep (3001 * Second) "99" example_totp = Some 99 /\ 99 <= 99 <= 101.
Proof.
  intros otp. split; [by vm_compute|].
  apply (accepted_code_is_within_one_step (3001 * Second) "99" example_totp
    (mkOtpKey "otpauth://totp/alice" "totp" "SECRET" 30) 99); by vm_compute.
Defined.
