(* ===== verification/WsTickets.v ===== *)
(** * WebSocket tickets (server/api_ws_ticket.go)

    A browser opens a WebSocket with a one-time ticket obtained over an
    authenticated request.  Every operation runs under the store's mutex; the
    random bytes, hex-encoded, are an argument. *)

From stdpp Require Import base gmap strings list numbers sets.
From Stdlib Require Import ZArith Lia.
From S2P Require Import Prelude.

Local Open Scope Z_scope.

Definition wsTicketTTL : duration := 30 * Second.
Definition maxOutstandingTickets : nat := 8192.
Definition maxTicketsPerUser : nat := 32.

Definition errTooManyTickets : go_error :=
  EPlain "too many outstanding websocket tickets, retry shortly".
Definition errTooManyUserTickets : go_error :=
  EPlain "too many outstanding websocket tickets for this user, retry shortly".

Record wsTicketEntry := mkTicketEntry {
  wt_username : string;
  wt_expiresAt : time
}.

Abbreviation wsTicketStore := (gmap string wsTicketEntry) (only parsing).

Definition newWSTicketStore : wsTicketStore := ∅.

(** The opportunistic sweep of [issue]. *)
Definition sweep (now : time) (s : wsTicketStore) : wsTicketStore :=
  filter (fun kv => ~ (wt_expiresAt kv.2 < now)) s.

(** The tickets of a user in the store. *)
Definition held (username : string) (s : wsTicketStore) : nat :=
  length (filter (fun kv => wt_username kv.2 = username) (map_to_list s)).

(** [issue]; [raw] is the hex of 32 random bytes. *)
Definition issue (now : time) (raw : result string) (username : string)
    : M wsTicketStore string :=
  ticket <- lift raw ;;
  modify (sweep now) ;;;
  s <- get ;;
  if (maxOutstandingTickets <=? size s)%nat then fail errTooManyTickets
  else if (maxTicketsPerUser <=? held username s)%nat then fail errTooManyUserTickets
  else modify (insert ticket (mkTicketEntry username (now + wsTicketTTL))) ;;;
       ret ticket.

(** [redeem]: the username when the ticket is good. *)
Definition redeem (now : time) (ticket : string) (s : wsTicketStore)
    : option string * wsTicketStore :=
  if String.eqb ticket "" then (None, s)
  else match s !! ticket with
       | None => (None, s)
       | Some entry =>
           let s' := delete ticket s in
           if wt_expiresAt entry <? now then (None, s') else (Some (wt_username entry), s')
       end.

(** The status [handleGetWSTicket] answers a failed [issue] with. *)
Definition ticket_error_status (err : go_error) : Z :=
  match err with
  | EPlain msg =>
      if String.eqb msg "too many outstanding websocket tickets for this user, retry shortly"
      then StatusTooManyRequests
      else if String.eqb msg "too many outstanding websocket tickets, retry shortly"
      then StatusServiceUnavailable
      else StatusInternalServerError
  | _ => StatusInternalServerError
  end.

(** ** Steps and the bound *)

Inductive ticket_step : wsTicketStore -> wsTicketStore -> Prop :=
  | step_issue now raw u s : ticket_step s (snd (issue now raw u s))
  | step_redeem now ticket s : ticket_step s (snd (redeem now ticket s)).

Inductive ticket_reachable : wsTicketStore -> Prop :=
  | reach_new : ticket_reachable newWSTicketStore
  | reach_next s s' : ticket_reachable s -> ticket_step s s' -> ticket_reachable s'.

Definition bounded (s : wsTicketStore) : Prop :=
  (size s <= maxOutstandingTickets)%nat /\ forall u, (held u s <= maxTicketsPerUser)%nat.

(** The users with a ticket in the store. *)
Definition holders (s : wsTicketStore) : gset string :=
  list_to_set ((fun kv => wt_username kv.2) <$> map_to_list s).

Lemma held_insert t e u s :
  (held u (<[t := e]> s) <= (if decide (wt_username e = u) then 1 else 0) + held u s)%nat.
Proof.
  assert (Hfresh : forall s, s !! t = None ->
    held u (<[t := e]> s) = ((if decide (wt_username e = u) then 1 else 0) + held u s)%nat).
  { intros s' Hn. unfold held. rewrite (map_to_list_insert _ _ _ Hn), filter_cons. cbn.
    destruct (decide (wt_username e = u)); done. }
  destruct (s !! t) as [e'|] eqn:E; [|by rewrite Hfresh].
  rewrite <-insert_delete_eq, Hfresh by apply lookup_delete_eq.
  apply Nat.add_le_mono_l. unfold held.
  rewrite <-(map_to_list_delete s t e' E), filter_cons.
  clear Hfresh. destruct (decide (wt_username (t, e').2 = u)); [apply Nat.le_succ_diag_r|done].
Qed.

Lemma held_subseteq u s s' : s' ⊆ s -> (held u s' <= held u s)%nat.
Proof.
  intros Hsub. unfold held.
  destruct (submseteq_Permutation _ _ (map_to_list_submseteq _ _ Hsub)) as [k ->].
  rewrite filter_app, length_app. lia.
Qed.

Lemma bounded_subseteq s s' : s' ⊆ s -> bounded s -> bounded s'.
Proof.
  intros Hsub [H1 H2]. split.
  - pose proof (map_subseteq_size _ _ Hsub). lia.
  - intros u. pose proof (held_subseteq u _ _ Hsub). specialize (H2 u). lia.
Qed.

Lemma issue_inv now raw u s r s' :
  issue now raw u s = (r, s') ->
  (exists e, r = Err e /\ raw = Err e /\ s' = s) \/
  (r = Err errTooManyTickets /\ s' = sweep now s /\ (maxOutstandingTickets <= size s')%nat) \/
  (r = Err errTooManyUserTickets /\ s' = sweep now s /\ (maxTicketsPerUser <= held u s')%nat) \/
  (exists ticket, r = Ok ticket /\ raw = Ok ticket /\
    s' = <[ticket := mkTicketEntry u (now + wsTicketTTL)]> (sweep now s) /\
    (size (sweep now s) < maxOutstandingTickets)%nat /\
    (held u (sweep now s) < maxTicketsPerUser)%nat).
Proof.
  unfold issue, bind, lift, modify, get, fail, ret.
  destruct raw as [ticket|e]; [|intros [= <- <-]; left; eauto].
  destruct (Nat.leb_spec maxOutstandingTickets (size (sweep now s)));
    [intros [= <- <-]; right; left; eauto|].
  destruct (Nat.leb_spec maxTicketsPerUser (held u (sweep now s)));
    [intros [= <- <-]; right; right; left; eauto|].
  intros [= <- <-]. right; right; right. eauto 10.
Qed.

Lemma sweep_subseteq now s : sweep now s ⊆ s.
Proof. apply map_filter_subseteq. Qed.

Lemma bounded_insert t u exp s :
  bounded s -> (size s < maxOutstandingTickets)%nat -> (held u s < maxTicketsPerUser)%nat ->
  bounded (<[t := mkTicketEntry u exp]> s).
Proof.
  intros [H1 H2] Hs Hu. split.
  - rewrite map_size_insert. destruct (s !! t); unfold id; lia.
  - intros v. pose proof (held_insert t (mkTicketEntry u exp) v s) as Hi. cbn in Hi.
    specialize (H2 v). destruct (decide (u = v)) as [<-|]; lia.
Qed.

Lemma ticket_step_bounded s s' : ticket_step s s' -> bounded s -> bounded s'.
Proof.
  intros [now raw u s0|now ticket s0] Hb.
  - destruct (issue now raw u s0) as [r s1] eqn:E. cbn.
    apply issue_inv in E as [(e & _ & _ & ->)|[(_ & -> & _)|[(_ & -> & _)|(t & _ & _ & -> & Hs & Hu)]]].
    + done.
    + eapply bounded_subseteq; [apply sweep_subseteq|done].
    + eapply bounded_subseteq; [apply sweep_subseteq|done].
    + apply bounded_insert; [|done..]. eapply bounded_subseteq; [apply sweep_subseteq|done].
  - unfold redeem. destruct (String.eqb ticket ""); [done|].
    destruct (s0 !! ticket) as [e|]; [|done].
    assert (bounded (delete ticket s0)) by (eapply bounded_subseteq; [apply delete_subseteq|done]).
    by destruct (wt_expiresAt e <? now).
Qed.

Lemma reachable_bounded s : ticket_reachable s -> bounded s.
Proof.
  induction 1 as [|s s' _ IH Hs]; [|by eapply ticket_step_bounded].
  split; [cbn; unfold newWSTicketStore; rewrite map_size_empty; unfold maxOutstandingTickets; lia|].
  intros u. unfold held, newWSTicketStore. rewrite map_to_list_empty. cbn. lia.
Qed.

(** A list in which nothing occurs more than [k] times has at least a [k]-th
    of its length in distinct elements. *)
Lemma length_le_distinct (k : nat) (l : list string) :
  (forall u, length (filter (fun x => x = u) l) <= k)%nat ->
  (length l <= k * size (list_to_set l : gset string))%nat.
Proof.
  induction l as [l IH] using (induction_ltof1 _ (@length _)); unfold ltof in IH.
  intros Hk. destruct l as [|u l]; [cbn; lia|].
  set (rest := filter (fun x => x <> u) (u :: l)).
  assert (Hlen : (length (u :: l) = length (filter (fun x => x = u) (u :: l)) + length rest)%nat).
  { unfold rest. generalize (u :: l). intros l'. induction l' as [|x l' IHl]; [done|].
    rewrite !filter_cons. destruct (decide (x = u)), (decide (x <> u)); cbn in *; try done; lia. }
  assert (Hset : (list_to_set (u :: l) : gset string) = {[u]} ∪ list_to_set rest).
  { apply set_eq. intros x. rewrite elem_of_union, elem_of_singleton, !elem_of_list_to_set.
    unfold rest. rewrite list_elem_of_filter. destruct (decide (x = u)) as [->|]; set_solver. }
  assert (Hn : u ∉ (list_to_set rest : gset string)).
  { rewrite elem_of_list_to_set. unfold rest. rewrite list_elem_of_filter. tauto. }
  rewrite Hset, size_union_singleton by done.
  assert (Hrest : (length rest <= k * size (list_to_set rest : gset string))%nat).
  { apply IH.
    - rewrite Hlen, filter_cons, decide_True by done. cbn. lia.
    - intros v. specialize (Hk v). unfold rest. rewrite list_filter_filter.
      etransitivity; [|exact Hk]. apply submseteq_length, sublist_submseteq.
      generalize (u :: l). intros l'. induction l' as [|x l' IHl]; [done|].
      rewrite !filter_cons. destruct (decide (x = v)) as [->|], (decide (_ /\ _)) as [[? ?]|];
        try done; by constructor. }
  specialize (Hk u). lia.
Qed.

Lemma count_holders u (l : list (string * wsTicketEntry)) :
  length (filter (fun x => x = u) ((fun kv => wt_username kv.2) <$> l)) =
  length (filter (fun kv => wt_username kv.2 = u) l).
Proof.
  induction l as [|kv l IH]; [done|]. csimpl. rewrite !filter_cons.
  destruct (decide (wt_username kv.2 = u)); cbn [length]; congruence.
Qed.

Lemma size_le_holders s :
  bounded s -> (size s <= maxTicketsPerUser * size (holders s))%nat.
Proof.
  intros [_ Hu]. unfold holders. rewrite <-length_map_to_list.
  rewrite <-(length_fmap (fun kv => wt_username kv.2)). apply length_le_distinct.
  intros u. rewrite count_holders. apply Hu.
Qed.

(** ** Properties *)

(** C28: The store never holds more than 8192 tickets, nor more than 32 of any
    user, in whatever order tickets are issued and redeemed; so a request is
    turned away for the store being full only when at least 256 different users
    hold tickets, and no single user can lock the others out. *)
Theorem ticket_store_bounded s :
  ticket_reachable s ->
  bounded s /\
  forall now raw u s', raw <> Err errTooManyTickets ->
    issue now raw u s = (Err errTooManyTickets, s') -> (256 <= size (holders s'))%nat.
Proof.
  intros Hr%reachable_bounded. split; [done|]. intros now raw u s' Hraw
    [(e & [= <-] & -> & _)|[(_ & -> & Hs)|[([=] & _)|(? & [=] & _)]]]%issue_inv; [done|].
  assert (Hb : bounded (sweep now s)) by (eapply bounded_subseteq; [apply sweep_subseteq|done]).
  pose proof (size_le_holders _ Hb) as Hle.
  assert (maxOutstandingTickets = maxTicketsPerUser * 256)%nat by (by vm_compute).
  unfold maxTicketsPerUser in *. lia.
Qed.

Lemma ticket_store_bounded_witness :
  bounded (snd (issue 5 (Ok "t2"%string) "bob"
    (snd (issue 0 (Ok "t1"%string) "alice" newWSTicketStore)))).
Proof.
  apply ticket_store_bounded.
  eapply reach_next; [|apply step_issue]. eapply reach_next; [apply reach_new|apply step_issue].
Defined.

(** C29: An issued ticket admits its user once: redeemed within 30 seconds it
    yields the user it was issued to, later nothing; either way it is gone and
    never redeemed again, while every other ticket stays. *)
Theorem ticket_redeemed_once now u raw s ticket s' t :
  issue now raw u s = (Ok ticket, s') -> ticket <> ""%string -> now <= t ->
  let '(who, s'') := redeem t ticket s' in
  who = (if t <=? now + wsTicketTTL then Some u else None) /\
  (forall t', redeem t' ticket s'' = (None, s'')) /\
  (forall other, other <> ticket -> s'' !! other = s' !! other).
Proof.
  intros [(? & [=] & _)|[([=] & _)|[([=] & _)|(? & [= <-] & -> & -> & _)]]]%issue_inv Hne Ht.
  unfold redeem. destruct (String.eqb_spec ticket ""); [done|].
  rewrite lookup_insert_eq. cbn [wt_expiresAt wt_username].
  destruct (Z.ltb_spec (now + wsTicketTTL) t), (Z.leb_spec t (now + wsTicketTTL)); try lia;
    (split; [done|]; split; [|by intros other ?; rewrite lookup_delete_ne]);
    intros t'; (destruct (String.eqb_spec ticket ""); [done|]); by rewrite lookup_delete_eq.
Qed.

Lemma ticket_redeemed_once_witness :
  let s' := snd (issue 0 (Ok "t1"%string) "alice" newWSTicketStore) in
  fst (redeem (30 * Second) "t1" s') = Some "alice"%string /\
  fst (redeem (31 * Second) "t1" s') = None /\
  fst (redeem 2 "t1" (snd (redeem 1 "t1" s'))) = None.
Proof.
  intros s'.
  assert (Hi : issue 0 (Ok "t1"%string) "alice" newWSTicketStore = (Ok "t1"%string, s')) by reflexivity.
  pose proof (ticket_redeemed_once 0 "alice" _ _ "t1" s' (30 * Second) Hi ltac:(done) ltac:(by vm_compute)) as H1.
  pose proof (ticket_redeemed_once 0 "alice" _ _ "t1" s' (31 * Second) Hi ltac:(done) ltac:(by vm_compute)) as H2.
  pose proof (ticket_redeemed_once 0 "alice" _ _ "t1" s' 1 Hi ltac:(done) ltac:(by vm_compute)) as H3.
  destruct (redeem (30 * Second) "t1" s') as [w1 q1], (redeem (31 * Second) "t1" s') as [w2 q2],
    (redeem 1 "t1" s') as [w3 q3].
  destruct H1 as (-> & _), H2 as (-> & _), H3 as (_ & H3 & _).
  split; [by vm_compute|]. split; [by vm_compute|]. cbn [snd]. by rewrite H3.
Defined.
