(* ===== verification/ApiTokens.v ===== *)
(** * API tokens (server/api/authorization)

    Long-lived credentials that scripts use in place of a password: rows of
    [api_tokens], keyed by user and prefix, with an expiry, a scope and the
    bcrypt hash of the secret part. *)

From stdpp Require Import base gmap strings list numbers sets.
From Stdlib Require Import ZArith Ascii Lia.
From S2P Require Import Prelude GoStrings Db.

Local Open Scope string_scope.

(** ** model.go *)

Record APIToken := mkAPIToken {
  at_Username : string;
  at_Prefix : string;
  at_Name : string;
  at_CreatedAt : option time;
  at_ExpiresAt : option time;
  at_Scope : string;
  at_Token : string
}.

Definition APITokenPrefixLength : nat := 8.

Definition APITokenRead : string := "read".
Definition APITokenReadWrite : string := "read+write".
Definition APITokenClientsAuth : string := "clients-auth".

Definition Extract (prefixedpwd : string) : result (string * string) :=
  match Cut prefixedpwd "_" with
  | None => Err (EPlain "token should be in the format 'prefix_token'")
  | Some (prefix, token) =>
      if negb (Nat.eqb (String.length prefix) APITokenPrefixLength)
      then Err (EPlain "invalid token") else Ok (prefix, token)
  end.

Definition IsValidScope (scope : string) : bool :=
  String.eqb scope APITokenRead || String.eqb scope APITokenReadWrite ||
  String.eqb scope APITokenClientsAuth.

(** ** sqlite.go *)

Abbreviation tokens_table := (gmap (string * string) APIToken) (only parsing).

Definition tokens_GetAll (username : string) : M (DB tokens_table) (list APIToken) :=
  db_query (wrapf "unable to get api_token from DB")
    (fun t => (filter (fun kv => kv.1.1 = username) (map_to_list t)).*2).

Definition tokens_Get (username prefix : string) : M (DB tokens_table) (option APIToken) :=
  db_query (wrapf "unable to get api token from DB") (fun t => t !! (username, prefix)).

Definition tokens_GetByName (username name : string) : M (DB tokens_table) (option APIToken) :=
  db_query (wrapf "unable to get api token from DB")
    (fun t => head (filter (fun kv => kv.1.1 = username /\ at_Name kv.2 = name) (map_to_list t)).*2).

(** The row the INSERT ... ON CONFLICT of [Save] leaves: a new row, or the old
    one with its expiry and name replaced where they are given. *)
Definition upsert_row (now : time) (tokenLine : APIToken) (old : option APIToken) : APIToken :=
  match old with
  | None =>
      mkAPIToken (at_Username tokenLine) (at_Prefix tokenLine) (at_Name tokenLine)
        (Some (default now (at_CreatedAt tokenLine)))
        (at_ExpiresAt tokenLine) (at_Scope tokenLine) (at_Token tokenLine)
  | Some row =>
      mkAPIToken (at_Username row) (at_Prefix row)
        (if String.eqb (at_Name tokenLine) "" then at_Name row else at_Name tokenLine)
        (at_CreatedAt row)
        (match at_ExpiresAt tokenLine with Some e => Some e | None => at_ExpiresAt row end)
        (at_Scope row) (at_Token row)
  end.

(** The CHECK constraints of the table and its unique index on user and name. *)
Definition violates (t : tokens_table) (key : string * string) (row : APIToken) : bool :=
  String.eqb key.1 "" || String.eqb key.2 "" ||
  existsb (fun kv => negb (bool_decide (kv.1 = key)) &&
      String.eqb (at_Username kv.2) (at_Username row) && String.eqb (at_Name kv.2) (at_Name row))
    (map_to_list t).

(** [Save]; one row is always affected. *)
Definition tokens_Save (now : time) (tokenLine : APIToken) : M (DB tokens_table) unit :=
  done <- db_call raw_error (fun t =>
    let key := (at_Username tokenLine, at_Prefix tokenLine) in
    let row := upsert_row now tokenLine (t !! key) in
    if violates t key row then (false, t) else (true, <[key := row]> t)) ;;
  if (done : bool) then ret tt else fail (EPlain "constraint failed").

Definition tokens_Delete (username prefix : string) : M (DB tokens_table) unit :=
  affected <- db_call raw_error (fun t =>
    (bool_decide (is_Some (t !! (username, prefix))), delete (username, prefix) t)) ;;
  if (affected : bool) then ret tt
  else fail (EPlain ("cannot find API Token by prefix " +:+ prefix)).

(** ** manager.go *)

Definition checkNameExist (username name : string) : M (DB tokens_table) unit :=
  if String.eqb name "" then ret tt
  else
    item <- tokens_GetByName username name ;;
    match item with
    | Some _ => fail (EPlain "A token with the same name already exists")
    | None => ret tt
    end.

Definition Manager_Create (now : time) (tokenLine : APIToken) : M (DB tokens_table) unit :=
  checkNameExist (at_Username tokenLine) (at_Name tokenLine) ;;;
  tokens_Save now tokenLine.

Definition Manager_Save (now : time) (tokenLine : APIToken) : M (DB tokens_table) unit :=
  checkNameExist (at_Username tokenLine) (at_Name tokenLine) ;;;
  tokens_Save now tokenLine.

Definition Manager_Delete (username prefix : string) : M (DB tokens_table) unit :=
  on_error (fun e => EAPI (mkAPIError "" (Some (error_text e)) StatusInternalServerError ""))
    (tokens_Delete username prefix).

(** ** Lemmas *)

(** Rows sit under their own user and prefix. *)
Definition tokens_keyed (t : gmap (string * string) APIToken) : Prop :=
  forall k row, t !! k = Some row -> k = (at_Username row, at_Prefix row).

(** Names are unique per user. *)
Definition names_unique (t : gmap (string * string) APIToken) : Prop :=
  forall k k' row row', t !! k = Some row -> t !! k' = Some row' ->
    at_Username row = at_Username row' -> at_Name row = at_Name row' -> k = k'.

Lemma violates_false t key row :
  violates t key row = false ->
  forall k row', t !! k = Some row' -> at_Username row' = at_Username row ->
    at_Name row' = at_Name row -> k = key.
Proof.
  intros [_ Hv]%orb_false_iff k row' Hk Hu Hn. apply not_true_iff_false in Hv.
  destruct (decide (k = key)) as [|Hne]; [done|]. exfalso. apply Hv.
  apply existsb_exists. exists (k, row'). split.
  - by apply list_elem_of_In, elem_of_map_to_list.
  - cbn. rewrite bool_decide_eq_false_2 by done. by rewrite Hu, Hn, !String.eqb_refl.
Qed.

Lemma checkNameExist_Ok username name db r db' :
  checkNameExist username name db = (r, db') ->
  db_data db' = db_data db /\
  (r = Ok tt -> name <> "" -> forall k row, db_data db !! k = Some row ->
    k.1 = username -> at_Name row <> name).
Proof.
  unfold checkNameExist. destruct (String.eqb_spec name "") as [->|Hne].
  { intros [= <- <-]. done. }
  unfold bind, tokens_GetByName. destruct (db_query _ _ db) as [r0 db0] eqn:E.
  apply db_query_inv in E as [Hd Hr]. destruct Hr as [[msg ->]| ->].
  { intros [= <- <-]. done. }
  destruct (head _) as [item|] eqn:Eh; intros [= <- <-]; [done|]. split; [done|].
  intros _ _ k row Hk Hu Hn.
  assert (Hin : (k, row) ∈ filter (fun kv : string * string * APIToken =>
      kv.1.1 = username /\ at_Name kv.2 = name) (map_to_list (db_data db))).
  { apply list_elem_of_filter. split; [done|]. by apply elem_of_map_to_list. }
  destruct (filter _ (map_to_list (db_data db))) as [|x l]; [by apply elem_of_nil in Hin|done].
Qed.

Lemma Manager_Save_inv now tl db r db' :
  Manager_Save now tl db = (r, db') ->
  db_data db' = db_data db \/
  (r = Ok tt /\
   let key := (at_Username tl, at_Prefix tl) in
   let row := upsert_row now tl (db_data db !! key) in
   db_data db' = <[key := row]> (db_data db) /\ violates (db_data db) key row = false).
Proof.
  unfold Manager_Save, bind.
  destruct (checkNameExist _ _ db) as [r1 db1] eqn:E1.
  apply checkNameExist_Ok in E1 as [Hd1 _].
  destruct r1 as [[]|e]; [|intros [= <- <-]; by left].
  unfold tokens_Save, bind. destruct (db_call _ _ db1) as [r2 db2] eqn:E2.
  apply db_call_inv in E2 as [(msg & -> & Hd2)|(ok & -> & Hd2)].
  { intros [= <- <-]. left. congruence. }
  cbn zeta in Hd2. rewrite Hd1 in Hd2. destruct (violates _ _ _) eqn:Ev; injection Hd2 as <- Hd2.
  - intros [= <- <-]. by left.
  - intros [= <- <-]. right. done.
Qed.

(** ** Properties *)

(** C20: Saving a token keeps the table consistent and never rewrites a
    credential: whatever is saved, rows stay under their user and prefix, names
    stay unique per user, and a token that exists keeps its secret, its scope
    and its creation time. *)
Theorem saving_keeps_token_secrets now tl db r db' :
  tokens_keyed (db_data db) -> names_unique (db_data db) ->
  Manager_Save now tl db = (r, db') ->
  tokens_keyed (db_data db') /\ names_unique (db_data db') /\
  (forall k row, db_data db !! k = Some row -> exists row', db_data db' !! k = Some row' /\
    at_Token row' = at_Token row /\ at_Scope row' = at_Scope row /\
    at_CreatedAt row' = at_CreatedAt row /\
    (k <> (at_Username tl, at_Prefix tl) -> row' = row)).
Proof.
  intros Hk Hu [->|(-> & -> & Hfresh)]%Manager_Save_inv.
  { split; [done|]. split; [done|]. intros k row Hr. exists row. done. }
  set (key := (at_Username tl, at_Prefix tl)) in *.
  set (new := upsert_row now tl (db_data db !! key)) in *.
  assert (Hnew : key = (at_Username new, at_Prefix new)).
  { unfold new. destruct (db_data db !! key) as [row|] eqn:E; cbn; [|done].
    by rewrite <-(Hk _ _ E). }
  pose proof (violates_false _ _ _ Hfresh) as Huniq. split; [|split].
  - intros k row [[<- <-]|[_ Hr]]%lookup_insert_Some; [done|by apply Hk].
  - intros k k' row row' [[<- <-]|[Hne Hr]]%lookup_insert_Some
      [[<- <-]|[Hne' Hr']]%lookup_insert_Some Huser Hn; [done|..].
    + symmetry. by apply (Huniq k' row').
    + by apply (Huniq k row).
    + by eapply Hu.
  - intros k row Hr. destruct (decide (k = key)) as [->|Hne].
    + exists new. rewrite lookup_insert_eq. split; [done|]. unfold new. rewrite Hr. by cbn.
    + exists row. by rewrite lookup_insert_ne.
Qed.

Definition example_token : APIToken :=
  mkAPIToken "alice" "abcd1234" "ci" (Some 1%Z) None APITokenRead "$2y$hash".

Definition example_tokens : DB tokens_table :=
  mkDB {[ ("alice", "abcd1234") := example_token ]} [].

Lemma saving_keeps_token_secrets_witness :
  exists row', db_data (snd (Manager_Save 9
      (mkAPIToken "alice" "abcd1234" "deploy" None (Some 100%Z) APITokenReadWrite "evil")
      example_tokens)) !! ("alice", "abcd1234") = Some row' /\
    at_Token row' = "$2y$hash" /\ at_Scope row' = APITokenRead.
Proof.
  set (tl := mkAPIToken "alice" "abcd1234" "deploy" None (Some 100%Z) APITokenReadWrite "evil").
  assert (Hone : forall k row, db_data example_tokens !! k = Some row ->
    k = ("alice", "abcd1234") /\ row = example_token).
  { intros k row Hr. cbn [db_data example_tokens] in Hr.
    by apply lookup_singleton_Some in Hr as [<- <-]. }
  destruct (saving_keeps_token_secrets 9 tl example_tokens (Ok tt)
    (snd (Manager_Save 9 tl example_tokens))) as (_ & _ & H).
  - intros k row [-> ->]%Hone. reflexivity.
  - intros k k' row row' [-> _]%Hone [-> _]%Hone. done.
  - vm_compute; reflexivity.
  - destruct (H ("alice", "abcd1234") example_token) as (row' & H1 & H2 & H3 & _);
      [vm_compute; reflexivity|]. exists row'. exact (conj H1 (conj H2 H3)).
Defined.
