(* ===== verification/Auth.v ===== *)
(** * Authentication of API requests

    The credential checks and the handlers of the login routes
    (server/api_listener.go, api_middleware.go, api_helper_authorization.go,
    api_handler_login.go, api_handler_logout.go, api_handler_verify2fa.go).
    They work on the session cache, the two ban lists, the users, the API
    tokens, the pending second factors and the WebSocket tickets; the listener
    is a record of these, and each handler runs the operations of the other
    files on its component.  What a request draws from outside (clock, random
    values, delivery of codes) is an [Env]. *)

From stdpp Require Import base gmap strings list numbers sets.
From Stdlib Require Import ZArith Ascii Lia.
From S2P Require Import Prelude GoStrings BanList Db Sessions Bearer Users ApiTokens TwoFA WsTickets.

Local Open Scope string_scope.

(** ** The listener *)

Record Config := mkConfig {
  JWTSecret : string;
  TwoFATokenDelivery : string;
  TotPEnabled : bool;
  AuthHeader : string;
  UserHeader : string;
  CreateMissingUsers : bool;
  DefaultUserGroup : string;
  TotPLoginSessionTimeout : duration
}.

Definition IsTwoFAOn (cfg : Config) : bool := negb (String.eqb (TwoFATokenDelivery cfg) "").

(** What one request draws from outside. *)
Record Env := mkEnv {
  env_now : time;
  env_jti : string;
  env_salt : string;
  env_uuid : result string;
  env_code : result string;
  env_send : string -> string -> result unit;
  env_DeliveryMethod : string;
  env_fingerprint : string -> string -> string
}.

Record APIListener (C S P : Type) := mkAPIListener {
  al_sessions : Cache C S;
  al_bannedUsers : BanList;
  al_bannedIPs : option MaxBadAttemptsBanList;
  al_users : P;
  al_tokens : DB tokens_table;
  al_twoFA : TwoFAService;
  al_wsTickets : wsTicketStore
}.
Arguments mkAPIListener {C S P} _ _ _ _ _ _ _.
Arguments al_sessions {C S P} _.
Arguments al_bannedUsers {C S P} _.
Arguments al_bannedIPs {C S P} _.
Arguments al_users {C S P} _.
Arguments al_tokens {C S P} _.
Arguments al_twoFA {C S P} _.
Arguments al_wsTickets {C S P} _.

(** What a handler answers: an error, a login response, nothing, or the
    request handed to the next handler on behalf of a user. *)
Inductive body :=
  | BEmpty
  | BError (msg : string)
  | BLogin (token : string) (two_fa : option (string * string * string))
  | BNext (username : string).

Record Response := mkResponse {
  rsp_status : Z;
  rsp_body : body
}.

Definition errorResponse (status : Z) (msg : string) : Response := mkResponse status (BError msg).

(** [jsonError] of api_responses.go. *)
Definition jsonError (err : go_error) : Response :=
  match err with
  | EPlain msg => errorResponse StatusInternalServerError msg
  | EAPI ae => errorResponse (HTTPStatus ae) (APIError_Error ae)
  | EAPIs (ae :: _) => errorResponse (HTTPStatus ae) (error_text err)
  | EAPIs [] => errorResponse StatusInternalServerError ""
  end.

Definition msgTooManyRequests : string := "too many requests, please try later".
Definition ErrTooManyRequests : go_error := EPlain msgTooManyRequests.
Definition msgPasswordHasExpired : string :=
  "password has expired, please change your password".
Definition ErrThatPasswordHasExpired : go_error := EPlain msgPasswordHasExpired.
Definition msgInvalidScope : string :=
  "the scope of the provided token is not authorized for this operation".
Definition ErrInvalidScopeOfThatToken : go_error := EPlain msgInvalidScope.

(** [errors.Is] on these sentinels. *)
Definition is_err (msg : string) (err : go_error) : bool :=
  match err with EPlain m => String.eqb m msg | _ => false end.

Definition loginBanKey (remoteIP username : string) : string := remoteIP +:+ "|" +:+ username.

Definition hasBcryptPrefix (s : string) : bool :=
  existsb (HasPrefix s) ["$2y$"; "$2a$"; "$2b$"].

Definition routeMatches (urlpath route : string) : bool :=
  let full := "/api/v1" +:+ route in
  String.eqb urlpath route || String.eqb urlpath full ||
  HasPrefix urlpath (route +:+ "/") || HasPrefix urlpath (full +:+ "/").

Definition readScopeDenied (urlpath : string) : bool :=
  existsb (routeMatches urlpath) ["/ws"; "/ws-ticket"; "/me/totp-secret"] ||
  HasPrefix urlpath "/vault/" || HasPrefix urlpath "/api/v1/vault/".

(** The scopes of API tokens in [handleBasicAuth]. *)
Definition token_scope_allows (scope httpverb urlpath : string) : bool :=
  if String.eqb scope APITokenRead
  then String.eqb httpverb "GET" && negb (readScopeDenied urlpath)
  else if String.eqb scope APITokenReadWrite then true
  else if String.eqb scope APITokenClientsAuth then routeMatches urlpath "/clients-auth"
  else false.

Section handlers.
Context {C S P : Type} `{!InternalCacheProvider C, !StorageProvider S, !Provider P}.
Context `{jwt : !JWT, bcr : !Bcrypt, otp : !OtpLib}.
Context (cfg : Config) (svc : APIService) (PasswordStrength : string -> list string -> Z).

Notation AL := (APIListener C S P).

(** ** The components as state *)

Definition on_sessions {A} (m : M (Cache C S) A) : M AL A :=
  zoom al_sessions (fun x al => mkAPIListener x (al_bannedUsers al) (al_bannedIPs al)
    (al_users al) (al_tokens al) (al_twoFA al) (al_wsTickets al)) m.
Definition on_users {A} (m : M P A) : M AL A :=
  zoom al_users (fun x al => mkAPIListener (al_sessions al) (al_bannedUsers al) (al_bannedIPs al)
    x (al_tokens al) (al_twoFA al) (al_wsTickets al)) m.
Definition on_tokens {A} (m : M (DB tokens_table) A) : M AL A :=
  zoom al_tokens (fun x al => mkAPIListener (al_sessions al) (al_bannedUsers al) (al_bannedIPs al)
    (al_users al) x (al_twoFA al) (al_wsTickets al)) m.
Definition on_twoFA {A} (m : M TwoFAService A) : M AL A :=
  zoom al_twoFA (fun x al => mkAPIListener (al_sessions al) (al_bannedUsers al) (al_bannedIPs al)
    (al_users al) (al_tokens al) x (al_wsTickets al)) m.
Definition ban_user (now : time) (key : string) : M AL unit :=
  modify (fun al => mkAPIListener (al_sessions al) (BanList_Add now key (al_bannedUsers al))
    (al_bannedIPs al) (al_users al) (al_tokens al) (al_twoFA al) (al_wsTickets al)).
Definition on_bannedIPs (f : MaxBadAttemptsBanList -> MaxBadAttemptsBanList) : M AL unit :=
  modify (fun al => mkAPIListener (al_sessions al) (al_bannedUsers al) (f <$> al_bannedIPs al)
    (al_users al) (al_tokens al) (al_twoFA al) (al_wsTickets al)).
Definition is_banned (now : time) (key : string) : M AL bool :=
  gets (fun al => BanList_IsBanned now key (al_bannedUsers al)).

(** ** Per-IP throttling (api_helper_authorization.go) *)

Definition handleBannedIPs (env : Env) (req : Request) (authorized : bool) : M AL unit :=
  if authorized then ret tt
  else on_bannedIPs (AddBadAttempt (env_now env) (req_RemoteIP req)).

Definition recordAuthSuccess (req : Request) : M AL unit :=
  on_bannedIPs (AddSuccessAttempt (req_RemoteIP req)).

Definition recordFailedAuth (env : Env) (req : Request) (isBearerOnly : bool) : M AL unit :=
  if negb isBearerOnly && bool_decide (is_Some (req_BasicAuth req))
  then on_bannedIPs (AddBadAttempt (env_now env) (req_RemoteIP req))
  else match GetBearerToken req with
       | Some token =>
           on_bannedIPs (AddDistinctBadAttempt (env_now env) (req_RemoteIP req)
             (env_fingerprint env "bearer" token))
       | None => on_bannedIPs (AddBadAttempt (env_now env) (req_RemoteIP req))
       end.

(** ** Credentials (api_listener.go) *)

Definition verifyPassword (saved provided : string) : bool :=
  hasBcryptPrefix saved && CompareHashAndPassword saved provided.

Definition password_expired (user : User) : bool := default false (u_PasswordExpired user).

Definition failed_to_get_user (e : go_error) : go_error :=
  EPlain ("failed to get user: " +:+ error_text e).

Definition handleBasicAuth (env : Env) (httpverb urlpath remoteIP username password : string)
    : M AL (bool * string) :=
  banned <- is_banned (env_now env) (loginBanKey remoteIP username) ;;
  if (banned : bool) then fail ErrTooManyRequests
  else if String.eqb username "" then ret (false, "")
  else
  user <- on_error failed_to_get_user (on_users (p_GetByUsername username)) ;;
  match user with
  | None => ret (false, username)
  | Some user =>
      if password_expired user then fail ErrThatPasswordHasExpired
      else if negb (IsTwoFAOn cfg) && negb (TotPEnabled cfg) &&
              verifyPassword (u_Password user) password
      then ret (true, username)
      else match Extract password with
           | Err _ => ret (false, username)
           | Ok (prefix, password) =>
               userToken <- on_tokens (tokens_Get username prefix) ;;
               match userToken with
               | None => ret (false, username)
               | Some userToken =>
                   if match at_ExpiresAt userToken with
                      | Some e => (e <? env_now env)%Z
                      | None => false end
                   then ret (false, username)
                   else if verifyPassword (at_Token userToken) password
                   then if token_scope_allows (at_Scope userToken) httpverb urlpath
                        then ret (true, username)
                        else fail ErrInvalidScopeOfThatToken
                   else ret (false, username)
               end
           end
  end.

Definition checkBearerToken (env : Env) (bearerToken uri method remoteIP : string)
    : M AL (bool * option AppTokenClaims) :=
  match ParseToken (env_now env) bearerToken (JWTSecret cfg) with
  | Err _ => ret (false, None)
  | Ok (claims, valid) =>
      banned <- is_banned (env_now env) (loginBanKey remoteIP (cl_Username claims)) ;;
      if (banned : bool) then fail ErrTooManyRequests
      else
      r <- on_sessions (ValidateBearerToken (env_now env) (claims, valid) uri method) ;;
      let '(authorized, apiSession) := r in
      when authorized
        (try (on_sessions (IncreaseSessionLifetime (env_now env) apiSession)) ;;; ret tt) ;;;
      ret (authorized, Some claims)
  end.

Definition lookupUser (env : Env) (req : Request) (isBearerOnly : bool)
    : M AL (bool * string) :=
  match (if isBearerOnly then None else req_BasicAuth req) with
  | Some (basicUser, basicPwd) =>
      handleBasicAuth env (req_Method req) (req_Path req) (req_RemoteIP req) basicUser basicPwd
  | None =>
      match GetBearerToken req with
      | Some bearerToken =>
          r <- checkBearerToken env bearerToken (req_Path req) (req_Method req) (req_RemoteIP req) ;;
          match r with
          | (true, Some claims) => ret (true, cl_Username claims)
          | (isAuthorized, _) => ret (isAuthorized, "")
          end
      | None => ret (false, "")
      end
  end.

(** ** The auth middleware (api_middleware.go) *)

Definition updateTokenAccess (env : Env) (token : string) (userAgent remoteAddress : string)
    : M AL unit :=
  tokenCtx <- lift (ParseToken (env_now env) token (JWTSecret cfg)) ;;
  let '(claims, valid) := tokenCtx in
  if negb valid then fail (EPlain "jwt token is invalid")
  else
  found <- on_sessions (Cache_Get (env_now env) (cl_SessionID claims)) ;;
  match found with
  | None => ret tt
  | Some s =>
      on_sessions (Cache_Save (env_now env)
        (mkAPISession (SessionID s) (ExpiresAt s) (env_now env) (as_Username s) userAgent
           remoteAddress)) ;;;
      ret tt
  end.

(** The status the middleware answers an error of [lookupUser] with. *)
Definition auth_error (err : go_error) : Response :=
  if is_err msgTooManyRequests err
  then errorResponse StatusTooManyRequests (error_text err)
  else if is_err msgInvalidScope err then errorResponse StatusForbidden (error_text err)
  else if is_err msgPasswordHasExpired err then errorResponse StatusUnauthorized (error_text err)
  else errorResponse StatusInternalServerError (error_text err).

(** A handler answers in every case, so it never fails. *)
Definition wrapWithAuthMiddleware (env : Env) (isBearerOnly : bool) (req : Request)
    : M AL Response :=
  r <- try (lookupUser env req isBearerOnly) ;;
  match r with
  | Err e => ret (auth_error e)
  | Ok (authorized, username) =>
      when (negb authorized) (recordFailedAuth env req isBearerOnly) ;;;
      if negb authorized || String.eqb username "" then
        when (negb (String.eqb username ""))
          (ban_user (env_now env) (loginBanKey (req_RemoteIP req) username)) ;;;
        ret (errorResponse StatusUnauthorized "unauthorized")
      else
        u <- try match GetBearerToken req with
                 | Some token =>
                     updateTokenAccess env token (req_UserAgent req) (req_RemoteAddr req)
                 | None => ret tt
                 end ;;
        match u with
        | Err e => ret (jsonError e)
        | Ok _ => ret (mkResponse StatusOK (BNext username))
        end
  end.

(** [wsAuth]: a ticket, or basic auth. *)
Definition wsAuth (env : Env) (req : Request) : M AL Response :=
  let ticket := default "" (req_Query req !! "ticket") in
  let finish (authorized : bool) (username : string) : M AL Response :=
    handleBannedIPs env req authorized ;;;
    if negb authorized || String.eqb username "" then
      when (negb (String.eqb username ""))
        (ban_user (env_now env) (loginBanKey (req_RemoteIP req) username)) ;;;
      ret (errorResponse StatusUnauthorized "unauthorized")
    else ret (mkResponse StatusOK (BNext username)) in
  if negb (String.eqb ticket "") then
    who <- (fun al =>
      let '(who, s) := redeem (env_now env) ticket (al_wsTickets al) in
      (Ok who, mkAPIListener (al_sessions al) (al_bannedUsers al) (al_bannedIPs al) (al_users al)
        (al_tokens al) (al_twoFA al) s)) ;;
    match who with
    | Some username => finish true username
    | None => finish false ""
    end
  else match req_BasicAuth req with
       | Some (basicUser, basicPwd) =>
           r <- try (handleBasicAuth env (req_Method req) (req_Path req) (req_RemoteIP req)
                       basicUser basicPwd) ;;
           match r with
           | Err e =>
               ret (if is_err msgTooManyRequests e
                    then errorResponse StatusTooManyRequests (error_text e)
                    else errorResponse StatusInternalServerError (error_text e))
           | Ok (authorized, username) => finish authorized username
           end
       | None =>
           handleBannedIPs env req false ;;;
           ret (errorResponse StatusUnauthorized "ticket required")
       end.

(** ** Login (api_handler_login.go) *)

Definition shouldCreateMissingUser (user : option User) (skipPasswordValidation : bool) : bool :=
  bool_decide (user = None) && skipPasswordValidation && CreateMissingUsers cfg.

Definition validateCredentials (env : Env) (username password : string)
    (skipPasswordValidation : bool) : M AL (bool * option User) :=
  if String.eqb username "" then ret (false, None)
  else
  user <- on_error failed_to_get_user (on_users (p_GetByUsername username)) ;;
  user <- (if shouldCreateMissingUser user skipPasswordValidation then
             pswd <- lift (env_uuid env) ;;
             let user := mkUser username pswd None (Some [DefaultUserGroup cfg]) "" "" in
             on_error (fun e => EPlain ("failed to create missing user: " +:+ error_text e))
               (on_users (Change PasswordStrength svc (env_salt env) user "")) ;;;
             ret (Some user)
           else ret user) ;;
  match user with
  | None => ret (false, None)
  | Some u =>
      if skipPasswordValidation then ret (true, Some u)
      else ret (verifyPassword (u_Password u) password, Some u)
  end.

Definition mint (env : Env) (req : Request) (lifetime : duration) (username : string)
    (scopes : list Scope) : M AL string :=
  on_sessions (CreateAuthToken (env_now env) (env_jti env) (JWTSecret cfg) lifetime username
    scopes (req_UserAgent req) (req_RemoteIP req)).

(** [if err != nil { respond; return }], the rest in the other case. *)
Definition or_respond {A} (m : M AL A) (on_err : go_error -> Response) (k : A -> M AL Response)
    : M AL Response :=
  r <- try m ;;
  match r with
  | Err e => ret (on_err e)
  | Ok a => k a
  end.

Definition internal_error (e : go_error) : Response :=
  errorResponse StatusInternalServerError (error_text e).

Definition password_change (newpwd : string) : User :=
  mkUser "" newpwd (Some false) None "" "".

Definition second_factor_on : bool := IsTwoFAOn cfg || TotPEnabled cfg.

(** [handleLogin] once the password has been accepted. *)
Definition complete_login (env : Env) (req : Request) (username newpwd : string)
    (lifetime : duration) (deferPasswordChange : bool) (user : User) : M AL Response :=
  if negb deferPasswordChange && password_expired user
  then ret (errorResponse StatusUnauthorized msgPasswordHasExpired)
  else if IsTwoFAOn cfg then
    or_respond
      (fun al => on_twoFA (SendToken (fun u => fst (p_GetByUsername u (al_users al)))
         (env_code env) (env_send env) (env_now env) username) al)
      jsonError (fun sendTo =>
    or_respond (mint env req lifetime username Scopes2FaCheckOnly) internal_error (fun tokenStr =>
      when deferPasswordChange
        (on_twoFA (modify (SetPendingPasswordChange username newpwd))) ;;;
      ret (mkResponse StatusOK (BLogin tokenStr (Some (sendTo, env_DeliveryMethod env, ""))))))
  else if TotPEnabled cfg then
    on_twoFA (modify (SetTotPLoginSession (env_now env) username (TotPLoginSessionTimeout cfg))) ;;;
    when deferPasswordChange
      (on_twoFA (modify (SetPendingPasswordChange username newpwd))) ;;;
    match GetUsersTotPCode user with
    | Err e => ret (internal_error e)
    | Ok totP =>
        let scopes := match totP with
                      | None => (Scopes2FaCheckOnly ++ ScopesTotPCreateOnly)%list
                      | Some _ => Scopes2FaCheckOnly end in
        let status := match totP with None => "pending" | Some _ => "exists" end in
        or_respond (mint env req lifetime username scopes) internal_error (fun tokenStr =>
          ret (mkResponse StatusOK (BLogin tokenStr (Some ("", "totp_authenticator_app", status)))))
    end
  else
    recordAuthSuccess req ;;;
    or_respond (mint env req lifetime username ScopesAllExcluding2FaCheck) internal_error
      (fun tokenStr => ret (mkResponse StatusOK (BLogin tokenStr None))).

Definition handleLogin (env : Env) (req : Request) (username pwd newpwd : string)
    (skipPasswordValidation : bool) : M AL Response :=
  let banKey := loginBanKey (req_RemoteIP req) username in
  banned <- is_banned (env_now env) banKey ;;
  if (banned : bool) then ret (errorResponse StatusTooManyRequests msgTooManyRequests)
  else if String.eqb username ""
  then ret (errorResponse StatusUnauthorized "username is required")
  else
  or_respond (validateCredentials env username pwd skipPasswordValidation) jsonError
    (fun '(authorized, user) =>
  handleBannedIPs env req authorized ;;;
  match authorized, user with
  | true, Some user =>
      match parseTokenLifetime req with
      | Err e => ret (errorResponse StatusBadRequest (error_text e))
      | Ok lifetime =>
          let deferPasswordChange := negb (String.eqb newpwd "") && second_factor_on in
          if negb (String.eqb newpwd "") && negb deferPasswordChange then
            or_respond (on_users (Change PasswordStrength svc (env_salt env)
                (password_change newpwd) username)) jsonError (fun _ =>
            or_respond (on_sessions (Cache_DeleteAllByUser (env_now env) username)) internal_error
              (fun _ =>
            complete_login env req username newpwd lifetime deferPasswordChange
              (mkUser (u_Username user) (u_Password user) (Some false) (u_Groups user)
                 (u_TwoFASendTo user) (u_TotP user))))
          else complete_login env req username newpwd lifetime deferPasswordChange user
      end
  | _, _ =>
      ban_user (env_now env) banKey ;;;
      ret (errorResponse StatusUnauthorized "unauthorized")
  end).

Definition handleGetLogin (env : Env) (req : Request) : M AL Response :=
  if negb (String.eqb (AuthHeader cfg) "") &&
     negb (String.eqb (default "" (req_Header req !! AuthHeader cfg)) "")
  then handleLogin env req (default "" (req_Header req !! UserHeader cfg)) "" "" true
  else match req_BasicAuth req with
       | Some (basicUser, basicPwd) => handleLogin env req basicUser basicPwd "" false
       | None =>
           handleBannedIPs env req false ;;;
           ret (errorResponse StatusUnauthorized "auth is required")
       end.

(** [handlePostLogin] on what [parseLoginRequestBody] decodes. *)
Definition handlePostLogin (env : Env) (req : Request)
    (parsed : result (string * string * string)) : M AL Response :=
  match parsed with
  | Err e => handleBannedIPs env req false ;;; ret (jsonError e)
  | Ok (username, pwd, newPassword) => handleLogin env req username pwd newPassword false
  end.

Definition sendJWTToken (env : Env) (req : Request) (username : string) : M AL Response :=
  match parseTokenLifetime req with
  | Err e => ret (errorResponse StatusBadRequest (error_text e))
  | Ok lifetime =>
      recordAuthSuccess req ;;;
      or_respond (mint env req lifetime username ScopesAllExcluding2FaCheck) internal_error
        (fun tokenStr => ret (mkResponse StatusOK (BLogin tokenStr None)))
  end.

(** ** Second factor (api_handler_verify2fa.go) *)

(** The outcome of [parseAndValidate2FATokenRequest]: the username it returns
    with an error, or the user and the pending password.  [body] is the decoded
    request body.  A handler that fails has panicked: the router's recovery
    handler answers, and nothing after the panic runs. *)
Definition api_fail {A} (username : string) (status : Z) (msg : string)
    : M AL (string * go_error + A) :=
  ret (inl (username, EAPI (api_error status msg))).

Definition parseAndValidate2FATokenRequest (env : Env) (req : Request)
    (reqBody : result (string * string))
    : M AL (string * go_error + string * string) :=
  if negb second_factor_on then api_fail "" StatusConflict "2fa is disabled"
  else match reqBody with
  | Err e => ret (inl ("", e))
  | Ok (bodyUser, bodyToken) =>
      banned <- is_banned (env_now env) bodyUser ;;
      if (banned : bool)
      then ret (inl (bodyUser,
        EAPI (mkAPIError "" (Some msgTooManyRequests) StatusTooManyRequests "")))
      else if String.eqb bodyUser "" then api_fail "" StatusUnauthorized "username is required"
      else if String.eqb bodyToken "" then api_fail bodyUser StatusUnauthorized "token is required"
      else match GetBearerToken req with
      | None => api_fail bodyUser StatusBadRequest "token is required"
      | Some bearerToken =>
          r <- try (checkBearerToken env bearerToken (req_Path req) (req_Method req)
                      (req_RemoteIP req)) ;;
          match r with
          | Err e => ret (inl (bodyUser, e))
          | Ok (true, Some claims) =>
              let username := cl_Username claims in
              if negb (String.eqb bodyUser username)
              then api_fail username StatusForbidden
                     "username does not match the pending login session"
              else if TotPEnabled cfg then
                u <- try (on_users (p_GetByUsername username)) ;;
                match u with
                | Err e => ret (inl ("", e))
                | Ok None => fail (EPlain "nil pointer dereference")
                | Ok (Some user) =>
                    v <- try (on_twoFA (ValidateTotPCode (env_now env) user bodyToken)) ;;
                    match v with
                    | Err e => ret (inl (username, e))
                    | Ok pw => ret (inr (username, pw))
                    end
                end
              else
                v <- try (on_twoFA (ValidateToken (env_now env) username bodyToken)) ;;
                match v with
                | Err e => ret (inl (username, e))
                | Ok pw => ret (inr (username, pw))
                end
          | Ok _ => api_fail bodyUser StatusForbidden "access denied"
          end
      end
  end.

Definition handlePostVerify2FAToken (env : Env) (req : Request)
    (reqBody : result (string * string)) : M AL Response :=
  r <- parseAndValidate2FATokenRequest env req reqBody ;;
  match r with
  | inl (username, err) =>
      handleBannedIPs env req false ;;;
      when (negb (String.eqb username ""))
        (ban_user (env_now env) (loginBanKey (req_RemoteIP req) username)) ;;;
      ret (jsonError err)
  | inr (username, pendingPassword) =>
      if negb (String.eqb pendingPassword "") then
        or_respond (on_users (Change PasswordStrength svc (env_salt env)
            (password_change pendingPassword) username)) jsonError (fun _ =>
          try (on_sessions (Cache_DeleteAllByUser (env_now env) username)) ;;;
          sendJWTToken env req username)
      else sendJWTToken env req username
  end.

(** ** Logout (api_handler_logout.go) *)

Definition handleDeleteLogout (env : Env) (req : Request) : M AL Response :=
  match GetBearerToken req with
  | None | Some "" =>
      handleBannedIPs env req false ;;;
      ret (errorResponse StatusBadRequest "authorization Bearer token required")
  | Some tokenStr =>
      match ParseToken (env_now env) tokenStr (JWTSecret cfg) with
      | Err e => ret (errorResponse StatusBadRequest ("token is invalid: " +:+ error_text e))
      | Ok (claims, v) =>
          banned <- is_banned (env_now env) (loginBanKey (req_RemoteIP req) (cl_Username claims)) ;;
          if (banned : bool)
          then ret (errorResponse StatusInternalServerError msgTooManyRequests)
          else
          or_respond (on_sessions (ValidateBearerToken (env_now env) (claims, v)
              (req_Path req) (req_Method req))) internal_error (fun '(valid, apiSession) =>
            handleBannedIPs env req valid ;;;
            if negb valid then
              ban_user (env_now env) (loginBanKey (req_RemoteIP req) (cl_Username claims)) ;;;
              ret (errorResponse StatusBadRequest "token is invalid or expired")
            else
              or_respond (on_sessions (Cache_Delete (SessionID apiSession))) internal_error
                (fun _ => ret (mkResponse 204 BEmpty)))
      end
  end.

End handlers.

(** ** Lemmas *)

Section auth_lemmas.
Context {C S P : Type} `{!InternalCacheProvider C, !StorageProvider S, !Provider P}.
Context `{jwt : !JWT, bcr : !Bcrypt, otp : !OtpLib}.
Context (cfg : Config).
Implicit Types (al : APIListener C S P).

(** A bearer token of [u] that is good for the request. *)
Definition bearer_accepted (env : Env) (req : Request) (al : APIListener C S P) (u : string)
    (claims : AppTokenClaims) : Prop :=
  exists token s,
    GetBearerToken req = Some token /\
    ParseToken (env_now env) token (JWTSecret cfg) = Ok (claims, true) /\
    cl_Username claims = u /\ u <> "" /\
    BanList_IsBanned (env_now env) (loginBanKey (req_RemoteIP req) u) (al_bannedUsers al) = false /\
    in_scope (req_Path req) (req_Method req) (cl_Scopes claims) /\
    c_Get (env_now env) (formatID (cl_SessionID claims)) (cache (al_sessions al)) = Some s /\
    (env_now env < ExpiresAt s)%Z.

(** A password or an API token of [u] that is good for the request. *)
Definition basic_accepted (env : Env) (req : Request) (al : APIListener C S P) (u : string) : Prop :=
  exists pw user,
    req_BasicAuth req = Some (u, pw) /\ u <> "" /\
    BanList_IsBanned (env_now env) (loginBanKey (req_RemoteIP req) u) (al_bannedUsers al) = false /\
    fst (p_GetByUsername u (al_users al)) = Ok (Some user) /\
    password_expired user = false /\
    ((IsTwoFAOn cfg = false /\ TotPEnabled cfg = false /\
      verifyPassword (u_Password user) pw = true) \/
     exists prefix secret t,
       Extract pw = Ok (prefix, secret) /\
       db_data (al_tokens al) !! (u, prefix) = Some t /\
       (forall e, at_ExpiresAt t = Some e -> (env_now env <= e)%Z) /\
       verifyPassword (at_Token t) secret = true /\
       token_scope_allows (at_Scope t) (req_Method req) (req_Path req) = true).

Lemma checkBearerToken_true env req token claims o al al' :
  GetBearerToken req = Some token ->
  checkBearerToken cfg env token (req_Path req) (req_Method req) (req_RemoteIP req) al =
    (Ok (true, o), al') ->
  o = Some claims -> bearer_accepted env req al (cl_Username claims) claims.
Proof.
  intros Htok. unfold checkBearerToken.
  destruct (ParseToken _ _ _) as [[c v]|e] eqn:Ep; [|done].
  intros (banned & al1 & Hb & H)%bind_Ok_inv Ho. injection Hb as <- <-.
  destruct (BanList_IsBanned _ _ _) eqn:Eb; [done|].
  apply bind_Ok_inv in H as ([ok s] & al2 & Hv & H).
  apply zoom_inv in Hv as (p1 & Hv & ->).
  apply bind_Ok_inv in H as ([] & al3 & _ & H).
  injection H as -> <- _. injection Ho as ->.
  apply ValidateBearerToken_true in Hv as (Hsc & -> & Hu & [= Hg] & Hexp).
  exists token, s. done.
Qed.

Lemma handleBasicAuth_true env req u pw al al' name :
  req_BasicAuth req = Some (u, pw) ->
  handleBasicAuth cfg env (req_Method req) (req_Path req) (req_RemoteIP req) u pw al =
    (Ok (true, name), al') ->
  name = u /\ basic_accepted env req al u.
Proof.
  intros Hreq. unfold handleBasicAuth.
  intros (banned & al1 & Hb & H)%bind_Ok_inv. injection Hb as <- <-.
  destruct (BanList_IsBanned _ _ _) eqn:Eb; [done|].
  destruct (String.eqb_spec u ""); [done|].
  apply bind_Ok_inv in H as (user & al2 & Hu & H).
  apply on_error_Ok, zoom_inv in Hu as (p1 & Hu & ->).
  destruct user as [user|]; [|done].
  destruct (password_expired user) eqn:Eexp; [done|].
  destruct (negb (IsTwoFAOn cfg) && negb (TotPEnabled cfg) && _) eqn:Epw.
  - injection H as <- <-. bool_prop. split; [done|]. exists pw, user.
    rewrite Hu. split_and!; try done. left. done.
  - destruct (Extract pw) as [[prefix secret]|] eqn:Ex; [|done].
    apply bind_Ok_inv in H as (t & al3 & Ht & H).
    apply zoom_inv in Ht as (db1 & Ht & ->).
    apply db_query_inv in Ht as [_ [[? [=]]|[= ->]]]. cbn [al_tokens] in H.
    destruct (db_data (al_tokens al) !! (u, prefix)) as [t|] eqn:Et; [|done].
    destruct (match at_ExpiresAt t with Some e => _ | None => false end) eqn:Ee; [done|].
    destruct (verifyPassword (at_Token t) secret) eqn:Ev; [|done].
    destruct (token_scope_allows _ _ _) eqn:Es; [|done]. injection H as <- <-.
    split; [done|]. exists pw, user. rewrite Hu. split_and!; try done. right.
    exists prefix, secret, t. split_and!; try done.
    intros e He. rewrite He in Ee. by apply Z.ltb_ge in Ee.
Qed.

(** The claims behind a minted token. *)
Lemma mint_Ok env req lifetime u scopes al tok al' :
  mint cfg env req lifetime u scopes al = (Ok tok, al') ->
  exists claims, jwt_sign (JWTSecret cfg) claims = Ok tok /\ cl_Username claims = u /\
    cl_Scopes claims = scopes /\ al_users al' = al_users al.
Proof.
  intros (p1 & H & ->)%zoom_inv. apply CreateAuthToken_inv in H as (_ & id & _ & Hs).
  eexists. split; [exact Hs|]. done.
Qed.

Lemma or_respond_inv {A} (m : M (APIListener C S P) A) on_err k al r al' :
  or_respond m on_err k al = (r, al') ->
  (exists a al1, m al = (Ok a, al1) /\ k a al1 = (r, al')) \/
  (exists e, m al = (Err e, al') /\ r = Ok (on_err e)).
Proof.
  unfold or_respond, try, bind, ret. destruct (m al) as [[a|e] al1]; [eauto|].
  intros [= <- <-]. eauto.
Qed.

End auth_lemmas.

(** ** What a handler leaves alone

    [keeps f m]: the computation [m] does not change what [f] sees of the
    listener.  The property is closed under the combinators of the handlers. *)

Section keeps.
Context {C S P : Type} `{!InternalCacheProvider C, !StorageProvider S, !Provider P}.
Context `{jwt : !JWT, bcr : !Bcrypt, otp : !OtpLib}.
Notation AL := (APIListener C S P).

Definition keeps {X A} (f : AL -> X) (m : M AL A) : Prop := forall al, f (snd (m al)) = f al.

Lemma keeps_ret {X A} (f : AL -> X) (a : A) : keeps f (ret a).
Proof. done. Qed.
Lemma keeps_fail {X A} (f : AL -> X) e : keeps f (@fail _ A e).
Proof. done. Qed.
Lemma keeps_lift {X A} (f : AL -> X) (r : result A) : keeps f (lift r).
Proof. done. Qed.
Lemma keeps_gets {X A} (f : AL -> X) (g : AL -> A) : keeps f (gets g).
Proof. done. Qed.
Lemma keeps_bind {X A B} (f : AL -> X) (m : M AL A) (k : A -> M AL B) :
  keeps f m -> (forall a, keeps f (k a)) -> keeps f (bind m k).
Proof.
  intros Hm Hk al. unfold bind. specialize (Hm al). destruct (m al) as [[a|e] al1]; [|done].
  cbn in Hm. by rewrite Hk.
Qed.
Lemma keeps_try {X A} (f : AL -> X) (m : M AL A) : keeps f m -> keeps f (try m).
Proof. intros Hm al. unfold try. specialize (Hm al). by destruct (m al). Qed.
Lemma keeps_on_error {X A} (f : AL -> X) w (m : M AL A) : keeps f m -> keeps f (on_error w m).
Proof. intros Hm al. unfold on_error. specialize (Hm al). by destruct (m al) as [[]]. Qed.
Lemma keeps_when {X} (f : AL -> X) b (m : M AL unit) : keeps f m -> keeps f (when b m).
Proof. by destruct b. Qed.
Lemma keeps_or_respond {X A} (f : AL -> X) (m : M AL A) w k :
  keeps f m -> (forall a, keeps f (k a)) -> keeps f (or_respond m w k).
Proof.
  intros Hm Hk. apply keeps_bind; [by apply keeps_try|]. intros [a|e]; [apply Hk|apply keeps_ret].
Qed.

(** An observation of the users only, or of the user bans only. *)
Lemma keeps_sessions {X A} (g : P -> BanList -> X) (m : M (Cache C S) A) :
  keeps (fun al => g (al_users al) (al_bannedUsers al)) (on_sessions m).
Proof. intros al. unfold on_sessions, zoom. by destruct (m _). Qed.
Lemma keeps_tokens {X A} (g : P -> BanList -> X) (m : M (DB tokens_table) A) :
  keeps (fun al => g (al_users al) (al_bannedUsers al)) (on_tokens m).
Proof. intros al. unfold on_tokens, zoom. by destruct (m _). Qed.
Lemma keeps_twoFA {X A} (g : P -> BanList -> X) (m : AL -> M TwoFAService A) :
  keeps (fun al => g (al_users al) (al_bannedUsers al)) (fun al => on_twoFA (m al) al).
Proof. intros al. unfold on_twoFA, zoom. by destruct (m _ _). Qed.
Lemma keeps_bannedIPs {X} (g : P -> BanList -> X) h :
  keeps (fun al => g (al_users al) (al_bannedUsers al)) (on_bannedIPs h).
Proof. done. Qed.
Lemma keeps_users {X A} (g : BanList -> X) (m : M P A) :
  keeps (fun al => g (al_bannedUsers al)) (on_users m).
Proof. intros al. unfold on_users, zoom. by destruct (m _). Qed.
Lemma keeps_lookup u :
  (forall p, snd (p_GetByUsername u p) = p) ->
  keeps al_users (on_users (p_GetByUsername u)).
Proof.
  intros Hro al. unfold on_users, zoom. specialize (Hro (al_users al)).
  by destruct (p_GetByUsername u (al_users al)).
Qed.
Lemma keeps_ban_user_users now key : keeps al_users (ban_user now key).
Proof. done. Qed.

End keeps.

(** Decides [keeps] by the shape of the handler: [g] is the observation, on the
    users and the user bans, and [tac] finishes the operations [g] can see. *)
Ltac keeps_auto_with g tac :=
  repeat first
    [ apply keeps_ret | apply keeps_fail | apply keeps_lift | apply keeps_gets
    | match goal with
      | |- keeps _ (when _ _) => apply keeps_when
      | |- keeps _ (try _) => apply keeps_try
      | |- keeps _ (on_error _ _) => apply keeps_on_error
      | |- keeps _ (or_respond _ _ _) => apply keeps_or_respond; [|intros ?]
      | |- keeps _ (bind _ _) => apply keeps_bind; [|intros ?]
      end
    | apply (keeps_sessions g) | apply (keeps_tokens g)
    | apply (keeps_twoFA g (fun _ => _)) | apply (keeps_twoFA g)
    | apply (keeps_bannedIPs g) | tac
    | case_match ].

Ltac keeps_auto := keeps_auto_with uconstr:(fun u b => u) ltac:(apply keeps_ban_user_users).

(** C1: Authentication is sound: the middleware hands a request on as user
    [u] only if the request carries a bearer token of [u] that parses, is in
    scope and has a live session, or (where basic auth is allowed) the password
    of [u] while no second factor is configured, or an unexpired API token of
    [u] whose scope covers the method and path; the user's password has not
    expired, and neither way works from an address the user is banned at. *)
Theorem authenticated_requests_are_entitled {C S P}
    `{!InternalCacheProvider C, !StorageProvider S, !Provider P, jwt : !JWT, bcr : !Bcrypt}
    cfg env isBearerOnly req (al al' : APIListener C S P) u :
  wrapWithAuthMiddleware cfg env isBearerOnly req al = (Ok (mkResponse StatusOK (BNext u)), al') ->
  (exists claims, bearer_accepted cfg env req al u claims) \/
  (isBearerOnly = false /\ basic_accepted cfg env req al u).
Proof.
  unfold wrapWithAuthMiddleware.
  intros (r & al1 & Hl & H)%bind_Ok_inv.
  apply try_inv in Hl as (r0 & [= <-] & Hl).
  destruct r as [[authorized username]|e].
  2: { injection H as H _. unfold auth_error, errorResponse in H.
       by repeat case_match. }
  apply bind_Ok_inv in H as ([] & al2 & _ & H).
  destruct authorized; [|by apply bind_Ok_inv in H as ([] & al3 & _ & [= H _])].
  cbn [negb orb] in H. destruct (String.eqb_spec username "") as [|Hne];
    [by apply bind_Ok_inv in H as ([] & al3 & _ & [= H _])|].
  apply bind_Ok_inv in H as ([[]|e] & al3 & _ & [= H _]).
  2: { destruct e as [|?|[]]; discriminate. }
  subst username. unfold lookupUser in Hl.
  destruct (if isBearerOnly then None else req_BasicAuth req) as [[bu bp]|] eqn:Eb.
  - destruct isBearerOnly; [done|].
    apply (handleBasicAuth_true cfg env req) in Hl as [-> Hacc]; [by right|done].
  - destruct (GetBearerToken req) as [token|] eqn:Et; [|done].
    apply bind_Ok_inv in Hl as ([[] [claims|]] & al4 & Hc & [= H H1]); try done.
    left. exists claims. subst u.
    by eapply (checkBearerToken_true cfg env req token).
Qed.

Section second_factor.
Context {C S P : Type} `{!InternalCacheProvider C, !StorageProvider S, !Provider P}.
Context `{jwt : !JWT, bcr : !Bcrypt, otp : !OtpLib}.
Context (cfg : Config) (svc : APIService) (PS : string -> list string -> Z).

Lemma keeps_validateCredentials env u pw :
  (forall p, snd (p_GetByUsername u p) = p) ->
  keeps (@al_users C S P) (validateCredentials cfg svc PS env u pw false).
Proof.
  intros Hro. unfold validateCredentials. destruct (String.eqb u ""); [apply keeps_ret|].
  apply keeps_bind; [by apply keeps_on_error, keeps_lookup|]. intros user.
  unfold shouldCreateMissingUser. rewrite andb_false_r. cbn [andb]. keeps_auto.
Qed.

Lemma keeps_handleLogin env req u pw newpw :
  (forall p, snd (p_GetByUsername u p) = p) -> second_factor_on cfg = true ->
  keeps (@al_users C S P) (handleLogin cfg svc PS env req u pw newpw false).
Proof.
  intros Hro H2. unfold handleLogin. apply keeps_bind; [apply keeps_gets|]. intros banned.
  destruct banned; [apply keeps_ret|]. destruct (String.eqb u ""); [apply keeps_ret|].
  apply keeps_or_respond; [by apply keeps_validateCredentials|]. intros [authorized user].
  unfold handleBannedIPs, complete_login. rewrite H2.
  destruct (negb (String.eqb newpw "")); cbn [andb negb]; keeps_auto.
Qed.
End second_factor.

(** Keys of different addresses are different: an address has no bar. *)
Lemma loginBanKey_inj ip1 ip2 u1 u2 :
  count_byte "|" ip1 = 0 -> count_byte "|" ip2 = 0 ->
  loginBanKey ip1 u1 = loginBanKey ip2 u2 -> ip1 = ip2.
Proof.
  unfold loginBanKey. revert ip2; induction ip1 as [|c ip1 IH]; intros [|d ip2]; cbn.
  - done.
  - intros _ Hd Heq. injection Heq as <- _. cbn in Hd. done.
  - intros Hc _ Heq. injection Heq as -> _. cbn in Hc. done.
  - intros Hc Hd Heq. injection Heq as <- Heq. f_equal.
    apply IH; [destruct (Ascii.eqb c "|"); lia..|exact Heq].
Qed.

Section lockout.
Context {C S P : Type} `{!InternalCacheProvider C, !StorageProvider S, !Provider P}.
Context `{jwt : !JWT, bcr : !Bcrypt, otp : !OtpLib}.
Context (cfg : Config) (svc : APIService) (PS : string -> list string -> Z).
Context (req : Request) (ip2 : string) (t : time) (u2 : string).
Hypothesis Hip : count_byte "|" (req_RemoteIP req) = 0.
Hypothesis Hip2 : count_byte "|" ip2 = 0.
Hypothesis Hne : req_RemoteIP req <> ip2.

(** Is [u2] banned at [ip2]? *)
Definition other_ban (al : APIListener C S P) : bool :=
  BanList_IsBanned t (loginBanKey ip2 u2) (al_bannedUsers al).

Lemma keeps_ban_other now u : keeps other_ban (ban_user now (loginBanKey (req_RemoteIP req) u)).
Proof.
  intros al. unfold other_ban, BanList_IsBanned, ban_user, modify, BanList_Add. cbn.
  rewrite lookup_insert_ne; [done|]. intros Heq. apply Hne.
  by eapply loginBanKey_inj.
Qed.

Ltac keeps_ban :=
  keeps_auto_with uconstr:(fun _ b => BanList_IsBanned t (loginBanKey ip2 u2) b)
    ltac:(first [ apply keeps_ban_other
                | apply (keeps_users (fun b => BanList_IsBanned t (loginBanKey ip2 u2) b)) ]).

Lemma keeps_ban_handleLogin env u pw newpw skip :
  keeps other_ban (handleLogin cfg svc PS env req u pw newpw skip).
Proof.
  unfold handleLogin, validateCredentials, handleBannedIPs, complete_login, mint,
    recordAuthSuccess, is_banned. keeps_ban.
Qed.

Lemma keeps_ban_middleware env isBearerOnly :
  keeps other_ban (wrapWithAuthMiddleware cfg env isBearerOnly req).
Proof.
  unfold wrapWithAuthMiddleware, lookupUser, handleBasicAuth, checkBearerToken, updateTokenAccess,
    recordFailedAuth, is_banned. keeps_ban.
Qed.

Lemma keeps_ban_verify env reqBody :
  keeps other_ban (handlePostVerify2FAToken cfg svc PS env req reqBody).
Proof.
  unfold handlePostVerify2FAToken, parseAndValidate2FATokenRequest, api_fail, checkBearerToken,
    handleBannedIPs, sendJWTToken, mint, recordAuthSuccess, is_banned. keeps_ban.
Qed.
End lockout.

Section minted.
Context {C S P : Type} `{!InternalCacheProvider C, !StorageProvider S, !Provider P}.
Context `{jwt : !JWT, bcr : !Bcrypt, otp : !OtpLib}.
Context (cfg : Config) (svc : APIService) (PS : string -> list string -> Z).
Implicit Types (al : APIListener C S P).

(** The token of a login response is signed for the user with these scopes. *)
Definition signed_for (u tok : string) (scopes : list Scope -> Prop) : Prop :=
  exists claims, jwt_sign (JWTSecret cfg) claims = Ok tok /\ cl_Username claims = u /\
    scopes (cl_Scopes claims).

Definition pending_scopes (scopes : list Scope) : Prop :=
  scopes = Scopes2FaCheckOnly \/ scopes = (Scopes2FaCheckOnly ++ ScopesTotPCreateOnly)%list.

(** An error response carries no token. *)
Lemma respond_login {A} (m : M (APIListener C S P) A) w k al rsp al' tok tf :
  or_respond m w k al = (Ok rsp, al') -> rsp_body rsp = BLogin tok tf ->
  (forall e, rsp_body (w e) <> BLogin tok tf) ->
  exists a al1, m al = (Ok a, al1) /\ k a al1 = (Ok rsp, al').
Proof.
  intros [?|(e & _ & [= ->])]%or_respond_inv Hb Hw; [done|]. by destruct (Hw e).
Qed.

Lemma jsonError_no_login e tok tf : rsp_body (jsonError e) <> BLogin tok tf.
Proof. by destruct e as [|?|[]]. Qed.

Lemma mint_respond env req lifetime u scopes tf0 al rsp al' tok tf :
  or_respond (mint cfg env req lifetime u scopes) internal_error
    (fun tokenStr => ret (mkResponse StatusOK (BLogin tokenStr tf0))) al = (Ok rsp, al') ->
  rsp_body rsp = BLogin tok tf -> signed_for u tok (eq scopes).
Proof.
  intros Hr Hb. destruct (respond_login _ _ _ _ _ _ _ _ Hr Hb) as (tok' & al1 & Hm & Hret); [done|].
  injection Hret as <- _. injection Hb as <- _.
  apply mint_Ok in Hm as (claims & Hs & Hu & Hsc & _). exists claims. done.
Qed.

Lemma complete_login_pending env req u newpw lifetime defer user al rsp al' tok tf :
  second_factor_on cfg = true ->
  complete_login cfg env req u newpw lifetime defer user al = (Ok rsp, al') ->
  rsp_body rsp = BLogin tok tf -> signed_for u tok pending_scopes.
Proof.
  unfold second_factor_on, complete_login. intros H2 Hrun Hb.
  destruct (negb defer && password_expired user); [by injection Hrun as <- _|].
  destruct (IsTwoFAOn cfg) eqn:E2.
  - destruct (respond_login _ _ _ _ _ _ _ _ Hrun Hb) as (sendTo & al1 & _ & Hk);
      [apply (fun e => jsonError_no_login e tok tf)|].
    destruct (respond_login _ _ _ _ _ _ _ _ Hk Hb) as (tok' & al2 & Hm & Hk2); [done|].
    apply bind_Ok_inv in Hk2 as ([] & al3 & _ & [= <- _]). injection Hb as <- _.
    apply mint_Ok in Hm as (claims & Hs & Hu & Hsc & _). exists claims. split_and!; try done. by left.
  - cbn in H2. rewrite H2 in Hrun. apply bind_Ok_inv in Hrun as ([] & al1 & _ & Hrun).
    apply bind_Ok_inv in Hrun as ([] & al2 & _ & Hrun).
    destruct (GetUsersTotPCode user) as [totP|]; [|by injection Hrun as <- _].
    eapply mint_respond in Hrun as (claims & ? & ? & Hsc); [|exact Hb].
    exists claims. split_and!; [done..|]. rewrite <-Hsc. destruct totP; [by left|by right].
Qed.

Lemma handleLogin_pending env req u pw newpw skip al rsp al' tok tf :
  second_factor_on cfg = true ->
  handleLogin cfg svc PS env req u pw newpw skip al = (Ok rsp, al') ->
  rsp_body rsp = BLogin tok tf -> signed_for u tok pending_scopes.
Proof.
  intros H2 Hrun Hb. unfold handleLogin in Hrun.
  apply bind_Ok_inv in Hrun as (banned & al1 & _ & Hrun).
  destruct banned; [by injection Hrun as <- _|].
  destruct (String.eqb u ""); [by injection Hrun as <- _|].
  destruct (respond_login _ _ _ _ _ _ _ _ Hrun Hb) as ([authorized user] & al2 & _ & Hk);
    [apply (fun e => jsonError_no_login e tok tf)|].
  apply bind_Ok_inv in Hk as ([] & al3 & _ & Hk).
  destruct authorized; [|by apply bind_Ok_inv in Hk as ([] & al4 & _ & [= <- _])].
  destruct user as [user|]; [|by apply bind_Ok_inv in Hk as ([] & al4 & _ & [= <- _])].
  destruct (parseTokenLifetime req); [|by injection Hk as <- _].
  rewrite H2 in Hk. rewrite andb_true_r, andb_negb_r in Hk.
  by eapply complete_login_pending.
Qed.

Lemma sendJWTToken_signed env req u al rsp al' tok tf :
  sendJWTToken cfg env req u al = (Ok rsp, al') -> rsp_body rsp = BLogin tok tf ->
  signed_for u tok (eq ScopesAllExcluding2FaCheck).
Proof.
  unfold sendJWTToken. destruct (parseTokenLifetime req); [|by intros [= <- _]].
  intros ([] & al1 & _ & Hrun)%bind_Ok_inv Hb. by eapply mint_respond.
Qed.

(** The second factor of the request, checked on the pending login of [u]. *)
Definition factor_proved (env : Env) (al : APIListener C S P) (u code : string) : Prop :=
  if TotPEnabled cfg
  then exists user pw, fst (p_GetByUsername u (al_users al)) = Ok (Some user) /\
    fst (ValidateTotPCode (env_now env) user code (al_twoFA al)) = Ok pw
  else exists pw, fst (ValidateToken (env_now env) u code (al_twoFA al)) = Ok pw.

Lemma checkBearerToken_frame env token uri method ip al r al' :
  checkBearerToken cfg env token uri method ip al = (r, al') ->
  al_users al' = al_users al /\ al_twoFA al' = al_twoFA al.
Proof.
  unfold checkBearerToken. destruct (ParseToken _ _ _) as [[c v]|e]; [|by intros [= _ <-]].
  unfold bind, is_banned, gets, fail, when, try, ret, on_sessions, zoom.
  destruct (BanList_IsBanned _ _ _); [by intros [= _ <-]|].
  destruct (ValidateBearerToken _ _ _ _ _) as [[[[] s]|e] p1]; cbn.
  - destruct (IncreaseSessionLifetime _ _ _). by intros [= _ <-].
  - by intros [= _ <-].
  - by intros [= _ <-].
Qed.

Lemma verify_request_inv env req reqBody al u pw al' :
  parseAndValidate2FATokenRequest cfg env req reqBody al = (Ok (inr (u, pw)), al') ->
  exists code claims, reqBody = Ok (u, code) /\
    bearer_accepted cfg env req al u claims /\ factor_proved env al u code.
Proof.
  unfold parseAndValidate2FATokenRequest, api_fail.
  destruct (negb _); [done|]. destruct reqBody as [[bodyUser code]|]; [|done].
  intros (banned & al1 & [= <- <-] & Hr)%bind_Ok_inv.
  destruct (BanList_IsBanned _ _ _); [done|].
  destruct (String.eqb bodyUser ""); [done|]. destruct (String.eqb code ""); [done|].
  destruct (GetBearerToken req) as [token|] eqn:Et; [|done].
  apply bind_Ok_inv in Hr as (rc & al2 & Hc & Hr). apply try_inv in Hc as (r0 & [= <-] & Hc).
  destruct rc as [[[] [claims|]]|]; try done.
  pose proof (checkBearerToken_true cfg env req token claims _ al al2 Et Hc eq_refl) as Hacc.
  apply checkBearerToken_frame in Hc as [Hu H2].
  destruct (String.eqb_spec bodyUser (cl_Username claims)) as [->|]; [|done]. cbn [negb] in Hr.
  unfold factor_proved. destruct (TotPEnabled cfg).
  - apply bind_Ok_inv in Hr as (ru & al3 & Hg & Hr). apply try_inv in Hg as (r1 & [= <-] & Hg).
    apply zoom_inv in Hg as (p1 & Hg & ->). rewrite Hu in Hg.
    destruct ru as [[user|]|]; try done.
    apply bind_Ok_inv in Hr as (rv & al4 & Hv & Hr). apply try_inv in Hv as (r2 & [= <-] & Hv).
    apply zoom_inv in Hv as (t1 & Hv & ->). cbn [al_twoFA] in Hv. rewrite H2 in Hv.
    destruct rv as [pw'|]; [|done]. injection Hr as <- <- _.
    exists code, claims. split_and!; [done..|]. exists user, pw'. by rewrite Hg, Hv.
  - apply bind_Ok_inv in Hr as (rv & al4 & Hv & Hr). apply try_inv in Hv as (r2 & [= <-] & Hv).
    apply zoom_inv in Hv as (t1 & Hv & ->). rewrite H2 in Hv.
    destruct rv as [pw'|]; [|done]. injection Hr as <- <- _.
    exists code, claims. split_and!; [done..|]. exists pw'. by rewrite Hv.
Qed.
End minted.

(** C2: With a second factor configured, the password step alone neither logs
    anybody in nor changes a password: every token it returns is confined to
    the second-factor routes, and the users are left as they were. *)
Theorem password_step_is_no_login {C S P}
    `{!InternalCacheProvider C, !StorageProvider S, !Provider P}
    `{jwt : !JWT, bcr : !Bcrypt, otp : !OtpLib}
    cfg svc PS env req u pw newpw (al al' : APIListener C S P) rsp :
  second_factor_on cfg = true -> (forall p, snd (p_GetByUsername u p) = p) ->
  handleLogin cfg svc PS env req u pw newpw false al = (Ok rsp, al') ->
  al_users al' = al_users al /\
  forall tok tf, rsp_body rsp = BLogin tok tf -> signed_for cfg u tok pending_scopes.
Proof.
  intros H2 Hro Hrun. split.
  - pose proof (keeps_handleLogin cfg svc PS env req u pw newpw Hro H2 al) as Hk.
    by rewrite Hrun in Hk.
  - intros tok tf. by eapply handleLogin_pending.
Qed.

(** C3: The second step logs in exactly the owner of the pending login: a
    token comes back only if the request carries a live second-factor bearer of
    the user it names and a code that the pending login of that same user
    accepts, and the token is for that user. *)
Theorem second_step_logs_in_its_owner {C S P}
    `{!InternalCacheProvider C, !StorageProvider S, !Provider P}
    `{jwt : !JWT, bcr : !Bcrypt, otp : !OtpLib}
    cfg svc PS env req reqBody (al al' : APIListener C S P) rsp tok tf :
  handlePostVerify2FAToken cfg svc PS env req reqBody al = (Ok rsp, al') ->
  rsp_body rsp = BLogin tok tf ->
  exists u code claims, reqBody = Ok (u, code) /\
    bearer_accepted cfg env req al u claims /\ factor_proved cfg env al u code /\
    signed_for cfg u tok (eq ScopesAllExcluding2FaCheck).
Proof.
  intros Hrun Hb. unfold handlePostVerify2FAToken in Hrun.
  apply bind_Ok_inv in Hrun as ([[u e]|[u pw]] & al1 & Hp & Hrun).
  - apply bind_Ok_inv in Hrun as ([] & al2 & _ & Hrun).
    apply bind_Ok_inv in Hrun as ([] & al3 & _ & [= <- _]).
    by apply jsonError_no_login in Hb.
  - apply verify_request_inv in Hp as (code & claims & -> & Hacc & Hf).
    exists u, code, claims. split_and!; [done..|].
    destruct (negb (String.eqb pw "")); [|by eapply sendJWTToken_signed].
    destruct (respond_login _ _ _ _ _ _ _ _ Hrun Hb) as (x & al2 & _ & Hk);
      [apply (fun e => jsonError_no_login e tok tf)|].
    apply bind_Ok_inv in Hk as (y & al3 & _ & Hk). by eapply sendJWTToken_signed.
Qed.

(** C21: Failed logins lock out their own source only: whatever a request from
    one address does at the login, the second factor or any authenticated
    route, no user becomes banned, or stops being banned, at another address. *)
Theorem lockout_is_per_address {C S P}
    `{!InternalCacheProvider C, !StorageProvider S, !Provider P}
    `{jwt : !JWT, bcr : !Bcrypt, otp : !OtpLib}
    cfg svc PS env req u pw newpw skip isBearerOnly reqBody (al : APIListener C S P) ip2 t u2 :
  count_byte "|" (req_RemoteIP req) = 0 -> count_byte "|" ip2 = 0 -> req_RemoteIP req <> ip2 ->
  let banned al := BanList_IsBanned t (loginBanKey ip2 u2) (al_bannedUsers al) in
  banned (snd (handleLogin cfg svc PS env req u pw newpw skip al)) = banned al /\
  banned (snd (wrapWithAuthMiddleware cfg env isBearerOnly req al)) = banned al /\
  banned (snd (handlePostVerify2FAToken cfg svc PS env req reqBody al)) = banned al.
Proof.
  intros H1 H2 Hne banned. split_and!.
  - by apply (keeps_ban_handleLogin cfg svc PS req ip2 t u2).
  - by apply (keeps_ban_middleware cfg req ip2 t u2).
  - by apply (keeps_ban_verify cfg svc PS req ip2 t u2).
Qed.

(** ** A listener for the witnesses

    Two users in a file, codes by mail, and a JWT library that signs the two
    tokens of a login with a second factor. *)

Definition example_config : Config := mkConfig "secret" "smtp" false "" "" false "" 0%Z.

Definition example_env (now : time) : Env :=
  mkEnv now "jti" "salt" (Ok "uuid") (Ok "123456") (fun _ _ => Ok tt) "email" (fun a b => a +:+ b).

Definition mail_users : list User :=
  [mkUser "alice" (hash_of "pw") None (Some [Administrators]) "alice@example.com" ""].

Definition example_listener : APIListener TTLMap (DB sessions_table) FileAdapter :=
  mkAPIListener example_cache (NewBanList (10 * Second)%Z) (Some (NewMaxBadAttemptsBanList 3 60))
    (mkFileAdapter (UserCache_Load mail_users) (mkUsersFile (whole mail_users) [])) example_tokens
    (NewTwoFAService 300) newWSTicketStore.

Definition pending_claims : AppTokenClaims := mkClaims "alice" 1 Scopes2FaCheckOnly "jti" 602.
Definition full_claims : AppTokenClaims :=
  mkClaims "alice" 1 ScopesAllExcluding2FaCheck "jti" 603.

Definition example_ledger : JWT :=
  ledger_jwt [("secret", pending_claims); ("secret", full_claims)].

Definition example_request (method path auth : string) : Request :=
  mkRequest method path auth None "10.0.0.1" "10.0.0.1:4711" "curl" ∅ ∅.

Definition example_score : string -> list string -> Z := fun _ _ => 4%Z.

(** The password step, with a new password, and the second step. *)
Definition run_password_step :=
  @handleLogin TTLMap (DB sessions_table) FileAdapter _ _ _ example_ledger toy_bcrypt toy_otp
    example_config example_service example_score (example_env (2 * Second)%Z)
    (example_request "POST" "/api/v1/login" "") "alice" "pw" "newpass" false example_listener.

Definition run_second_step :=
  @handlePostVerify2FAToken TTLMap (DB sessions_table) FileAdapter _ _ _ example_ledger toy_bcrypt
    toy_otp example_config example_service example_score (example_env (3 * Second)%Z)
    (example_request "POST" "/api/v1/verify-2fa" "Bearer 0") (Ok ("alice", "123456"))
    (snd run_password_step).

Definition run_request :=
  @wrapWithAuthMiddleware TTLMap (DB sessions_table) FileAdapter _ _ _ example_ledger toy_bcrypt
    example_config (example_env (4 * Second)%Z) false
    (example_request "GET" "/api/v1/me" "Bearer 1") (snd run_second_step).

Lemma authenticated_requests_are_entitled_witness :
  fst run_request = Ok (mkResponse StatusOK (BNext "alice")) /\
  exists claims, @bearer_accepted TTLMap (DB sessions_table) FileAdapter _ example_ledger
    example_config (example_env (4 * Second)%Z)
    (example_request "GET" "/api/v1/me" "Bearer 1") (snd run_second_step) "alice" claims.
Proof.
  assert (Hr : run_request = (Ok (mkResponse StatusOK (BNext "alice")), snd run_request))
    by (vm_compute; reflexivity).
  split; [by rewrite Hr|].
  destruct (@authenticated_requests_are_entitled TTLMap (DB sessions_table) FileAdapter _ _ _
    example_ledger toy_bcrypt example_config (example_env (4 * Second)%Z) false
    (example_request "GET" "/api/v1/me" "Bearer 1") (snd run_second_step) (snd run_request)
    "alice" Hr) as [Hb|[_ (pw & user & Hbasic & _)]]; [exact Hb|discriminate Hbasic].
Defined.

Lemma password_step_is_no_login_witness :
  rsp_body (match fst run_password_step with Ok r => r | Err _ => jsonError (EPlain "") end)
    = BLogin "0" (Some ("alice@example.com", "email", "")) /\
  al_users (snd run_password_step) = al_users example_listener /\
  @signed_for example_ledger example_config "alice" "0" pending_scopes.
Proof.
  split; [vm_compute; reflexivity|].
  destruct (@password_step_is_no_login TTLMap (DB sessions_table) FileAdapter _ _ _
    example_ledger toy_bcrypt toy_otp example_config example_service example_score
    (example_env (2 * Second)%Z) (example_request "POST" "/api/v1/login" "") "alice" "pw" "newpass"
    example_listener (snd run_password_step)
    (mkResponse StatusOK (BLogin "0" (Some ("alice@example.com", "email", "")))))
    as [H1 H2]; [reflexivity|reflexivity|vm_compute; reflexivity|].
  split; [exact H1|]. exact (H2 "0" _ eq_refl).
Defined.

Lemma second_step_logs_in_its_owner_witness :
  @signed_for example_ledger example_config "alice" "1" (eq ScopesAllExcluding2FaCheck) /\
  GetByUsername "alice" (al_users (snd run_second_step)) <>
    GetByUsername "alice" (al_users example_listener).
Proof.
  split; [|by vm_compute].
  destruct (@second_step_logs_in_its_owner TTLMap (DB sessions_table) FileAdapter _ _ _
    example_ledger toy_bcrypt toy_otp example_config example_service example_score
    (example_env (3 * Second)%Z) (example_request "POST" "/api/v1/verify-2fa" "Bearer 0")
    (Ok ("alice", "123456")) (snd run_password_step) (snd run_second_step)
    (mkResponse StatusOK (BLogin "1" None)) "1" None) as (u & code & claims & Hreq & _ & _ & Hs);
    [vm_compute; reflexivity|reflexivity|].
  injection Hreq as <- _. exact Hs.
Defined.

Lemma lockout_is_per_address_witness :
  let al' := snd (@handleLogin TTLMap (DB sessions_table) FileAdapter _ _ _ example_ledger
    toy_bcrypt toy_otp example_config example_service example_score (example_env 1)
    (example_request "POST" "/api/v1/login" "") "alice" "wrong" "" false example_listener) in
  BanList_IsBanned 2 (loginBanKey "10.0.0.1" "alice") (al_bannedUsers al') = true /\
  BanList_IsBanned 2 (loginBanKey "10.0.0.2" "alice") (al_bannedUsers al') = false.
Proof.
  intros al'. split; [vm_compute; reflexivity|].
  destruct (@lockout_is_per_address TTLMap (DB sessions_table) FileAdapter _ _ _ example_ledger
    toy_bcrypt toy_otp example_config example_service example_score (example_env 1)
    (example_request "POST" "/api/v1/login" "") "alice" "wrong" "" false false (Err (EPlain ""))
    example_listener "10.0.0.2" 2%Z "alice") as (H & _ & _); [reflexivity|reflexivity|done|].
  transitivity (BanList_IsBanned 2 (loginBanKey "10.0.0.2" "alice") (al_bannedUsers example_listener));
    [exact H|reflexivity].
Defined.
