(* ===== verification/Enc.v ===== *)
(** * Encryption at rest (share/enc)

    AES-256-GCM under a key (aes.go) and the envelope that seals single columns
    of a table (envelope.go).  Base64 is written out.  The cipher itself and
    the key derivation functions are parameters with their documented laws; the
    random source is a state that answers one draw after the other. *)

From stdpp Require Import base gmap strings list numbers.
From Stdlib Require Import ZArith Ascii Lia.
From S2P Require Import Prelude GoStrings.

Local Open Scope string_scope.

(** ** Random bytes (crypto/rand) *)

Record RandSrc := mkRand {
  rs_draw : nat -> nat -> result string;
  rs_pos : nat
}.

(** [rand.Read] into a fresh buffer of [n] bytes. *)
Definition rand_Read (n : nat) : M RandSrc string :=
  fun r => (rs_draw r (rs_pos r) n, mkRand (rs_draw r) (S (rs_pos r))).

(** A buffer is filled or an error is reported. *)
Definition fills_buffers (r : RandSrc) : Prop :=
  forall i n s, rs_draw r i n = Ok s -> String.length s = n.

(** No draw fails. *)
Definition never_fails (r : RandSrc) : Prop :=
  forall i n, exists s, rs_draw r i n = Ok s.

(** ** Base64 (encoding/base64.StdEncoding) *)

Definition b64_alphabet : string :=
  "ABCDEFGHIJKLMNOPQRSTUVWXYZabcdefghijklmnopqrstuvwxyz0123456789+/".

Definition b64_char (n : N) : ascii := default "A"%char (String.get (N.to_nat n) b64_alphabet).

Fixpoint index_of (c : ascii) (s : string) (i : N) : option N :=
  match s with
  | "" => None
  | String a s' => if Ascii.eqb a c then Some i else index_of c s' (i + 1)
  end.

Definition b64_value (c : ascii) : option N := index_of c b64_alphabet 0.

Definition b64_1 (a : N) : ascii := b64_char (a / 4).
Definition b64_2 (a b : N) : ascii := b64_char (a mod 4 * 16 + b / 16).
Definition b64_3 (b c : N) : ascii := b64_char (b mod 16 * 4 + c / 64).
Definition b64_4 (c : N) : ascii := b64_char (c mod 64).

Fixpoint EncodeToString (s : string) : string :=
  match s with
  | "" => ""
  | String a "" =>
      let a := N_of_ascii a in String (b64_1 a) (String (b64_2 a 0) "==")
  | String a (String b "") =>
      let a := N_of_ascii a in let b := N_of_ascii b in
      String (b64_1 a) (String (b64_2 a b) (String (b64_3 b 0) "="))
  | String a (String b (String c s')) =>
      let a := N_of_ascii a in let b := N_of_ascii b in let c := N_of_ascii c in
      String (b64_1 a) (String (b64_2 a b) (String (b64_3 b c) (String (b64_4 c)
        (EncodeToString s'))))
  end.

(** The groups of four characters, once line breaks are gone.  As in Go, the
    bits a padded group leaves over are not looked at. *)
Fixpoint b64_quanta (s : string) : option string :=
  match s with
  | "" => Some ""
  | String c1 (String c2 (String c3 (String c4 s'))) =>
      match b64_value c1, b64_value c2 with
      | Some v1, Some v2 =>
          let x1 := ascii_of_N (v1 * 4 + v2 / 16) in
          if Ascii.eqb c3 "=" then
            if Ascii.eqb c4 "=" && String.eqb s' "" then Some (String x1 "") else None
          else match b64_value c3 with
               | None => None
               | Some v3 =>
                   let x2 := ascii_of_N (v2 mod 16 * 16 + v3 / 4) in
                   if Ascii.eqb c4 "=" then
                     if String.eqb s' "" then Some (String x1 (String x2 "")) else None
                   else match b64_value c4, b64_quanta s' with
                        | Some v4, Some rest =>
                            let x3 := ascii_of_N (v3 mod 4 * 64 + v4) in
                            Some (String x1 (String x2 (String x3 rest)))
                        | _, _ => None
                        end
               end
      | _, _ => None
      end
  | _ => None
  end.

Definition is_newline (c : ascii) : bool :=
  Ascii.eqb c (ascii_of_nat 10) || Ascii.eqb c (ascii_of_nat 13).

Fixpoint drop_newlines (s : string) : string :=
  match s with
  | "" => ""
  | String a s' => if is_newline a then drop_newlines s' else String a (drop_newlines s')
  end.

(** [DecodeString]; the offset in Go's message is left out. *)
Definition DecodeString (s : string) : result string :=
  match b64_quanta (drop_newlines s) with
  | Some d => Ok d
  | None => Err (EPlain "illegal base64 data")
  end.

(** ** aes.go *)

(** AES-GCM of crypto/aes and crypto/cipher, without associated data. *)
Class AesGcm := {
  gcm_Seal : forall key nonce plaintext : string, string;
  gcm_Open : forall key nonce ciphertext : string, option string
}.

Class AesGcmSpec `{!AesGcm} := {
  Open_Seal key nonce p :
    String.length key = 32 -> String.length nonce = 12 ->
    gcm_Open key nonce (gcm_Seal key nonce p) = Some p;
  Seal_tag key nonce p : gcm_Seal key nonce p <> ""
}.

(** The key derivation functions: golang.org/x/crypto/argon2 and crypto/sha256. *)
Class KDFs := {
  argon2_IDKey : forall (password salt : string) (timeCost memoryKiB threads : Z) (keyLen : nat), string;
  sha256_Sum256 : string -> string
}.

Class KDFsSpec `{!KDFs} := {
  IDKey_length password salt t m p n : String.length (argon2_IDKey password salt t m p n) = n;
  Sum256_length password : String.length (sha256_Sum256 password) = 32
}.

Definition DeriveKeyArgon2id `{!KDFs} (password salt : string) (timeCost memoryKiB threads : Z)
    : string :=
  argon2_IDKey password salt timeCost memoryKiB threads 32.

Definition DeriveKeyLegacySHA256 `{!KDFs} (password : string) : string :=
  sha256_Sum256 password.

Section Aes.
Context `{gcm : !AesGcm}.

Definition nonceSize : nat := 12.

Definition Aes256Encrypt (payload aes32Key : string) : M RandSrc string :=
  let keyLen := String.length aes32Key in
  if negb (Nat.eqb keyLen 32)
  then fail (EPlain ("invalid aes32Key length: a 32 bytes key is expected but "
               +:+ FormatUint (N.of_nat keyLen) +:+ " byts key is provided"))
  else
    nonce <- rand_Read nonceSize ;;
    ret (nonce +:+ gcm_Seal aes32Key nonce payload).

Definition valid_aes_key (key : string) : bool :=
  let n := String.length key in Nat.eqb n 16 || Nat.eqb n 24 || Nat.eqb n 32.

Definition AesDecrypt (encryptedData key : string) : result string :=
  if negb (valid_aes_key key)
  then Err (EPlain ("crypto/aes: invalid key size " +:+ FormatUint (N.of_nat (String.length key))))
  else if (String.length encryptedData <=? nonceSize)%nat
  then Err (EPlain "invalid encrypted value provided: invalid nonce length")
  else
    let nonce := String.substring 0 nonceSize encryptedData in
    let ciphertext := String.substring nonceSize (String.length encryptedData - nonceSize) encryptedData in
    match gcm_Open key nonce ciphertext with
    | Some plaintext => Ok plaintext
    | None => Err (EPlain "cipher: message authentication failed")
    end.

Definition Aes256EncryptByKeyToBase64String (payload key : string) : M RandSrc string :=
  encryptedBytes <- Aes256Encrypt payload key ;;
  ret (EncodeToString encryptedBytes).

Definition Aes256DecryptByKeyFromBase64String (encryptedBase64Data key : string)
    : result string :=
  let! encryptedBytesData := DecodeString encryptedBase64Data in
  AesDecrypt encryptedBytesData key.

(** ** envelope.go *)

Definition envelopePrefix : string := "enc:".
Definition envelopeVersion1 : string := "v1".
Definition envelopeV1Prefix : string := envelopePrefix +:+ envelopeVersion1 +:+ ":".

(** A [nil] data encryption key is the empty string. *)
Record Envelope := NewEnvelope { dek : string }.

Definition Enabled (e : Envelope) : bool := negb (String.eqb (dek e) "").

(** The regular expression ["^enc:v[0-9]+:"]. *)
Definition IsEncrypted (stored : string) : bool :=
  match strip_prefix (envelopePrefix +:+ "v") stored with
  | None => false
  | Some rest =>
      let '(digits, rest) := span is_digit rest in
      negb (String.eqb digits "") && HasPrefix rest ":"
  end.

Definition envelope_error (msg : string) : go_error -> go_error := fun e =>
  EPlain (msg +:+ ": " +:+ match e with EPlain m => m | _ => "" end).

Definition Envelope_Encrypt (e : Envelope) (plaintext : string) : M RandSrc string :=
  if negb (Enabled e) then ret plaintext
  else
    b64 <- on_error (envelope_error "envelope encrypt")
             (Aes256EncryptByKeyToBase64String plaintext (dek e)) ;;
    ret (envelopeV1Prefix +:+ b64).

Definition Envelope_Decrypt (e : Envelope) (stored : string) : result string :=
  if negb (IsEncrypted stored) then Ok stored
  else match strip_prefix envelopeV1Prefix stored with
       | None => Err (EPlain "envelope decrypt: unsupported encrypted value version")
       | Some b64 =>
           if negb (Enabled e)
           then Err (EPlain "envelope decrypt: value is encrypted but no key provider is configured")
           else match Aes256DecryptByKeyFromBase64String b64 (dek e) with
                | Ok plaintext => Ok plaintext
                | Err err => Err (envelope_error "envelope decrypt" err)
                end
       end.

Definition IsEncryptedBy (e : Envelope) (stored : string) : bool :=
  if negb (Enabled e) || negb (IsEncrypted stored) then false
  else is_ok (Envelope_Decrypt e stored).

End Aes.

(** ** Base64 lemmas *)

Lemma b64_value_char n : (n < 64)%N -> b64_value (b64_char n) = Some n.
Proof.
  intros Hn. assert (Hall : forallb (fun i => bool_decide (b64_value (b64_char (N.of_nat i)) = Some (N.of_nat i)))
    (seq 0 64) = true) by by vm_compute.
  rewrite forallb_forall in Hall. specialize (Hall (N.to_nat n)).
  rewrite N2Nat.id in Hall. eapply bool_decide_eq_true_1, Hall, in_seq. lia.
Qed.

Definition b64_byte (c : ascii) : bool := match b64_value c with Some _ => true | None => false end.

Lemma b64_char_byte n : (n < 64)%N -> b64_byte (b64_char n) = true.
Proof. intros H. unfold b64_byte. by rewrite b64_value_char. Qed.

Lemma b64_byte_facts c : b64_byte c = true ->
  is_newline c = false /\ Ascii.eqb c "=" = false /\ Ascii.eqb c ":" = false.
Proof.
  destruct c as [[] [] [] [] [] [] [] []]; vm_compute; try discriminate; intros _; by split_and!.
Qed.

Lemma b64_value_eq c v : b64_value c = Some v -> b64_byte c = true.
Proof. unfold b64_byte. by intros ->. Qed.

(** The six-bit groups of a byte sequence are in range and determine it. *)
Lemma b64_groups a b c : (a < 256)%N -> (b < 256)%N -> (c < 256)%N ->
  b64_value (b64_1 a) = Some (a / 4)%N /\
  b64_value (b64_2 a b) = Some (a mod 4 * 16 + b / 16)%N /\
  b64_value (b64_3 b c) = Some (b mod 16 * 4 + c / 64)%N /\
  b64_value (b64_4 c) = Some (c mod 64)%N /\
  (a / 4 * 4 + (a mod 4 * 16 + b / 16) / 16 = a)%N /\
  ((a mod 4 * 16 + b / 16) mod 16 * 16 + (b mod 16 * 4 + c / 64) / 4 = b)%N /\
  ((b mod 16 * 4 + c / 64) mod 4 * 64 + c mod 64 = c)%N.
Proof.
  intros Ha Hb Hc.
  split_and!; [apply b64_value_char..| | |]; zify; Z.to_euclidean_division_equations; lia.
Qed.

Lemma N_of_ascii_lt a : (N_of_ascii a < 256)%N.
Proof. destruct a as [[] [] [] [] [] [] [] []]; by vm_compute. Qed.

Lemma b64_quanta_Encode s : b64_quanta (EncodeToString s) = Some s.
Proof.
  revert s. fix IH 1. intros [|a [|b [|c s]]]; [done|..]; cbn [EncodeToString b64_quanta].
  - destruct (b64_groups (N_of_ascii a) 0 0) as (-> & -> & _ & _ & Ha & _);
      [apply N_of_ascii_lt|done..|].
    cbn. rewrite Ha. by rewrite ascii_N_embedding.
  - destruct (b64_groups (N_of_ascii a) (N_of_ascii b) 0) as (-> & -> & H3 & _ & Ha & Hb & _);
      [apply N_of_ascii_lt..|done|].
    rewrite H3. apply b64_value_eq, b64_byte_facts in H3 as (_ & -> & _).
    cbn. rewrite Ha, Hb. by rewrite !ascii_N_embedding.
  - destruct (b64_groups (N_of_ascii a) (N_of_ascii b) (N_of_ascii c))
      as (-> & -> & H3 & H4 & Ha & Hb & Hc); [apply N_of_ascii_lt..|].
    rewrite H3, H4, IH.
    apply b64_value_eq, b64_byte_facts in H3 as (_ & -> & _), H4 as (_ & -> & _).
    rewrite Ha, Hb, Hc. by rewrite !ascii_N_embedding.
Qed.

(** Every byte of an encoding is in the alphabet or padding. *)
Definition b64_text (c : ascii) : bool := b64_byte c || Ascii.eqb c "=".

Lemma EncodeToString_text s : string_forallb b64_text (EncodeToString s) = true.
Proof.
  assert (Hb : forall c v, b64_value c = Some v -> b64_text c = true).
  { intros c v Hv. unfold b64_text. by rewrite (b64_value_eq _ _ Hv). }
  revert s. fix IH 1. intros [|a [|b [|c s]]]; [done|..]; cbn [EncodeToString string_forallb].
  - destruct (b64_groups (N_of_ascii a) 0 0) as (H1 & H2 & _); [apply N_of_ascii_lt|done..|].
    by rewrite (Hb _ _ H1), (Hb _ _ H2).
  - destruct (b64_groups (N_of_ascii a) (N_of_ascii b) 0) as (H1 & H2 & H3 & _);
      [apply N_of_ascii_lt..|done|].
    by rewrite (Hb _ _ H1), (Hb _ _ H2), (Hb _ _ H3).
  - destruct (b64_groups (N_of_ascii a) (N_of_ascii b) (N_of_ascii c)) as (H1 & H2 & H3 & H4 & _);
      [apply N_of_ascii_lt..|].
    by rewrite (Hb _ _ H1), (Hb _ _ H2), (Hb _ _ H3), (Hb _ _ H4), IH.
Qed.

Lemma drop_newlines_id s : string_forallb (fun c => negb (is_newline c)) s = true ->
  drop_newlines s = s.
Proof.
  induction s as [|a s IH]; cbn; [done|]. intros [Ha Hs]%andb_true_iff.
  destruct (is_newline a); [done|]. by rewrite IH.
Qed.

Lemma b64_text_facts c : b64_text c = true -> is_newline c = false /\ Ascii.eqb c ":" = false.
Proof.
  unfold b64_text. intros [H|H]%orb_true_iff; [by apply b64_byte_facts in H as (? & _ & ?)|].
  by apply Ascii.eqb_eq in H as ->.
Qed.

Lemma Decode_Encode s : DecodeString (EncodeToString s) = Ok s.
Proof.
  unfold DecodeString. rewrite drop_newlines_id, b64_quanta_Encode; [done|].
  eapply string_forallb_impl, EncodeToString_text. intros c [-> _]%b64_text_facts. done.
Qed.

(** ** Lemmas on encryption *)

Lemma slength_substring_0 n s : n <= String.length s -> String.length (String.substring 0 n s) = n.
Proof.
  revert s; induction n as [|n IH]; intros s Hs; [by destruct s|].
  destruct s as [|a s]; cbn in *; [lia|]. f_equal. apply IH. lia.
Qed.

Lemma substring_all s : String.substring 0 (String.length s) s = s.
Proof. induction s as [|a s IH]; cbn; [done|]. by rewrite IH. Qed.

Lemma substring_app_l a b : String.substring 0 (String.length a) (a +:+ b) = a.
Proof. induction a as [|x a IH]; cbn; [by destruct b|]. by rewrite IH. Qed.

Lemma substring_app_r a b :
  String.substring (String.length a) (String.length b) (a +:+ b) = b.
Proof. induction a as [|x a IH]; cbn; [apply substring_all|done]. Qed.

Lemma rand_Read_fills n r s r' : fills_buffers r -> rand_Read n r = (Ok s, r') ->
  String.length s = n /\ rs_draw r' = rs_draw r.
Proof. unfold rand_Read. intros Hf [= Hs <-]. split; [by eapply Hf|done]. Qed.

Section AesLemmas.
Context `{gcm : !AesGcm, !AesGcmSpec}.

Lemma AesDecrypt_open key nonce p : valid_aes_key key = true -> String.length nonce = 12 ->
  forall k, AesDecrypt (nonce +:+ gcm_Seal k nonce p) key =
    match gcm_Open key nonce (gcm_Seal k nonce p) with
    | Some plaintext => Ok plaintext
    | None => Err (EPlain "cipher: message authentication failed")
    end.
Proof.
  intros Hk Hn k. unfold AesDecrypt, nonceSize. rewrite Hk. cbn [negb].
  rewrite slength_app. replace (_ <=? 12)%nat with false; cycle 1.
  { symmetry. apply Nat.leb_gt. rewrite Hn.
    destruct (gcm_Seal k nonce p) eqn:E; [by apply Seal_tag in E|cbn; lia]. }
  rewrite <-Hn at 1. rewrite substring_app_l.
  replace (String.length nonce + _ - 12) with (String.length (gcm_Seal k nonce p)) by lia.
  rewrite <-Hn at 1. by rewrite substring_app_r.
Qed.

Lemma valid_key_32 key : String.length key = 32 -> valid_aes_key key = true.
Proof. unfold valid_aes_key. by intros ->. Qed.

Lemma AesDecrypt_sealed key nonce p :
  String.length key = 32 -> String.length nonce = 12 ->
  AesDecrypt (nonce +:+ gcm_Seal key nonce p) key = Ok p.
Proof.
  intros Hk Hn. rewrite AesDecrypt_open by eauto using valid_key_32. by rewrite Open_Seal.
Qed.

(** What is encrypted decrypts, and is base64 text. *)
Lemma encrypt_decrypts p key r c r' : fills_buffers r ->
  Aes256EncryptByKeyToBase64String p key r = (Ok c, r') ->
  Aes256DecryptByKeyFromBase64String c key = Ok p /\
  string_forallb b64_text c = true /\ c <> "" /\ rs_draw r' = rs_draw r.
Proof.
  intros Hf Hrun. apply bind_Ok_inv in Hrun as (b & r1 & Henc & [= <- <-]).
  unfold Aes256Encrypt in Henc. destruct (Nat.eqb_spec (String.length key) 32) as [Hk|]; [|done].
  apply bind_Ok_inv in Henc as (nonce & r2 & Hr & [= <- <-]).
  apply rand_Read_fills in Hr as [Hn Hd]; [|done].
  unfold Aes256DecryptByKeyFromBase64String. rewrite Decode_Encode. cbn [result_bind].
  rewrite AesDecrypt_sealed by done. split_and!; [done|apply EncodeToString_text| |done].
  intros He. pose proof (Decode_Encode (nonce +:+ gcm_Seal key nonce p)) as Hdec.
  rewrite He in Hdec. injection Hdec as Hdec.
  destruct nonce; [done|discriminate].
Qed.

Lemma encrypt_total p key r : never_fails r -> String.length key = 32 ->
  exists c r', Aes256EncryptByKeyToBase64String p key r = (Ok c, r').
Proof.
  intros Hf Hk. unfold Aes256EncryptByKeyToBase64String, Aes256Encrypt, bind, rand_Read, ret.
  rewrite Hk. cbn [negb Nat.eqb]. destruct (Hf (rs_pos r) nonceSize) as [s ->]. eauto.
Qed.

Lemma encrypt_draws p key r x r' :
  Aes256EncryptByKeyToBase64String p key r = (x, r') -> rs_draw r' = rs_draw r.
Proof.
  unfold Aes256EncryptByKeyToBase64String, Aes256Encrypt, bind, rand_Read, ret, fail.
  case_go; naive_solver.
Qed.

(** ** Envelope lemmas *)

Lemma IsEncrypted_no_colon s : string_forallb (fun c => negb (Ascii.eqb c ":")) s = true ->
  IsEncrypted s = false.
Proof.
  intros Hs. unfold IsEncrypted. destruct (strip_prefix _ s) as [rest|] eqn:E; [|done].
  apply strip_prefix_Some in E as ->. by rewrite string_forallb_app in Hs.
Qed.

Lemma b64_not_encrypted s : string_forallb b64_text s = true -> IsEncrypted s = false.
Proof.
  intros Hs. apply IsEncrypted_no_colon. eapply string_forallb_impl, Hs.
  intros c [_ ->]%b64_text_facts. done.
Qed.

Lemma IsEncrypted_v1 s : IsEncrypted (envelopeV1Prefix +:+ s) = true.
Proof. done. Qed.

Lemma Envelope_Decrypt_v1 e b : Enabled e = true ->
  Envelope_Decrypt e (envelopeV1Prefix +:+ b) =
  match Aes256DecryptByKeyFromBase64String b (dek e) with
  | Ok plaintext => Ok plaintext
  | Err err => Err (envelope_error "envelope decrypt" err)
  end.
Proof.
  intros He. unfold Envelope_Decrypt. by rewrite IsEncrypted_v1, strip_prefix_app, He.
Qed.

Lemma Envelope_decrypts e p r c r' : fills_buffers r ->
  IsEncrypted p = false \/ Enabled e = true ->
  Envelope_Encrypt e p r = (Ok c, r') ->
  Envelope_Decrypt e c = Ok p /\ rs_draw r' = rs_draw r.
Proof.
  intros Hf Hp Hrun. unfold Envelope_Encrypt in Hrun. destruct (Enabled e) eqn:He; cbn [negb] in Hrun.
  - apply bind_Ok_inv in Hrun as (b & r1 & Henc%on_error_Ok & [= <- <-]).
    apply encrypt_decrypts in Henc as (Hdec & _ & _ & Hd); [|done]. split; [|done].
    apply (Envelope_Decrypt_v1 e b) in He. rewrite Hdec in He. exact He.
  - injection Hrun as <- <-. split; [|done]. unfold Envelope_Decrypt.
    destruct Hp as [->|]; [done|congruence].
Qed.

Lemma Envelope_draws e p r x r' : Envelope_Encrypt e p r = (x, r') -> rs_draw r' = rs_draw r.
Proof.
  unfold Envelope_Encrypt, on_error, bind, ret. destruct (Enabled e); cbn [negb]; [|naive_solver].
  destruct (Aes256EncryptByKeyToBase64String _ _ _) as [[c|er] r1] eqn:E; intros [= <- <-];
    by eapply encrypt_draws.
Qed.

Lemma Envelope_total e p r : never_fails r -> (dek e = "" \/ String.length (dek e) = 32) ->
  exists c r', Envelope_Encrypt e p r = (Ok c, r').
Proof.
  intros Hf Hd. unfold Envelope_Encrypt, Enabled. destruct (String.eqb_spec (dek e) "") as [He|He].
  { cbn. unfold ret. eauto. }
  destruct Hd as [|Hd]; [done|]. cbn [negb].
  destruct (encrypt_total p (dek e) r Hf Hd) as (c & r' & E).
  unfold on_error, bind, ret. rewrite E. eauto.
Qed.

End AesLemmas.

(** ** Properties *)

(** C25: The envelope gives back what it sealed and fails closed.  With a key,
    every plaintext, also one that already looks sealed, is stored in sealed
    form, decrypts under the same key and is recognised as the envelope's own;
    without a key or with one that does not authenticate it the stored value
    is an error and never comes back as plaintext.  A disabled envelope stores
    plaintext as it is and gives it back exactly when it does not look sealed. *)
Theorem envelope_roundtrip `{!AesGcm, !AesGcmSpec} e p r c r' :
  fills_buffers r -> Envelope_Encrypt e p r = (Ok c, r') ->
  (Enabled e = true ->
     IsEncrypted c = true /\ Envelope_Decrypt e c = Ok p /\ IsEncryptedBy e c = true /\
     (forall e' q, Envelope_Decrypt e' c = Ok q -> Enabled e' = true /\
        exists b, c = envelopeV1Prefix +:+ b /\
          Aes256DecryptByKeyFromBase64String b (dek e') = Ok q)) /\
  (Enabled e = false ->
     c = p /\ IsEncryptedBy e c = false /\
     (Envelope_Decrypt e c = Ok p <-> IsEncrypted p = false)).
Proof.
  intros Hf Hrun. split; intros He.
  - pose proof (Envelope_decrypts e p r c r' Hf (or_intror He) Hrun) as [Hdec _].
    unfold Envelope_Encrypt in Hrun. rewrite He in Hrun. cbn [negb] in Hrun.
    apply bind_Ok_inv in Hrun as (b & r1 & _ & Hret). unfold ret in Hret.
    assert (c = envelopeV1Prefix +:+ b) as -> by congruence.
    split_and!; [done..| |].
    + unfold IsEncryptedBy. by rewrite He, IsEncrypted_v1, Hdec.
    + intros e' q. destruct (Enabled e') eqn:He'.
      * rewrite Envelope_Decrypt_v1 by done. intros Hq. split; [done|]. exists b.
        split; [done|]. destruct (Aes256DecryptByKeyFromBase64String b (dek e')); congruence.
      * unfold Envelope_Decrypt. rewrite IsEncrypted_v1, strip_prefix_app, He'. done.
  - unfold Envelope_Encrypt in Hrun. rewrite He in Hrun. injection Hrun as <- <-.
    unfold IsEncryptedBy, Envelope_Decrypt. rewrite He. split_and!; [done..|].
    destruct (IsEncrypted p) eqn:Hp; [|done]. split; [|done].
    cbn [negb]. by destruct (strip_prefix _ p).
Qed.

(** A cipher that satisfies the laws: the key travels with the plaintext. *)
Definition toy_gcm : AesGcm := {|
  gcm_Seal key nonce p := "tag:" +:+ key +:+ p;
  gcm_Open key nonce c := strip_prefix ("tag:" +:+ key) c
|}.

Lemma toy_gcm_spec : @AesGcmSpec toy_gcm.
Proof.
  split; [|done]. intros key nonce p _ _.
  change (strip_prefix ("tag:" +:+ key) ("tag:" +:+ key +:+ p) = Some p).
  by rewrite <-sapp_assoc, strip_prefix_app.
Qed.

Fixpoint repeat_byte (n : nat) (c : ascii) : string :=
  match n with O => "" | S n => String c (repeat_byte n c) end.

(** Draw number [i] is [n] times the byte [i]. *)
Definition counting_source : RandSrc :=
  mkRand (fun i n => Ok (repeat_byte n (ascii_of_nat (65 + i)))) 0.

Lemma counting_source_fills : fills_buffers counting_source.
Proof. intros i n s [= <-]. induction n as [|n IH]; cbn; [done|]. by rewrite IH. Qed.

Definition example_envelope : Envelope := NewEnvelope "0123456789abcdef0123456789abcdef".

Lemma envelope_roundtrip_witness :
  exists c, fst (@Envelope_Encrypt toy_gcm example_envelope "enc:v1:secret" counting_source) = Ok c /\
    @Envelope_Decrypt toy_gcm example_envelope c = Ok "enc:v1:secret" /\
    @Envelope_Decrypt toy_gcm (NewEnvelope "") "enc:v1:secret" <> Ok "enc:v1:secret".
Proof.
  eexists. split; [by vm_compute|]. split.
  - refine (proj1 (proj2 (proj1 (@envelope_roundtrip toy_gcm toy_gcm_spec example_envelope
      "enc:v1:secret" counting_source _ _ counting_source_fills _) _))); by vm_compute.
  - intros H. eapply (@envelope_roundtrip toy_gcm toy_gcm_spec (NewEnvelope "") "enc:v1:secret"
      counting_source) in H; [by vm_compute in H|apply counting_source_fills|by vm_compute..].
Defined.
