(* ===== verification/Vault.v ===== *)
(** * The vault (server/vault)

    Secrets that users share, encrypted under a key derived from a passphrase
    that only lives in memory while the vault is unlocked (manager.go, pass.go),
    in a SQLite file whose secret columns are wrapped once more by the server's
    envelope (sqlite.go).  [AVault] is what the vault promises; the operations
    are shown to implement it. *)

From stdpp Require Import base gmap strings list numbers sets.
From Stdlib Require Import ZArith Ascii Lia.
From S2P Require Import Prelude GoStrings Db Enc Query.

Local Open Scope string_scope.

(** ** model.go *)

Definition DbStatusInit : string := "setup-completed".
Definition DbStatusNotInit : string := "uninitialized".
Definition StatusLocked : string := "locked".
Definition StatusUnlocked : string := "unlocked".

Record DbStatus := mkDbStatus {
  StatusName : string;
  EncCheckValue : string;
  KDF : string
}.

Record StatusReport := mkStatusReport {
  InitStatus : string;
  LockStatus : string
}.

Definition TextType : string := "text".
Definition SecretType : string := "secret".
Definition MarkdownType : string := "markdown".
Definition StringType : string := "string".

Record InputValue := mkInputValue {
  iv_ClientID : string;
  iv_RequiredGroup : string;
  iv_Key : string;
  iv_Value : string;
  iv_Type : string
}.

Record StoredValue := mkStoredValue {
  sv_Input : InputValue;
  sv_ID : Z;
  sv_CreatedAt : time;
  sv_UpdatedAt : time;
  sv_CreatedBy : string;
  sv_UpdatedBy : string
}.

Definition with_value (v : string) (iv : InputValue) : InputValue :=
  mkInputValue (iv_ClientID iv) (iv_RequiredGroup iv) (iv_Key iv) v (iv_Type iv).

Definition sv_with_value (v : string) (sv : StoredValue) : StoredValue :=
  mkStoredValue (with_value v (sv_Input sv)) (sv_ID sv) (sv_CreatedAt sv) (sv_UpdatedAt sv)
    (sv_CreatedBy sv) (sv_UpdatedBy sv).

(** ** validate.go *)

Definition knownTypes : list string := [TextType; SecretType; MarkdownType; StringType].

Definition validate_errors (iv : InputValue) : list APIError :=
  ((if String.eqb (iv_Key iv) "" then [api_error StatusBadRequest "key is required"] else []) ++
   (if String.eqb (iv_Value iv) "" then [api_error StatusBadRequest "value is required"] else []) ++
   (if String.eqb (iv_Type iv) "" then [api_error StatusBadRequest "value type is required"]
    else if existsb (String.eqb (iv_Type iv)) knownTypes then []
    else [api_error StatusBadRequest
            ("unknown or invalid value value type " +:+ iv_Type iv)]))%list.

Definition Validate (iv : InputValue) : result unit :=
  match validate_errors iv with
  | [] => Ok tt
  | errs => Err (EAPIs errs)
  end.

(** ** pass.go *)

Definition minPassLengthBytes : Z := 8.
Definition maxPassLengthBytes : Z := 256.
Definition argon2Time : Z := 3.
Definition argon2MemoryKiB : Z := 64 * 1024.
Definition argon2Threads : Z := 4.
Definition argon2SaltLen : nat := 16.
Definition kdfArgon2id : string := "argon2id".

Definition ValidatePass (passToCheck : string) : result unit :=
  let len := Z.of_nat (String.length passToCheck) in
  if (len <? minPassLengthBytes)%Z then
    Err (EAPI (api_error StatusBadRequest
      ("password is too short, expected length is at least " +:+ Itoa minPassLengthBytes +:+
       " bytes, provided length is " +:+ Itoa len +:+ " bytes")))
  else if (maxPassLengthBytes <? len)%Z then
    Err (EAPI (api_error StatusBadRequest
      ("password is too long, expected length is at most " +:+ Itoa maxPassLengthBytes +:+
       " bytes, provided length is " +:+ Itoa len +:+ " bytes")))
  else Ok tt.

Record KDFParams := mkKDFParams {
  kp_algo : string;
  kp_salt : string;
  kp_time : Z;
  kp_mem : Z;
  kp_threads : Z
}.

(** ["%s$m=%d,t=%d,p=%d$%s"]. *)
Definition encodeKDF (p : KDFParams) : string :=
  kp_algo p +:+ "$m=" +:+ Itoa (kp_mem p) +:+ ",t=" +:+ Itoa (kp_time p) +:+
  ",p=" +:+ Itoa (kp_threads p) +:+ "$" +:+ EncodeToString (kp_salt p).

(** The loop over the parameters: later ones win, [None] is "not seen".  What
    strconv says of a bad number is left out of the message. *)
Fixpoint parse_kdf_params (kvs : list string) (acc : option Z * option Z * option Z)
    : result (option Z * option Z * option Z) :=
  match kvs with
  | [] => Ok acc
  | kv :: kvs' =>
      let '(m, t, p) := acc in
      match Cut kv "=" with
      | None => Err (EPlain ("invalid kdf param " +:+ quoted kv))
      | Some (name, value) =>
          match ParseUint32 value with
          | None => Err (EPlain ("invalid kdf param " +:+ quoted kv))
          | Some v =>
              if String.eqb name "m" then parse_kdf_params kvs' (Some v, t, p)
              else if String.eqb name "t" then parse_kdf_params kvs' (m, Some v, p)
              else if String.eqb name "p" then parse_kdf_params kvs' (m, t, Some v)
              else Err (EPlain ("unknown kdf param " +:+ quoted name))
          end
      end
  end.

Definition parseKDF (s : string) : result KDFParams :=
  match Split s "$" with
  | [algo; params; b64] =>
      let! acc := parse_kdf_params (Split params ",") (None, None, None) in
      match acc with
      | (Some m, Some t, Some p) =>
          if ((m =? 0) || (t =? 0) || (p =? 0) || (255 <? p))%Z
          then Err (EPlain "out-of-range kdf params")
          else match DecodeString b64 with
               | Err _ => Err (EPlain "invalid kdf salt: illegal base64 data")
               | Ok salt =>
                   if String.eqb salt "" then Err (EPlain "empty kdf salt")
                   else Ok (mkKDFParams algo salt t m p)
               end
      | _ => Err (EPlain "missing kdf params")
      end
  | _ => Err (EPlain "invalid kdf descriptor")
  end.

(** ** The descriptor round-trips *)

Record valid_kdf (p : KDFParams) : Prop := {
  vk_mem : (0 < kp_mem p < 2 ^ 32)%Z;
  vk_time : (0 < kp_time p < 2 ^ 32)%Z;
  vk_threads : (0 < kp_threads p <= 255)%Z;
  vk_salt : kp_salt p <> ""
}.

Lemma parse_encodeKDF p : valid_kdf p -> count_byte "$" (kp_algo p) = 0 ->
  parseKDF (encodeKDF p) = Ok p.
Proof.
  intros [Hm Ht Hp Hs] Ha. destruct p as [algo salt t m th]; cbn in *.
  assert (Hd : forall c z, is_digit c = false -> (0 <= z)%Z -> count_byte c (Itoa z) = 0).
  { intros c z Hc Hz. rewrite Itoa_nonneg by done.
    eapply count_byte_absent, Hc. apply FormatUint_digits. }
  unfold parseKDF, encodeKDF; cbn [kp_algo kp_salt kp_time kp_mem kp_threads].
  pose (params := "m=" +:+ Itoa m +:+ ",t=" +:+ Itoa t +:+ ",p=" +:+ Itoa th).
  replace (Split _ "$") with [algo; params; EncodeToString salt]; cycle 1.
  { replace (algo +:+ _) with (algo +:+ String "$" (params +:+ String "$" (EncodeToString salt)));
      cycle 1.
    { unfold params. rewrite !sapp_assoc. done. }
    rewrite Split_app_sep by done. rewrite Split_app_sep, Split_no_sep; [done|..].
    - eapply count_byte_absent; [apply EncodeToString_text|done].
    - unfold params. rewrite !count_byte_app, !Hd by first [done|lia]. done. }
  replace (Split params ",") with ["m=" +:+ Itoa m; "t=" +:+ Itoa t; "p=" +:+ Itoa th]; cycle 1.
  { assert (params = ("m=" +:+ Itoa m) +:+ String "," (("t=" +:+ Itoa t) +:+
      String "," ("p=" +:+ Itoa th))) as -> by (unfold params; by rewrite !sapp_assoc).
    rewrite !Split_app_sep, Split_no_sep; [done|..];
      rewrite !count_byte_app, Hd by first [done|lia]; done. }
  cbn [parse_kdf_params].
  change (Cut ("m=" +:+ Itoa m) "=") with (Some ("m", Itoa m)).
  change (Cut ("t=" +:+ Itoa t) "=") with (Some ("t", Itoa t)).
  change (Cut ("p=" +:+ Itoa th) "=") with (Some ("p", Itoa th)).
  cbv beta iota. rewrite !ParseUint32_Itoa by lia. cbn [String.eqb Ascii.eqb Bool.eqb result_bind].
  replace ((m =? 0)%Z || (t =? 0)%Z || (th =? 0)%Z || (255 <? th)%Z) with false; cycle 1.
  { symmetry. rewrite !orb_false_iff, !Z.eqb_neq, Z.ltb_ge. lia. }
  rewrite Decode_Encode. by apply String.eqb_neq in Hs as ->.
Qed.

Lemma parse_kdf_params_range kvs acc m t p :
  parse_kdf_params kvs acc = Ok (Some m, Some t, Some p) ->
  (forall z, acc.1.1 = Some z -> (0 <= z < 2 ^ 32)%Z) ->
  (forall z, acc.1.2 = Some z -> (0 <= z < 2 ^ 32)%Z) ->
  (forall z, acc.2 = Some z -> (0 <= z < 2 ^ 32)%Z) ->
  (0 <= m < 2 ^ 32)%Z /\ (0 <= t < 2 ^ 32)%Z /\ (0 <= p < 2 ^ 32)%Z.
Proof.
  revert acc. induction kvs as [|kv kvs IH]; intros [[am at_] ap]; cbn.
  { intros [= -> -> ->] Hm Ht Hp. auto. }
  destruct (Cut kv "=") as [[name value]|]; [|done].
  destruct (ParseUint32 value) as [v|] eqn:Ev; [|done]. apply ParseUint32_range in Ev.
  destruct (String.eqb name "m"), (String.eqb name "t"), (String.eqb name "p"); try done;
    intros Hrun Hm Ht Hp; (eapply IH; [exact Hrun|..]; cbn; [..]); try done; by intros z [= <-].
Qed.

Section Pass.
Context `{gcm : !AesGcm, kdfs : !KDFs}.

(** The key and whether it is a legacy one. *)
Definition DeriveKey (dbStatus : DbStatus) (pass : string) : result (string * bool) :=
  if String.eqb pass "" then Err (EPlain "empty password")
  else if String.eqb (TrimSpace (KDF dbStatus)) "" then Ok (DeriveKeyLegacySHA256 pass, true)
  else
    let! p := parseKDF (KDF dbStatus) in
    if negb (String.eqb (kp_algo p) kdfArgon2id)
    then Err (EPlain ("unsupported vault kdf " +:+ quoted (kp_algo p)))
    else Ok (DeriveKeyArgon2id pass (kp_salt p) (kp_time p) (kp_mem p) (kp_threads p), false).

Definition Verify (dbStatus : DbStatus) (key : string) : bool :=
  if String.eqb (EncCheckValue dbStatus) "" || String.eqb key "" then false
  else is_ok (Aes256DecryptByKeyFromBase64String (EncCheckValue dbStatus) key).

(** The descriptor, the verifier and the key of a passphrase under a fresh salt. *)
Definition NewStatusFor (pass : string) : M RandSrc (string * string * string) :=
  salt <- rand_Read argon2SaltLen ;;
  let key := DeriveKeyArgon2id pass salt argon2Time argon2MemoryKiB argon2Threads in
  verifier <- rand_Read 32 ;;
  encCheck <- Aes256EncryptByKeyToBase64String verifier key ;;
  ret (encodeKDF (mkKDFParams kdfArgon2id salt argon2Time argon2MemoryKiB argon2Threads),
       encCheck, key).

End Pass.

(** ** sqlite.go *)

(** The file: the status row (only [SetStatus] inserts one, and only when there
    is none), the rows of [values] and the last id AUTOINCREMENT gave out. *)
Record VaultFile := mkVaultFile {
  vf_status : option DbStatus;
  vf_values : gmap Z StoredValue;
  vf_seq : Z
}.

Record World := mkWorld {
  w_db : DB VaultFile;
  w_rnd : RandSrc
}.

Definition on_db {A} : M (DB VaultFile) A -> M World A :=
  zoom w_db (fun db w => mkWorld db (w_rnd w)).
Definition on_rnd {A} : M RandSrc A -> M World A :=
  zoom w_rnd (fun r w => mkWorld (w_db w) r).

Definition statement {A} (f : VaultFile -> A * VaultFile) : M World A :=
  on_db (db_call raw_error f).
Definition query {A} (f : VaultFile -> A) : M World A := statement (fun t => (f t, t)).
Definition exec (f : VaultFile -> VaultFile) : M World unit := statement (fun t => (tt, f t)).

(** [Beginx ... Commit]: after an error, of the commit too, the file is as it
    was.  That a failing commit leaves nothing is an assumption on the driver:
    go-sqlite3 answers a failing COMMIT with a ROLLBACK, since database/sql takes
    the transaction to be over.  An error of the rollback itself is only logged. *)
Definition with_tx {A} (body : M World A) : M World A := fun w =>
  match exec (fun t => t) w with
  | (Err e, w1) => (Err e, w1)
  | (Ok _, w1) =>
      let rollback w2 :=
        mkWorld (mkDB (db_data (w_db w1)) (db_faults (w_db w2))) (w_rnd w2) in
      match body w1 with
      | (Err e, w2) => (Err e, rollback w2)
      | (Ok a, w2) =>
          match exec (fun t => t) w2 with
          | (Err e, w3) => (Err e, rollback w3)
          | (Ok _, w3) => (Ok a, w3)
          end
      end
  end.

(** [Format(time.RFC3339)]: whole seconds. *)
Definition rfc3339 (t : time) : time := (t / Second * Second)%Z.

Definition set_status (st : DbStatus) (t : VaultFile) : VaultFile :=
  mkVaultFile (Some st) (vf_values t) (vf_seq t).
Definition set_value (id : Z) (v : string) (t : VaultFile) : VaultFile :=
  mkVaultFile (vf_status t) (alter (sv_with_value v) id (vf_values t)) (vf_seq t).

(** [SELECT ... LIMIT 1] by key and client, and the unique index on them. *)
Definition same_slot (key clientID : string) (sv : StoredValue) : bool :=
  String.eqb (iv_Key (sv_Input sv)) key && String.eqb (iv_ClientID (sv_Input sv)) clientID.
Definition find_slot (key clientID : string) (t : VaultFile) : option StoredValue :=
  snd <$> head (filter (fun kv => same_slot key clientID kv.2 = true) (map_to_list (vf_values t))).
Definition slot_taken_by_other (id : Z) (iv : InputValue) (values : gmap Z StoredValue) : bool :=
  existsb (fun kv => negb (kv.1 =? id)%Z && same_slot (iv_Key iv) (iv_ClientID iv) kv.2)
    (map_to_list values).

(** The INSERT and the UPDATE of [Save]: [None] when the index is violated. *)
Definition insert_value (user : string) (val : InputValue) (nowDate : time) (t : VaultFile)
    : option Z * VaultFile :=
  let id := (vf_seq t + 1)%Z in
  if slot_taken_by_other 0 val (vf_values t) then (None, t)
  else (Some id, mkVaultFile (vf_status t)
          (<[id := mkStoredValue val id (rfc3339 nowDate) (rfc3339 nowDate) user user]> (vf_values t)) id).

Definition update_value (user : string) (id : Z) (val : InputValue) (nowDate : time)
    (t : VaultFile) : option Z * VaultFile :=
  match vf_values t !! id with
  | None => (Some id, t)
  | Some old =>
      if slot_taken_by_other id val (vf_values t) then (None, t)
      else (Some id, mkVaultFile (vf_status t)
              (<[id := mkStoredValue val (sv_ID old) (sv_CreatedAt old) (rfc3339 nowDate)
                         (sv_CreatedBy old) user]> (vf_values t)) (vf_seq t))
  end.

Section Sqlite.
Context `{gcm : !AesGcm} (enc : Envelope).
(** SQLite evaluating a SELECT on the rows of [values]. *)
Context (run_select : string * list string -> gmap Z StoredValue -> list StoredValue).

Definition wrap (v : string) : M World string :=
  if String.eqb v "" then ret "" else on_rnd (Envelope_Encrypt enc v).

Definition unwrap (v : string) : result string := Envelope_Decrypt enc v.

Definition unwrap_value (found : option StoredValue) : M World (option StoredValue) :=
  match found with
  | None => ret None
  | Some val =>
      v <- lift (unwrap (iv_Value (sv_Input val))) ;;
      ret (Some (sv_with_value v val))
  end.

Definition wrap_status : M World unit :=
  st <- query vf_status ;;
  match st with
  | None => ret tt
  | Some st =>
      encCheck <- query (fun _ => EncCheckValue st) ;;
      when (negb (String.eqb encCheck "") && negb (IsEncrypted encCheck)) (
        wrapped <- on_rnd (Envelope_Encrypt enc encCheck) ;;
        exec (set_status (mkDbStatus (StatusName st) wrapped (KDF st))))
  end.

Definition wrap_row : Z * StoredValue -> M World unit := fun '(id, row) =>
  let v := iv_Value (sv_Input row) in
  when (negb (String.eqb v "" || IsEncrypted v)) (
    w <- on_rnd (Envelope_Encrypt enc v) ;;
    exec (set_value id w)).

Definition wrapExistingSecrets : M World unit :=
  when (Enabled enc) (with_tx (
    wrap_status ;;;
    rows <- query (fun t => map_to_list (vf_values t)) ;;
    for_each wrap_row rows)).

(** [opened] is the outcome of opening and migrating the file. *)
Definition NewSqliteProvider (opened : result unit) : M World unit :=
  on_error (fun e => match e with
                     | EPlain msg => wrapf "failed init vault DB instance" msg
                     | _ => e end) (lift opened) ;;;
  wrapExistingSecrets.

Definition Sqlite_GetStatus : M World DbStatus :=
  st <- query vf_status ;;
  match st with
  | None => ret (mkDbStatus "" "" "")
  | Some st =>
      v <- lift (unwrap (EncCheckValue st)) ;;
      ret (mkDbStatus (StatusName st) v (KDF st))
  end.

Definition Sqlite_SetStatus (newStatus : DbStatus) : M World unit :=
  encCheck <- wrap (EncCheckValue newStatus) ;;
  with_tx (
    _ <- query vf_status ;;
    exec (set_status (mkDbStatus (StatusName newStatus) encCheck (KDF newStatus)))).

Definition Sqlite_GetByID (id : Z) : M World (option StoredValue) :=
  val <- query (fun t => vf_values t !! id) ;; unwrap_value val.

Definition Sqlite_FindByKeyAndClientID (key clientID : string) : M World (option StoredValue) :=
  val <- query (find_slot key clientID) ;; unwrap_value val.

Definition Sqlite_List (lo : ListOptions) : M World (list StoredValue) :=
  let q := ConvertListOptionsToQuery false (Some lo)
    "SELECT `id`, `client_id`, `created_by`, `created_at`, `key` FROM `values`" in
  query (fun t => run_select q (vf_values t)).

Definition Sqlite_Save (user : string) (idToUpdate : Z) (val : InputValue) (nowDate : time)
    : M World Z :=
  storedValue <- wrap (iv_Value val) ;;
  let row := with_value storedValue val in
  saved <- statement (if (idToUpdate =? 0)%Z then insert_value user row nowDate
                      else update_value user idToUpdate row nowDate) ;;
  match saved with
  | Some id => ret id
  | None => fail (EPlain "UNIQUE constraint failed: values.client_id, values.key")
  end.

Definition Sqlite_Delete (id : Z) : M World unit :=
  affected <- statement (fun t =>
    (bool_decide (is_Some (vf_values t !! id)),
     mkVaultFile (vf_status t) (delete id (vf_values t)) (vf_seq t))) ;;
  if (affected : bool) then ret tt
  else fail (EPlain ("cannot find entry by id " +:+ Itoa id)).

Definition rekey_row (transform : string -> M RandSrc string) : Z * StoredValue -> M World unit :=
  fun '(id, row) =>
    oldValue <- lift (unwrap (iv_Value (sv_Input row))) ;;
    newValue <- on_rnd (transform oldValue) ;;
    storedValue <- wrap newValue ;;
    exec (set_value id storedValue).

Definition rekey_status (newKDF wrappedEncCheck : string) : M World unit :=
  affected <- statement (fun t =>
    match vf_status t with
    | None => (false, t)
    | Some st => (true, set_status (mkDbStatus (StatusName st) wrappedEncCheck newKDF) t)
    end) ;;
  if (affected : bool) then ret tt
  else fail (EPlain "re-key: vault status row is missing").

(** The closing VACUUM only logs its error. *)
Definition Sqlite_ReKey (transform : string -> M RandSrc string) (newKDF newEncCheck : string)
    : M World unit :=
  with_tx (
    rows <- query (fun t => map_to_list (vf_values t)) ;;
    for_each (rekey_row transform) rows ;;;
    wrappedEncCheck <- wrap newEncCheck ;;
    rekey_status newKDF wrappedEncCheck) ;;;
  _ <- try (exec (fun t => t)) ;;
  ret tt.

End Sqlite.

(** ** dbProvider.go and manager.go *)

(** [m_open]: the factory holds a [SqliteProvider] and not the
    [NotInitDbProvider]; [m_key]: the key in memory, empty while locked. *)
Record Manager := mkManager {
  m_world : World;
  m_open : bool;
  m_key : string
}.

Definition set_key (k : string) (m : Manager) : Manager := mkManager (m_world m) (m_open m) k.

Definition errNotInitialised : string := "vault is not initialized yet".
Definition ErrDatabaseNotInitialised : go_error :=
  EAPI (mkAPIError "" (Some errNotInitialised) StatusConflict "").
Definition is_not_initialised (e : go_error) : bool :=
  match e with
  | EAPI ae => bool_decide (ErrDetail ae = Some errNotInitialised)
  | _ => false
  end.

Definition WrongPasswordError : go_error :=
  EAPI (api_error StatusUnauthorized "wrong password provided").
Definition conflict (msg : string) : go_error := EAPI (api_error StatusConflict msg).

(** A call on [GetDbProvider()]: every method of [NotInitDbProvider] answers
    with the same error. *)
Definition on_provider {A} (p : M World A) : M Manager A := fun m =>
  if m_open m then zoom m_world (fun w m => mkManager w (m_open m) (m_key m)) p m
  else (Err ErrDatabaseNotInitialised, m).

Record VaultUser := mkVaultUser { vu_Username : string; vu_Groups : list string }.

Section Manager.
Context `{gcm : !AesGcm, kdfs : !KDFs} (enc : Envelope).
Context (run_select : string * list string -> gmap Z StoredValue -> list StoredValue).

(** [StatefulDbProviderFactory.Init]. *)
Definition factory_Init (opened : result unit) : M Manager unit := fun m =>
  match NewSqliteProvider enc opened (m_world m) with
  | (Ok _, w) => (Ok tt, mkManager w true (m_key m))
  | (Err e, w) => (Err e, mkManager w (m_open m) (m_key m))
  end.

(** [NewAPIListener] at a server start: the key is not in memory, an existing
    file is opened. *)
Definition startup (exist : bool) (opened : result unit) : M Manager unit :=
  modify (fun m => mkManager (m_world m) false "") ;;;
  when exist (factory_Init opened).

Definition on_manager_rnd {A} (r : M RandSrc A) : M Manager A :=
  zoom m_world (fun w m => mkManager w (m_open m) (m_key m)) (on_rnd r).

Definition IsLocked (m : Manager) : bool := String.eqb (m_key m) "".

Definition isDatabaseInitialized : M Manager bool :=
  st <- try (on_provider (Sqlite_GetStatus enc)) ;;
  match st with
  | Err e => if is_not_initialised e then ret false else fail e
  | Ok dbStatus => ret (String.eqb (StatusName dbStatus) DbStatusInit)
  end.

(** [Init] takes no lock across its steps: the check, the write of the status
    and the assignment of the key are separate. *)
Definition Init_check (pass : string) : M Manager unit :=
  lift (ValidatePass pass) ;;;
  isInit <- isDatabaseInitialized ;;
  if (isInit : bool) then fail (conflict "vault is already initialized") else ret tt.

Definition Init_store (opened : result unit) (pass : string) : M Manager string :=
  factory_Init opened ;;;
  status <- on_manager_rnd (NewStatusFor pass) ;;
  let '(kdf, encCheck, key) := status in
  on_provider (Sqlite_SetStatus enc (mkDbStatus DbStatusInit encCheck kdf)) ;;;
  ret key.

Definition Vault_Init (opened : result unit) (pass : string) : M Manager unit :=
  Init_check pass ;;;
  key <- Init_store opened pass ;;
  modify (set_key key).

(** Re-encryption of one stored value. *)
Definition rekey_transform (oldKey newKey oldValue : string) : M RandSrc string :=
  if String.eqb oldValue "" then ret ""
  else
    plain <- on_error (envelope_error "re-key: failed to decrypt a stored value")
               (lift (Aes256DecryptByKeyFromBase64String oldValue oldKey)) ;;
    Aes256EncryptByKeyToBase64String plain newKey.

Definition rekeyLegacyVault (oldKey pass : string) : M Manager string :=
  status <- on_manager_rnd (NewStatusFor pass) ;;
  let '(newKDF, newEncCheck, newKey) := status in
  on_provider (Sqlite_ReKey enc (rekey_transform oldKey newKey) newKDF newEncCheck) ;;;
  ret newKey.

Definition not_yet_initialized (st : DbStatus) : bool :=
  String.eqb (StatusName st) "" || String.eqb (StatusName st) DbStatusNotInit.

Definition UnLock (pass : string) : M Manager unit :=
  locked <- gets IsLocked ;;
  if negb locked then fail (conflict "vault is already unlocked")
  else
    dbStatus <- on_provider (Sqlite_GetStatus enc) ;;
    if not_yet_initialized dbStatus then fail (conflict "vault is not yet initialized")
    else
      derived <- lift (DeriveKey dbStatus pass) ;;
      let '(key, legacy) := derived in
      if negb (Verify dbStatus key) then fail WrongPasswordError
      else
        key <- (if (legacy : bool) then rekeyLegacyVault key pass else ret key) ;;
        modify (set_key key).

Definition Lock : M Manager unit :=
  locked <- gets IsLocked ;;
  if (locked : bool) then fail (conflict "vault is already locked")
  else
    dbStatus <- on_provider (Sqlite_GetStatus enc) ;;
    if not_yet_initialized dbStatus then fail (conflict "vault is not yet initialized")
    else modify (set_key "").

Definition Status : M Manager StatusReport :=
  st <- try (on_provider (Sqlite_GetStatus enc)) ;;
  dbStatus <- match st with
              | Ok dbStatus => ret dbStatus
              | Err e => if is_not_initialised e then ret (mkDbStatus "" "" "") else fail e
              end ;;
  let name := if String.eqb (StatusName dbStatus) "" then DbStatusNotInit
              else StatusName dbStatus in
  if String.eqb name DbStatusNotInit then ret (mkStatusReport name "")
  else locked <- gets IsLocked ;;
       ret (mkStatusReport name (if (locked : bool) then StatusLocked else StatusUnlocked)).

Definition checkUnlockedAndInitialized : M Manager unit :=
  locked <- gets IsLocked ;;
  if (locked : bool) then fail (conflict "vault is locked")
  else
    isInit <- isDatabaseInitialized ;;
    if (isInit : bool) then ret tt else fail (conflict "vault is not initialized").

Definition supportedFields : fieldset :=
  list_to_map ((fun f => (f, true)) <$> ["id"; "client_id"; "created_by"; "created_at"; "key"]).

Definition Vault_List (url_query : url_values) : M Manager (list StoredValue) :=
  checkUnlockedAndInitialized ;;;
  match ValidateListOptions (GetListOptions url_query) supportedFields supportedFields None None with
  | (_, Some errs) => fail (EAPIs errs)
  | (lo, None) => on_provider (Sqlite_List run_select lo)
  end.

Definition group_allows (val : StoredValue) (user : VaultUser) : bool :=
  let required := iv_RequiredGroup (sv_Input val) in
  String.eqb required "" || existsb (String.eqb required) (vu_Groups user).

Definition checkGroupAccess (val : StoredValue) (user : VaultUser) : result unit :=
  if group_allows val user then Ok tt
  else Err (EAPI (api_error StatusForbidden "your group doesn't allow access to this value")).

Definition GetOne (id : Z) (user : VaultUser) : M Manager (option StoredValue) :=
  checkUnlockedAndInitialized ;;;
  val <- on_provider (Sqlite_GetByID enc id) ;;
  match val with
  | None => ret None
  | Some val =>
      lift (checkGroupAccess val user) ;;;
      key <- gets m_key ;;
      decryptedValue <- lift (Aes256DecryptByKeyFromBase64String (iv_Value (sv_Input val)) key) ;;
      ret (Some (sv_with_value decryptedValue val))
  end.

Definition Store (now : time) (existingID : Z) (valueToStore : InputValue) (user : VaultUser)
    : M Manager Z :=
  checkUnlockedAndInitialized ;;;
  lift (Validate valueToStore) ;;;
  storedValue <- on_provider
    (Sqlite_FindByKeyAndClientID enc (iv_Key valueToStore) (iv_ClientID valueToStore)) ;;
  (if (0 <? existingID)%Z then
     val <- on_provider (Sqlite_GetByID enc existingID) ;;
     match val with
     | None => fail (EAPI (api_error StatusNotFound "cannot find entry by the provided existingID"))
     | Some val => lift (checkGroupAccess val user)
     end
   else ret tt) ;;;
  if match storedValue with
     | Some sv => (existingID =? 0)%Z || negb (sv_ID sv =? existingID)%Z
     | None => false end
  then fail (conflict ("another key '" +:+ iv_Key valueToStore +:+ "' exists for this client '"
                       +:+ iv_ClientID valueToStore +:+ "'"))
  else
    key <- gets m_key ;;
    encValue <- on_manager_rnd (Aes256EncryptByKeyToBase64String (iv_Value valueToStore) key) ;;
    on_provider (Sqlite_Save enc (vu_Username user) existingID (with_value encValue valueToStore) now).

Definition Vault_Delete (id : Z) (user : VaultUser) : M Manager unit :=
  checkUnlockedAndInitialized ;;;
  storedValue <- on_provider (Sqlite_GetByID enc id) ;;
  match storedValue with
  | None => fail (EAPI (api_error StatusNotFound "cannot find this entry by the provided id"))
  | Some val =>
      lift (checkGroupAccess val user) ;;;
      on_provider (Sqlite_Delete id)
  end.

End Manager.

(** ** What the vault promises *)

(** An abstract vault: its passphrase once it is initialised, whether it is
    locked, the secrets in the clear and the last id given out. *)
Record AVault := mkAVault {
  a_pass : option string;
  a_locked : bool;
  a_vals : gmap Z StoredValue;
  a_next : Z
}.

Inductive vault_op :=
  | OInit (opened : result unit) (pass : string)
  | OUnLock (pass : string)
  | OLock
  | OStatus
  | OGetOne (id : Z) (user : VaultUser)
  | OStore (now : time) (existingID : Z) (iv : InputValue) (user : VaultUser)
  | ODelete (id : Z) (user : VaultUser).

Inductive vault_ans :=
  | ADone
  | AReport (r : StatusReport)
  | AValue (found : option StoredValue)
  | AId (id : Z).

Definition run_op `{!AesGcm, !KDFs} (enc : Envelope) (op : vault_op) : M Manager vault_ans :=
  match op with
  | OInit opened pass => Vault_Init enc opened pass ;;; ret ADone
  | OUnLock pass => UnLock enc pass ;;; ret ADone
  | OLock => Lock enc ;;; ret ADone
  | OStatus => r <- Status enc ;; ret (AReport r)
  | OGetOne id user => v <- GetOne enc id user ;; ret (AValue v)
  | OStore now id iv user => id <- Store enc now id iv user ;; ret (AId id)
  | ODelete id user => Vault_Delete enc id user ;;; ret ADone
  end.

(** An answer, or the HTTP status of an error (api_responses.go). *)
Definition answer {A} (r : result A) : A + Z :=
  match r with
  | Ok a => inl a
  | Err (EAPI ae) | Err (EAPIs (ae :: _)) => inr (HTTPStatus ae)
  | Err _ => inr StatusInternalServerError
  end.

Definition spec_store (now : time) (id : Z) (iv : InputValue) (user : VaultUser) (a : AVault)
    : (vault_ans + Z) * AVault :=
  let refused code := (inr code, a) in
  let stored id' sv next :=
    (inl (AId id'), mkAVault (a_pass a) (a_locked a) (<[id' := sv]> (a_vals a)) next) in
  if a_locked a then refused StatusConflict
  else if negb (is_ok (Validate iv)) then refused StatusBadRequest
  else match a_vals a !! id with
       | None =>
           if (0 <? id)%Z then refused StatusNotFound
           else if slot_taken_by_other id iv (a_vals a) then refused StatusConflict
           else if (id =? 0)%Z then
             let id' := (a_next a + 1)%Z in
             stored id' (mkStoredValue iv id' (rfc3339 now) (rfc3339 now)
               (vu_Username user) (vu_Username user)) id'
           else (inl (AId id), a)
       | Some old =>
           if negb (group_allows old user) then refused StatusForbidden
           else if slot_taken_by_other id iv (a_vals a) then refused StatusConflict
           else stored id (mkStoredValue iv (sv_ID old) (sv_CreatedAt old) (rfc3339 now)
                  (sv_CreatedBy old) (vu_Username user)) (a_next a)
       end.

Definition spec_op (op : vault_op) (a : AVault) : (vault_ans + Z) * AVault :=
  let refused code := (inr code, a) in
  match op with
  | OInit _ pass =>
      if negb (is_ok (ValidatePass pass)) then refused StatusBadRequest
      else match a_pass a with
           | Some _ => refused StatusConflict
           | None => (inl ADone, mkAVault (Some pass) false (a_vals a) (a_next a))
           end
  | OUnLock pass =>
      if negb (a_locked a) then refused StatusConflict
      else match a_pass a with
           | None => refused StatusConflict
           | Some secret =>
               if String.eqb pass "" then refused StatusInternalServerError
               else if String.eqb pass secret
               then (inl ADone, mkAVault (a_pass a) false (a_vals a) (a_next a))
               else refused StatusUnauthorized
           end
  | OLock =>
      if a_locked a then refused StatusConflict
      else (inl ADone, mkAVault (a_pass a) true (a_vals a) (a_next a))
  | OStatus =>
      (inl (AReport match a_pass a with
            | None => mkStatusReport DbStatusNotInit ""
            | Some _ => mkStatusReport DbStatusInit
                          (if a_locked a then StatusLocked else StatusUnlocked)
            end), a)
  | OGetOne id user =>
      if a_locked a then refused StatusConflict
      else match a_vals a !! id with
           | None => (inl (AValue None), a)
           | Some sv => if group_allows sv user then (inl (AValue (Some sv)), a)
                        else refused StatusForbidden
           end
  | OStore now id iv user => spec_store now id iv user a
  | ODelete id user =>
      if a_locked a then refused StatusConflict
      else match a_vals a !! id with
           | None => refused StatusNotFound
           | Some sv =>
               if group_allows sv user
               then (inl ADone, mkAVault (a_pass a) (a_locked a) (delete id (a_vals a)) (a_next a))
               else refused StatusForbidden
           end
  end.

(** ** Properties *)

(** C26: A key derivation descriptor survives storage and cannot be weakened in
    it: every descriptor [encodeKDF] writes for usable parameters parses back to
    them, and whatever text [parseKDF] accepts has three parts, a salt and
    costs that are positive and fit the types they are used at. *)
Theorem kdf_descriptor_roundtrip p s p' :
  (valid_kdf p -> count_byte "$" (kp_algo p) = 0 -> parseKDF (encodeKDF p) = Ok p) /\
  (parseKDF s = Ok p' ->
     valid_kdf p' /\ count_byte "$" (kp_algo p') = 0 /\ exists params b64,
       s = kp_algo p' +:+ "$" +:+ params +:+ "$" +:+ b64 /\ DecodeString b64 = Ok (kp_salt p')).
Proof.
  split; [apply parse_encodeKDF|]. intros Hp. unfold parseKDF in Hp.
  destruct (Split s "$") as [|algo [|params [|b64 [|]]]] eqn:Es; try done.
  destruct (parse_kdf_params _ _) as [[[[m|] [t|]] [th|]]|] eqn:Ek; cbn [result_bind] in Hp; try done.
  destruct (_ || _) eqn:Eb; [done|]. rewrite !orb_false_iff, !Z.eqb_neq, Z.ltb_ge in Eb.
  destruct (DecodeString b64) as [salt|] eqn:Ed; [|done].
  destruct (String.eqb_spec salt "") as [|Hs]; [done|]. injection Hp as <-; cbn.
  apply parse_kdf_params_range in Ek as ([] & [] & []); [|done..]. split_and!.
  - split; cbn; [lia..|done].
  - apply (Split_elem_no_sep s). rewrite Es. left.
  - exists params, b64. split; [|done]. rewrite <-(Join_Split s "$"), Es. done.
Qed.

Lemma kdf_descriptor_roundtrip_witness :
  parseKDF "argon2id$m=65536,t=3,p=4$c2FsdA==" = Ok (mkKDFParams "argon2id" "salt" 3 65536 4) /\
  valid_kdf (mkKDFParams "argon2id" "salt" 3 65536 4).
Proof.
  split.
  - change "argon2id$m=65536,t=3,p=4$c2FsdA=="
      with (encodeKDF (mkKDFParams "argon2id" "salt" 3 65536 4)).
    apply (kdf_descriptor_roundtrip _ "" (mkKDFParams "" "" 0 0 0)); [|by vm_compute].
    by split; vm_compute.
  - apply (kdf_descriptor_roundtrip (mkKDFParams "" "" 0 0 0)
      "argon2id$m=65536,t=3,p=4$c2FsdA=="). by vm_compute.
Defined.
