(* ===== verification/VaultSpec.v ===== *)
(** * The vault implements its specification

    [rep] relates the manager, its file and the key in memory to an abstract
    vault; every operation is shown to act on the abstract vault as
    [Vault.spec_op] says, whatever the driver and the random source do. *)

From stdpp Require Import base gmap fin_maps strings list numbers sets.
From Stdlib Require Import ZArith Ascii Lia.
From S2P Require Import Prelude GoStrings Db Enc Query Vault.

Local Open Scope string_scope.

(** ** What every step keeps *)

(** The random source stays the same source; faults are not invented. *)
Definition frame (w w' : World) : Prop :=
  rs_draw (w_rnd w') = rs_draw (w_rnd w) /\
  (db_faults (w_db w) = [] -> db_faults (w_db w') = []).

Definition framed {A} (m : M World A) : Prop :=
  forall w r w', m w = (r, w') -> frame w w'.

(** Nothing fails by itself. *)
Definition whealthy (w : World) : Prop :=
  db_faults (w_db w) = [] /\ never_fails (w_rnd w).

Definition wdata (w : World) : VaultFile := db_data (w_db w).

(** Steps that do not write to the file. *)
Definition quiet (w w' : World) : Prop := frame w w' /\ wdata w' = wdata w.

Lemma frame_refl w : frame w w.
Proof. done. Qed.

Lemma frame_trans w1 w2 w3 : frame w1 w2 -> frame w2 w3 -> frame w1 w3.
Proof. intros [H1 H2] [H3 H4]. split; [congruence|auto]. Qed.

Lemma quiet_refl w : quiet w w.
Proof. done. Qed.

Lemma quiet_trans w1 w2 w3 : quiet w1 w2 -> quiet w2 w3 -> quiet w1 w3.
Proof. intros [H1 H2] [H3 H4]. split; [by eapply frame_trans|congruence]. Qed.

Lemma frame_healthy w w' : frame w w' -> whealthy w -> whealthy w'.
Proof.
  intros [Hd Hf] [H1 H2]. split; [auto|]. unfold never_fails. by rewrite Hd.
Qed.

Lemma frame_fills w w' : frame w w' -> fills_buffers (w_rnd w) -> fills_buffers (w_rnd w').
Proof. intros [Hd _]. unfold fills_buffers. by rewrite Hd. Qed.

#[export] Hint Resolve frame_refl frame_trans quiet_refl quiet_trans frame_healthy frame_fills : proxi.

(** Carries health and well-behaved randomness along the frames in sight. *)
Ltac along_frames :=
  repeat match goal with
    | Hq : quiet ?a ?b |- _ =>
        lazymatch goal with _ : frame a b |- _ => fail | _ => pose proof (proj1 Hq) end
    | Hf : frame ?a ?b, Hw : whealthy ?a |- _ =>
        lazymatch goal with _ : whealthy b |- _ => fail | _ => pose proof (frame_healthy a b Hf Hw) end
    | Hf : frame ?a ?b, Hw : fills_buffers (w_rnd ?a) |- _ =>
        lazymatch goal with
        | _ : fills_buffers (w_rnd b) |- _ => fail
        | _ => pose proof (frame_fills a b Hf Hw) end
  end.

(** Closes a goal that blames a fault: some later state was not healthy. *)
Ltac blame_fault :=
  match goal with |- ~ whealthy _ => let Hw := fresh in intros Hw; along_frames; done end.

Lemma framed_ret {A} (a : A) : framed (ret a).
Proof. by intros w r w' [= <- <-]. Qed.

Lemma framed_fail {A} e : framed (@fail _ A e).
Proof. by intros w r w' [= <- <-]. Qed.

Lemma framed_lift {A} (a : result A) : framed (lift a).
Proof. by intros w r w' [= <- <-]. Qed.

Lemma framed_bind {A B} (m : M World A) (k : A -> M World B) :
  framed m -> (forall a, framed (k a)) -> framed (bind m k).
Proof.
  intros Hm Hk w r w' [(a & w1 & H1 & H2)|(e & H1 & ->)]%bind_inv; [|by eapply Hm].
  eapply frame_trans; [by eapply Hm|by eapply Hk].
Qed.

Lemma framed_for_each {A} (f : A -> M World unit) l :
  (forall a, framed (f a)) -> framed (for_each f l).
Proof.
  intros Hf. induction l as [|a l IH]; cbn [for_each]; [apply framed_ret|].
  by apply framed_bind.
Qed.

Lemma framed_when b (m : M World unit) : framed m -> framed (when b m).
Proof. destruct b; [done|]. intros _. apply framed_ret. Qed.

Lemma framed_try {A} (m : M World A) : framed m -> framed (try m).
Proof. intros Hm w r w' (a & -> & H)%try_inv. by eapply Hm. Qed.

Lemma framed_on_rnd {A} (m : M RandSrc A) :
  (forall s r s', m s = (r, s') -> rs_draw s' = rs_draw s) -> framed (on_rnd m).
Proof. intros Hm w r w' (t & H & ->)%zoom_inv. apply Hm in H. by split. Qed.

Lemma statement_inv {A} (f : VaultFile -> A * VaultFile) w r w' :
  statement f w = (r, w') ->
  frame w w' /\ w_rnd w' = w_rnd w /\
  ((r = Ok (fst (f (wdata w))) /\ wdata w' = snd (f (wdata w))) \/
   (exists e, r = Err e /\ wdata w' = wdata w /\ ~ whealthy w)).
Proof.
  unfold statement, on_db. intros (db & H & ->)%zoom_inv. unfold wdata, frame, whealthy; cbn.
  assert (Hf : db_faults (w_db w) = [] -> db_faults db = []).
  { unfold db_call in H. intros Hf. rewrite Hf in H. destruct (f _) as [? ?]. by injection H as <- <-. }
  split; [by split|]. split; [done|].
  unfold db_call in H. destruct (db_faults (w_db w)) as [|[msg|] fs]; try destruct (f _) as [a t] eqn:E;
    injection H as <- <-; cbn; [by left| |by left].
  right. eexists. split_and!; [done..|]. by intros [? _].
Qed.

Lemma framed_statement {A} (f : VaultFile -> A * VaultFile) : framed (statement f).
Proof. by intros w r w' [H _]%statement_inv. Qed.

Lemma query_inv {A} (f : VaultFile -> A) w r w' :
  query f w = (r, w') -> quiet w w' /\
  (r = Ok (f (wdata w)) \/ exists e, r = Err e /\ ~ whealthy w).
Proof.
  intros (Hf & _ & [[-> Hd]|(e & -> & Hd & Hh)])%statement_inv; repeat split; eauto; apply Hf.
Qed.

Lemma exec_inv f w r w' :
  exec f w = (r, w') -> frame w w' /\
  ((r = Ok tt /\ wdata w' = f (wdata w)) \/
   (exists e, r = Err e /\ wdata w' = wdata w /\ ~ whealthy w)).
Proof. by intros (Hf & _ & H)%statement_inv. Qed.

(** A transaction runs its body and keeps what it wrote, or keeps nothing. *)
Lemma with_tx_inv {A} (body : M World A) w r w' :
  framed body -> with_tx body w = (r, w') -> frame w w' /\
  ((exists w1 w2 a, quiet w w1 /\ body w1 = (Ok a, w2) /\ r = Ok a /\ wdata w' = wdata w2) \/
   (exists e, r = Err e /\ wdata w' = wdata w /\
      (~ whealthy w \/ exists w1 w2, quiet w w1 /\ body w1 = (Err e, w2)))).
Proof.
  intros Hb. unfold with_tx. destruct (exec _ w) as [r1 w1] eqn:E1.
  apply exec_inv in E1 as [Hf1 [[-> Hd1]|(e & -> & Hd1 & Hh1)]]; cycle 1.
  { intros [= <- <-]. eauto 10. }
  assert (Hq : quiet w w1) by by split.
  destruct (body w1) as [[a|e] w2] eqn:E2.
  - pose proof (Hb _ _ _ E2) as Hf2. destruct (exec _ w2) as [r3 w3] eqn:E3.
    apply exec_inv in E3 as [Hf3 [[-> Hd3]|(e & -> & Hd3 & Hh3)]]; intros [= <- <-].
    + split; [eauto with proxi|]. left. exists w1, w2, a. by rewrite Hd3.
    + split; [|right; exists e; split_and!; [done..|left]; eauto with proxi].
      apply (frame_trans w w3); [eauto with proxi|done].
  - pose proof (Hb _ _ _ E2) as Hf2. intros [= <- <-].
    split; [apply (frame_trans w w2); [eauto with proxi|done]|].
    right. exists e. split_and!; [done..|]. right. eauto.
Qed.

Lemma framed_with_tx {A} (body : M World A) : framed body -> framed (with_tx body).
Proof. by intros Hb w r w' [H _]%with_tx_inv. Qed.

#[export] Hint Resolve framed_ret framed_fail framed_lift framed_bind framed_for_each framed_when
  framed_try framed_statement framed_with_tx : proxi.

(** ** The provider *)

Section Provider.
Context `{gcm : !AesGcm, gcm_spec : !AesGcmSpec} (enc : Envelope).

(** The envelope's key, if there is one, is an AES-256 key. *)
Definition envelope_key_ok : Prop := dek enc = "" \/ String.length (dek enc) = 32.
Context (Hdek : envelope_key_ok).

Lemma framed_encrypt v : framed (on_rnd (Envelope_Encrypt enc v)).
Proof. apply framed_on_rnd. intros s r s'. apply Envelope_draws. Qed.

Lemma framed_wrap v : framed (wrap enc v).
Proof. unfold wrap. destruct (String.eqb v ""); [apply framed_ret|apply framed_encrypt]. Qed.

(** Sealing either fails for want of randomness or gives what unseals again. *)
Lemma seal_inv v w r w' : fills_buffers (w_rnd w) -> IsEncrypted v = false \/ Enabled enc = true ->
  on_rnd (Envelope_Encrypt enc v) w = (r, w') -> quiet w w' /\
  ((exists c, r = Ok c /\ unwrap enc c = Ok v) \/ (exists e, r = Err e /\ ~ whealthy w)).
Proof.
  intros Hf Hv Hrun. pose proof (framed_encrypt _ _ _ _ Hrun) as Hfr.
  apply zoom_inv in Hrun as (rs & Hrun & ->). split; [by split|].
  destruct r as [c|e].
  - left. exists c. split; [done|]. by eapply Envelope_decrypts.
  - right. exists e. split; [done|]. intros [_ Hn].
    destruct (Envelope_total enc v (w_rnd w) Hn Hdek) as (c & r' & E). congruence.
Qed.

Lemma wrap_inv v w r w' : fills_buffers (w_rnd w) -> IsEncrypted v = false ->
  wrap enc v w = (r, w') -> quiet w w' /\
  ((exists c, r = Ok c /\ unwrap enc c = Ok v) \/ (exists e, r = Err e /\ ~ whealthy w)).
Proof.
  intros Hf Hv. unfold wrap. destruct (String.eqb_spec v "") as [->|_].
  - intros [= <- <-]. split; [done|]. left. eauto.
  - apply seal_inv; eauto.
Qed.

(** What the status row and a row of [values] hold, the envelope peeled off. *)
Definition read_status (f : VaultFile) : result DbStatus :=
  match vf_status f with
  | None => Ok (mkDbStatus "" "" "")
  | Some st => let! v := unwrap enc (EncCheckValue st) in Ok (mkDbStatus (StatusName st) v (KDF st))
  end.

Definition read_value (found : option StoredValue) : result (option StoredValue) :=
  match found with
  | None => Ok None
  | Some sv => let! v := unwrap enc (iv_Value (sv_Input sv)) in Ok (Some (sv_with_value v sv))
  end.

Lemma GetStatus_inv w r w' : Sqlite_GetStatus enc w = (r, w') ->
  quiet w w' /\ (r = read_status (wdata w) \/ exists e, r = Err e /\ ~ whealthy w).
Proof.
  unfold Sqlite_GetStatus, read_status.
  intros [(st & w1 & H1 & H2)|(e & H1 & ->)]%bind_inv; apply query_inv in H1 as [Hq [[= ->]|He]].
  - destruct (vf_status (wdata w)) as [st|]; [|injection H2 as <- <-; eauto].
    unfold bind, lift, ret in H2. destruct (unwrap _ _); injection H2 as <- <-; eauto.
  - by destruct He as (? & ? & ?).
  - destruct He as (? & [= <-] & ?). eauto.
Qed.

Lemma read_query_inv (f : VaultFile -> option StoredValue) w r w' :
  bind (query f) (unwrap_value enc) w = (r, w') ->
  quiet w w' /\ (r = read_value (f (wdata w)) \/ exists e, r = Err e /\ ~ whealthy w).
Proof.
  intros [(st & w1 & H1 & H2)|(e & H1 & ->)]%bind_inv; apply query_inv in H1 as [Hq [[= ->]|He]].
  - unfold unwrap_value, read_value in *. destruct (f (wdata w)) as [sv|]; [|injection H2 as <- <-; eauto].
    unfold bind, lift, ret in H2. destruct (unwrap _ _); injection H2 as <- <-; eauto.
  - by destruct He as (? & ? & ?).
  - destruct He as (? & [= <-] & ?). eauto.
Qed.

Lemma SetStatus_inv st w r w' : fills_buffers (w_rnd w) -> IsEncrypted (EncCheckValue st) = false ->
  Sqlite_SetStatus enc st w = (r, w') -> frame w w' /\
  ((exists c, r = Ok tt /\ unwrap enc c = Ok (EncCheckValue st) /\
      wdata w' = set_status (mkDbStatus (StatusName st) c (KDF st)) (wdata w)) \/
   (exists e, r = Err e /\ wdata w' = wdata w /\ ~ whealthy w)).
Proof.
  intros Hf Hv. unfold Sqlite_SetStatus.
  intros [(c & w1 & H1 & H2)|(e & H1 & ->)]%bind_inv;
    apply wrap_inv in H1 as [[Hfr Hd] Hr]; [|done..| |done|done].
  - destruct Hr as [(c' & [= <-] & Hc)|(e & [=] & _)].
    apply with_tx_inv in H2 as [Hfr2 Hr]; [|eauto 6 with proxi].
    split; [eauto with proxi|].
    destruct Hr as [(w2 & w3 & [] & [Hf2 Hd2] & Hb & -> & Hd3)|(e & -> & Hd3 & Hh)].
    + left. exists c. split_and!; [done..|].
      apply bind_Ok_inv in Hb as (x & w4 & [[_ Hq] _]%query_inv & Hx).
      apply exec_inv in Hx as [_ [[_ Hx]|(? & [=] & _)]]. congruence.
    + right. exists e. split_and!; [done|congruence|]. intros Hw.
      assert (Hw1 : whealthy w1) by eauto with proxi.
      destruct Hh as [|(w2 & w3 & [Hf2 _] & Hb)]; [done|].
      assert (Hw2 : whealthy w2) by eauto with proxi.
      apply bind_inv in Hb as [(x & w4 & [[Hf4 _] _]%query_inv & Hx)|(x & Hx & _)].
      * apply exec_inv in Hx as [_ [[[=] _]|(? & _ & _ & [])]]. eauto with proxi.
      * apply query_inv in Hx as [_ [[=]|(? & _ & [])]]. done.
  - destruct Hr as [(c' & [=] & _)|(e' & [= <-] & Hh)].
    split; [done|]. right. eauto.
Qed.

(** A loop that rewrites the rows of [values] one by one. *)
Definition rows_updated (R : Z -> StoredValue -> string -> Prop) (l : list (Z * StoredValue))
    (f f' : VaultFile) : Prop :=
  vf_status f' = vf_status f /\ vf_seq f' = vf_seq f /\
  (forall id row, (id, row) ∈ l ->
     exists v, R id row v /\ vf_values f' !! id = Some (sv_with_value v row)) /\
  (forall id, id ∉ l.*1 -> vf_values f' !! id = vf_values f !! id).

Definition rewrites_row (Pre : Z -> StoredValue -> Prop) (R : Z -> StoredValue -> string -> Prop)
    (step : Z * StoredValue -> M World unit) : Prop :=
  forall id row w r w', Pre id row -> fills_buffers (w_rnd w) ->
    vf_values (wdata w) !! id = Some row -> step (id, row) w = (r, w') ->
    frame w w' /\
    ((r = Ok tt /\ exists v, R id row v /\ wdata w' = set_value id v (wdata w)) \/
     (exists e, r = Err e /\ ~ whealthy w)).

Lemma for_each_rows Pre R step l w r w' :
  rewrites_row Pre R step -> fills_buffers (w_rnd w) -> NoDup l.*1 ->
  (forall id row, (id, row) ∈ l -> Pre id row /\ vf_values (wdata w) !! id = Some row) ->
  for_each step l w = (r, w') ->
  frame w w' /\ ((r = Ok tt /\ rows_updated R l (wdata w) (wdata w')) \/
                 (exists e, r = Err e /\ ~ whealthy w)).
Proof.
  intros Hstep. revert w r w'. induction l as [|[id row] l IH]; intros w r w' Hf Hnd Hl.
  { intros [= <- <-]. split; [done|]. left. split; [done|]. split_and!; [done..| |done].
    intros id row Hin. by apply not_elem_of_nil in Hin. }
  cbn in Hnd. apply NoDup_cons in Hnd as [Hni Hnd]. cbn [for_each].
  destruct (Hl id row) as [Hpre Hrow]; [by left|].
  intros [([] & w1 & H1 & H2)|(e & H1 & ->)]%bind_inv;
    apply Hstep in H1 as [Hfr Hr]; [|done..| |done|done|done].
  - destruct Hr as [(_ & v & HR & Hd)|(e & [=] & _)].
    assert (Hne : forall id', id' <> id -> vf_values (wdata w1) !! id' = vf_values (wdata w) !! id').
    { intros id' ?. rewrite Hd. cbn. by rewrite lookup_alter_ne by congruence. }
    apply IH in H2 as [Hfr2 Hr]; [|by eauto with proxi|done|].
    + split; [eauto with proxi|].
      destruct Hr as [[-> (Hs & Hq & Hin & Hout)]|(e & -> & Hh)]; [left|right; eauto 10 with proxi].
      split; [done|]. split_and!.
      * rewrite Hs, Hd. done.
      * rewrite Hq, Hd. done.
      * intros id' row' [[= -> ->]|Hin']%elem_of_cons; [|by apply Hin].
        exists v. split; [done|]. rewrite Hout by done. rewrite Hd. cbn.
        by rewrite lookup_alter_eq, Hrow.
      * cbn. intros id' [? Hni']%not_elem_of_cons. rewrite Hout by done. by apply Hne.
    + intros id' row' Hin. destruct (Hl id' row') as [? Hr']; [by right|]. split; [done|].
      rewrite Hne; [done|]. intros ->. apply Hni. by apply (list_elem_of_fmap_2 fst) in Hin.
  - destruct Hr as [([=] & _)|(e' & [= <-] & Hh)]. eauto 6.
Qed.

(** The loop over all rows relates old and new [values]. *)
Definition row_rewritten (R : Z -> StoredValue -> string -> Prop) (id : Z)
    (row row' : StoredValue) : Prop := exists v, R id row v /\ row' = sv_with_value v row.

Lemma rows_updated_all R f f' : rows_updated R (map_to_list (vf_values f)) f f' ->
  map_Forall2 (row_rewritten R) (vf_values f) (vf_values f').
Proof.
  intros (_ & _ & Hin & Hout) id. destruct (vf_values f !! id) as [row|] eqn:E.
  - destruct (Hin id row) as (v & HR & ->); [by apply elem_of_map_to_list|].
    constructor. by exists v.
  - rewrite Hout, E; [constructor|]. intros ([id' row] & -> & Hl)%list_elem_of_fmap.
    apply elem_of_map_to_list in Hl. cbn in E. congruence.
Qed.

(** [stored] unwraps and decrypts to [plain] under [key]. *)
Definition decrypts (key stored plain : string) : Prop :=
  exists c, unwrap enc stored = Ok c /\ Aes256DecryptByKeyFromBase64String c key = Ok plain.

Lemma decrypt_empty key p : Aes256DecryptByKeyFromBase64String "" key <> Ok p.
Proof.
  unfold Aes256DecryptByKeyFromBase64String, AesDecrypt. cbn.
  by destruct (negb _).
Qed.

Lemma framed_rekey oldKey newKey v : framed (on_rnd (rekey_transform oldKey newKey v)).
Proof.
  apply framed_on_rnd. intros s r s'. unfold rekey_transform.
  destruct (String.eqb v ""); [by intros [= <- <-]|].
  unfold on_error, lift, bind. destruct (Aes256DecryptByKeyFromBase64String v oldKey) as [p|e].
  - apply encrypt_draws.
  - by intros [= <- <-].
Qed.

Lemma rekey_step oldKey newKey : String.length newKey = 32 ->
  rewrites_row (fun _ row => exists plain, decrypts oldKey (iv_Value (sv_Input row)) plain)
    (fun _ row v => exists plain, decrypts oldKey (iv_Value (sv_Input row)) plain /\
                                  decrypts newKey v plain)
    (rekey_row enc (rekey_transform oldKey newKey)).
Proof.
  intros Hk id row w r w' (plain & c & Hu & Hc) Hf _ Hrun.
  cbn [rekey_row] in Hrun. unfold lift, bind at 1 in Hrun. rewrite Hu in Hrun.
  apply bind_inv in Hrun as [(v & w1 & H1 & H2)|(e & H1 & ->)].
  - pose proof (framed_rekey _ _ _ _ _ _ H1) as Hf1.
    apply zoom_inv in H1 as (rs & H1 & ->). unfold rekey_transform in H1.
    destruct (String.eqb_spec c "") as [->|_]; [by apply decrypt_empty in Hc|].
    unfold on_error, lift, bind in H1. rewrite Hc in H1.
    apply encrypt_decrypts in H1 as (Hdec & Htxt & _ & _); [|done].
    apply bind_inv in H2 as [(s & w2 & H2 & H3)|(e & H2 & ->)];
      apply wrap_inv in H2 as [[Hf2 Hd2] Hr]; try (by eauto with proxi); try by apply b64_not_encrypted.
    + destruct Hr as [(s' & [= <-] & Hs)|(? & [=] & _)].
      apply exec_inv in H3 as [Hf3 [[-> Hd3]|(e & -> & _ & Hh)]].
      * split; [eauto with proxi|]. left. split; [done|]. exists s. split.
        -- exists plain. split; [by exists c|by exists v].
        -- rewrite Hd3, Hd2. done.
      * split; [eauto with proxi|]. right. exists e. split; [done|].
        intros Hw. apply Hh. eauto with proxi.
    + destruct Hr as [(? & [=] & _)|(e' & [= <-] & Hh)].
      split; [eauto with proxi|]. right. exists e. split; [done|].
      intros Hw. apply Hh. eauto with proxi.
  - pose proof (framed_rekey _ _ _ _ _ _ H1) as Hf1. split; [done|]. right. exists e. split; [done|].
    apply zoom_inv in H1 as (rs & H1 & ->). intros [_ Hn]. unfold rekey_transform in H1.
    destruct (String.eqb c ""); [done|]. unfold on_error, lift, bind in H1. rewrite Hc in H1.
    destruct (encrypt_total plain newKey (w_rnd w) Hn Hk) as (? & ? & E). congruence.
Qed.

Definition rekeyed (oldKey newKey : string) : Z -> StoredValue -> StoredValue -> Prop :=
  row_rewritten (fun _ row v => exists plain,
    decrypts oldKey (iv_Value (sv_Input row)) plain /\ decrypts newKey v plain).

Lemma framed_rekey_step oldKey newKey (p : Z * StoredValue) :
  framed (rekey_row enc (rekey_transform oldKey newKey) p).
Proof.
  destruct p as [id row]. apply framed_bind; [apply framed_lift|intros v].
  apply framed_bind; [apply framed_rekey|intros v'].
  apply framed_bind; [apply framed_wrap|intros s]. apply framed_statement.
Qed.

(** The status row of [ReKey]. *)
Lemma rekey_status_inv kdf c w r w' :
  rekey_status kdf c w = (r, w') ->
  is_Some (vf_status (wdata w)) ->
  (exists st, r = Ok tt /\ vf_status (wdata w) = Some st /\
     wdata w' = set_status (mkDbStatus (StatusName st) c kdf) (wdata w)) \/
  (exists e, r = Err e /\ ~ whealthy w).
Proof.
  intros Hrun [st Hst].
  apply bind_inv in Hrun as [(b & w1 & H1 & H2)|(e & H1 & ->)];
    apply statement_inv in H1 as (_ & _ & [[Hb Hd]|(e' & He & _ & Hh)]); rewrite ?Hst in *; try done.
  - injection Hb as ->. injection H2 as <- <-. left. eauto.
  - right. eauto.
Qed.

(** The body of the re-key transaction. *)
Lemma rekey_body_inv oldKey newKey kdf chk w r w' :
  String.length newKey = 32 -> IsEncrypted chk = false -> fills_buffers (w_rnd w) ->
  (forall id row, vf_values (wdata w) !! id = Some row ->
     exists plain, decrypts oldKey (iv_Value (sv_Input row)) plain) ->
  is_Some (vf_status (wdata w)) ->
  (rows <- query (fun t => map_to_list (vf_values t)) ;;
   for_each (rekey_row enc (rekey_transform oldKey newKey)) rows ;;;
   wrappedEncCheck <- wrap enc chk ;;
   rekey_status kdf wrappedEncCheck) w = (r, w') ->
  (exists st c, r = Ok tt /\ vf_status (wdata w) = Some st /\ unwrap enc c = Ok chk /\
     vf_status (wdata w') = Some (mkDbStatus (StatusName st) c kdf) /\
     vf_seq (wdata w') = vf_seq (wdata w) /\
     map_Forall2 (rekeyed oldKey newKey) (vf_values (wdata w)) (vf_values (wdata w'))) \/
  (exists e, r = Err e /\ ~ whealthy w).
Proof.
  intros Hk Hchk Hf Hrows Hst [(l & w1 & H1 & H2)|(e & H1 & ->)]%bind_inv;
    apply query_inv in H1 as [[Hf1 Hd1] [Hl|(e' & He & Hh)]]; try done; [|right; eauto].
  injection Hl as ->. rewrite <-Hd1 in Hrows, Hst, H2.
  apply bind_inv in H2 as [([] & w2 & H2 & H3)|(e & H2 & ->)];
    (eapply for_each_rows in H2 as [Hf2 Hr];
      [|by apply rekey_step|by eauto with proxi|apply NoDup_fst_map_to_list|]);
    try (intros id row Hin; apply elem_of_map_to_list in Hin; by eauto).
  - destruct Hr as [[_ Hu]|(? & [=] & _)].
    pose proof (rows_updated_all _ _ _ Hu) as Hall. destruct Hu as (Hs2 & Hq2 & _).
    apply bind_inv in H3 as [(c & w3 & H3 & H4)|(e & H3 & ->)];
      apply wrap_inv in H3 as [[Hf3 Hd3] Hr]; try done; try by eauto with proxi.
    + destruct Hr as [(c' & [= <-] & Hc)|(? & [=] & _)]. rewrite <-Hs2, <-Hd3 in Hst.
      apply rekey_status_inv in H4 as [(st & -> & Hst' & Hd4)|(e & -> & Hh)]; [| |done].
      * left. exists st, c. rewrite Hd4, Hd3. cbn. rewrite <-Hd1, <-Hs2, <-Hq2, <-Hd3. split_and!; try done.
        unfold rekeyed. by rewrite Hd3.
      * right. exists e. split; [done|]. intros Hw. apply Hh. eauto 6 with proxi.
    + destruct Hr as [(? & [=] & _)|(e' & [= <-] & Hh)]. right. exists e. split; [done|].
      intros Hw. apply Hh. eauto with proxi.
  - destruct Hr as [([=] & _)|(e' & [= <-] & Hh)]. right. exists e. split; [done|].
    intros Hw. apply Hh. eauto with proxi.
Qed.

Lemma ReKey_inv oldKey newKey kdf chk w r w' :
  String.length newKey = 32 -> IsEncrypted chk = false -> fills_buffers (w_rnd w) ->
  (forall id row, vf_values (wdata w) !! id = Some row ->
     exists plain, decrypts oldKey (iv_Value (sv_Input row)) plain) ->
  is_Some (vf_status (wdata w)) ->
  Sqlite_ReKey enc (rekey_transform oldKey newKey) kdf chk w = (r, w') ->
  frame w w' /\
  ((exists st c, r = Ok tt /\ vf_status (wdata w) = Some st /\ unwrap enc c = Ok chk /\
     vf_status (wdata w') = Some (mkDbStatus (StatusName st) c kdf) /\
     vf_seq (wdata w') = vf_seq (wdata w) /\
     map_Forall2 (rekeyed oldKey newKey) (vf_values (wdata w)) (vf_values (wdata w'))) \/
   (exists e, r = Err e /\ wdata w' = wdata w /\ ~ whealthy w)).
Proof.
  intros Hk Hchk Hf Hrows Hst Hrun. unfold Sqlite_ReKey in Hrun.
  apply bind_inv in Hrun as [([] & w1 & H1 & H2)|(e & H1 & ->)];
    apply with_tx_inv in H1 as [Hf1 Hr];
    try (apply framed_bind; [apply framed_statement|intros rows];
         apply framed_bind; [apply framed_for_each, framed_rekey_step|intros _];
         apply framed_bind; [apply framed_wrap|intros c];
         apply framed_bind; [apply framed_statement|intros []]; auto with proxi).
  - apply bind_inv in H2 as [(r2 & w2 & (r3 & [= ->] & H2)%try_inv & [= <- <-])|(e & H2 & _)]; cycle 1.
    { apply try_inv in H2 as (? & [=] & _). }
    apply exec_inv in H2 as [Hf2 Hd2].
    assert (wdata w2 = wdata w1) as Hd by (destruct Hd2 as [[_ ->]|(? & _ & -> & _)]; done).
    split; [eauto with proxi|]. rewrite Hd.
    destruct Hr as [(wa & wb & [] & [Hfa Hda] & Hb & _ & Hd1)|(? & [=] & _)].
    left. rewrite Hd1, <-Hda. rewrite <-Hda in Hrows, Hst.
    apply rekey_body_inv in Hb as [(st & c & _ & Hb)|(? & [=] & _)];
      [exists st, c; split; [done|exact Hb]|done..|by eauto with proxi|done|done].
  - split; [done|]. right. destruct Hr as [(? & ? & ? & _ & _ & [=] & _)|(e' & [= <-] & Hd & Hh)].
    exists e. split_and!; [done..|]. intros Hw.
    destruct Hh as [|(wa & wb & [Hfa Hda] & Hb)]; [done|].
    rewrite <-Hda in Hrows, Hst.
    apply rekey_body_inv in Hb as [(? & ? & [=] & _)|(? & _ & Hh)];
      [|done..|by eauto with proxi|done|done].
    apply Hh. eauto with proxi.
Qed.

(** Files that hold the same secrets, wrapped or not. *)
Definition same_row : Z -> StoredValue -> StoredValue -> Prop :=
  row_rewritten (fun _ row v => unwrap enc v = unwrap enc (iv_Value (sv_Input row))).

Definition same_secrets (f f' : VaultFile) : Prop :=
  vf_seq f' = vf_seq f /\ read_status f' = read_status f /\
  (vf_status f' = None <-> vf_status f = None) /\
  map_Forall2 same_row (vf_values f) (vf_values f').

Lemma sv_with_value_id sv : sv_with_value (iv_Value (sv_Input sv)) sv = sv.
Proof. by destruct sv as [[] ? ? ? ? ?]. Qed.

Lemma same_secrets_refl f : same_secrets f f.
Proof.
  split_and!; [done..|]. intros id. destruct (vf_values f !! id) as [row|]; constructor.
  exists (iv_Value (sv_Input row)). by rewrite sv_with_value_id.
Qed.

Lemma unwrap_plain v : IsEncrypted v = false -> unwrap enc v = Ok v.
Proof. intros Hv. unfold unwrap, Envelope_Decrypt. by rewrite Hv. Qed.

Lemma framed_wrap_row p : framed (wrap_row enc p).
Proof.
  destruct p as [id row]. apply framed_when.
  apply framed_bind; [apply framed_encrypt|intros s; apply framed_statement].
Qed.

Lemma wrap_row_step : Enabled enc = true ->
  rewrites_row (fun _ _ => True)
    (fun _ row v => unwrap enc v = unwrap enc (iv_Value (sv_Input row))) (wrap_row enc).
Proof.
  intros He id row w r w' _ Hf Hrow Hrun. unfold wrap_row in Hrun.
  destruct (_ || _) eqn:Hskip; cbn [negb when] in Hrun.
  - injection Hrun as <- <-. split; [done|]. left. split; [done|].
    exists (iv_Value (sv_Input row)). split; [done|].
    unfold set_value. destruct (wdata w) as [st vs sq]; cbn in *. f_equal.
    symmetry. apply map_eq. intros i. destruct (decide (i = id)) as [->|].
    + by rewrite lookup_alter_eq, Hrow; cbn; rewrite sv_with_value_id.
    + by rewrite lookup_alter_ne.
  - apply orb_false_iff in Hskip as [_ Hne].
    apply bind_inv in Hrun as [(s & w1 & H1 & H2)|(e & H1 & ->)];
      apply seal_inv in H1 as [[Hf1 Hd1] Hr]; [|done|by right| |done|by right].
    + destruct Hr as [(s' & [= <-] & Hs)|(? & [=] & _)].
      apply exec_inv in H2 as [Hf2 [[-> Hd2]|(e & -> & _ & Hh)]].
      * split; [eauto with proxi|]. left. split; [done|]. exists s.
        rewrite Hs, unwrap_plain by done. by rewrite Hd2, Hd1.
      * split; [eauto with proxi|]. right. exists e. split; [done|]. eauto with proxi.
    + destruct Hr as [(? & [=] & _)|(e' & [= <-] & Hh)]. split; [done|]. eauto.
Qed.

Lemma framed_wrap_status : framed (wrap_status enc).
Proof.
  apply framed_bind; [apply framed_statement|intros [st|]; [|apply framed_ret]].
  apply framed_bind; [apply framed_statement|intros v]. apply framed_when.
  apply framed_bind; [apply framed_encrypt|intros s; apply framed_statement].
Qed.

Lemma wrap_status_inv w r w' : Enabled enc = true -> fills_buffers (w_rnd w) ->
  wrap_status enc w = (r, w') -> frame w w' /\
  ((r = Ok tt /\ vf_seq (wdata w') = vf_seq (wdata w) /\ vf_values (wdata w') = vf_values (wdata w) /\
    read_status (wdata w') = read_status (wdata w) /\
    (vf_status (wdata w') = None <-> vf_status (wdata w) = None)) \/
   (exists e, r = Err e /\ ~ whealthy w)).
Proof.
  intros He Hf Hrun. split; [by eapply framed_wrap_status|]. unfold wrap_status in Hrun.
  apply bind_inv in Hrun as [(st & w1 & [[Hf1 Hd1] H1]%query_inv & H2)|(e & H1 & ->)]; cycle 1.
  { apply query_inv in H1 as [_ [[=]|(e' & [= <-] & Hh)]]. eauto. }
  destruct H1 as [[= ->]|(? & [=] & _)].
  destruct (vf_status (wdata w)) as [st|] eqn:Hst; cycle 1.
  { injection H2 as <- <-. left. by rewrite Hd1, Hst. }
  apply bind_inv in H2 as [(v & w2 & [[Hf2 Hd2] H2]%query_inv & H3)|(e & H2 & ->)]; cycle 1.
  { apply query_inv in H2 as [_ [[=]|(e' & [= <-] & Hh)]]. right. exists e. eauto with proxi. }
  destruct H2 as [[= ->]|(? & [=] & _)].
  destruct (_ && _) eqn:Hdo; cbn [when] in H3; cycle 1.
  { injection H3 as <- <-. left. by rewrite Hd2, Hd1, Hst. }
  apply andb_true_iff in Hdo as [_ Hne%negb_true_iff].
  apply bind_inv in H3 as [(s & w3 & H3 & H4)|(e & H3 & ->)];
    apply seal_inv in H3 as [[Hf3 Hd3] Hr]; try (by right); try by eauto with proxi.
  - destruct Hr as [(s' & [= <-] & Hs)|(? & [=] & _)].
    apply exec_inv in H4 as [Hf4 [[-> Hd4]|(e & -> & _ & Hh)]].
    + left. rewrite Hd4, Hd3, Hd2, Hd1. cbn. split_and!; [done..| |done].
      unfold read_status. rewrite Hst. cbn. rewrite Hs, unwrap_plain by done. done.
    + right. exists e. split; [done|blame_fault].
  - destruct Hr as [(? & [=] & _)|(e' & [= <-] & Hh)]. right. exists e. split; [done|blame_fault].
Qed.

Lemma wrapExistingSecrets_inv w r w' : fills_buffers (w_rnd w) ->
  wrapExistingSecrets enc w = (r, w') -> frame w w' /\
  ((r = Ok tt /\ same_secrets (wdata w) (wdata w')) \/
   (exists e, r = Err e /\ wdata w' = wdata w /\ ~ whealthy w)).
Proof.
  intros Hf Hrun. unfold wrapExistingSecrets in Hrun.
  destruct (Enabled enc) eqn:He; cbn [when] in Hrun; cycle 1.
  { injection Hrun as <- <-. split; [done|]. left. split; [done|apply same_secrets_refl]. }
  assert (Hbody : forall w r w', fills_buffers (w_rnd w) ->
    (wrap_status enc ;;; rows <- query (fun t => map_to_list (vf_values t)) ;;
     for_each (wrap_row enc) rows) w
      = (r, w') ->
    (r = Ok tt /\ same_secrets (wdata w) (wdata w')) \/ (exists e, r = Err e /\ ~ whealthy w)).
  { clear Hf w r w' Hrun. intros w r w' Hf Hrun.
    apply bind_inv in Hrun as [([] & w1 & H1 & H2)|(e & H1 & ->)];
      apply wrap_status_inv in H1 as [Hf1 [(Hr & Hq1 & Hv1 & Hs1 & Hn1)|(e' & He' & Hh)]];
      try done; [|right; eauto].
    apply bind_inv in H2 as [(l & w2 & [[Hf2 Hd2] H2]%query_inv & H3)|(e & H2 & ->)]; cycle 1.
    { apply query_inv in H2 as [_ [[=]|(e' & [= <-] & Hh)]]. right. exists e. split; [done|blame_fault]. }
    destruct H2 as [[= ->]|(? & [=] & _)]. rewrite <-Hd2 in *. along_frames.
    eapply for_each_rows in H3 as [Hf3 Hr3];
      [|by apply wrap_row_step|done|apply NoDup_fst_map_to_list|].
    - destruct Hr3 as [[-> Hu]|(e & -> & Hh)].
      + left. split; [done|]. pose proof (rows_updated_all _ _ _ Hu) as Hall.
        destruct Hu as (Hs3 & Hq3 & _). split_and!.
        * by rewrite Hq3, Hq1.
        * unfold read_status in *. by rewrite Hs3.
        * by rewrite Hs3.
        * by rewrite <-Hv1.
      + right. exists e. split; [done|blame_fault].
    - intros id row Hin%elem_of_map_to_list. done. }
  apply with_tx_inv in Hrun as [Hfr Hr]; cycle 1.
  { apply framed_bind; [apply framed_wrap_status|intros _].
    apply framed_bind; [apply framed_statement|intros rows].
    apply framed_for_each, framed_wrap_row. }
  split; [done|]. destruct Hr as [(w1 & w2 & [] & [Hf1 Hd1] & Hb & -> & Hd2)|(e & -> & Hd & Hh)];
    along_frames.
  - left. apply Hbody in Hb as [[_ Hs]|(? & [=] & _)]; [|done]. by rewrite Hd2, <-Hd1.
  - right. exists e. split_and!; [done..|]. intros Hw. destruct Hh as [|(w1 & w2 & [Hf1 _] & Hb)]; [done|].
    along_frames. by apply Hbody in Hb as [[[=] _]|(? & _ & Hh)].
Qed.

Lemma NewSqliteProvider_inv opened w r w' : fills_buffers (w_rnd w) ->
  NewSqliteProvider enc opened w = (r, w') -> frame w w' /\
  ((r = Ok tt /\ same_secrets (wdata w) (wdata w')) \/
   (exists e, r = Err e /\ wdata w' = wdata w /\ (~ whealthy w \/ is_ok opened = false))).
Proof.
  intros Hf [([] & w1 & H1 & H2)|(e & H1 & ->)]%bind_inv; unfold on_error, lift in H1.
  - destruct opened as [[]|e]; [|done]. injection H1 as <-.
    apply wrapExistingSecrets_inv in H2 as [Hfr [H2|(e & -> & Hd & Hh)]]; [|by eauto 10|done].
    split; [done|]. by left.
  - destruct opened as [[]|e']; [done|]. injection H1 as <- <-. split; [done|]. right. eauto 10.
Qed.

(** ** Slots *)

Lemma slot_taken_iff id iv (vals : gmap Z StoredValue) :
  slot_taken_by_other id iv vals = true <->
  exists id' sv, vals !! id' = Some sv /\ id' <> id /\ same_slot (iv_Key iv) (iv_ClientID iv) sv = true.
Proof.
  unfold slot_taken_by_other. rewrite existsb_exists. split.
  - intros ([id' sv] & Hin & [Hne Hs]%andb_true_iff). exists id', sv.
    split_and!; [|by apply negb_true_iff, Z.eqb_neq in Hne|done].
    by apply elem_of_map_to_list, list_elem_of_In.
  - intros (id' & sv & Hin & Hne & Hs). exists (id', sv). split.
    + by apply list_elem_of_In, elem_of_map_to_list.
    + cbn. rewrite Hs. by apply Z.eqb_neq in Hne as ->.
Qed.

(** One row per key and client, under its own id. *)
Definition slots_unique (vals : gmap Z StoredValue) : Prop :=
  forall id id' sv sv', vals !! id = Some sv -> vals !! id' = Some sv' ->
    same_slot (iv_Key (sv_Input sv)) (iv_ClientID (sv_Input sv)) sv' = true -> id = id'.

Lemma same_slot_iff key client sv : same_slot key client sv = true <->
  iv_Key (sv_Input sv) = key /\ iv_ClientID (sv_Input sv) = client.
Proof. unfold same_slot. by rewrite andb_true_iff, !String.eqb_eq. Qed.

Lemma find_slot_spec key client f :
  match find_slot key client f with
  | Some sv => exists id, vf_values f !! id = Some sv /\ same_slot key client sv = true
  | None => forall id sv, vf_values f !! id = Some sv -> same_slot key client sv = false
  end.
Proof.
  unfold find_slot. destruct (filter _ (map_to_list (vf_values f))) as [|[id sv] l] eqn:E; cbn.
  - intros id sv Hin. apply not_true_iff_false. intros Hs.
    assert ((id, sv) ∈ filter (fun kv : Z * StoredValue => same_slot key client kv.2 = true)
      (map_to_list (vf_values f))) as Hin'.
    { apply list_elem_of_filter. split; [done|]. by apply elem_of_map_to_list. }
    rewrite E in Hin'. by apply not_elem_of_nil in Hin'.
  - exists id. assert ((id, sv) ∈ filter (fun kv : Z * StoredValue => same_slot key client kv.2 = true)
      (map_to_list (vf_values f))) as [Hs Hin]%list_elem_of_filter by (rewrite E; left).
    split; [by apply elem_of_map_to_list|done].
Qed.

(** ** Representation *)

Section Representation.
Context `{kdfs : !KDFs, kdfs_spec : !KDFsSpec}.

(** [asv] is the row [sv] with its secret in the clear. *)
Definition row_rep (key : string) (id : Z) (sv asv : StoredValue) : Prop :=
  exists plain, decrypts key (iv_Value (sv_Input sv)) plain /\ asv = sv_with_value plain sv /\
    sv_ID sv = id.

Record table_ok (f : VaultFile) : Prop := {
  ids_given_out id sv : vf_values f !! id = Some sv -> (0 < id <= vf_seq f)%Z;
  seq_nonneg : (0 <= vf_seq f)%Z;
  table_slots : slots_unique (vf_values f)
}.

(** The passphrase opens the file and gives this key. *)
Definition opens (f : VaultFile) (pass key : string) : Prop :=
  exists st legacy, read_status f = Ok st /\ vf_status f <> None /\
    StatusName st = DbStatusInit /\ DeriveKey st pass = Ok (key, legacy) /\
    Verify st key = true.

Definition file (m : Manager) : VaultFile := wdata (m_world m).

Definition rep (m : Manager) (a : AVault) : Prop :=
  table_ok (file m) /\ a_next a = vf_seq (file m) /\ a_locked a = IsLocked m /\
  match a_pass a with
  | None => vf_status (file m) = None /\ vf_values (file m) = ∅ /\ a_vals a = ∅ /\ a_locked a = true
  | Some pass =>
      m_open m = true /\ exists key, opens (file m) pass key /\
        map_Forall2 (row_rep key) (vf_values (file m)) (a_vals a) /\
        (m_key m = "" \/ m_key m = key)
  end.

(** Steps of the manager that only read. *)
Definition mquiet (m m' : Manager) : Prop :=
  quiet (m_world m) (m_world m') /\ m_open m' = m_open m /\ m_key m' = m_key m.

Lemma mquiet_refl m : mquiet m m.
Proof. done. Qed.

Lemma mquiet_trans m1 m2 m3 : mquiet m1 m2 -> mquiet m2 m3 -> mquiet m1 m3.
Proof.
  intros (? & ? & ?) (? & ? & ?). split_and!; [by eapply quiet_trans|congruence..].
Qed.

Lemma rep_mquiet m m' a : mquiet m m' -> rep m a -> rep m' a.
Proof.
  intros ([_ Hd] & Ho & Hk). unfold rep, IsLocked, file. by rewrite Hd, Ho, Hk.
Qed.

Lemma query_err {A} (f : VaultFile -> A) w e w' : query f w = (Err e, w') -> exists msg, e = EPlain msg.
Proof.
  unfold query, statement, on_db. intros (db & H & ->)%zoom_inv. unfold db_call in H.
  destruct (db_faults _) as [|[msg|] fs]; inversion H; by eexists.
Qed.

Lemma GetStatus_err w e w' : Sqlite_GetStatus enc w = (Err e, w') ->
  read_status (wdata w) = Err e \/ (~ whealthy w /\ exists msg, e = EPlain msg).
Proof.
  unfold Sqlite_GetStatus, read_status.
  intros [(st & w1 & H1 & H2)|(e' & H1 & [= <-])]%bind_inv.
  - apply query_inv in H1 as [_ [[= ->]|(? & [=] & _)]].
    destruct (vf_status (wdata w)) as [st|]; [|done].
    unfold bind, lift, ret in H2. destruct (unwrap _ _); [done|]. injection H2 as -> _. by left.
  - right. pose proof (query_err _ _ _ _ H1) as He.
    by apply query_inv in H1 as [_ [[=]|(? & _ & Hh)]].
Qed.

Lemma on_provider_inv {A} (p : M World A) m r m' : m_open m = true ->
  on_provider p m = (r, m') ->
  exists w', p (m_world m) = (r, w') /\ m' = mkManager w' true (m_key m).
Proof.
  intros Ho. unfold on_provider. rewrite Ho. intros (w' & H1 & ->)%zoom_inv.
  exists w'. by rewrite Ho.
Qed.

Lemma rep_open m a : rep m a -> a_locked a = false -> m_open m = true.
Proof.
  intros (_ & _ & _ & Hp) Hl. destruct (a_pass a); [by destruct Hp|].
  destruct Hp as (_ & _ & _ & Hl'). congruence.
Qed.

Lemma opens_length f pass key : opens f pass key -> String.length key = 32.
Proof.
  intros (st & legacy & _ & _ & _ & Hk & _). unfold DeriveKey in Hk.
  destruct (String.eqb pass ""); [done|]. destruct (String.eqb _ "").
  - injection Hk as <- <-. apply Sum256_length.
  - destruct (parseKDF _); cbn in Hk; [|done]. destruct (negb _); [done|].
    injection Hk as <- <-. apply IDKey_length.
Qed.

Lemma rep_status m a : rep m a -> exists st, read_status (file m) = Ok st /\
  String.eqb (StatusName st) DbStatusInit = bool_decide (is_Some (a_pass a)) /\
  (a_pass a = None -> st = mkDbStatus "" "" "").
Proof.
  intros (_ & _ & _ & Hp). destruct (a_pass a) as [pass|].
  - destruct Hp as (_ & key & (st & ? & Hs & _ & Hn & _) & _). exists st.
    rewrite bool_decide_eq_true_2 by done. rewrite Hn. done.
  - destruct Hp as (Hs & _). exists (mkDbStatus "" "" ""). unfold read_status. by rewrite Hs.
Qed.

Lemma read_status_via m a r m' : rep m a -> on_provider (Sqlite_GetStatus enc) m = (r, m') ->
  mquiet m m' /\
  ((m_open m = false /\ r = Err ErrDatabaseNotInitialised) \/
   (m_open m = true /\ r = read_status (file m)) \/
   (~ whealthy (m_world m) /\ exists msg, r = Err (EPlain msg))).
Proof.
  intros Hrep Hrun. destruct (m_open m) eqn:Ho; cycle 1.
  { unfold on_provider in Hrun. rewrite Ho in Hrun. injection Hrun as <- <-.
    split; [apply mquiet_refl|]. by left. }
  apply on_provider_inv in Hrun as (w' & Hrun & ->); [|done].
  split; [split; [by apply GetStatus_inv in Hrun as [? _]|done]|].
  destruct (rep_status _ _ Hrep) as (st & Hs & _).
  pose proof Hrun as [_ [->|(e & -> & Hh)]]%GetStatus_inv; [by eauto|].
  apply GetStatus_err in Hrun as [He|[_ [msg ->]]]; [unfold file in Hs; congruence|].
  right; right. eauto.
Qed.

Lemma isDatabaseInitialized_inv m a r m' : rep m a -> isDatabaseInitialized enc m = (r, m') ->
  mquiet m m' /\ (r = Ok (bool_decide (is_Some (a_pass a))) \/
                  ((exists e, r = Err e) /\ ~ whealthy (m_world m))).
Proof.
  intros Hrep Hrun. unfold isDatabaseInitialized in Hrun.
  apply bind_inv in Hrun as [(x & m1 & (st & [= ->] & H1)%try_inv & H2)|(e & (? & [=] & _)%try_inv & _)].
  apply (read_status_via _ a) in H1 as [Hq Hr]; [|done].
  destruct (rep_status _ _ Hrep) as (st' & Hs & Hi & _).
  destruct Hr as [[Ho ->]|[[_ ->]|[Hh [msg ->]]]].
  - replace (is_not_initialised ErrDatabaseNotInitialised) with true in H2 by by vm_compute.
    injection H2 as <- <-.
    split; [done|]. left. destruct Hrep as (_ & _ & _ & Hp). destruct (a_pass a); [|done].
    destruct Hp as [? _]. congruence.
  - rewrite Hs in H2. injection H2 as <- <-. split; [done|]. left. by rewrite Hi.
  - injection H2 as <- <-. split; [done|]. right. eauto.
Qed.

Lemma checkUnlocked_inv m a r m' : rep m a -> checkUnlockedAndInitialized enc m = (r, m') ->
  mquiet m m' /\
  ((a_locked a = true /\ exists e, r = Err e /\ answer (@Err vault_ans e) = inr StatusConflict) \/
   (a_locked a = false /\ r = Ok tt) \/
   (a_locked a = false /\ (exists e, r = Err e) /\ ~ whealthy (m_world m))).
Proof.
  intros Hrep Hrun. unfold checkUnlockedAndInitialized, gets, bind at 1 in Hrun.
  pose proof Hrep as (_ & _ & Hl & Hp). rewrite <-Hl in Hrun.
  destruct (a_locked a) eqn:El.
  { injection Hrun as <- <-. split; [apply mquiet_refl|]. left. eauto. }
  apply bind_inv in Hrun as [(b & m1 & H1 & H2)|(e & H1 & ->)];
    apply (isDatabaseInitialized_inv _ a) in H1 as [Hq Hr]; [|done| |done].
  - destruct Hr as [[= ->]|[(? & [=]) _]]. destruct (a_pass a); cycle 1.
    { by destruct Hp as (_ & _ & _ & [=]). }
    rewrite bool_decide_eq_true_2 in H2 by done. injection H2 as <- <-. eauto.
  - destruct Hr as [[=]|[_ Hh]]. split; [done|]. right; right. eauto.
Qed.

Lemma rep_unlocked m a : rep m a -> a_locked a = false ->
  String.length (m_key m) = 32 /\
  map_Forall2 (row_rep (m_key m)) (vf_values (file m)) (a_vals a).
Proof.
  intros (_ & _ & Hl & Hp) Hloc. unfold IsLocked in Hl. rewrite Hloc in Hl.
  destruct (a_pass a); [|by destruct Hp as (_ & _ & _ & ?); congruence].
  destruct Hp as (_ & key & Ho & Hv & [Hk|Hk]); [by rewrite Hk in Hl|].
  apply opens_length in Ho. by rewrite Hk.
Qed.

(** A row and its counterpart in the clear differ in the value only. *)
Definition twin (key : string) (id : Z) (c : string) (sv asv : StoredValue) : Prop :=
  unwrap enc (iv_Value (sv_Input sv)) = Ok c /\
  Aes256DecryptByKeyFromBase64String c key = Ok (iv_Value (sv_Input asv)) /\
  asv = sv_with_value (iv_Value (sv_Input asv)) (sv_with_value c sv) /\ sv_ID sv = id.

Lemma row_rep_twin key id sv asv : row_rep key id sv asv -> exists c, twin key id c sv asv.
Proof.
  intros (plain & (c & Hu & Hc) & -> & <-). exists c. by destruct sv as [[] ? ? ? ? ?].
Qed.

Lemma rep_lookup m a id : rep m a -> a_locked a = false ->
  (vf_values (file m) !! id = None /\ a_vals a !! id = None) \/
  (exists sv asv c, vf_values (file m) !! id = Some sv /\ a_vals a !! id = Some asv /\
     twin (m_key m) id c sv asv).
Proof.
  intros Hrep Hl. destruct (rep_unlocked _ _ Hrep Hl) as [_ Hv]. specialize (Hv id).
  inversion Hv as [sv asv Hr|]; [|by left]. right.
  apply row_rep_twin in Hr as [c Hc]. eauto 10.
Qed.

Lemma GetByID_rep m a id r m' : rep m a -> a_locked a = false ->
  on_provider (Sqlite_GetByID enc id) m = (r, m') -> mquiet m m' /\
  ((vf_values (file m) !! id = None /\ a_vals a !! id = None /\ r = Ok None) \/
   (exists sv asv c, vf_values (file m) !! id = Some sv /\ a_vals a !! id = Some asv /\
      twin (m_key m) id c sv asv /\ r = Ok (Some (sv_with_value c sv))) \/
   ((exists e, r = Err e) /\ ~ whealthy (m_world m))).
Proof.
  intros Hrep Hl Hrun. pose proof (rep_open _ _ Hrep Hl) as Ho.
  apply on_provider_inv in Hrun as (w' & Hrun & ->); [|done].
  apply read_query_inv in Hrun as [Hq Hr]. split; [by split_and!|].
  destruct Hr as [->|(e & -> & Hh)]; [|right; right; eauto].
  destruct (rep_lookup _ _ id Hrep Hl) as [[H1 H2]|(sv & asv & c & H1 & H2 & Ht)]; fold (file m); rewrite H1.
  - by left.
  - right; left. exists sv, asv, c. split_and!; [done..|]. cbn. by destruct Ht as (-> & _).
Qed.

(** Slots do not depend on the secrets. *)
Lemma twin_slot key id c sv asv k client : twin key id c sv asv ->
  same_slot k client asv = same_slot k client sv.
Proof. intros (_ & _ & -> & _). done. Qed.

Lemma slot_taken_rep m a id iv : rep m a -> a_locked a = false ->
  slot_taken_by_other id iv (vf_values (file m)) = slot_taken_by_other id iv (a_vals a).
Proof.
  intros Hrep Hl. apply eq_true_iff_eq. rewrite !slot_taken_iff.
  split; intros (id' & sv & Hin & Hne & Hs);
    destruct (rep_lookup _ _ id' Hrep Hl) as [[H1 H2]|(sv1 & asv & c & H1 & H2 & Ht)];
    try congruence; simplify_eq; eexists _, _; (split_and!; [done..|]);
    erewrite ?(twin_slot _ _ _ _ _ _ _ Ht) in *; done.
Qed.

(** The row [FindByKeyAndClientID] returns decides whether the slot is taken. *)
Lemma find_slot_taken m a id iv : rep m a -> a_locked a = false ->
  match find_slot (iv_Key iv) (iv_ClientID iv) (file m) with
  | Some sv => (id =? 0)%Z || negb (sv_ID sv =? id)%Z
  | None => false
  end = slot_taken_by_other id iv (a_vals a).
Proof.
  intros Hrep Hl. rewrite <-(slot_taken_rep _ _ _ _ Hrep Hl).
  pose proof (find_slot_spec (iv_Key iv) (iv_ClientID iv) (file m)) as Hf.
  destruct (find_slot _ _ _) as [sv|].
  - destruct Hf as (id' & Hin & Hs).
    destruct (rep_lookup _ _ id' Hrep Hl) as [[H1 H2]|(sv1 & asv & c & H1 & H2 & Ht)]; [congruence|].
    assert (sv_ID sv = id') as Hid by (destruct Ht as (_ & _ & _ & ?); congruence).
    destruct Hrep as (Htab & _). pose proof (ids_given_out _ Htab _ _ Hin).
    apply eq_true_iff_eq. rewrite slot_taken_iff, orb_true_iff, negb_true_iff, Z.eqb_eq, Z.eqb_neq, Hid.
    split.
    + intros Hne. exists id', sv. split_and!; [done|lia|done].
    + intros (id2 & sv2 & Hin2 & Hne & Hs2). right.
      assert (id' = id2) as ->; [|done]. apply (table_slots _ Htab _ _ _ _ Hin Hin2).
      apply same_slot_iff in Hs as [-> ->]. done.
  - symmetry. apply not_true_iff_false. rewrite slot_taken_iff. intros (id' & sv & Hin & _ & Hs).
    by rewrite (Hf _ _ Hin) in Hs.
Qed.

(** ** The operations *)

(** No fault is going to hit the operation. *)
Definition healthy (op : vault_op) (m : Manager) : Prop :=
  whealthy (m_world m) /\
  match op with OInit opened _ => is_ok opened = true | _ => True end.

(** The operation did what the specification says, or failed because of a fault
    and changed nothing. *)
Definition outcome (op : vault_op) (m : Manager) (a : AVault) (r : result vault_ans)
    (m' : Manager) : Prop :=
  (exists a', spec_op op a = (answer r, a') /\ rep m' a') \/
  ((exists e, r = Err e) /\ rep m' a /\ ~ healthy op m).

Lemma outcome_fault op m a e m' : rep m' a -> ~ whealthy (m_world m) ->
  outcome op m a (Err e) m'.
Proof. intros ? Hh. right. split_and!; eauto. by intros [? _]. Qed.

Lemma outcome_spec op m a r m' : rep m' (snd (spec_op op a)) -> fst (spec_op op a) = answer r ->
  outcome op m a r m'.
Proof. intros ? Hs. left. eexists. split; [|done]. rewrite <-Hs. by destruct (spec_op op a). Qed.

Lemma bind_ret_inv {S A B} (p : M S A) (f : A -> B) s r s' :
  bind p (fun x => ret (f x)) s = (r, s') ->
  exists r0, p s = (r0, s') /\ r = match r0 with Ok a => Ok (f a) | Err e => Err e end.
Proof.
  unfold bind, ret. destruct (p s) as [[x|e] s1]; intros [= <- <-]; by eexists.
Qed.

Lemma status_refines m a r m' : rep m a -> run_op enc OStatus m = (r, m') ->
  outcome OStatus m a r m'.
Proof.
  intros Hrep (r0 & Hrun & ->)%bind_ret_inv. unfold Status in Hrun.
  apply bind_inv in Hrun as [(x & m1 & (st & [= ->] & H1)%try_inv & H2)|(e & (? & [=] & _)%try_inv & _)].
  apply (read_status_via _ a) in H1 as [Hq Hr]; [|done].
  destruct (rep_status _ _ Hrep) as (st' & Hs & Hi & Hn).
  pose proof (rep_mquiet _ _ _ Hq Hrep) as Hrep1.
  pose proof Hrep as (_ & _ & Hl & Hp). destruct Hq as (_ & _ & Hk).
  assert (Hreport : forall m1', bind (@ret Manager _ st') (fun dbStatus =>
      let name := if String.eqb (StatusName dbStatus) "" then DbStatusNotInit else StatusName dbStatus in
      if String.eqb name DbStatusNotInit then ret (mkStatusReport name "")
      else locked <- gets IsLocked ;;
           ret (mkStatusReport name (if (locked : bool) then StatusLocked else StatusUnlocked))) m1
      = (r0, m1') -> m_key m1 = m_key m -> m1' = m1 /\
    inl (AReport match a_pass a with
            | None => mkStatusReport DbStatusNotInit ""
            | Some _ => mkStatusReport DbStatusInit
                          (if a_locked a then StatusLocked else StatusUnlocked)
            end) = answer match r0 with Ok x => Ok (AReport x) | Err e => Err e end).
  { intros m1' Hrun Hk1. destruct (a_pass a) as [pass|].
    - rewrite bool_decide_eq_true_2 in Hi by done. apply String.eqb_eq in Hi.
      unfold bind, ret, gets in Hrun. rewrite Hi in Hrun. cbn in Hrun.
      unfold IsLocked in Hrun. rewrite Hk1 in Hrun. fold (IsLocked m) in Hrun. rewrite <-Hl in Hrun.
      by injection Hrun as <- <-.
    - rewrite Hn in Hrun by done. by injection Hrun as <- <-. }
  destruct Hr as [[Ho ->]|[[_ ->]|[Hh [msg ->]]]].
  - replace (is_not_initialised ErrDatabaseNotInitialised) with true in H2 by by vm_compute.
    destruct (a_pass a) eqn:Ep; [destruct Hp as [? _]; congruence|]. rewrite Hn in Hreport by done.
    apply Hreport in H2 as [-> Ha]; [|done]. by apply outcome_spec; [|cbn; rewrite Ep].
  - rewrite Hs in H2. apply Hreport in H2 as [-> Ha]; [|done]. by apply outcome_spec.
  - injection H2 as <- <-. by apply outcome_fault.
Qed.

Lemma lock_refines m a r m' : rep m a -> run_op enc OLock m = (r, m') -> outcome OLock m a r m'.
Proof.
  intros Hrep (r0 & Hrun & ->)%(bind_ret_inv _ (fun _ => ADone)).
  unfold Lock, gets, bind at 1 in Hrun. pose proof Hrep as (_ & _ & Hl & Hp).
  rewrite <-Hl in Hrun. destruct (a_locked a) eqn:El.
  { injection Hrun as <- <-. by apply outcome_spec; cbn; rewrite El. }
  pose proof (rep_open _ _ Hrep El) as Ho.
  destruct (rep_status _ _ Hrep) as (st & Hs & Hi & _).
  destruct (a_pass a) as [pass|] eqn:Ep; [|by destruct Hp as (_ & _ & _ & [=])].
  rewrite bool_decide_eq_true_2 in Hi by done.
  apply bind_inv in Hrun as [(st' & m1 & H1 & H2)|(e & H1 & ->)];
    apply (read_status_via _ a) in H1 as [Hq Hr]; try done;
    pose proof (rep_mquiet _ _ _ Hq Hrep) as Hrep1;
    destruct Hr as [[? _]|[[_ Hr]|[Hh [msg Hr]]]]; try congruence.
  - rewrite Hs in Hr. injection Hr as ->. apply String.eqb_eq in Hi.
    unfold not_yet_initialized in H2. rewrite Hi in H2. injection H2 as <- <-.
    apply outcome_spec; cbn; rewrite El; [|done]. rewrite Ep.
    destruct Hrep1 as (Ht & Hn & _ & Hp1). rewrite Ep in Hp1.
    destruct Hp1 as (Hop & key & Hop2 & Hv & _). split_and!; [done..|].
    split; [done|]. exists key. eauto.
  - by apply outcome_fault.
Qed.

Lemma get_refines id user m a r m' : rep m a -> run_op enc (OGetOne id user) m = (r, m') ->
  outcome (OGetOne id user) m a r m'.
Proof.
  intros Hrep (r0 & Hrun & ->)%bind_ret_inv. unfold GetOne in Hrun.
  apply bind_inv in Hrun as [([] & m1 & H1 & H2)|(e & H1 & ->)];
    apply (checkUnlocked_inv _ a) in H1 as [Hq Hr]; try done;
    pose proof (rep_mquiet _ _ _ Hq Hrep) as Hrep1.
  - destruct Hr as [[_ (? & [=] & _)]|[[El _]|[_ [[? [=]] _]]]].
    apply bind_inv in H2 as [(val & m2 & H2 & H3)|(e & H2 & ->)];
      apply (GetByID_rep _ a) in H2 as [Hq2 Hr]; try done;
      pose proof (rep_mquiet _ _ _ Hq2 Hrep1) as Hrep2.
    + destruct Hr as [(_ & Ha & [= ->])|[(sv & asv & c & _ & Ha & Ht & [= ->])|[[? [=]] _]]].
      * injection H3 as <- <-. by apply outcome_spec; cbn; rewrite El, Ha.
      * destruct Ht as (_ & Hc & Heq & _).
        assert (group_allows (sv_with_value c sv) user = group_allows asv user) as Hg by by rewrite Heq.
        unfold checkGroupAccess, lift, gets, bind, ret in H3. rewrite Hg in H3.
        destruct (group_allows asv user) eqn:Eg; cycle 1.
        { injection H3 as <- <-. by apply outcome_spec; cbn; rewrite El, Ha, Eg. }
        destruct Hq2 as (_ & _ & Hk2). cbn in H3. rewrite Hk2, Hc in H3. injection H3 as <- <-.
        apply outcome_spec; cbn; rewrite El, Ha, Eg; [done|]. by rewrite Heq at 1.
    + destruct Hr as [(_ & _ & [=])|[(? & ? & ? & _ & _ & _ & [=])|[_ Hh]]].
      apply outcome_fault; [done|]. destruct Hq as [[Hf _] _]. blame_fault.
  - destruct Hr as [[El (? & [= <-] & Ha)]|[[_ [=]]|[_ [_ Hh]]]]; [|by apply outcome_fault].
    apply outcome_spec; cbn; rewrite El; [done|]. by symmetry.
Qed.

(** How a change of [values] acts on the representation. *)
Lemma rep_values m a w' vals' next :
  rep m a -> a_locked a = false ->
  vf_status (wdata w') = vf_status (file m) -> vf_seq (wdata w') = next ->
  table_ok (wdata w') -> map_Forall2 (row_rep (m_key m)) (vf_values (wdata w')) vals' ->
  rep (mkManager w' true (m_key m)) (mkAVault (a_pass a) (a_locked a) vals' next).
Proof.
  intros (Ht & Hn & Hl & Hp) El Hs Hq Ht' Hv. unfold rep, file, IsLocked in *; cbn.
  split; [done|]. split; [done|]. split; [done|].
  destruct (a_pass a); [|by destruct Hp as (_ & _ & _ & ?); congruence].
  destruct Hp as (_ & key & Hop & _ & [Hk|Hk]); [rewrite Hk in Hl; cbn in Hl; congruence|].
  split; [done|]. exists key. split_and!; [|by rewrite <-Hk|by right].
  destruct Hop as (st & legacy & Hst & Hne & Hrest). exists st, legacy.
  unfold read_status in *. by rewrite Hs.
Qed.

Lemma table_ok_delete id f : table_ok f ->
  table_ok (mkVaultFile (vf_status f) (delete id (vf_values f)) (vf_seq f)).
Proof.
  intros [Hid Hs Hu]. split; cbn; [|done|].
  - intros id' sv [_ Hin]%lookup_delete_Some. by eapply Hid.
  - intros id1 id2 sv sv' [_ H1]%lookup_delete_Some [_ H2]%lookup_delete_Some. by eapply Hu.
Qed.

Lemma delete_refines id user m a r m' : rep m a -> run_op enc (ODelete id user) m = (r, m') ->
  outcome (ODelete id user) m a r m'.
Proof.
  intros Hrep (r0 & Hrun & ->)%(bind_ret_inv _ (fun _ => ADone)). unfold Vault_Delete in Hrun.
  apply bind_inv in Hrun as [([] & m1 & H1 & H2)|(e & H1 & ->)];
    apply (checkUnlocked_inv _ a) in H1 as [Hq Hr]; try done;
    pose proof (rep_mquiet _ _ _ Hq Hrep) as Hrep1; destruct Hq as [[Hf1 _] _].
  2: { destruct Hr as [[El (? & [= <-] & Ha)]|[[_ [=]]|[_ [_ Hh]]]]; [|by apply outcome_fault].
       apply outcome_spec; cbn; rewrite El; [done|]. by symmetry. }
  destruct Hr as [[_ (? & [=] & _)]|[[El _]|[_ [[? [=]] _]]]].
  apply bind_inv in H2 as [(val & m2 & H2 & H3)|(e & H2 & ->)];
    apply (GetByID_rep _ a) in H2 as [Hq2 Hr]; try done;
    pose proof (rep_mquiet _ _ _ Hq2 Hrep1) as Hrep2; destruct Hq2 as [[Hf2 Hd2] _].
  2: { destruct Hr as [(_ & _ & [=])|[(? & ? & ? & _ & _ & _ & [=])|[_ Hh]]].
       apply outcome_fault; [done|blame_fault]. }
  destruct Hr as [(_ & Ha & [= ->])|[(sv & asv & c & Hin & Ha & Ht & [= ->])|[[? [=]] _]]].
  { injection H3 as <- <-. by apply outcome_spec; cbn; rewrite El, Ha. }
  assert (group_allows (sv_with_value c sv) user = group_allows asv user) as Hg.
  { destruct Ht as (_ & _ & Heq & _). by rewrite Heq. }
  unfold checkGroupAccess, lift, bind in H3. rewrite Hg in H3.
  destruct (group_allows asv user) eqn:Eg; cycle 1.
  { injection H3 as <- <-. by apply outcome_spec; cbn; rewrite El, Ha, Eg. }
  apply on_provider_inv in H3 as (w' & H3 & ->); [|by eapply rep_open].
  unfold Sqlite_Delete in H3.
  apply bind_inv in H3 as [(b & w1 & H3 & H4)|(e & H3 & ->)];
    apply statement_inv in H3 as (Hf3 & _ & [[Hr Hd]|(e' & Hr & Hd & Hh)]); try done.
  - injection Hr as ->. rewrite (bool_decide_eq_true_2 (is_Some _)) in H4; cycle 1.
    { rewrite Hd2. fold (file m1). rewrite Hin. by eexists. }
    injection H4 as <- <-. apply outcome_spec; cbn; rewrite El, Ha, Eg; [|done]. rewrite <-El.
    pose proof Hrep2 as (Htab & Hnext & _).
    destruct (rep_unlocked _ _ Hrep2 El) as [_ Hv].
    eapply rep_values; [exact Hrep2|done|by rewrite Hd|by rewrite Hd, Hnext| |].
    + rewrite Hd. by apply table_ok_delete.
    + rewrite Hd. by apply map_Forall2_delete.
  - apply outcome_fault; [|blame_fault]. eapply rep_mquiet, Hrep2.
    split_and!; [done..| |done]. symmetry. by eapply rep_open.
Qed.

Lemma slot_free (vals : gmap Z StoredValue) id iv : slot_taken_by_other id iv vals = false ->
  forall id' sv, vals !! id' = Some sv -> same_slot (iv_Key iv) (iv_ClientID iv) sv = true -> id' = id.
Proof.
  intros Hfree id' sv Hin Hs. destruct (decide (id' = id)) as [|Hne]; [done|].
  apply not_true_iff_false in Hfree. destruct Hfree. apply slot_taken_iff. eauto.
Qed.

Lemma table_ok_insert id sv f q : table_ok f -> (0 < id <= q)%Z -> (vf_seq f <= q)%Z ->
  slot_taken_by_other id (sv_Input sv) (vf_values f) = false ->
  table_ok (mkVaultFile (vf_status f) (<[id := sv]> (vf_values f)) q).
Proof.
  intros [Hid Hs Hu] Hpos Hq Hfree. split; cbn.
  - intros id' sv' [[<- <-]|[_ Hin]]%lookup_insert_Some; [done|]. specialize (Hid _ _ Hin). lia.
  - lia.
  - intros id1 id2 sv1 sv2 [[<- <-]|[Hn1 H1]]%lookup_insert_Some
      [[<- <-]|[Hn2 H2]]%lookup_insert_Some Hslot; [done|..|by eapply Hu].
    + symmetry. by eapply slot_free.
    + eapply (slot_free _ _ _ Hfree); [exact H1|]. apply same_slot_iff in Hslot as [-> ->].
      by apply same_slot_iff.
Qed.

(** The row a [Save] writes and its counterpart. *)
Lemma saved_row_rep key id c s iv cr up by_ up_by :
  unwrap enc s = Ok c -> Aes256DecryptByKeyFromBase64String c key = Ok (iv_Value iv) ->
  row_rep key id (mkStoredValue (with_value s (with_value c iv)) id cr up by_ up_by)
    (mkStoredValue iv id cr up by_ up_by).
Proof.
  intros Hs Hc. exists (iv_Value iv). split; [by exists c|]. by destruct iv.
Qed.

Lemma save_refines now id iv user m a r m' c : rep m a -> a_locked a = false ->
  fills_buffers (w_rnd (m_world m)) ->
  Aes256DecryptByKeyFromBase64String c (m_key m) = Ok (iv_Value iv) -> IsEncrypted c = false ->
  slot_taken_by_other id iv (a_vals a) = false ->
  on_provider (Sqlite_Save enc (vu_Username user) id (with_value c iv) now) m = (r, m') ->
  (exists a', rep m' a' /\ r = Ok match a_vals a !! id with
       | Some _ => id | None => if (id =? 0)%Z then (a_next a + 1)%Z else id end /\
     a' = match a_vals a !! id with
          | Some old => mkAVault (a_pass a) (a_locked a)
              (<[id := mkStoredValue iv (sv_ID old) (sv_CreatedAt old) (rfc3339 now)
                         (sv_CreatedBy old) (vu_Username user)]> (a_vals a)) (a_next a)
          | None => if (id =? 0)%Z then
                 mkAVault (a_pass a) (a_locked a)
                   (<[(a_next a + 1)%Z := mkStoredValue iv (a_next a + 1)%Z (rfc3339 now) (rfc3339 now)
                        (vu_Username user) (vu_Username user)]> (a_vals a)) (a_next a + 1)%Z
               else a end) \/
  ((exists e, r = Err e) /\ rep m' a /\ ~ whealthy (m_world m)).
Proof.
  intros Hrep El Hf Hc Hne Hfree Hrun. pose proof (rep_open _ _ Hrep El) as Ho.
  pose proof Hrep as (Htab & Hnext & _). destruct (rep_unlocked _ _ Hrep El) as [_ Hv].
  apply on_provider_inv in Hrun as (w' & Hrun & ->); [|done]. unfold Sqlite_Save in Hrun.
  apply bind_inv in Hrun as [(s & w1 & H1 & H2)|(e & H1 & ->)];
    apply wrap_inv in H1 as [[Hf1 Hd1] Hr]; try done; cycle 1.
  { destruct Hr as [(? & [=] & _)|(e' & _ & Hh)]. right. split_and!; [eauto| |done].
    eapply rep_mquiet, Hrep. by split_and!. }
  destruct Hr as [(s' & [= <-] & Hs)|(? & [=] & _)]. cbn [iv_Value with_value] in Hs.
  apply bind_inv in H2 as [(x & w2 & H2 & H3)|(e & H2 & ->)];
    apply statement_inv in H2 as (Hf2 & _ & [[Hx Hd2]|(e' & He' & Hd2 & Hh)]); try done; cycle 1.
  { right. split_and!; [eauto| |blame_fault]. eapply rep_mquiet, Hrep.
    split_and!; [split; [by eapply frame_trans|cbn; congruence]|done..]. }
  injection Hx as ->. left. rewrite Hd1 in H3, Hd2. fold (file m) in H3, Hd2.
  rewrite <-(slot_taken_rep _ _ _ _ Hrep El) in Hfree.
  destruct (Z.eqb_spec id 0) as [->|Hid].
  - assert (a_vals a !! 0%Z = None) as Hnone.
    { destruct (rep_lookup _ _ 0 Hrep El) as [[_ ?]|(sv & ? & ? & Hin & _)]; [done|].
      apply (ids_given_out _ Htab) in Hin. lia. }
    rewrite Hnone. unfold insert_value in H3, Hd2.
    change (slot_taken_by_other 0 (with_value s (with_value c iv)))
      with (slot_taken_by_other 0 iv) in H3, Hd2.
    rewrite Hfree in H3, Hd2. injection H3 as <- <-. eexists. rewrite Hnext. split; [|done].
    eapply rep_values; [exact Hrep|done|by rewrite Hd2..| |]; rewrite Hd2; cbn.
    + apply table_ok_insert; [done|pose proof (seq_nonneg _ Htab); lia..|].
      apply not_true_iff_false. intros (id' & sv & Hin & _ & Hsl)%slot_taken_iff.
      assert (id' = 0%Z) as -> by by eapply slot_free.
      apply (ids_given_out _ Htab) in Hin. lia.
    + apply map_Forall2_insert_2; [|done]. by apply saved_row_rep.
  - unfold update_value in H3, Hd2.
    destruct (rep_lookup _ _ id Hrep El) as [[H1 H2]|(sv & asv & c' & H1 & H2 & Ht)];
      rewrite H1 in H3, Hd2; rewrite H2.
    + injection H3 as <- <-. exists a. split; [|done]. eapply rep_mquiet, Hrep.
      split_and!; [split; [by eapply frame_trans|done]|done..].
    + change (slot_taken_by_other id (with_value s (with_value c iv)))
        with (slot_taken_by_other id iv) in H3, Hd2.
      rewrite Hfree in H3, Hd2. injection H3 as <- <-. eexists. split; [|done].
      eapply rep_values; [exact Hrep|done|by rewrite Hd2|by rewrite Hd2| |]; rewrite Hd2; cbn.
      * pose proof (ids_given_out _ Htab _ _ H1). by apply table_ok_insert.
      * apply map_Forall2_insert_2; [|done].
        assert (sv_ID asv = sv_ID sv /\ sv_CreatedAt asv = sv_CreatedAt sv /\
                sv_CreatedBy asv = sv_CreatedBy sv /\ sv_ID sv = id) as (-> & -> & -> & ->).
        { destruct Ht as (_ & _ & -> & ?). done. }
        by apply saved_row_rep.
Qed.

Lemma FindByKey_rep m a key client r m' : rep m a -> a_locked a = false ->
  on_provider (Sqlite_FindByKeyAndClientID enc key client) m = (r, m') -> mquiet m m' /\
  ((exists x, r = Ok x /\ (forall id, match x with
       | Some sv => (id =? 0)%Z || negb (sv_ID sv =? id)%Z
       | None => false end = match find_slot key client (file m) with
       | Some sv => (id =? 0)%Z || negb (sv_ID sv =? id)%Z
       | None => false end)) \/
   ((exists e, r = Err e) /\ ~ whealthy (m_world m))).
Proof.
  intros Hrep El Hrun. pose proof (rep_open _ _ Hrep El) as Ho.
  apply on_provider_inv in Hrun as (w' & Hrun & ->); [|done].
  apply read_query_inv in Hrun as [Hq [->|(e & -> & Hh)]]; (split; [by split_and!|]); [|by eauto].
  left. fold (file m). pose proof (find_slot_spec key client (file m)) as Hs.
  destruct (find_slot key client (file m)) as [sv|]; cbn; [|by eauto].
  destruct Hs as (id & Hin & _).
  destruct (rep_lookup _ _ id Hrep El) as [[? _]|(sv' & asv & c & ? & _ & Ht)]; [congruence|].
  simplify_eq. destruct Ht as (-> & _). cbn. eexists. split; [done|]. done.
Qed.

(** The access check [Store] makes for an update. *)
Lemma store_gate_inv id user m a r m' : rep m a -> a_locked a = false ->
  (if (0 <? id)%Z then
     val <- on_provider (Sqlite_GetByID enc id) ;;
     match val with
     | None => fail (EAPI (api_error StatusNotFound "cannot find entry by the provided existingID"))
     | Some val => lift (checkGroupAccess val user)
     end
   else ret tt) m = (r, m') -> mquiet m m' /\
  ((r = Ok tt /\ match a_vals a !! id with
                 | None => (0 <? id)%Z = false
                 | Some old => group_allows old user = true end) \/
   (exists e, r = Err e /\ match a_vals a !! id with
                 | None => (0 <? id)%Z = true /\ answer (@Err vault_ans e) = inr StatusNotFound
                 | Some old => group_allows old user = false /\
                               answer (@Err vault_ans e) = inr StatusForbidden end) \/
   ((exists e, r = Err e) /\ ~ whealthy (m_world m))).
Proof.
  intros Hrep El Hrun. destruct (Z.ltb_spec 0 id) as [Hpos|Hneg].
  - apply bind_inv in Hrun as [(val & m1 & H1 & H2)|(e & H1 & ->)];
      apply (GetByID_rep _ a) in H1 as [Hq Hr]; try done.
    + destruct Hr as [(_ & Ha & [= ->])|[(sv & asv & c & _ & Ha & Ht & [= ->])|[[? [=]] _]]];
        rewrite Ha.
      * injection H2 as <- <-. split; [done|]. right; left. eauto.
      * assert (group_allows (sv_with_value c sv) user = group_allows asv user) as Hg.
        { destruct Ht as (_ & _ & Heq & _). by rewrite Heq. }
        unfold checkGroupAccess, lift in H2. rewrite Hg in H2.
        destruct (group_allows asv user) eqn:Eg; injection H2 as <- <-; (split; [done|]); [by left|].
        right; left. eauto.
    + destruct Hr as [(_ & _ & [=])|[(? & ? & ? & _ & _ & _ & [=])|[_ Hh]]]. eauto 8.
  - injection Hrun as <- <-. split; [apply mquiet_refl|]. left. split; [done|].
    destruct (rep_lookup _ _ id Hrep El) as [[_ ->]|(sv & asv & c & Hin & _)]; [done|].
    destruct Hrep as (Htab & _). apply (ids_given_out _ Htab) in Hin. lia.
Qed.

Lemma validate_answer iv e : Validate iv = Err e -> answer (@Err vault_ans e) = inr StatusBadRequest.
Proof.
  unfold Validate, validate_errors.
  destruct (String.eqb (iv_Key iv) ""), (String.eqb (iv_Value iv) ""), (String.eqb (iv_Type iv) ""),
    (existsb (String.eqb (iv_Type iv)) knownTypes); by intros [= <-].
Qed.

Lemma answer_Ok_id id : answer (Ok (AId id)) = inl (AId id).
Proof. done. Qed.

Lemma on_manager_rnd_inv {A} (p : M RandSrc A) m r m' : on_manager_rnd p m = (r, m') ->
  exists rs, p (w_rnd (m_world m)) = (r, rs) /\
    m' = mkManager (mkWorld (w_db (m_world m)) rs) (m_open m) (m_key m).
Proof.
  unfold on_manager_rnd. intros (w & (rs & H & ->)%zoom_inv & ->)%zoom_inv. eauto.
Qed.

Lemma store_refines now id iv user m a r m' : fills_buffers (w_rnd (m_world m)) -> rep m a ->
  run_op enc (OStore now id iv user) m = (r, m') -> outcome (OStore now id iv user) m a r m'.
Proof.
  intros Hf Hrep (r0 & Hrun & ->)%bind_ret_inv. unfold Store in Hrun.
  apply bind_inv in Hrun as [([] & m1 & H1 & H2)|(e & H1 & ->)];
    apply (checkUnlocked_inv _ a) in H1 as [Hq Hr]; try done;
    pose proof (rep_mquiet _ _ _ Hq Hrep) as Hrep1; destruct Hq as [[Hf1 _] _].
  2: { destruct Hr as [[El (? & [= <-] & Ha)]|[[_ [=]]|[_ [_ Hh]]]]; [|by apply outcome_fault].
       apply outcome_spec; cbn; unfold spec_store; rewrite El; [done|]. by symmetry. }
  destruct Hr as [[_ (? & [=] & _)]|[[El _]|[_ [[? [=]] _]]]].
  destruct (Validate iv) as [[]|e] eqn:Ev; unfold lift, bind at 1 in H2; cycle 1.
  { injection H2 as <- <-. apply validate_answer in Ev as Ha.
    apply outcome_spec; cbn; unfold spec_store; rewrite El, Ev; [done|]. by symmetry. }
  apply bind_inv in H2 as [(x & m2 & H2 & H3)|(e & H2 & ->)];
    apply (FindByKey_rep _ a) in H2 as [Hq2 Hr]; try done;
    pose proof (rep_mquiet _ _ _ Hq2 Hrep1) as Hrep2; destruct Hq2 as [[Hf2 Hd2] _].
  2: { destruct Hr as [(? & [=] & _)|[_ Hh]]. apply outcome_fault; [done|blame_fault]. }
  destruct Hr as [(x' & [= <-] & Hx)|[[? [=]] _]].
  specialize (Hx id). rewrite (find_slot_taken _ _ id iv Hrep1 El) in Hx.
  apply bind_inv in H3 as [([] & m3 & H3 & H4)|(e & H3 & ->)];
    apply (store_gate_inv _ _ _ a) in H3 as [Hq3 Hr]; try done;
    pose proof (rep_mquiet _ _ _ Hq3 Hrep2) as Hrep3; destruct Hq3 as [[Hf3 Hd3] _].
  2: { destruct Hr as [[[=] _]|[(? & [= <-] & Hg)|[_ Hh]]].
       - apply outcome_spec; cbn; unfold spec_store; rewrite El, Ev; cbn [negb is_ok].
         + destruct (a_vals a !! id); destruct Hg as [-> _]; done.
         + destruct (a_vals a !! id); destruct Hg as [-> Ha]; by symmetry.
       - apply outcome_fault; [done|blame_fault]. }
  destruct Hr as [[_ Hg]|[(? & [=] & _)|[[? [=]] _]]]. rewrite Hx in H4.
  destruct (slot_taken_by_other id iv (a_vals a)) eqn:Et.
  { injection H4 as <- <-. apply outcome_spec; cbn; unfold spec_store; rewrite El, Ev, Et; cbn [negb is_ok];
      destruct (a_vals a !! id); by rewrite Hg. }
  unfold gets, bind at 1 in H4. along_frames.
  destruct (rep_unlocked _ _ Hrep3 El) as [Hk _].
  apply bind_inv in H4 as [(c & m4 & H4 & H5)|(e & H4 & ->)];
    apply on_manager_rnd_inv in H4 as (rs & H4 & ->); pose proof (encrypt_draws _ _ _ _ _ H4) as Hdr.
  - apply encrypt_decrypts in H4 as (Hdec & Htxt & _ & _); [|done].
    apply (save_refines _ _ _ _ _ a) in H5; [|..|done|by apply b64_not_encrypted|done];
      [|by eapply rep_mquiet, Hrep3|done|unfold fills_buffers; cbn; by rewrite Hdr].
    destruct H5 as [(a' & Hrep' & -> & Ha')|([e ->] & Hrep' & Hh)].
    + subst a'. rewrite El in Hrep'.
      apply outcome_spec; cbn; unfold spec_store; rewrite El, Ev, Et; cbn [negb is_ok];
        destruct (a_vals a !! id); rewrite Hg; cbn [negb]; try done; by destruct (id =? 0)%Z.
    + apply outcome_fault; [done|]. intros Hw. along_frames. apply Hh. cbn.
      eapply frame_healthy; [|done]. by split.
  - apply outcome_fault; [by eapply rep_mquiet, Hrep3|]. intros Hw. along_frames.
    assert (never_fails (w_rnd (m_world m3))) as Hn by (by eapply proj2; eassumption).
    destruct (encrypt_total (iv_Value iv) (m_key m3) (w_rnd (m_world m3)) Hn Hk) as (? & ? & E).
    congruence.
Qed.

(** ** Passphrases *)

Lemma Verify_encrypted st key p : EncCheckValue st <> "" -> key <> "" ->
  Aes256DecryptByKeyFromBase64String (EncCheckValue st) key = Ok p -> Verify st key = true.
Proof.
  intros H1%String.eqb_neq H2%String.eqb_neq Hd. unfold Verify. by rewrite H1, H2, Hd.
Qed.

Lemma NewStatusFor_draws pass rs r rs' : NewStatusFor pass rs = (r, rs') -> rs_draw rs' = rs_draw rs.
Proof.
  unfold NewStatusFor. intros [(salt & r1 & H1 & H2)|(e & H1 & _)]%bind_inv;
    [|by injection H1 as _ <-].
  assert (rs_draw r1 = rs_draw rs) as <- by by injection H1 as _ <-.
  apply bind_inv in H2 as [(v & r2 & H2 & H3)|(e & H2 & _)]; [|by injection H2 as _ <-].
  assert (rs_draw r2 = rs_draw r1) as <- by by injection H2 as _ <-.
  apply bind_inv in H3 as [(c & r3 & H3 & [= <- <-])|(e & H3 & _)]; by eapply encrypt_draws.
Qed.

(** A fresh status authenticates its passphrase. *)
Lemma NewStatusFor_inv pass rs kdf chk key rs' : fills_buffers rs -> pass <> "" ->
  NewStatusFor pass rs = (Ok (kdf, chk, key), rs') ->
  String.length key = 32 /\ IsEncrypted chk = false /\
  (forall name, DeriveKey (mkDbStatus name chk kdf) pass = Ok (key, false) /\
                Verify (mkDbStatus name chk kdf) key = true).
Proof.
  intros Hf Hpass Hrun. unfold NewStatusFor in Hrun.
  apply bind_Ok_inv in Hrun as (salt & r1 & H1 & Hrun).
  apply rand_Read_fills in H1 as [Hsalt Hd1]; [|done].
  apply bind_Ok_inv in Hrun as (v & r2 & H2 & Hrun).
  apply rand_Read_fills in H2 as [_ Hd2]; [|unfold fills_buffers; by rewrite Hd1].
  apply bind_Ok_inv in Hrun as (c & r3 & Henc & [= <- <- <- _]).
  apply encrypt_decrypts in Henc as (Hdec & Htxt & Hne & _);
    [|unfold fills_buffers; by rewrite Hd2, Hd1].
  set (key0 := DeriveKeyArgon2id _ _ _ _ _) in *.
  assert (Hlen : String.length key0 = 32) by apply IDKey_length.
  split; [done|]. split; [by apply b64_not_encrypted|]. intros name. split; cycle 1.
  { eapply Verify_encrypted; [done| |done]. intros E. by rewrite E in Hlen. }
  unfold DeriveKey. apply String.eqb_neq in Hpass as ->. cbn [KDF].
  assert (Hvalid : valid_kdf (mkKDFParams kdfArgon2id salt argon2Time argon2MemoryKiB argon2Threads)).
  { split; cbn; [by vm_compute..|]. intros ->. done. }
  pose proof (parse_encodeKDF _ Hvalid eq_refl) as Hparse.
  destruct (String.eqb (TrimSpace _) "") eqn:Et.
  - exfalso. by vm_compute in Et.
  - by rewrite Hparse.
Qed.

Lemma NewStatusFor_total pass rs : never_fails rs -> exists x rs', NewStatusFor pass rs = (Ok x, rs').
Proof.
  intros Hn. unfold NewStatusFor, bind at 1, rand_Read.
  destruct (Hn (rs_pos rs) argon2SaltLen) as [salt ->]. unfold bind at 1.
  destruct (Hn (S (rs_pos rs)) 32) as [v Hv]. cbn [rs_draw rs_pos]. rewrite Hv.
  set (r2 := mkRand _ _). set (key := DeriveKeyArgon2id _ _ _ _ _).
  destruct (encrypt_total v key r2) as (c & r3 & E); [done|apply IDKey_length|].
  unfold bind. rewrite E. unfold ret. eauto.
Qed.

(** Whether a status is legacy, and that a key can be derived, does not depend on
    the passphrase. *)
Lemma DeriveKey_any st pass pass' key legacy : DeriveKey st pass = Ok (key, legacy) ->
  pass' <> "" -> exists key', DeriveKey st pass' = Ok (key', legacy).
Proof.
  unfold DeriveKey. intros Hd Hne%String.eqb_neq. rewrite Hne. destruct (String.eqb pass ""); [done|].
  destruct (String.eqb _ ""); [injection Hd as <- <-; eauto|].
  destruct (parseKDF _) as [p|]; cbn in *; [|done]. destruct (negb _); [done|].
  injection Hd as <- <-. eauto.
Qed.

(** The attempt does not open the vault by accident: no other passphrase yields a
    key that authenticates the verifier. *)
Definition no_forgery (m : Manager) (a : AVault) (op : vault_op) : Prop :=
  match op with
  | OUnLock pass => forall st key legacy, read_status (file m) = Ok st ->
      DeriveKey st pass = Ok (key, legacy) -> Verify st key = true -> a_pass a = Some pass
  | _ => True
  end.

Lemma opens_pass f pass key : opens f pass key -> pass <> "".
Proof. intros (st & l & _ & _ & _ & Hk & _) ->. done. Qed.

(** Re-keying keeps every secret and moves to the new key. *)
Lemma rekeyed_rep oldKey newKey (vals vals' avals : gmap Z StoredValue) :
  map_Forall2 (row_rep oldKey) vals avals -> map_Forall2 (rekeyed oldKey newKey) vals vals' ->
  map_Forall2 (row_rep newKey) vals' avals.
Proof.
  intros Hv Hr id. specialize (Hv id). specialize (Hr id).
  destruct (vals !! id) as [sv|]; inversion Hv as [? asv Hrow|]; subst;
    inversion Hr as [? sv' Hrek|]; subst; constructor.
  destruct Hrow as (plain & Hdec & -> & Hid).
  destruct Hrek as (v & (plain' & Hdec' & Hnew) & ->).
  assert (plain' = plain) as ->.
  { destruct Hdec as (c & Hu & Hc), Hdec' as (c' & Hu' & Hc'). congruence. }
  exists plain. split; [done|]. by destruct sv as [[] ? ? ? ? ?].
Qed.

Lemma table_ok_rewritten R f f' : table_ok f -> vf_seq f' = vf_seq f ->
  map_Forall2 (row_rewritten R) (vf_values f) (vf_values f') -> table_ok f'.
Proof.
  intros [Hid Hs Hu] Hq Hr.
  assert (Hback : forall id sv', vf_values f' !! id = Some sv' -> exists sv,
    vf_values f !! id = Some sv /\ forall k c, same_slot k c sv' = same_slot k c sv).
  { intros id sv' Hin. specialize (Hr id). rewrite Hin in Hr.
    inversion Hr as [sv ? (v & _ & ->)|]; subst. by exists sv. }
  split; rewrite ?Hq.
  - intros id sv' (sv & Hin & _)%Hback. by eapply Hid.
  - done.
  - intros id1 id2 sv1 sv2 (sv1' & H1 & Hs1)%Hback (sv2' & H2 & Hs2)%Hback Hslot.
    apply (Hu _ _ _ _ H1 H2). rewrite Hs2 in Hslot.
    assert (same_slot (iv_Key (sv_Input sv1)) (iv_ClientID (sv_Input sv1)) sv1 = true) as Hself
      by by apply same_slot_iff.
    rewrite Hs1 in Hself. by apply same_slot_iff in Hself as [-> ->].
Qed.

Lemma rekeyLegacyVault_inv m a pass key r m' : rep m a -> a_pass a = Some pass ->
  a_locked a = true -> fills_buffers (w_rnd (m_world m)) -> opens (file m) pass key ->
  map_Forall2 (row_rep key) (vf_values (file m)) (a_vals a) ->
  rekeyLegacyVault enc key pass m = (r, m') ->
  (exists key', r = Ok key' /\
     rep (set_key key' m') (mkAVault (a_pass a) false (a_vals a) (a_next a))) \/
  ((exists e, r = Err e) /\ rep m' a /\ ~ whealthy (m_world m)).
Proof.
  intros Hrep Ep El Hf Hop Hv Hrun. unfold rekeyLegacyVault in Hrun.
  pose proof Hrep as (Htab & Hnext & Hl & Hp). rewrite Ep in Hp. destruct Hp as (Ho & _).
  apply bind_inv in Hrun as [([[kdf chk] newKey] & m1 & H1 & H2)|(e & H1 & ->)];
    apply on_manager_rnd_inv in H1 as (rs & H1 & ->); pose proof (NewStatusFor_draws _ _ _ _ H1) as Hdr.
  - apply NewStatusFor_inv in H1 as (Hlen & Hchk & Hnew); [|done|by eapply opens_pass].
    set (w1 := mkWorld (w_db (m_world m)) rs) in *.
    assert (Hfr : frame (m_world m) w1) by by split.
    assert (Hrows : forall id row, vf_values (file m) !! id = Some row ->
      exists plain, decrypts key (iv_Value (sv_Input row)) plain).
    { intros id row Hin. specialize (Hv id). rewrite Hin in Hv.
      inversion Hv as [? asv (plain & Hd & _)|]. by exists plain. }
    assert (Hst : is_Some (vf_status (file m))).
    { destruct Hop as (st & l & _ & Hne & _). by destruct (vf_status (file m)). }
    apply bind_inv in H2 as [([] & m2 & H2 & [= <- <-])|(e & H2 & ->)];
      (apply on_provider_inv in H2 as (w2 & H2 & ->); [|done]);
      (apply ReKey_inv in H2 as [Hf2 Hr]; [|done|done|by eapply frame_fills|done|done]);
      cbn [m_world] in Hr; change (wdata w1) with (file m) in Hr.
    + destruct Hr as [(st & c & _ & Hst1 & Hc & Hst2 & Hq & Hre)|(? & [=] & _)].
      left. exists newKey. split; [done|].
      unfold rep, file, set_key, IsLocked; cbn. rewrite Ep, Hq. split_and!.
      * by eapply table_ok_rewritten.
      * done.
      * symmetry. apply String.eqb_neq. intros ->. done.
      * done.
      * destruct (Hnew (StatusName st)) as [Hder Hver]. exists newKey.
        split_and!; [|by eapply rekeyed_rep|by right].
        exists (mkDbStatus (StatusName st) chk kdf), false.
        unfold read_status. rewrite Hst2. cbn. rewrite Hc. split_and!; try done. cbn.
        destruct Hop as (st' & l & Hrd & _ & Hname & _). unfold read_status in Hrd.
        rewrite Hst1 in Hrd. destruct (unwrap enc (EncCheckValue st)); [|done].
        cbn in Hrd. by injection Hrd as <-.
    + destruct Hr as [(? & ? & [=] & _)|(e' & _ & Hd & Hh)]. right. split_and!; [eauto| |].
      * eapply rep_mquiet, Hrep. split_and!; [|done..]. split; [by eapply frame_trans|done].
      * blame_fault.
  - right. split_and!; [eauto|by eapply rep_mquiet, Hrep|]. intros [_ Hn].
    destruct (NewStatusFor_total pass _ Hn) as (? & ? & E). congruence.
Qed.

Lemma unlock_refines pass m a r m' : fills_buffers (w_rnd (m_world m)) -> rep m a ->
  no_forgery m a (OUnLock pass) ->
  run_op enc (OUnLock pass) m = (r, m') -> outcome (OUnLock pass) m a r m'.
Proof.
  intros Hf Hrep Hforge (r0 & Hrun & ->)%(bind_ret_inv _ (fun _ => ADone)).
  unfold UnLock, gets, bind at 1 in Hrun. pose proof Hrep as (_ & _ & Hl & Hp).
  rewrite <-Hl in Hrun. destruct (a_locked a) eqn:El; cbn [negb] in Hrun; cycle 1.
  { injection Hrun as <- <-. by apply outcome_spec; cbn; rewrite El. }
  destruct (rep_status _ _ Hrep) as (st & Hs & Hi & Hn).
  apply bind_inv in Hrun as [(st' & m1 & H1 & H2)|(e & H1 & ->)];
    apply (read_status_via _ a) in H1 as [Hq Hr]; try done;
    pose proof (rep_mquiet _ _ _ Hq Hrep) as Hrep1; cycle 1.
  { destruct Hr as [[Ho He]|[[_ Hr]|[Hh [msg Hr]]]]; [|congruence|by apply outcome_fault].
    injection He as ->. destruct (a_pass a) eqn:Ep; [destruct Hp; congruence|].
    by apply outcome_spec; cbn; rewrite El, Ep. }
  destruct Hr as [[_ [=]]|[[_ Hr]|[_ [? [=]]]]].
  rewrite Hs in Hr. injection Hr as ->.
  destruct (a_pass a) as [secret|] eqn:Ep; cycle 1.
  { rewrite Hn in H2 by done. injection H2 as <- <-. by apply outcome_spec; cbn; rewrite El, Ep. }
  rewrite bool_decide_eq_true_2 in Hi by done. apply String.eqb_eq in Hi.
  unfold not_yet_initialized in H2. rewrite Hi in H2. cbn in H2.
  destruct Hp as (Ho & key & Hop & Hv & _).
  pose proof Hop as (st2 & legacy & Hs2 & Hne & _ & Hder & Hver).
  rewrite Hs in Hs2. injection Hs2 as <-.
  destruct (String.eqb_spec pass "") as [->|Hpass].
  { injection H2 as <- <-. by apply outcome_spec; cbn; rewrite El, Ep. }
  destruct (DeriveKey_any _ _ _ _ _ Hder Hpass) as [k Hk].
  unfold lift, bind at 1 in H2. rewrite Hk in H2.
  assert (Hspec : spec_op (OUnLock pass) a =
    (if String.eqb pass secret
     then (inl ADone, mkAVault (a_pass a) false (a_vals a) (a_next a))
     else (inr StatusUnauthorized, a))).
  { cbn. rewrite El, Ep. apply String.eqb_neq in Hpass as ->. done. }
  destruct (Verify st k) eqn:Evk; cbn [negb] in H2; cycle 1.
  { injection H2 as <- <-. destruct (String.eqb_spec pass secret) as [->|]; [congruence|].
    by apply outcome_spec; rewrite Hspec. }
  assert (pass = secret) as -> by (specialize (Hforge st k legacy Hs Hk Evk); congruence).
  assert (k = key) as -> by congruence. rewrite String.eqb_refl in Hspec.
  pose proof Hq as ([Hfq Hdq] & Hoq & Hkq).
  assert (file m1 = file m) as Hfile by done.
  apply bind_inv in H2 as [(key' & m2 & H2 & [= <- <-])|(e & H2 & ->)].
  - apply outcome_spec; rewrite Hspec; [|done]. cbn. destruct legacy.
    + eapply rekeyLegacyVault_inv in H2 as [(k' & [= <-] & Hrep2)|[[? [=]] _]];
        [exact Hrep2|exact Hrep1|done|done|by eapply frame_fills|by rewrite Hfile|by rewrite Hfile].
    + injection H2 as <- <-. destruct Hrep1 as (Htab & Hnx & _ & Hp1). rewrite Ep in Hp1.
      destruct Hp1 as (Ho1 & _).
      unfold rep, set_key, file, IsLocked; cbn. fold (file m1). rewrite Ep. split_and!; try done.
      * symmetry. apply String.eqb_neq. intros E. apply opens_length in Hop. by rewrite E in Hop.
      * exists key. rewrite Hfile. split_and!; [done..|by right].
  - destruct legacy; [|done].
    eapply rekeyLegacyVault_inv in H2 as [(k' & [=] & _)|(_ & Hrep2 & Hh)];
      [|exact Hrep1|done|done|by eapply frame_fills|by rewrite Hfile|by rewrite Hfile].
    apply outcome_fault; [done|blame_fault].
Qed.

(** ** Initialisation and server start *)

Lemma factory_Init_inv opened m r m' : fills_buffers (w_rnd (m_world m)) ->
  factory_Init enc opened m = (r, m') ->
  frame (m_world m) (m_world m') /\ m_key m' = m_key m /\
  ((r = Ok tt /\ m_open m' = true /\ same_secrets (file m) (file m')) \/
   (exists e, r = Err e /\ m_open m' = m_open m /\ file m' = file m /\
      (~ whealthy (m_world m) \/ is_ok opened = false))).
Proof.
  intros Hf. unfold factory_Init. destruct (NewSqliteProvider _ _ _) as [[[]|e] w] eqn:E;
    intros [= <- <-]; apply NewSqliteProvider_inv in E as [Hfr Hr]; try done;
    (split; [done|]); (split; [done|]).
  - left. by destruct Hr as [[_ ?]|(? & [=] & _)].
  - right. destruct Hr as [[[=] _]|(e' & [= <-] & Hd & Hh)]. eauto.
Qed.

Lemma same_secrets_empty f f' : same_secrets f f' -> vf_values f = ∅ -> vf_values f' = ∅.
Proof.
  intros (_ & _ & _ & Hv) He. apply map_eq. intros id. specialize (Hv id).
  rewrite He, lookup_empty in *. by inversion Hv.
Qed.

Lemma table_ok_same f f' : table_ok f -> same_secrets f f' -> table_ok f'.
Proof. intros Ht (Hq & _ & _ & Hv). by eapply table_ok_rewritten. Qed.

(** An uninitialised vault, with or without its file. *)
Lemma rep_uninit m a : rep m a -> a_pass a = None ->
  table_ok (file m) /\ a_next a = vf_seq (file m) /\ vf_status (file m) = None /\
  vf_values (file m) = ∅ /\ a_vals a = ∅ /\ m_key m = "".
Proof.
  intros (? & ? & Hl & Hp) Ep. rewrite Ep in Hp. destruct Hp as (? & ? & ? & El).
  split_and!; try done. rewrite El in Hl. by apply String.eqb_eq.
Qed.

Lemma uninit_rep m a : a_pass a = None -> a_locked a = true -> a_vals a = ∅ ->
  table_ok (file m) -> a_next a = vf_seq (file m) -> vf_status (file m) = None ->
  vf_values (file m) = ∅ -> m_key m = "" -> rep m a.
Proof. intros Ep El Hv ? ? ? ? Hk. unfold rep, IsLocked. rewrite Ep, El, Hk. done. Qed.

Lemma Init_store_inv opened pass m a r m' : rep m a -> a_pass a = None ->
  fills_buffers (w_rnd (m_world m)) -> pass <> "" ->
  Init_store enc opened pass m = (r, m') ->
  (exists key, r = Ok key /\ rep (set_key key m') (mkAVault (Some pass) false (a_vals a) (a_next a))) \/
  ((exists e, r = Err e) /\ rep m' a /\ (~ whealthy (m_world m) \/ is_ok opened = false)).
Proof.
  intros Hrep Ep Hf Hpass Hrun.
  destruct (rep_uninit _ _ Hrep Ep) as (Htab & Hnext & Hst & Hvals & Hav & Hk).
  assert (El : a_locked a = true).
  { destruct Hrep as (_ & _ & -> & _). unfold IsLocked. by rewrite Hk. }
  apply bind_inv in Hrun as [([] & m1 & H1 & H2)|(e & H1 & ->)];
    apply factory_Init_inv in H1 as (Hf1 & Hk1 & Hr); try done; cycle 1.
  { destruct Hr as [([=] & _)|(e' & _ & Ho & Hfile & Hh)]. right. split_and!; [eauto| |done].
    by apply uninit_rep; rewrite ?Hfile, ?Hk1. }
  destruct Hr as [(_ & Ho1 & Hsame)|(? & [=] & _)].
  pose proof (table_ok_same _ _ Htab Hsame) as Htab1.
  pose proof (same_secrets_empty _ _ Hsame Hvals) as Hvals1.
  destruct Hsame as (Hq1 & _ & Hst1 & _). apply Hst1 in Hst. rewrite <-Hq1 in Hnext.
  apply bind_inv in H2 as [([[kdf chk] key] & m2 & H2 & H3)|(e & H2 & ->)];
    apply on_manager_rnd_inv in H2 as (rs & H2 & ->); pose proof (NewStatusFor_draws _ _ _ _ H2) as Hdr;
    along_frames.
  - apply NewStatusFor_inv in H2 as (Hlen & Hchk & Hnew); [|done|done].
    set (w1 := mkWorld (w_db (m_world m1)) rs) in *.
    assert (Hfr : frame (m_world m1) w1) by by split. along_frames.
    apply bind_inv in H3 as [([] & m3 & H3 & [= <- <-])|(e & H3 & ->)];
      (apply on_provider_inv in H3 as (w2 & H3 & ->); [|done]);
      (apply SetStatus_inv in H3 as [Hf3 Hr]; [|done|done]);
      cbn [m_world] in Hr; change (wdata w1) with (file m1) in Hr.
    + destruct Hr as [(c & _ & Hc & Hd)|(? & [=] & _)]. left. exists key. split; [done|].
      unfold rep, file, set_key, IsLocked; cbn. rewrite Hd; cbn. split_and!; try done.
      * by destruct Htab1.
      * symmetry. apply String.eqb_neq. intros ->. done.
      * destruct (Hnew DbStatusInit) as [Hder Hver]. exists key. split_and!.
        -- exists (mkDbStatus DbStatusInit chk kdf), false. unfold read_status; cbn.
           by cbn in Hc; rewrite Hc.
        -- rewrite Hvals1, Hav. apply map_Forall2_empty.
        -- by right.
    + destruct Hr as [(? & [=] & _)|(e' & _ & Hd & Hh)]. right. split_and!; [eauto| |left; blame_fault].
      apply uninit_rep; unfold file; cbn; rewrite ?Hd; try done; congruence.
  - right. split_and!; [eauto| |].
    + apply uninit_rep; try done. cbn; congruence.
    + left. intros Hw. along_frames.
      assert (never_fails (w_rnd (m_world m1))) as Hn by (by eapply proj2; eassumption).
      destruct (NewStatusFor_total pass _ Hn) as (? & ? & E). congruence.
Qed.

Lemma init_refines opened pass m a r m' : fills_buffers (w_rnd (m_world m)) -> rep m a ->
  run_op enc (OInit opened pass) m = (r, m') -> outcome (OInit opened pass) m a r m'.
Proof.
  intros Hf Hrep (r0 & Hrun & ->)%(bind_ret_inv _ (fun _ => ADone)).
  unfold Vault_Init, Init_check in Hrun.
  destruct (ValidatePass pass) as [[]|e] eqn:Ev; unfold lift, bind at 2 in Hrun; cycle 1.
  { injection Hrun as <- <-. apply outcome_spec; cbn; rewrite Ev; [done|].
    unfold ValidatePass in Ev. destruct (_ <? _)%Z; [by injection Ev as <-|].
    destruct (_ <? _)%Z; [by injection Ev as <-|done]. }
  assert (pass <> "") as Hpass by by intros ->.
  apply bind_inv in Hrun as [([] & m1 & H1 & H2)|(e & H1 & ->)].
  - apply bind_inv in H1 as [(b & m2 & H1 & H3)|(e & _ & [=])].
    apply (isDatabaseInitialized_inv _ a) in H1 as [Hq Hr]; [|done].
    destruct Hr as [[= ->]|[[? [=]] _]].
    destruct (a_pass a) eqn:Ep; [by rewrite bool_decide_eq_true_2 in H3|].
    rewrite bool_decide_eq_false_2 in H3 by by intros [? [=]]. injection H3 as <-.
    pose proof (rep_mquiet _ _ _ Hq Hrep) as Hrep1. destruct Hq as [[Hf1 Hd1] _]. along_frames.
    apply bind_inv in H2 as [(key & m3 & H2 & [= <- <-])|(e & H2 & ->)];
      apply (Init_store_inv _ _ _ a) in H2; try done.
    + destruct H2 as [(k & [= <-] & Hrep2)|[[? [=]] _]].
      by apply outcome_spec; cbn; rewrite Ev, Ep.
    + destruct H2 as [(k & [=] & _)|(_ & Hrep2 & Hh)]. right. split_and!; [eauto|done|].
      intros [Hw Hop]. along_frames. destruct Hh as [|Hh]; [done|congruence].
  - apply bind_inv in H1 as [(b & m2 & H1 & H3)|(e' & H1 & [= <-])];
      apply (isDatabaseInitialized_inv _ a) in H1 as [Hq Hr]; try done;
      pose proof (rep_mquiet _ _ _ Hq Hrep) as Hrep1.
    + destruct Hr as [[= ->]|[[? [=]] _]]. destruct (a_pass a) eqn:Ep; cycle 1.
      { rewrite bool_decide_eq_false_2 in H3; [done|]. by intros [? [=]]. }
      rewrite bool_decide_eq_true_2 in H3 by done. injection H3 as <- <-.
      by apply outcome_spec; cbn; rewrite Ev, Ep.
    + destruct Hr as [[=]|[_ Hh]]. by apply outcome_fault.
Qed.

(** A restart opens the file again, locked. *)
Lemma startup_inv exist opened m a r m' : fills_buffers (w_rnd (m_world m)) -> rep m a ->
  (a_pass a <> None -> exist = true) -> startup enc exist opened m = (r, m') ->
  (r = Ok tt /\ rep m' (mkAVault (a_pass a) true (a_vals a) (a_next a))) \/
  ((exists e, r = Err e) /\ file m' = file m /\ (~ whealthy (m_world m) \/ is_ok opened = false)).
Proof.
  intros Hf Hrep Hex Hrun. unfold startup, modify, bind in Hrun.
  pose proof Hrep as (Htab & Hnext & Hl & Hp).
  set (m0 := mkManager (m_world m) false "") in *.
  assert (Hr : (r = Ok tt /\ m' = m0 /\ exist = false) \/ factory_Init enc opened m0 = (r, m')).
  { destruct exist; cbn [when] in Hrun; [by right|]. left. by injection Hrun as <- <-. }
  destruct Hr as [(-> & -> & Hexf)|Hr].
  - left. split; [done|]. destruct (a_pass a) eqn:Ep; [by rewrite Hex in Hexf|].
    destruct Hp as (? & ? & ? & ?). by apply uninit_rep.
  - apply factory_Init_inv in Hr as (Hf1 & Hk1 & Hr); [|done].
    destruct Hr as [(-> & Ho & Hsame)|(e & -> & _ & Hfile & Hh)]; [left|right; eauto].
    split; [done|]. change (file m0) with (file m) in Hsame.
    pose proof (table_ok_same _ _ Htab Hsame) as Htab1.
    pose proof Hsame as (Hq1 & Hrd & Hst1 & Hv1).
    unfold rep, IsLocked; cbn. rewrite Hk1, Hq1. split_and!; try done.
    destruct (a_pass a) eqn:Ep.
    + split; [done|]. destruct Hp as (_ & key & Hop & Hv & _). exists key. split_and!; [| |by left].
      * destruct Hop as (st & lg & Hs & Hne & Hname & Hder & Hver). exists st, lg. rewrite Hrd.
        split_and!; try done. by rewrite Hst1.
      * intros id. specialize (Hv id). specialize (Hv1 id).
        destruct (vf_values (file m) !! id) as [sv|]; inversion Hv as [? asv Hrow|]; subst;
          inversion Hv1 as [? sv' Hsm|]; subst; constructor.
        destruct Hrow as (plain & (c & Hu & Hc) & -> & Hid). destruct Hsm as (v & Hu' & ->).
        exists plain. split; [exists c; cbn; by rewrite Hu'|]. by destruct sv as [[] ? ? ? ? ?].
    + destruct Hp as (Hs & Hvals & Hav & _). split_and!; [by apply Hst1| |done|done].
      by eapply same_secrets_empty.
Qed.

(** ** Health along the operations of the manager *)

Definition mframed {A} (p : M Manager A) : Prop :=
  forall m r m', p m = (r, m') -> frame (m_world m) (m_world m').

Lemma mframed_bind {A B} (p : M Manager A) (k : A -> M Manager B) :
  mframed p -> (forall a, mframed (k a)) -> mframed (bind p k).
Proof.
  intros Hp Hk m r m' [(a & m1 & H1 & H2)|(e & H1 & ->)]%bind_inv; [|by eapply Hp].
  eapply frame_trans; [by eapply Hp|by eapply Hk].
Qed.

Lemma mframed_pure {A} (p : M Manager A) : (forall m, m_world (snd (p m)) = m_world m) -> mframed p.
Proof. intros Hp m r m' E. specialize (Hp m). rewrite E in Hp. cbn in Hp. by rewrite Hp. Qed.

Lemma mframed_provider {A} (p : M World A) : framed p -> mframed (on_provider p).
Proof.
  intros Hp m r m'. unfold on_provider. destruct (m_open m); [|by intros [= <- <-]].
  intros (w' & H & ->)%zoom_inv. by eapply Hp.
Qed.

Lemma framed_ReKey oldKey newKey kdf chk :
  framed (Sqlite_ReKey enc (rekey_transform oldKey newKey) kdf chk).
Proof.
  apply framed_bind.
  - apply framed_with_tx. apply framed_bind; [apply framed_statement|intros rows].
    apply framed_bind; [apply framed_for_each, framed_rekey_step|intros _].
    apply framed_bind; [apply framed_wrap|intros c].
    apply framed_bind; [apply framed_statement|intros []]; auto with proxi.
  - intros _. apply framed_bind; [apply framed_try, framed_statement|intros _]. apply framed_ret.
Qed.

Lemma mframed_UnLock pass : mframed (UnLock enc pass).
Proof.
  unfold UnLock. apply mframed_bind; [by apply mframed_pure|intros locked].
  destruct (negb locked); [by apply mframed_pure|].
  apply mframed_bind; [apply mframed_provider; intros w r w' [[Hf _] _]%GetStatus_inv; done|intros st].
  destruct (not_yet_initialized st); [by apply mframed_pure|].
  apply mframed_bind; [by apply mframed_pure|intros [key legacy]].
  destruct (negb (Verify st key)); [by apply mframed_pure|].
  apply mframed_bind; [|intros key'; by apply mframed_pure].
  destruct legacy; [|by apply mframed_pure]. unfold rekeyLegacyVault.
  apply mframed_bind.
  - intros m r m' (rs & H%NewStatusFor_draws & ->)%on_manager_rnd_inv. by split.
  - intros [[kdf chk] newKey].
    apply mframed_bind; [apply mframed_provider, framed_ReKey|intros _; by apply mframed_pure].
Qed.

Lemma startup_frame opened m r m1 : fills_buffers (w_rnd (m_world m)) ->
  startup enc true opened m = (r, m1) -> frame (m_world m) (m_world m1).
Proof.
  intros Hf Hrun. unfold startup, modify, bind in Hrun. cbn [when] in Hrun.
  by apply factory_Init_inv in Hrun as [Hfr _].
Qed.

(** Unlocking a locked vault with its passphrase: what is there is what was
    stored, and it works unless a fault hits it. *)
Lemma unlock_right pass m a r m' : fills_buffers (w_rnd (m_world m)) -> rep m a ->
  a_pass a = Some pass -> a_locked a = true -> UnLock enc pass m = (r, m') ->
  (r = Ok tt /\ rep m' (mkAVault (Some pass) false (a_vals a) (a_next a))) \/
  ((exists e, r = Err e) /\ ~ whealthy (m_world m)).
Proof.
  intros Hf Hrep Ep El Hrun.
  assert (Hne : pass <> "").
  { destruct Hrep as (_ & _ & _ & Hp). rewrite Ep in Hp. destruct Hp as (_ & key & Hop & _).
    by eapply opens_pass. }
  assert (Hrun' : run_op enc (OUnLock pass) m = (match r with Ok _ => Ok ADone | Err e => Err e end, m')).
  { cbn. unfold bind, ret. rewrite Hrun. by destruct r. }
  apply (unlock_refines _ _ a) in Hrun'; [|done..|by intros st key lg; rewrite Ep].
  destruct Hrun' as [(a' & Hs & Hrep')|([e He] & _ & Hh)].
  - left. cbn in Hs. rewrite El, Ep, (proj2 (String.eqb_neq _ _) Hne), String.eqb_refl in Hs. cbn in Hs.
    destruct r as [[]|[|?|[]]]; cbn in Hs; try done. by injection Hs as <-.
  - right. destruct r; [done|]. split; [eauto|]. intros Hw. by apply Hh.
Qed.

(** The caller may read the secret: it asks for no group, or for one of theirs. *)
Definition may_read (sv : StoredValue) (user : VaultUser) : Prop :=
  iv_RequiredGroup (sv_Input sv) = "" \/ iv_RequiredGroup (sv_Input sv) ∈ vu_Groups user.

Lemma group_allows_spec sv user : group_allows sv user = true <-> may_read sv user.
Proof.
  unfold group_allows, may_read. rewrite orb_true_iff, String.eqb_eq, existsb_exists.
  setoid_rewrite String.eqb_eq. split.
  - intros [?|(x & Hin & ->)]; [by left|]. right. by apply list_elem_of_In.
  - intros [?|Hin]; [by left|]. right. eexists. split; [by apply list_elem_of_In|done].
Qed.

(** The answer to a read of [vals]. *)
Definition read_answer (vals : gmap Z StoredValue) (id : Z) (user : VaultUser)
    (r : result (option StoredValue)) : Prop :=
  match vals !! id with
  | None => r = Ok None
  | Some sv => (may_read sv user -> r = Ok (Some sv)) /\
               (~ may_read sv user -> answer r = inr StatusForbidden)
  end.

Lemma get_right id user m a r m' : rep m a -> a_locked a = false ->
  GetOne enc id user m = (r, m') ->
  read_answer (a_vals a) id user r \/ ((exists e, r = Err e) /\ ~ whealthy (m_world m)).
Proof.
  intros Hrep El Hrun. unfold read_answer.
  assert (Hrun' : run_op enc (OGetOne id user) m =
    (match r with Ok v => Ok (AValue v) | Err e => Err e end, m')).
  { cbn. unfold bind, ret. rewrite Hrun. by destruct r. }
  apply (get_refines id user m a) in Hrun' as [(a' & Hs & _)|([e He] & _ & Hh)]; [| |done].
  - left. cbn in Hs. rewrite El in Hs. destruct (a_vals a !! id) as [sv|].
    + pose proof (group_allows_spec sv user) as Hg. destruct (group_allows sv user).
      * split; [intros _|intros []; by apply Hg].
        destruct r as [v|[|?|[]]]; cbn in Hs; try done. by injection Hs as <-.
      * split; [intros H%Hg; done|intros _].
        destruct r as [v|[|?|[]]]; cbn in Hs |- *; congruence.
    + destruct r as [v|[|?|[]]]; cbn in Hs; try done. by injection Hs as <-.
  - right. destruct r; [done|]. split; [eauto|]. intros Hw. by apply Hh.
Qed.

(** ** Two initialisations at a time *)

(** What the second half of [Init] leaves in the file. *)
Lemma Init_store_status opened pass m key m' : fills_buffers (w_rnd (m_world m)) -> pass <> "" ->
  Init_store enc opened pass m = (Ok key, m') ->
  fills_buffers (w_rnd (m_world m')) /\ m_open m' = true /\ String.length key = 32 /\
  (vf_values (file m) = ∅ -> vf_values (file m') = ∅) /\
  exists st, read_status (file m') = Ok st /\ DeriveKey st pass = Ok (key, false).
Proof.
  intros Hf Hpass Hrun.
  apply bind_Ok_inv in Hrun as ([] & m1 & (Hf1 & _ & Hr)%factory_Init_inv & Hrun); [|done].
  destruct Hr as [(_ & Ho1 & Hsame)|(? & [=] & _)].
  apply bind_Ok_inv in Hrun as ([[kdf chk] k] & m2 & H2 & Hrun).
  apply on_manager_rnd_inv in H2 as (rs & H2 & ->). pose proof (NewStatusFor_draws _ _ _ _ H2) as Hdr.
  along_frames. apply NewStatusFor_inv in H2 as (Hlen & Hchk & Hnew); [|done|done].
  set (w1 := mkWorld (w_db (m_world m1)) rs) in *.
  assert (Hfr : frame (m_world m1) w1) by by split. along_frames.
  apply bind_Ok_inv in Hrun as ([] & m3 & H3 & [= <- <-]).
  apply on_provider_inv in H3 as (w2 & H3 & ->); [|done].
  apply SetStatus_inv in H3 as [Hf3 [(c & _ & Hc & Hd)|(? & [=] & _)]]; [|done|done].
  along_frames. split_and!; try done.
  - intros He. unfold file; cbn. rewrite Hd; cbn. by eapply same_secrets_empty.
  - exists (mkDbStatus DbStatusInit chk kdf). unfold read_status, file; cbn. rewrite Hd; cbn.
    cbn in Hc. rewrite Hc. split; [done|apply Hnew].
Qed.

Lemma encrypted_form p key r c r' : fills_buffers r ->
  Aes256EncryptByKeyToBase64String p key r = (Ok c, r') ->
  exists nonce, String.length nonce = 12 /\ c = EncodeToString (nonce +:+ gcm_Seal key nonce p).
Proof.
  intros Hf Hrun. apply bind_Ok_inv in Hrun as (b & r1 & Henc & [= <- _]).
  unfold Aes256Encrypt in Henc. destruct (negb _); [done|].
  apply bind_Ok_inv in Henc as (nonce & r2 & Hr & [= <- _]).
  apply rand_Read_fills in Hr as [Hn _]; [|done]. by exists nonce.
Qed.

Lemma wrong_key_fails key key' nonce p : String.length key' = 32 -> String.length nonce = 12 ->
  gcm_Open key' nonce (gcm_Seal key nonce p) = None ->
  exists e, Aes256DecryptByKeyFromBase64String (EncodeToString (nonce +:+ gcm_Seal key nonce p)) key'
    = Err e.
Proof.
  intros Hk Hn Ho. unfold Aes256DecryptByKeyFromBase64String. rewrite Decode_Encode. cbn [result_bind].
  rewrite AesDecrypt_open by eauto using valid_key_32. rewrite Ho. eauto.
Qed.

Lemma isDatabaseInitialized_quiet m m' : m_open m = true ->
  (isInit <- isDatabaseInitialized enc ;;
   if (isInit : bool) then ret tt else fail (conflict "vault is not initialized")) m = (Ok tt, m') ->
  mquiet m m'.
Proof.
  intros Ho (b & m2 & H1 & H2)%bind_Ok_inv.
  assert (m' = m2) as -> by (destruct b; [by injection H2 as <-|done]).
  apply bind_Ok_inv in H1 as (st & m3 & (r & _ & H3)%try_inv & H1).
  assert (m2 = m3) as ->.
  { destruct st as [|e]; [by injection H1|]. destruct (is_not_initialised e); [by injection H1|done]. }
  apply on_provider_inv in H3 as (w & [Hq _]%GetStatus_inv & ->); [|done]. by split_and!.
Qed.

(** A new value goes into the file sealed under the key in memory. *)
Lemma store_new_inv now iv user m id m' : fills_buffers (w_rnd (m_world m)) -> m_open m = true ->
  Store enc now 0 iv user m = (Ok id, m') ->
  m_open m' = true /\ m_key m' = m_key m /\ vf_status (file m') = vf_status (file m) /\
  fills_buffers (w_rnd (m_world m')) /\
  exists sv nonce, vf_values (file m') !! id = Some sv /\ String.length nonce = 12 /\
    unwrap enc (iv_Value (sv_Input sv)) =
      Ok (EncodeToString (nonce +:+ gcm_Seal (m_key m) nonce (iv_Value iv))).
Proof.
  intros Hf Ho Hrun. unfold Store in Hrun.
  apply bind_Ok_inv in Hrun as ([] & m1 & H1 & Hrun).
  assert (mquiet m m1) as Hq1.
  { unfold checkUnlockedAndInitialized, gets, bind at 1 in H1. destruct (IsLocked m); [done|].
    by eapply isDatabaseInitialized_quiet. }
  destruct (Validate iv) as [[]|]; [|done]. unfold lift, bind at 1 in Hrun.
  apply bind_Ok_inv in Hrun as (x & m2 & H2 & Hrun).
  destruct Hq1 as ([Hf1 Hd1] & Ho1 & Hk1). rewrite Ho in Ho1.
  apply on_provider_inv in H2 as (w2 & [[Hf2 Hd2] _]%read_query_inv & ->); [|done].
  unfold bind at 1, ret at 1 in Hrun. cbn [Z.ltb Z.compare] in Hrun.
  destruct x as [sv|]; cbn [Z.eqb orb] in Hrun; [done|].
  unfold gets, bind at 1 in Hrun. along_frames.
  apply bind_Ok_inv in Hrun as (c & m3 & H3 & Hrun).
  apply on_manager_rnd_inv in H3 as (rs & H3 & ->). pose proof (encrypt_draws _ _ _ _ _ H3) as Hdr.
  pose proof H3 as (nonce & Hn & ->)%encrypted_form; [|done].
  apply encrypt_decrypts in H3 as (_ & Htxt & _ & _); [|done].
  apply on_provider_inv in Hrun as (w4 & Hrun & ->); [|done]. unfold Sqlite_Save in Hrun.
  cbn [m_world m_key Z.eqb] in Hrun.
  set (w3 := mkWorld (w_db w2) rs) in *.
  assert (Hfr : frame w2 w3) by by split. along_frames.
  apply bind_Ok_inv in Hrun as (s & w5 & H5 & Hrun).
  apply wrap_inv in H5 as [[Hf5 Hd5] Hr]; [|done|by apply b64_not_encrypted].
  destruct Hr as [(? & [= <-] & Hs)|(? & [=] & _)].
  apply bind_Ok_inv in Hrun as (y & w6 & H6 & Hrun).
  apply statement_inv in H6 as (Hf6 & _ & [[[= ->] Hd6]|(? & [=] & _)]). along_frames.
  unfold insert_value in Hrun, Hd6. destruct (slot_taken_by_other _ _ _); [done|].
  injection Hrun as <- <-. unfold file; cbn. rewrite Hd6; cbn [fst snd vf_values vf_status].
  assert (wdata w5 = file m) as Hd by (rewrite Hd5; exact (eq_trans Hd2 Hd1)).
  split_and!; [done|done|by rewrite Hd|done|].
  eexists _, nonce. rewrite lookup_insert_eq. split_and!; [done..|]. cbn. by rewrite Hs, Hk1.
Qed.

Lemma GetStatus_Ok_inv m st m' : m_open m = true ->
  on_provider (Sqlite_GetStatus enc) m = (Ok st, m') ->
  read_status (file m) = Ok st /\ mquiet m m'.
Proof.
  intros Ho Hrun. apply on_provider_inv in Hrun as (w' & [Hq Hr]%GetStatus_inv & ->); [|done].
  destruct Hr as [->|(? & [=] & _)]. split; [done|]. by split_and!.
Qed.

Lemma Lock_Ok_inv m m' : m_open m = true -> Lock enc m = (Ok tt, m') ->
  file m' = file m /\ m_open m' = true.
Proof.
  intros Ho Hrun. unfold Lock, gets, bind at 1 in Hrun. destruct (IsLocked m); [done|].
  apply bind_Ok_inv in Hrun as (st & m1 & [_ ([_ Hd] & Ho1 & _)]%GetStatus_Ok_inv & Hrun); [|done].
  destruct (not_yet_initialized st); [done|]. injection Hrun as <-. split; [done|]. cbn. congruence.
Qed.

Lemma UnLock_Ok_inv m m' st pass key : m_open m = true -> read_status (file m) = Ok st ->
  DeriveKey st pass = Ok (key, false) -> UnLock enc pass m = (Ok tt, m') ->
  file m' = file m /\ m_open m' = true /\ m_key m' = key.
Proof.
  intros Ho Hst Hk Hrun. unfold UnLock, gets, bind at 1 in Hrun.
  destruct (negb (IsLocked m)); [done|].
  apply bind_Ok_inv in Hrun as (st' & m1 & [Hst' ([_ Hd] & Ho1 & _)]%GetStatus_Ok_inv & Hrun); [|done].
  assert (st' = st) as -> by congruence. destruct (not_yet_initialized st); [done|].
  unfold lift, bind at 1 in Hrun. rewrite Hk in Hrun. destruct (negb (Verify st key)); [done|].
  injection Hrun as <-. split_and!; [done| |done]. cbn. congruence.
Qed.

End Representation.
End Provider.

(** ** Properties *)

(** C11: The vault does what it promises.  Whatever the database driver and the
    random source do, every operation either answers as the abstract vault does
    -- the secret in the clear to members of its group and only while the vault
    is unlocked, the right status code for every refusal -- and moves to a file
    that holds exactly the abstract vault's secrets, or fails because of a
    fault and leaves passphrase, lock and secrets as they were.  An unlock is
    taken not to be a forgery: no other passphrase than the right one derives a
    key that the stored verifier accepts ([no_forgery]). *)
Theorem vault_implements_spec `{!AesGcm, !AesGcmSpec, !KDFs, !KDFsSpec} enc op m a r m' :
  envelope_key_ok enc -> fills_buffers (w_rnd (m_world m)) ->
  rep enc m a -> no_forgery enc m a op -> run_op enc op m = (r, m') ->
  (exists a', spec_op op a = (answer r, a') /\ rep enc m' a') \/
  ((exists e, r = Err e) /\ rep enc m' a /\ ~ healthy op m).
Proof.
  intros Hdek Hf Hrep Hforge Hrun. change (outcome enc op m a r m'). destruct op.
  - by eapply init_refines.
  - by eapply unlock_refines.
  - by eapply lock_refines.
  - by eapply status_refines.
  - by eapply get_refines.
  - by eapply store_refines.
  - by eapply delete_refines.
Qed.

(** C12: Secrets survive a restart of the server.  Unless a fault of the
    database or the random source hits it, a restart comes up with the vault
    locked, the vault unlocks with its passphrase, and every secret is then read
    back as it was stored by everybody of its group and refused to everybody
    else, also when the restart wrapped rows written before the server had a
    key, or the unlock re-encrypted a vault of the old format.  With faults, a
    restart that fails leaves the file as it was, and after one that comes up
    the unlock and every read either do the same or fail. *)
Theorem secrets_survive_restart `{!AesGcm, !AesGcmSpec, !KDFs, !KDFsSpec}
    enc opened m a pass r m1 :
  envelope_key_ok enc -> fills_buffers (w_rnd (m_world m)) ->
  rep enc m a -> a_pass a = Some pass -> startup enc true opened m = (r, m1) ->
  (is_ok opened = true -> whealthy (m_world m) ->
     r = Ok tt /\ IsLocked m1 = true /\ exists m2, UnLock enc pass m1 = (Ok tt, m2) /\
       forall id user, read_answer (a_vals a) id user (fst (GetOne enc id user m2))) /\
  (is_ok r = false -> file m1 = file m) /\
  (r = Ok tt -> IsLocked m1 = true /\ forall m2, UnLock enc pass m1 = (Ok tt, m2) ->
     forall id user, read_answer (a_vals a) id user (fst (GetOne enc id user m2)) \/
       is_ok (fst (GetOne enc id user m2)) = false).
Proof.
  intros Hdek Hf Hrep Ep Hrun. pose proof (startup_frame enc Hdek _ _ _ _ Hf Hrun) as Hfr.
  pose proof (frame_fills _ _ Hfr Hf) as Hf1.
  apply (startup_inv enc Hdek true opened m a) in Hrun as [[-> Hrep1]|([e ->] & Hfile & Hh)]; [| |done..].
  - assert (Hl : IsLocked m1 = true) by (by destruct Hrep1 as (_ & _ & Hl & _)).
    assert (Hun : forall r2 m2, UnLock enc pass m1 = (r2, m2) ->
      (r2 = Ok tt /\ rep enc m2 (mkAVault (Some pass) false (a_vals a) (a_next a))) \/
      ((exists e, r2 = Err e) /\ ~ whealthy (m_world m1))).
    { intros r2 m2 Hu.
      apply (unlock_right enc Hdek pass m1 (mkAVault (a_pass a) true (a_vals a) (a_next a))) in Hu;
        [exact Hu|done|exact Hrep1|exact Ep|done]. }
    split_and!; [|done|].
    + intros _ Hw. split_and!; [done..|]. destruct (UnLock enc pass m1) as [r2 m2] eqn:E.
      pose proof (frame_healthy _ _ Hfr Hw) as Hw1.
      pose proof (frame_healthy _ _ (mframed_UnLock enc pass _ _ _ E) Hw1) as Hw2.
      destruct (Hun _ _ eq_refl) as [[-> Hrep2]|[_ Hh]]; [|done].
      exists m2. split; [done|]. intros id user. destruct (GetOne enc id user m2) as [r3 m3] eqn:Eg.
      by apply (get_right enc id user _ _ _ _ Hrep2) in Eg as [?|[_ Hh]].
    + intros _. split; [done|]. intros m2 E id user.
      destruct (Hun _ _ E) as [[_ Hrep2]|[[? [=]] _]].
      destruct (GetOne enc id user m2) as [r3 m3] eqn:Eg.
      apply (get_right enc id user _ _ _ _ Hrep2) in Eg as [?|[[e ->] _]]; [by left|by right|done].
  - split_and!; [|done|done]. intros Hop Hw. destruct Hh as [|Hh]; [done|congruence].
Qed.

(** C37: Two concurrent initialisations can lose secrets.  [Init] checks,
    writes the status and publishes the key in separate steps; when two requests
    with the same passphrase both pass the check, the status in the file belongs
    to the second write while the key in memory may be the first one's.  Secrets
    stored from then on cannot be read any more once the vault was locked. *)
Theorem concurrent_init_loses_secrets `{!AesGcm, !AesGcmSpec, !KDFs, !KDFsSpec}
    enc opened m pass keyA keyB mA mB m1 m2 m3 now iv user id :
  envelope_key_ok enc -> fills_buffers (w_rnd (m_world m)) ->
  Init_check enc pass m = (Ok tt, m) ->
  Init_store enc opened pass m = (Ok keyA, mA) ->
  Init_store enc opened pass mA = (Ok keyB, mB) ->
  (forall nonce, gcm_Open keyB nonce (gcm_Seal keyA nonce (iv_Value iv)) = None) ->
  Store enc now 0 iv user (set_key keyA (set_key keyB mB)) = (Ok id, m1) ->
  Lock enc m1 = (Ok tt, m2) -> UnLock enc pass m2 = (Ok tt, m3) ->
  forall reader, exists e, fst (GetOne enc id reader m3) = Err e.
Proof.
  intros Hdek Hf Hck HA HB Hwrong Hstore Hlock Hun reader.
  assert (Hpass : pass <> "").
  { intros ->. done. }
  destruct (Init_store_status enc Hdek _ _ _ _ _ Hf Hpass HA) as (HfA & _).
  destruct (Init_store_status enc Hdek _ _ _ _ _ HfA Hpass HB)
    as (HfB & HoB & HlenB & _ & st & Hst & Hder).
  apply store_new_inv in Hstore as (Ho1 & _ & Hs1 & _ & sv & nonce & Hin & Hn & Hu); [|done..].
  assert (Hst1 : read_status enc (file m1) = Ok st) by (unfold read_status in *; by rewrite Hs1).
  apply Lock_Ok_inv in Hlock as [Hf2 Ho2]; [|done]. rewrite <-Hf2 in Hst1.
  apply (UnLock_Ok_inv _ _ _ st _ keyB) in Hun as (Hf3 & Ho3 & Hk3); [|done..].
  destruct (GetOne enc id reader m3) as [[v|e] m4] eqn:E; [exfalso|by eexists].
  unfold GetOne in E. apply bind_Ok_inv in E as ([] & m5 & H5 & E).
  assert (mquiet m3 m5) as Hq5.
  { unfold checkUnlockedAndInitialized, gets, bind at 1 in H5. destruct (IsLocked m3); [done|].
    by eapply isDatabaseInitialized_quiet. }
  destruct Hq5 as ([_ Hd5] & Ho5 & Hk5). rewrite Ho3 in Ho5.
  apply bind_Ok_inv in E as (x & m6 & H6 & E).
  apply on_provider_inv in H6 as (w6 & [_ Hr]%read_query_inv & ->); [|done].
  destruct Hr as [Hr|(? & [=] & _)]. unfold file in Hf3, Hf2, Hin.
  rewrite Hd5, Hf3, Hf2, Hin in Hr. cbn in Hr. rewrite Hu in Hr. cbn in Hr. injection Hr as ->.
  unfold lift, gets, bind in E. destruct (checkGroupAccess _ _); [|done]. cbn in E.
  rewrite Hk5, Hk3 in E.
  destruct (wrong_key_fails keyA keyB nonce (iv_Value iv) HlenB Hn (Hwrong nonce)) as [e He].
  rewrite He in E. done.
Qed.

(** ** Concrete runs *)

Definition toy_kdfs : KDFs := {|
  argon2_IDKey password salt t m p n :=
    String.substring 0 n ((salt +:+ password) +:+ repeat_byte n "x");
  sha256_Sum256 password := String.substring 0 32 (password +:+ repeat_byte 32 "y")
|}.

Lemma repeat_byte_length n c : String.length (repeat_byte n c) = n.
Proof. induction n as [|n IH]; cbn; [done|]. by rewrite IH. Qed.

Lemma toy_kdfs_spec : @KDFsSpec toy_kdfs.
Proof.
  split; intros; apply slength_substring_0; rewrite !slength_app, repeat_byte_length; lia.
Qed.

Section Runs.
#[local] Existing Instances toy_gcm toy_gcm_spec toy_kdfs toy_kdfs_spec.

Definition example_pass : string := "correct horse".
Definition empty_vault : Manager :=
  mkManager (mkWorld (mkDB (mkVaultFile None ∅ 0) []) counting_source) false "".
Definition empty_avault : AVault := mkAVault None true ∅ 0.
Definition example_secret : InputValue := mkInputValue "client-1" "ops" "root" "hunter2" SecretType.
Definition ops_member : VaultUser := mkVaultUser "alice" ["ops"].

Definition opened_vault : Manager :=
  snd (run_op example_envelope (OInit (Ok tt) example_pass) empty_vault).
Definition full_vault : Manager :=
  snd (run_op example_envelope (OStore 0 0 example_secret ops_member) opened_vault).
Definition full_avault : AVault :=
  mkAVault (Some example_pass) false
    (<[1%Z := mkStoredValue example_secret 1 0 0 "alice" "alice"]> ∅) 1.

Lemma empty_vault_rep : rep example_envelope empty_vault empty_avault.
Proof.
  split; [|by split_and!]. split; cbn; [|lia|].
  - intros id sv Hin. by rewrite lookup_empty in Hin.
  - intros id id' sv sv' Hin. by rewrite lookup_empty in Hin.
Qed.

Lemma example_key_ok : envelope_key_ok example_envelope.
Proof. by right. Qed.

Lemma opened_vault_fills : fills_buffers (w_rnd (m_world opened_vault)).
Proof.
  intros i n s. replace (rs_draw (w_rnd (m_world opened_vault))) with (rs_draw counting_source)
    by by vm_compute. apply counting_source_fills.
Qed.

Lemma vault_implements_spec_witness :
  rep example_envelope opened_vault (mkAVault (Some example_pass) false ∅ 0) /\
  rep example_envelope full_vault full_avault.
Proof.
  assert (H1 : rep example_envelope opened_vault (mkAVault (Some example_pass) false ∅ 0)).
  { edestruct (vault_implements_spec example_envelope (OInit (Ok tt) example_pass) empty_vault
      empty_avault (Ok ADone) opened_vault example_key_ok counting_source_fills empty_vault_rep I)
      as [(a' & Hs & Hrep)|([? [=]] & _)]; [by vm_compute|].
    cbn in Hs. injection Hs as <-. done. }
  split; [done|].
  edestruct (vault_implements_spec example_envelope (OStore 0 0 example_secret ops_member) opened_vault
      _ (Ok (AId 1)) full_vault example_key_ok opened_vault_fills H1 I)
      as [(a' & Hs & Hrep)|([? [=]] & _)]; [by vm_compute|].
  cbn in Hs. injection Hs as <-. done.
Defined.

Lemma full_vault_rep : rep example_envelope full_vault full_avault.
Proof.
  assert (H1 : rep example_envelope opened_vault (mkAVault (Some example_pass) false ∅ 0)).
  { destruct (init_refines example_envelope example_key_ok (Ok tt) example_pass empty_vault
      empty_avault (Ok ADone) opened_vault counting_source_fills empty_vault_rep)
      as [(a' & Hs & Hrep)|([? [=]] & _)]; [by vm_compute|].
    cbn in Hs. by injection Hs as <-. }
  destruct (store_refines example_envelope example_key_ok 0 0 example_secret ops_member opened_vault
    _ (Ok (AId 1)) full_vault opened_vault_fills H1)
    as [(a' & Hs & Hrep)|([? [=]] & _)]; [by vm_compute|].
  cbn in Hs. by injection Hs as <-.
Qed.

Definition restarted : Manager := snd (startup example_envelope true (Ok tt) full_vault).
Definition reopened : Manager := snd (UnLock example_envelope example_pass restarted).

Lemma counting_source_never_fails : never_fails counting_source.
Proof. intros i n. eexists. reflexivity. Qed.

Lemma secrets_survive_restart_witness :
  exists sv, a_vals full_avault !! 1%Z = Some sv /\ iv_Value (sv_Input sv) = "hunter2" /\
    fst (GetOne example_envelope 1 ops_member reopened) = Ok (Some sv).
Proof.
  assert (Hsrc : rs_draw (w_rnd (m_world full_vault)) = rs_draw counting_source) by by vm_compute.
  destruct (secrets_survive_restart example_envelope (Ok tt) full_vault full_avault
    example_pass (fst (startup example_envelope true (Ok tt) full_vault)) restarted
    example_key_ok) as [H _].
  - intros i n s. rewrite Hsrc. apply counting_source_fills.
  - exact full_vault_rep.
  - reflexivity.
  - by vm_compute.
  - destruct H as (_ & _ & m2 & Hun & Hget); [done| |].
    + split; [by vm_compute|]. unfold never_fails. rewrite Hsrc. apply counting_source_never_fails.
    + assert (m2 = reopened) as -> by (unfold reopened; by rewrite Hun).
      assert (E : a_vals full_avault !! 1%Z =
        Some (mkStoredValue example_secret 1 0 0 "alice" "alice")) by reflexivity.
      specialize (Hget 1%Z ops_member). unfold read_answer in Hget. rewrite E in Hget.
      eexists. split; [exact E|]. split; [reflexivity|].
      apply (proj1 Hget). right. left.
Defined.

(** Both requests past the check: the second one writes last and publishes first. *)
Definition run_A : result string * Manager :=
  Init_store example_envelope (Ok tt) example_pass empty_vault.
Definition run_B : result string * Manager :=
  Init_store example_envelope (Ok tt) example_pass (snd run_A).
Definition key_of (r : result string * Manager) : string :=
  match fst r with Ok k => k | Err _ => "" end.
Definition mixed_vault : Manager := set_key (key_of run_A) (set_key (key_of run_B) (snd run_B)).
Definition mixed_full : Manager := snd (Store example_envelope 0 0 example_secret ops_member mixed_vault).
Definition mixed_locked : Manager := snd (Lock example_envelope mixed_full).
Definition mixed_reopened : Manager := snd (UnLock example_envelope example_pass mixed_locked).

Lemma concurrent_init_loses_secrets_witness :
  fst (Store example_envelope 0 0 example_secret ops_member mixed_vault) = Ok 1%Z /\
  fst (UnLock example_envelope example_pass mixed_locked) = Ok tt /\
  exists e, fst (GetOne example_envelope 1 ops_member mixed_reopened) = Err e.
Proof.
  split; [by vm_compute|]. split; [by vm_compute|].
  refine (concurrent_init_loses_secrets example_envelope (Ok tt) empty_vault example_pass
    (key_of run_A) (key_of run_B) (snd run_A) (snd run_B) mixed_full mixed_locked mixed_reopened
    0 example_secret ops_member 1%Z example_key_ok counting_source_fills _ _ _ _ _ _ _ ops_member);
    by vm_compute.
Defined.

End Runs.
